(* ===== verification/_CoqProject ===== *)
-Q . S2P
Prelude.v
HintManager.v
Interaction.v
Doubles.v
Session.v
Looper.v
SessionManager.v
StaleTimer.v
SessionThreads.v
SessionRaces.v
PowerHal.v
PowerService.v
PowerHints.v
Texts.v
SessionTrace.v
Sysfs.v
VibratorHal.v
LightsHal.v
UsbHal.v
Bytes.v
BootImage.v
DtbhImage.v
ImageTools.v
Fingerprint.v
SensorsHal.v
SensorsQueues.v
MemtrackHal.v
Secril.v
Arena.v
Demangle.v
Shims.v
