(* ===== verification/Prelude.v ===== *)
(** * Verification of the Exynos 9810 device tree's own programs

    The repository is an Android device tree.  Its programs are hardware
    abstraction services (HALs) written against AIDL and HIDL interfaces, shims around
    vendor libraries, and host tools that build boot and device-tree images.  They
    interact in two places: the power HAL is six classes that share state and run on
    several threads, and the image tools work on each other's files.  The development
    has one file per component, over common files for machine integers, floating
    point, memory and sysfs.

    ** Files and sources

    Prelude (this file): integers of a given width with their conversions and
    overflow, binder statuses, tactics and hint databases.

    The power HAL, src/aidl/power-libperfmgr:
    - HintManager: the interface of libperfmgr's HintManager, a class with laws and
      two instances (a call log, a set of requested hints);
    - Interaction: InteractionHandler.{h,cpp}, as labelled atomic steps of the binder
      threads and of the display-idle thread;
    - Doubles: binary64 and binary32 arithmetic on the Standard Library's SpecFloat;
    - Session: PowerHintSession.{h,cpp}, the PID controller included;
    - Looper: the interface of libutils' Looper, a class with laws and an instance;
    - SessionManager: PowerSessionManager.{h,cpp} with PowerHintMonitor, and the
      world the sessions share: heap, manager, message queue, hints, kernel state;
    - StaleTimer: over that world and a looper with due times, what the stale timer of
      a session guarantees;
    - SessionThreads: the same calls as programs of the steps that other threads can
      interleave with (locks, atomics, queue, registration, uses of the object and
      accesses to its plain fields);
    - SessionRaces: the rule each of those fields follows, and the data races there are;
    - SessionTrace: the description, the trace name and the trace counters of a session;
    - PowerHal: Power.{h,cpp} and PowerExt.{h,cpp};
    - PowerService: service.cpp, the tunables it loads, and all of the above over one
      shared hint manager;
    - PowerHints: the device's hints (src/configs/power/powerhint.json), and a service
      that starts again from the properties they leave.
    Power calls InteractionHandler for boosts, PowerSessionManager for sessions, and
    all of them call HintManager; a session calls the manager through effects that
    SessionManager runs in order, and the manager and the monitor thread call back
    into sessions through looper messages.

    The other HALs:
    - Texts: number formats and digits, also for the image tools and SessionTrace;
    - Sysfs: nodes written by the HALs and number parsing;
    - VibratorHal: src/aidl/vibrator; LightsHal: src/aidl/light; UsbHal: src/aidl/usb;
    - Fingerprint: src/hidl/fingerprint;
    - SensorsHal: src/aidl/sensors, with SensorsQueues for initialize, the wake-lock
      queue and the callback; MemtrackHal: src/aidl/memtrack;
    - Secril: src/ril/secril_config_svc.

    The image tools, src/dtbhtool:
    - Bytes: memory as a list of bytes, used by the tools and by SensorsHal;
    - BootImage: mkbootimg.c, unpackbootimg.c, bootimg.h, after the command line;
    - DtbhImage: dtbimg.c, mkdtbimg.c, unpackdtbhimg.c, src/include/samsung_dtbh.h;
    - ImageTools: the command lines of the tools and the files they leave, with
      mkbootimg's device-tree block built by DtbhImage.

    The shims, src/shims:
    - Arena and Demangle: libdemangle (cxa_demangle.cpp), its node allocator, and its
      discriminator parser, tree dump and entry point over an interface for the parser
      and the stream of LLVM's header;
    - Shims: libaudioparams, sensorsndkbridge, libepicoperator.

    ** How code becomes definitions

    A class is a record of its fields; a method is a function from the object (and
    the answers of the environment: clock readings, results of system calls, what a
    library returns) to its result and the new object.  Definitions keep the names of
    the source.  All of them compute.  Integers are [Z] within their width; signed
    overflow, division by zero, a float conversion out of range, a read or write
    outside a buffer and a call through a bad pointer are results of their own
    ([None], [Crash], [MkUndefined], ...), so that a theorem that a run returns is a
    theorem that it has no undefined behaviour.  Libraries that are not in the tree
    are classes or arguments, with the documented behaviour a theorem needs as laws,
    and an instance that satisfies them.

    Concurrency is interleaving: a critical section, a binder call or a message
    handler is one step of a labelled system (Interaction.ih_exec,
    SessionManager's labels), except where locks or the life of an object are the
    point: SessionThreads takes the calls of a session apart into their lock and
    memory operations, with any number of binder threads, and UsbHal models
    registration and event delivery as the lock and wait operations of two threads.

    ** What the theorems show

    - Interaction: an invariant ties state, thread position and eventfd counter in
      every reachable state; the boost is requested and released alternately and is
      held exactly while an interaction is on; a boost covers the time asked for;
      after Exit the thread ends.
    - Session: every scheduler call names a thread of the session with a valid clamp;
      a report, traced or not, has no undefined behaviour for targets of at least 100 us
      and samples, gains and controller state within the bounds below, and keeps the
      state within them (for a shorter target it can have some); controller state
      stays within its limits.
    - SessionManager: the registry holds exactly the open sessions, reference counts
      refine the multiset of threads of open sessions (counting up past the largest
      [int] is undefined and ends the run), and the hint that disables boosts follows
      the sessions; the lemmas at the end of the file show what a report or resume after
      close does.  Calls and handlers are one step each here: what can happen between
      their parts, such as the destruction of a session in the middle of a handler, is
      the subject of SessionThreads.
    - StaleTimer: once the monitor has delivered what is due, a session that has not
      reported for its stale time has the clamp 0, unless it has not reported since it was
      created or resumed and still has the boost that gave it.
    - SessionThreads: in every interleaving the locks cannot deadlock, and only the
      stale handler can use a destroyed session (the manager, the calls and the
      destructor cannot); and it can do so from every reachable state in which it has
      taken its message, the session is open and no call is running.
    - SessionRaces: with any number of binder threads the manager's tables are never in
      a data race; with the one thread the service has, the only race is a report's
      unlocked read of the clamp against the stale handler, and it is reachable.
    - SessionTrace: the last values traced for a session are those of its state, and
      the counters of two sessions are apart unless process, user and the low half of
      the address agree.
    - PowerHal: the mode flags are the last requested ones and exactly their hint is
      on; sessions are created exactly for valid requests.
    - PowerService: from a start of main, the requests of the modes, of the interaction
      handler and of the session manager stay consistent in the shared hint manager in
      every interleaving of the clients, as long as no mode, boost or client of PowerExt
      uses the names of these hints.
    - PowerHints: a service that restarts finds the audio and rendering hints and
      sustained performance as they were in force, and VR if it came with sustained
      performance; the theorem names the two hints that hide modes from it.
    - VibratorHal, LightsHal, UsbHal: each call writes the values its interface calls
      for; scaling stays within range; role nodes are parsed and printed consistently;
      the ports listed come from the symbolic links of any directory listing, connected
      if a link of a partner is there (a cable passes for a port of its own); the uevent
      parser stays in its buffer and its thread closes its descriptors; two threads can
      deadlock on clearing the callback, or miss the signal to end.
    - Fingerprint: with a complete vendor library no sequence of calls and messages, also
      of messages inside calls, crashes or deadlocks (a build that cancels from inside
      notify needs a library that sends from its own threads); messages reach the client
      without loss, the sensor wait terminates; a message during construction is dropped,
      since there is no client yet; without the library the constructor crashes.
    - SensorsHal: events survive the conversion between the interfaces, also through
      the message queue to a reader with a buffer of its own; the sensor list is the
      proxy's with the vendor's fix-ups.
    - MemtrackHal, Secril: the reported sizes add up; property files load exactly.
    - BootImage, DtbhImage, ImageTools: from command lines to files on disk, a boot
      image packed again from its unpacked kernel, ramdisk and parameters and from the
      original other sections is the same image; the trees of a directory, described by
      their properties alone (DtbhImage.trees), are extracted from a DTBH image into one
      file for each board, and the two compose; page alignment, and the sizes from which on
      the recorded offsets of a DTBH image are wrong.
    - Arena, Demangle: the allocator hands out aligned regions of live blocks that
      never overlap, as long as malloc succeeds and sizes stay below 4 GiB, and frees every
      block once; dumping a tree ends although forward references may be cyclic; the
      discriminator parser takes off what the grammar of its comment allows, and the
      theorem says what more it takes;
      __cxa_demangle reports by its documented protocol, in builds with and without
      assertions.

    ** Bounds and fuel

    Recursion is structural except for four loops with fuel.  The search of
    unpackbootimg for the magic tries offsets 0 to 512 and has fuel 513.  The loop of
    uevent_event consumes at least one byte a turn and has one more unit of fuel than
    the message has bytes.  waitForSensor is run with one more unit than the number of
    polls that reach its timeout.  The dump of a tree has fuel for its forward references
    times its height (Demangle.dump_fuel).  (The conversion %x takes eight digits, the
    most a 32-bit number has.)  The theorems about these loops show that the fuel is
    enough.  Lists are unbounded; sizes at which a 32-bit sum would wrap are
    hypotheses of the image theorems.  The session theorems bound gains and limits by
    ordinary sizes and targets by 2^40 ns, so that the double arithmetic is exact
    enough to stay in range.

    ** Not modelled

    Logging (unless it computes something that can fail; one debug line of
    Vibrator::setAmplitude converts a float of any size and is left out), tracing outside
    the power hint sessions, the usage texts and reports the image tools print, partial
    writes of unpackbootimg's files, the parser and the node classes of LLVM's demangler (a header
    outside the tree), libperfmgr, build files, policies, scripts and resources. *)
From stdpp Require Export base option list gmap strings.
From Stdlib Require Export ZArith Lia.

(** ** Machine integers

    C and C++ integers are [Z] values kept inside their width: [wrap_u] and
    [wrap_s] are the modular conversions to an unsigned and to a two's
    complement type, [ck_s] is signed arithmetic whose overflow is undefined
    behaviour ([None]). *)

Declare Scope cint_scope.
Delimit Scope cint_scope with cint.
Global Open Scope Z_scope.

Definition wrap_u (w z : Z) : Z := z mod 2 ^ w.

Definition wrap_s (w z : Z) : Z := (z + 2 ^ (w - 1)) mod 2 ^ w - 2 ^ (w - 1).

Definition fits_s (w z : Z) : bool := (- 2 ^ (w - 1) <=? z) && (z <? 2 ^ (w - 1)).

Definition fits_u (w z : Z) : bool := (0 <=? z) && (z <? 2 ^ w).

Definition ck_s (w z : Z) : option Z := if fits_s w z then Some z else None.

Notation "'u8' x" := (wrap_u 8 x) (at level 10, x at level 9) : cint_scope.
Notation "'u32' x" := (wrap_u 32 x) (at level 10, x at level 9) : cint_scope.
Notation "'u64' x" := (wrap_u 64 x) (at level 10, x at level 9) : cint_scope.
Notation "'i32' x" := (wrap_s 32 x) (at level 10, x at level 9) : cint_scope.
Notation "'i64' x" := (wrap_s 64 x) (at level 10, x at level 9) : cint_scope.
Notation "'ck32' x" := (ck_s 32 x) (at level 10, x at level 9) : cint_scope.
Notation "'ck64' x" := (ck_s 64 x) (at level 10, x at level 9) : cint_scope.
Global Open Scope cint_scope.

(** ** Binder statuses

    [ndk::ScopedAStatus] as the sources build it: success, an exception code, a
    transport status or a service-specific error. *)

Inductive ExceptionCode :=
  | EX_SECURITY
  | EX_ILLEGAL_ARGUMENT
  | EX_ILLEGAL_STATE
  | EX_UNSUPPORTED_OPERATION
  | EX_TRANSACTION_FAILED.

Inductive ScopedAStatus :=
  | status_ok
  | fromExceptionCode (e : ExceptionCode)
  | fromStatus_UNKNOWN_ERROR
  | fromServiceSpecificError (code : Z).

#[export] Instance ExceptionCode_eq_dec : EqDecision ExceptionCode.
Proof. solve_decision. Defined.

#[export] Instance ScopedAStatus_eq_dec : EqDecision ScopedAStatus.
Proof. solve_decision. Defined.

Definition isOk (s : ScopedAStatus) : bool := bool_decide (s = status_ok).

(** ** Automation *)

Create HintDb cint.
Create Rewrite HintDb cint.

(** Splits every [if] and [match] of the goal or the context, then simplifies. *)
Ltac cases := repeat (case_match; simplify_eq/=).

(** Unfolds the width-32 and width-64 constants so that [lia] sees numerals. *)
Ltac width_simpl :=
  change (2 ^ 8) with 256 in *;
  change (2 ^ (32 - 1)) with 2147483648 in *;
  change (2 ^ 32) with 4294967296 in *;
  change (2 ^ (64 - 1)) with 9223372036854775808 in *;
  change (2 ^ 64) with 18446744073709551616 in *.

(** Linear arithmetic on wrapped integers: unfolds the conversions and hands the
    divisions to [lia]. *)
Ltac clia :=
  unfold wrap_u, wrap_s, ck_s, fits_s, fits_u in *; width_simpl;
  Z.div_mod_to_equations; lia.

Section ints.
Context (w : Z) (Hw : 0 < w).

Lemma wrap_u_id z : 0 <= z < 2 ^ w -> wrap_u w z = z.
Proof. apply Z.mod_small. Qed.

Lemma wrap_u_range z : 0 <= wrap_u w z < 2 ^ w.
Proof. apply Z.mod_pos_bound. lia. Qed.

Lemma pow_half : 2 ^ w = 2 * 2 ^ (w - 1).
Proof using Hw. rewrite <- Z.pow_succ_r by lia. f_equal. lia. Qed.

Lemma wrap_s_id z : - 2 ^ (w - 1) <= z < 2 ^ (w - 1) -> wrap_s w z = z.
Proof using Hw.
  intros H. pose proof pow_half. unfold wrap_s. rewrite Z.mod_small; lia.
Qed.

Lemma wrap_s_range z : - 2 ^ (w - 1) <= wrap_s w z < 2 ^ (w - 1).
Proof using Hw.
  pose proof pow_half. unfold wrap_s.
  pose proof (Z.mod_pos_bound (z + 2 ^ (w - 1)) (2 ^ w) ltac:(lia)). lia.
Qed.

(** Converting through the unsigned type of the same width changes nothing. *)
Lemma wrap_s_wrap_u z : wrap_s w (wrap_u w z) = wrap_s w z.
Proof. unfold wrap_s, wrap_u. by rewrite Zplus_mod_idemp_l. Qed.

Lemma wrap_u_wrap_s z : wrap_u w (wrap_s w z) = wrap_u w z.
Proof.
  unfold wrap_s, wrap_u. rewrite Zminus_mod_idemp_l. f_equal. lia.
Qed.

Lemma ck_s_Some z z' : ck_s w z = Some z' <-> z' = z /\ - 2 ^ (w - 1) <= z < 2 ^ (w - 1).
Proof.
  unfold ck_s, fits_s. destruct (_ <=? z) eqn:?, (z <? _) eqn:?; simpl; split;
    intros; simplify_eq; try lia; destruct_and?; try lia. by subst.
Qed.

Lemma ck_s_in z : - 2 ^ (w - 1) <= z < 2 ^ (w - 1) -> ck_s w z = Some z.
Proof. intros. by apply ck_s_Some. Qed.

End ints.

(** A filter every element passes. *)
Lemma list_filter_all {A} (P : A -> Prop) `{forall x, Decision (P x)} (l : list A) :
  (forall x, x ∈ l -> P x) -> filter P l = l.
Proof.
  induction l as [|x l IH]; intros H1; [done|]. rewrite filter_cons_True by (apply H1; left).
  f_equal. apply IH. intros y Hy. apply H1. by right.
Qed.

(** Masking the low bits off rounds down. *)
Lemma land_align_down w k y : 0 <= w -> 0 <= k -> 0 <= y < 2 ^ w ->
  Z.land y (wrap_u w (Z.lnot (2 ^ k - 1))) = y / 2 ^ k * 2 ^ k.
Proof.
  intros Hw Hk Hy. replace (2 ^ k - 1) with (Z.ones k) by (rewrite Z.ones_equiv; lia).
  unfold wrap_u. rewrite <- (Z.land_ones _ w), (Z.land_comm (Z.lnot _)), Z.land_assoc by lia.
  rewrite (Z.land_ones y w), Z.mod_small by lia.
  by rewrite <- Z.ldiff_land, Z.ldiff_ones_r, Z.shiftl_mul_pow2, Z.shiftr_div_pow2 by lia.
Qed.

#[export] Hint Resolve wrap_u_range wrap_s_range : cint.
#[export] Hint Rewrite wrap_s_wrap_u wrap_u_wrap_s : cint.
