(* ===== verification/HintManager.v ===== *)
(** The interface of libperfmgr's [HintManager] as the power HAL uses it.

    libperfmgr is not part of the repository, so the hint manager is a class the
    models are parameterised by: an abstract state with the calls [DoHint],
    [DoHint] with a duration, [EndHint], [IsHintSupported] and [IsRunning], and
    the observation [requested], "the hint was requested and not ended since".
    [HintManagerLaws] states what its clients rely on.  Two instances discharge
    the laws: the call log, which keeps every call in order, and the set of
    requested hints.  The boolean results of [DoHint] and [EndHint] are only
    logged by the callers and are not modelled. *)
From S2P Require Import Prelude.

Class HintManager (HM : Type) := {
  DoHint : string -> HM -> HM;
  DoHintFor : string -> Z -> HM -> HM;
  EndHint : string -> HM -> HM;
  IsHintSupported : HM -> string -> bool;
  IsRunning : HM -> bool;
  requested : HM -> string -> bool
}.

Class HintManagerLaws (HM : Type) `{HintManager HM} := {
  requested_DoHint m h h' :
    requested (DoHint h m) h' = bool_decide (h = h') || requested m h';
  requested_DoHintFor m h d h' :
    requested (DoHintFor h d m) h' = bool_decide (h = h') || requested m h';
  requested_EndHint m h h' :
    requested (EndHint h m) h' = negb (bool_decide (h = h')) && requested m h';
  supported_DoHint m h : IsHintSupported (DoHint h m) = IsHintSupported m;
  supported_EndHint m h : IsHintSupported (EndHint h m) = IsHintSupported m
}.

(** *** The call log *)

Inductive hint_call :=
  | CallDoHint (h : string)
  | CallDoHintFor (h : string) (ms : Z)
  | CallEndHint (h : string).

#[export] Instance hint_call_eq_dec : EqDecision hint_call.
Proof. solve_decision. Defined.

(** The log keeps the newest call first. *)
Record hint_log := HintLog {
  hl_supported : list string;
  hl_running : bool;
  hl_calls : list hint_call
}.

Definition hl_push (c : hint_call) (m : hint_log) : hint_log :=
  HintLog (hl_supported m) (hl_running m) (c :: hl_calls m).

Fixpoint log_requested (cs : list hint_call) (h : string) : bool :=
  match cs with
  | [] => false
  | CallDoHint h' :: cs | CallDoHintFor h' _ :: cs =>
      if decide (h' = h) then true else log_requested cs h
  | CallEndHint h' :: cs => if decide (h' = h) then false else log_requested cs h
  end.

#[export] Instance hint_log_manager : HintManager hint_log := {|
  DoHint h := hl_push (CallDoHint h);
  DoHintFor h d := hl_push (CallDoHintFor h d);
  EndHint h := hl_push (CallEndHint h);
  IsHintSupported m h := bool_decide (h ∈ hl_supported m);
  IsRunning := hl_running;
  requested m := log_requested (hl_calls m)
|}.

#[export] Instance hint_log_laws : HintManagerLaws hint_log.
Proof.
  split; try done; intros; simpl; case_decide; rewrite ?bool_decide_true,
    ?bool_decide_false by done; done.
Qed.

(** The calls that name one hint, oldest first. *)
Definition names_hint (h : string) (c : hint_call) : bool :=
  match c with
  | CallDoHint h' | CallDoHintFor h' _ | CallEndHint h' => bool_decide (h' = h)
  end.

Definition calls_on (h : string) (m : hint_log) : list hint_call :=
  reverse (List.filter (names_hint h) (hl_calls m)).

(** *** The set of requested hints *)

#[export] Instance hint_set_manager : HintManager (gset string) := {|
  DoHint h m := {[h]} ∪ m;
  DoHintFor h _ m := {[h]} ∪ m;
  EndHint h m := m ∖ {[h]};
  IsHintSupported _ _ := true;
  IsRunning _ := true;
  requested m h := bool_decide (h ∈ m)
|}.

#[export] Instance hint_set_laws : HintManagerLaws (gset string).
Proof.
  split; try done; intros; simpl; repeat case_bool_decide; set_solver.
Qed.

(** Rewriting with the laws; [hm_simpl] computes what a call sequence leaves
    requested. *)
Create Rewrite HintDb hint_manager.
#[export] Hint Rewrite @requested_DoHint @requested_DoHintFor @requested_EndHint
  @supported_DoHint @supported_EndHint using typeclasses eauto : hint_manager.

Ltac hm_simpl :=
  rewrite ?requested_DoHint, ?requested_DoHintFor, ?requested_EndHint.
