(* ===== verification/Interaction.v ===== *)
(** Model of [InteractionHandler] (src/aidl/power-libperfmgr/InteractionHandler.{h,cpp}):
    the interaction boost and its display-idle thread.

    The binder threads ([Init], [Exit], [Acquire]) and the handler's own thread
    ([Routine], [WaitForIdle], [Release]) share the object.  Every critical
    section of [mLock] is one function of the state; [ih_exec] runs one of them,
    named by a label that carries its inputs, so an interleaving is a list of
    labels.  The eventfd is its 64-bit counter.  The properties the sources read
    once at start-up are the fields of [ih_config]. *)
From S2P Require Import Prelude HintManager.

(** ** Configuration and data *)

Record ih_config := {
  kDisplayIdleSupport : bool;
  kWaitMs : Z;
  kMinDurationMs : Z;
  kMaxDurationMs : Z;
  kDurationOffsetMs : Z
}.

Definition ih_default : ih_config := {|
  kDisplayIdleSupport := true;
  kWaitMs := 100;
  kMinDurationMs := 1400;
  kMaxDurationMs := 5650;
  kDurationOffsetMs := 650
|}.

Definition kDispIdlePath : list string :=
  ["/sys/class/drm/card0/device/idle_state"; "/sys/class/graphics/fb0/idle_state"].

Inductive InteractionState :=
  | INTERACTION_STATE_UNINITIALIZED
  | INTERACTION_STATE_IDLE
  | INTERACTION_STATE_INTERACTION
  | INTERACTION_STATE_WAITING.

#[export] Instance InteractionState_eq_dec : EqDecision InteractionState.
Proof. solve_decision. Defined.

Record timespec := Timespec { tv_sec : Z; tv_nsec : Z }.

Definition MSINSEC : Z := 1000.
Definition NSINMS : Z := 1000000.

(** [size_t] accumulates modulo 2^64; the nanosecond part is divided with C's
    truncation. *)
Definition CalcTimespecDiffMs (start fin : timespec) : Z :=
  let diff_in_ms := 0 in
  let diff_in_ms := u64 (diff_in_ms + (tv_sec fin - tv_sec start) * MSINSEC) in
  u64 (diff_in_ms + Z.quot (tv_nsec fin - tv_nsec start) NSINMS).

Fixpoint FbIdleOpen_loop (open : string -> Z) (paths : list string) : Z :=
  match paths with
  | [] => -1
  | path :: paths => let fd := open path in if 0 <=? fd then fd else FbIdleOpen_loop open paths
  end.

Definition FbIdleOpen (open : string -> Z) : Z := FbIdleOpen_loop open kDispIdlePath.

(** Where the thread running [Routine] stands: at the condition variable, about
    to read [mDurationMs] for [WaitForIdle], inside its [poll]s, about to take
    the lock in [Release], or returned. *)
Inductive routine_phase :=
  | RCond
  | RCall
  | RPoll (timeout_ms : Z)
  | RRelease
  | RDone.

#[export] Instance routine_phase_eq_dec : EqDecision routine_phase.
Proof. solve_decision. Defined.

(** The object, with the counter behind [mEventFd] and the thread behind
    [mThread]. *)
Record InteractionHandler (HM : Type) := {
  mState : InteractionState;
  mIdleFd : Z;
  mEventFd : Z;
  mDurationMs : Z;
  mLastTimespec : timespec;
  mHintManager : HM;
  mEventCount : Z;
  mThread : option routine_phase
}.

Arguments mState {HM}.
Arguments mIdleFd {HM}.
Arguments mEventFd {HM}.
Arguments mDurationMs {HM}.
Arguments mLastTimespec {HM}.
Arguments mHintManager {HM}.
Arguments mEventCount {HM}.
Arguments mThread {HM}.

(** What the kernel answers to one [WaitForIdle]: the result of the first
    [poll], of [pread] with the bytes left in the buffer (uninitialised memory
    when [pread] fails), and of the second [poll] with the two [revents]. *)
Record idle_answers := {
  poll1 : Z;
  pread_ret : Z;
  pread_data : string;
  poll2 : Z;
  revents0 : bool;
  revents1 : bool
}.

Inductive wait_outcome :=
  | WaitAborted
  | WaitPollError
  | WaitUnexpectedEOF
  | WaitAlreadyIdle
  | IdleError
  | IdleTimedOut
  | IdleAborted
  | IdleDetected
  | IdleSpurious.

(** [!strncmp(data, "idle", 4)] *)
Definition is_idle (data : string) : bool := String.prefix "idle" data.

Definition WaitForIdle (a : idle_answers) : wait_outcome :=
  if 0 <? poll1 a then WaitAborted
  else if poll1 a <? 0 then WaitPollError
  else if pread_ret a =? 0 then WaitUnexpectedEOF
  else if is_idle (pread_data a) then WaitAlreadyIdle
  else if poll2 a <? 0 then IdleError
  else if poll2 a =? 0 then IdleTimedOut
  else if revents0 a then IdleAborted
  else if revents1 a then IdleDetected
  else IdleSpurious.

Section handler.
Context {HM : Type} `{HintManager HM} (cfg : ih_config).

Abbreviation handler := (InteractionHandler HM).

Definition set_state (st : InteractionState) (s : handler) : handler :=
  {| mState := st; mIdleFd := mIdleFd s; mEventFd := mEventFd s;
     mDurationMs := mDurationMs s; mLastTimespec := mLastTimespec s;
     mHintManager := mHintManager s; mEventCount := mEventCount s; mThread := mThread s |}.

Definition set_fds (idle ev : Z) (s : handler) : handler :=
  {| mState := mState s; mIdleFd := idle; mEventFd := ev;
     mDurationMs := mDurationMs s; mLastTimespec := mLastTimespec s;
     mHintManager := mHintManager s; mEventCount := mEventCount s; mThread := mThread s |}.

Definition set_duration (d : Z) (t : timespec) (s : handler) : handler :=
  {| mState := mState s; mIdleFd := mIdleFd s; mEventFd := mEventFd s;
     mDurationMs := d; mLastTimespec := t;
     mHintManager := mHintManager s; mEventCount := mEventCount s; mThread := mThread s |}.

Definition set_hm (hm : HM) (s : handler) : handler :=
  {| mState := mState s; mIdleFd := mIdleFd s; mEventFd := mEventFd s;
     mDurationMs := mDurationMs s; mLastTimespec := mLastTimespec s;
     mHintManager := hm; mEventCount := mEventCount s; mThread := mThread s |}.

Definition set_count (n : Z) (s : handler) : handler :=
  {| mState := mState s; mIdleFd := mIdleFd s; mEventFd := mEventFd s;
     mDurationMs := mDurationMs s; mLastTimespec := mLastTimespec s;
     mHintManager := mHintManager s; mEventCount := n; mThread := mThread s |}.

Definition set_thread (p : option routine_phase) (s : handler) : handler :=
  {| mState := mState s; mIdleFd := mIdleFd s; mEventFd := mEventFd s;
     mDurationMs := mDurationMs s; mLastTimespec := mLastTimespec s;
     mHintManager := mHintManager s; mEventCount := mEventCount s; mThread := p |}.

(** ** Operations *)

(** The constructor leaves the descriptors and [mLastTimespec] indeterminate. *)
Definition InteractionHandler_new (hint_manager : HM) (junk_fd1 junk_fd2 : Z)
    (junk_time : timespec) : handler :=
  {| mState := INTERACTION_STATE_UNINITIALIZED; mIdleFd := junk_fd1; mEventFd := junk_fd2;
     mDurationMs := 0; mLastTimespec := junk_time; mHintManager := hint_manager;
     mEventCount := 0; mThread := None |}.

(** [open] answers the two idle-state paths, [eventfd_ret] is what eventfd returns. *)
Definition Init (open : string -> Z) (eventfd_ret : Z) (s : handler) : bool * handler :=
  if bool_decide (mState s <> INTERACTION_STATE_UNINITIALIZED) then (true, s)
  else
    let fd := FbIdleOpen open in
    if fd <? 0 then (false, s)
    else
      let s := set_fds fd eventfd_ret s in
      if eventfd_ret <? 0 then (false, s)
      else (true, set_thread (Some RCond) (set_count 0 (set_state INTERACTION_STATE_IDLE s))).

Definition PerfLock (s : handler) : handler := set_hm (DoHint "INTERACTION" (mHintManager s)) s.

Definition PerfRel (s : handler) : handler := set_hm (EndHint "INTERACTION" (mHintManager s)) s.

(** A write of 1 to the eventfd; a non-blocking eventfd refuses the write that
    would push the counter past 2^64 - 2. *)
Definition AbortWaitLocked (s : handler) : handler :=
  if mEventCount s + 1 <=? 2 ^ 64 - 2 then set_count (mEventCount s + 1) s else s.

(** The comparisons of [int inputDuration] with the [uint32_t] limits convert
    [inputDuration] to unsigned. *)
Definition finalDuration (duration : Z) : Z :=
  let inputDuration := i32 (u32 (u32 duration + kDurationOffsetMs cfg)) in
  if kMaxDurationMs cfg <? u32 inputDuration then i32 (kMaxDurationMs cfg)
  else if kMinDurationMs cfg <? u32 inputDuration then inputDuration
  else i32 (kMinDurationMs cfg).

(** Whether the hint in force already covers this one. *)
Definition previous_covers (final : Z) (now : timespec) (s : handler) : bool :=
  negb (bool_decide (mState s = INTERACTION_STATE_IDLE)) && (final <=? mDurationMs s) &&
  (CalcTimespecDiffMs (mLastTimespec s) now <=? u64 (mDurationMs s - final)).

Definition Acquire (duration : Z) (now : timespec) (s : handler) : handler :=
  let final := finalDuration duration in
  if negb (kDisplayIdleSupport cfg) ||
     bool_decide (mState s = INTERACTION_STATE_UNINITIALIZED)
  then set_hm (DoHintFor "INTERACTION" final (mHintManager s)) s
  else if previous_covers final now s then s
  else
    let s := set_duration final now s in
    let s :=
      if bool_decide (mState s = INTERACTION_STATE_WAITING) then AbortWaitLocked s
      else if bool_decide (mState s = INTERACTION_STATE_IDLE) then PerfLock s
      else s in
    set_state INTERACTION_STATE_INTERACTION s.

Definition Release (s : handler) : handler :=
  if bool_decide (mState s = INTERACTION_STATE_WAITING)
  then set_state INTERACTION_STATE_IDLE (PerfRel s)
  else set_count 0 s.

(** [Exit] up to the [join]: the critical section and the notification. *)
Definition Exit_signal (s : handler) : handler :=
  if bool_decide (mState s = INTERACTION_STATE_UNINITIALIZED) then s
  else set_state INTERACTION_STATE_UNINITIALIZED (AbortWaitLocked s).

(** The rest of [Exit], once the thread has returned: join and close. *)
Definition Exit_join (s : handler) : option handler :=
  match mThread s with
  | Some RDone => Some (set_thread None s)
  | _ => None
  end.

(** One step of [Routine].  At the condition variable the thread is blocked
    while the state is idle; inside [WaitForIdle] it returns with some answers
    of the kernel, where the eventfd can only be reported ready when its counter
    is not zero. *)
Definition Routine_step (a : idle_answers) (s : handler) : option handler :=
  match mThread s with
  | Some RCond =>
      if bool_decide (mState s = INTERACTION_STATE_IDLE) then None
      else if bool_decide (mState s = INTERACTION_STATE_UNINITIALIZED)
      then Some (set_thread (Some RDone) s)
      else Some (set_thread (Some RCall) (set_state INTERACTION_STATE_WAITING s))
  | Some RCall => Some (set_thread (Some (RPoll (mDurationMs s))) s)
  | Some (RPoll _) =>
      match WaitForIdle a with
      | WaitAborted | IdleAborted =>
          if 0 <? mEventCount s then Some (set_thread (Some RRelease) s) else None
      | _ => Some (set_thread (Some RRelease) s)
      end
  | Some RRelease => Some (set_thread (Some RCond) (Release s))
  | _ => None
  end.

(** ** Interleavings *)

Inductive ih_label :=
  | LInit (open : string -> Z) (eventfd_ret : Z)
  | LAcquire (duration : Z) (now : timespec)
  | LExit
  | LJoin
  | LRoutine (a : idle_answers).

(** [Init] is called by the owner, not between [Exit]'s unlock and its return. *)
Definition ih_exec (l : ih_label) (s : handler) : option handler :=
  match l with
  | LInit open ev =>
      if bool_decide (mState s = INTERACTION_STATE_UNINITIALIZED) &&
         negb (bool_decide (mThread s = None)) then None
      else Some (snd (Init open ev s))
  | LAcquire d now => Some (Acquire d now s)
  | LExit => Some (Exit_signal s)
  | LJoin => Exit_join s
  | LRoutine a => Routine_step a s
  end.

Inductive ih_reach (ok : ih_label -> Prop) (s0 : handler) : handler -> Prop :=
  | ih_reach_refl : ih_reach ok s0 s0
  | ih_reach_step s l s' :
      ih_reach ok s0 s -> ok l -> ih_exec l s = Some s' -> ih_reach ok s0 s'.

(** A concrete interleaving, run to its end. *)
Fixpoint ih_run (ls : list ih_label) (s : handler) : option handler :=
  match ls with
  | [] => Some s
  | l :: ls => s' ← ih_exec l s; ih_run ls s'
  end.

Definition any_label (l : ih_label) : Prop := True.
Definition not_exit (l : ih_label) : Prop := l <> LExit.

End handler.

(** ** Specification *)

(** How the thread, the state and the eventfd fit together. *)
Definition ih_wf {HM} (s : InteractionHandler HM) : Prop :=
  0 <= mEventCount s <= 2 /\
  match mThread s with
  | None | Some RDone => mState s = INTERACTION_STATE_UNINITIALIZED
  | Some RCond =>
      mState s <> INTERACTION_STATE_WAITING /\
      (mState s <> INTERACTION_STATE_UNINITIALIZED -> mEventCount s = 0)
  | Some _ =>
      (mState s = INTERACTION_STATE_WAITING /\ mEventCount s = 0) \/
      (mState s = INTERACTION_STATE_INTERACTION /\ mEventCount s = 1) \/
      (mState s = INTERACTION_STATE_UNINITIALIZED /\ 0 < mEventCount s)
  end.

Definition boosting (st : InteractionState) : bool :=
  match st with
  | INTERACTION_STATE_INTERACTION | INTERACTION_STATE_WAITING => true
  | _ => false
  end.

(** The abstract contract of [PerfLock]/[PerfRel]: read from the oldest call,
    untimed [DoHint] and [EndHint] on the interaction hint alternate strictly;
    [Some true] when the last one took the lock, [None] when they do not
    alternate. *)
Fixpoint perf_held (cs : list hint_call) : option bool :=
  match cs with
  | [] => Some false
  | c :: cs =>
      h ← perf_held cs;
      match c with
      | CallDoHint x =>
          if decide (x = "INTERACTION") then (if h : bool then None else Some true) else Some h
      | CallEndHint x =>
          if decide (x = "INTERACTION") then (if h : bool then Some false else None) else Some h
      | CallDoHintFor _ _ => Some h
      end
  end.

(** The thread left to itself: its steps with the given kernel answers, up to
    its return. *)
Fixpoint Routine_run {HM} `{HintManager HM} (answers : list idle_answers)
    (s : InteractionHandler HM) : option (InteractionHandler HM) :=
  match answers, mThread s with
  | [], _ | _, Some RDone => Some s
  | a :: answers, _ => s' ← Routine_step a s; Routine_run answers s'
  end.

(** Steps the thread still takes before it returns, once the state is
    uninitialized. *)
Definition phase_rank (p : routine_phase) : nat :=
  match p with RDone => 0 | RCond => 1 | RRelease => 2 | RPoll _ => 3 | RCall => 4 end.

(** The limits make sense as [int] durations. *)
Definition ih_config_ok (cfg : ih_config) : Prop :=
  0 <= kMinDurationMs cfg <= kMaxDurationMs cfg /\ kMaxDurationMs cfg < 2 ^ 31 /\
  0 <= kDurationOffsetMs cfg < 2 ^ 32.

(** ** Lemmas *)

(** Closes the state and counter side conditions of the invariant. *)
Ltac ih_solve :=
  simpl in *; destruct_or?; destruct_and?; repeat split; intros; simplify_eq/=;
  first [lia | congruence | naive_solver lia].

Section lemmas.
Context {HM : Type} `{HintManager HM} (cfg : ih_config).
Implicit Types s : InteractionHandler HM.

Lemma AbortWaitLocked_count s :
  0 <= mEventCount s <= 2 -> AbortWaitLocked s = set_count (mEventCount s + 1) s.
Proof. intros ?. unfold AbortWaitLocked. by rewrite (proj2 (Z.leb_le _ _)) by lia. Qed.

Lemma Acquire_wf d now s : ih_wf s -> ih_wf (Acquire cfg d now s).
Proof.
  intros [Hc Hw]. unfold Acquire. destruct (_ || _) eqn:Hb; [done|].
  apply orb_false_iff in Hb as [_ Hu%bool_decide_eq_false].
  destruct (previous_covers _ _ _); [done|].
  destruct s as [st ? ? ? ? ? n th]; simpl in *.
  destruct st; repeat case_bool_decide; simplify_eq/=;
    rewrite ?AbortWaitLocked_count by (simpl; lia); split; simpl;
    repeat case_match; ih_solve.
Qed.

Lemma Release_wf s :
  mThread s = Some RRelease -> ih_wf s -> ih_wf (set_thread (Some RCond) (Release s)).
Proof.
  intros Ht [Hc Hw]. rewrite Ht in Hw. unfold Release.
  case_bool_decide; split; simpl; ih_solve.
Qed.

Lemma Routine_step_wf a s s' : Routine_step a s = Some s' -> ih_wf s -> ih_wf s'.
Proof.
  unfold Routine_step. destruct (mThread s) as [p|] eqn:Ht; [|done].
  intros Hs Hwf. pose proof Hwf as [Hc Hw]. rewrite Ht in Hw.
  destruct p; simplify_eq/=.
  - repeat case_bool_decide; simplify_eq/=; split; simpl; ih_solve.
  - split; simpl; ih_solve.
  - assert (s' = set_thread (Some RRelease) s) as -> by (repeat case_match; congruence).
    split; simpl; ih_solve.
  - by apply Release_wf.
Qed.

Lemma Exit_signal_wf s : ih_wf s -> ih_wf (Exit_signal s).
Proof.
  intros [Hc Hw]. unfold Exit_signal. case_bool_decide; [by split|].
  rewrite AbortWaitLocked_count by (simpl; lia).
  destruct s as [st ? ? ? ? ? n th]; split; simpl in *; repeat case_match; ih_solve.
Qed.

Lemma Exit_join_wf s s' : Exit_join s = Some s' -> ih_wf s -> ih_wf s'.
Proof.
  unfold Exit_join. intros Hs [Hc Hw]. repeat case_match; simplify_eq. by split.
Qed.

Lemma Init_wf open ev s :
  (mState s = INTERACTION_STATE_UNINITIALIZED -> mThread s = None) ->
  ih_wf s -> ih_wf (snd (Init open ev s)).
Proof.
  intros Hn Hwf. unfold Init. case_bool_decide as Hu; [done|].
  specialize (Hn Hu). destruct Hwf as [Hc Hw]. rewrite Hn in Hw.
  destruct (_ <? 0); [|destruct (_ <? 0)]; split; simpl; rewrite ?Hn; ih_solve.
Qed.

Lemma ih_exec_wf l s s' : ih_exec cfg l s = Some s' -> ih_wf s -> ih_wf s'.
Proof.
  destruct l; simpl; intros Hs Hwf; simplify_eq.
  - destruct (_ && _) eqn:Hb; simplify_eq. apply Init_wf; [|done].
    intros Hu. rewrite bool_decide_true in Hb by done.
    by apply negb_false_iff, bool_decide_eq_true in Hb.
  - by apply Acquire_wf.
  - by apply Exit_signal_wf.
  - by eapply Exit_join_wf.
  - by eapply Routine_step_wf.
Qed.

End lemmas.

Lemma ih_run_reach {HM} `{HintManager HM} cfg (ok : ih_label -> Prop) ls
    (s0 s s' : InteractionHandler HM) :
  ih_reach cfg ok s0 s -> Forall ok ls -> ih_run cfg ls s = Some s' -> ih_reach cfg ok s0 s'.
Proof.
  revert s. induction ls as [|l ls IH]; intros s Hr Hok Hrun; simplify_eq/=; [done|].
  apply bind_Some in Hrun as (s1 & Hs1 & Hrun). inversion Hok; subst.
  eapply IH; [|done|done]. by econstructor.
Qed.

Lemma perf_held_step {cfg} l (s s' : InteractionHandler hint_log) :
  not_exit l -> ih_wf s -> ih_exec cfg l s = Some s' ->
  perf_held (hl_calls (mHintManager s)) = Some (boosting (mState s)) ->
  perf_held (hl_calls (mHintManager s')) = Some (boosting (mState s')).
Proof.
  intros Hl [Hc Hw] Hs Hp. destruct l as [op ev|d now| | |a]; simpl in Hs; try done.
  - destruct (_ && _); simplify_eq. unfold Init.
    case_bool_decide as Hu; [done|]. rewrite Hu in Hp.
    by repeat case_match; simplify_eq/=; rewrite ?Hu.
  - simplify_eq. unfold Acquire. destruct (_ || _) eqn:Hb; [by simpl; rewrite Hp|].
    apply orb_false_iff in Hb as [_ Hu%bool_decide_eq_false]. destruct (previous_covers _ _ _); [done|].
    destruct s as [st ? ? ? ? hm n th]; simpl in *. destruct st; repeat case_bool_decide;
      simplify_eq/=; rewrite ?AbortWaitLocked_count by (simpl; lia); simpl; rewrite ?Hp; try done.
  - unfold Exit_join in Hs. by repeat case_match; simplify_eq.
  - unfold Routine_step in Hs. destruct (mThread s) as [[]|]; simplify_eq/=; [| |by repeat case_match; simplify_eq|].
    + by repeat case_bool_decide; simplify_eq/=; destruct (mState s).
    + done.
    + unfold Release. case_bool_decide as Hst; simpl; [|done]. by rewrite Hp, Hst.
Qed.

Section numbers.
Context (cfg : ih_config).

Lemma CalcTimespecDiffMs_same t : CalcTimespecDiffMs t t = 0.
Proof. unfold CalcTimespecDiffMs. by rewrite !Z.sub_diag. Qed.

Lemma finalDuration_cases d :
  ih_config_ok cfg -> 
  let input := d + kDurationOffsetMs cfg in
  kMinDurationMs cfg <= finalDuration cfg d <= kMaxDurationMs cfg /\
  (0 <= input < 2 ^ 31 ->
   finalDuration cfg d = Z.max (kMinDurationMs cfg) (Z.min input (kMaxDurationMs cfg))) /\
  (- 2 ^ 31 <= d -> input < 0 -> finalDuration cfg d = kMaxDurationMs cfg).
Proof.
  intros (Hmin & Hmax & Hoff) input. unfold finalDuration.
  assert (u32 (u32 d + kDurationOffsetMs cfg) = u32 input) as ->.
  { unfold wrap_u, input. by rewrite Zplus_mod_idemp_l. }
  rewrite wrap_s_wrap_u, wrap_u_wrap_s.
  rewrite (wrap_s_id 32 ltac:(lia) (kMinDurationMs cfg)) by lia.
  rewrite (wrap_s_id 32 ltac:(lia) (kMaxDurationMs cfg)) by lia.
  destruct (kMaxDurationMs cfg <? u32 input) eqn:E1;
    destruct (kMinDurationMs cfg <? u32 input) eqn:E2; subst input; clia.
Qed.

End numbers.

Section exit.
Context {HM : Type} `{HintManager HM}.
Implicit Types s : InteractionHandler HM.

Lemma Routine_step_exiting a s p :
  ih_wf s -> mState s = INTERACTION_STATE_UNINITIALIZED -> mThread s = Some p -> p <> RDone ->
  exists s' p', Routine_step a s = Some s' /\ mThread s' = Some p' /\
    mState s' = INTERACTION_STATE_UNINITIALIZED /\ mHintManager s' = mHintManager s /\
    S (phase_rank p') = phase_rank p.
Proof.
  intros [Hc Hw] Hu Ht Hp. rewrite Ht in Hw. unfold Routine_step. rewrite Ht.
  destruct p; try done; rewrite ?Hu; simpl.
  - by eexists _, _.
  - by eexists _, _.
  - rewrite (proj2 (Z.ltb_lt _ _)) by ih_solve. destruct (WaitForIdle a); by eexists _, _.
  - unfold Release. rewrite Hu. by eexists _, _.
Qed.

Lemma Routine_run_exiting answers s p :
  ih_wf s -> mState s = INTERACTION_STATE_UNINITIALIZED -> mThread s = Some p ->
  (phase_rank p <= length answers)%nat ->
  exists s', Routine_run answers s = Some s' /\ mThread s' = Some RDone /\
    mState s' = INTERACTION_STATE_UNINITIALIZED /\ mHintManager s' = mHintManager s.
Proof.
  revert s p. induction answers as [|a answers IH]; intros s p Hwf Hu Ht Hr; simpl in *.
  { destruct p; simpl in Hr; try lia. by exists s. }
  destruct (decide (p = RDone)) as [->|Hp]; [rewrite Ht; by exists s|].
  destruct (Routine_step_exiting a s p) as (s1 & p1 & Hs1 & Ht1 & Hu1 & Hm1 & Hr1); [done..|].
  destruct (IH s1 p1) as (s' & ? & ? & ? & Hm'); [by eapply Routine_step_wf|done|done|lia|].
  exists s'. rewrite Hm', <- Hm1. destruct p; try done; rewrite Ht, Hs1; done.
Qed.

End exit.

(** ** Properties *)

(** C1: in every state the interleavings of [Init], [Acquire], [Exit] and the
    idle thread can reach from a new handler, the state, the thread's position and
    the eventfd counter agree: the thread waits at the condition variable with no
    wait abort pending, a waiting state means the thread is inside [WaitForIdle]
    with an empty counter, and an interaction that arrived meanwhile has left
    exactly one abort pending. *)
Theorem ih_reachable_wf {HM} `{HintManager HM} cfg hm fd1 fd2 t s :
  ih_reach cfg any_label (InteractionHandler_new hm fd1 fd2 t) s -> ih_wf s.
Proof.
  induction 1; [by split|by eapply ih_exec_wf].
Qed.

(** C2: while the handler is up, the interaction hint is taken and given back
    in strict alternation, starting with a [DoHint], and it is held exactly in the
    states INTERACTION and WAITING: no interleaving of [Acquire] with the idle
    thread takes the boost twice or ends a boost that is not held. *)
Theorem perf_lock_alternates cfg sup run fd1 fd2 t s :
  ih_reach cfg not_exit (InteractionHandler_new (HintLog sup run []) fd1 fd2 t) s ->
  perf_held (hl_calls (mHintManager s)) = Some (boosting (mState s)).
Proof.
  intros Hr.
  enough (ih_wf s /\ perf_held (hl_calls (mHintManager s)) = Some (boosting (mState s))) by tauto.
  induction Hr as [|s l s' Hr [IHw IHp] Hl Hs]; [by repeat split|].
  split; [by eapply ih_exec_wf|by eapply perf_held_step].
Qed.

(** C3: after [Acquire] (display-idle support on, handler initialised) the boost
    is held and the recorded hint covers the requested one: the time since
    [mLastTimespec] plus the requested duration is at most [mDurationMs], whether
    the call started a new hint or found the previous one long enough. *)
Theorem acquire_covers_request {HM} `{HintManager HM} cfg (s : InteractionHandler HM) d now :
  ih_config_ok cfg -> kDisplayIdleSupport cfg = true ->
  mState s <> INTERACTION_STATE_UNINITIALIZED -> 0 <= mDurationMs s < 2 ^ 31 ->
  let s' := Acquire cfg d now s in
  boosting (mState s') = true /\
  CalcTimespecDiffMs (mLastTimespec s') now + finalDuration cfg d <= mDurationMs s'.
Proof.
  intros Hcfg Hsup Hst Hdur s'. subst s'. unfold Acquire.
  rewrite Hsup, bool_decide_false by done. simpl.
  destruct (finalDuration_cases cfg d Hcfg) as [Hf _]. destruct Hcfg as (Hmin & Hmax & _).
  destruct (previous_covers _ _ _) eqn:Hcov.
  - unfold previous_covers in Hcov.
    apply andb_true_iff in Hcov as [[Hidle Hle]%andb_true_iff Hel].
    rewrite wrap_u_id in Hel by lia. split; [|lia].
    apply negb_true_iff, bool_decide_eq_false in Hidle. by destruct (mState s).
  - unfold AbortWaitLocked, PerfLock. repeat case_match; simpl;
      rewrite CalcTimespecDiffMs_same; split; done || lia.
Qed.

(** the boost duration is always inside the configured limits; a request
    whose sum with the offset is a non-negative [int] is clamped to them. *)
Lemma finalDuration_clamped cfg d :
  ih_config_ok cfg ->
  kMinDurationMs cfg <= finalDuration cfg d <= kMaxDurationMs cfg /\
  (0 <= d + kDurationOffsetMs cfg < 2 ^ 31 ->
   finalDuration cfg d =
   Z.max (kMinDurationMs cfg) (Z.min (d + kDurationOffsetMs cfg) (kMaxDurationMs cfg))).
Proof. intros Hc. destruct (finalDuration_cases cfg d Hc) as (? & ? & _). by split. Qed.

(** a negative request below minus the offset gets the longest boost, not
    the shortest: the sum is compared as an unsigned number. *)
Lemma finalDuration_negative_is_max cfg d :
  ih_config_ok cfg -> - 2 ^ 31 <= d -> d + kDurationOffsetMs cfg < 0 ->
  finalDuration cfg d = kMaxDurationMs cfg.
Proof. intros Hc ? ?. destruct (finalDuration_cases cfg d Hc) as (_ & _ & ?). auto. Qed.

(** C4: [Exit] does not wait for ever.  From every consistent state with a
    running thread, once [Exit] has signalled, the thread returns after at most four
    of its own steps whatever the kernel answers, and [Exit] can join it.  On
    the way no hint is ended: a boost that was held when [Exit] was called is
    still requested afterwards. *)
Theorem exit_terminates_thread {HM} `{HintManager HM} (s : InteractionHandler HM) p answers :
  ih_wf s -> mThread s = Some p -> length answers = 4%nat ->
  exists s1 s2, Routine_run answers (Exit_signal s) = Some s1 /\ Exit_join s1 = Some s2 /\
  mThread s2 = None /\ mState s2 = INTERACTION_STATE_UNINITIALIZED /\
  mHintManager s2 = mHintManager s.
Proof.
  intros Hwf Ht Hl.
  assert (mThread (Exit_signal s) = Some p /\ mState (Exit_signal s) = INTERACTION_STATE_UNINITIALIZED
    /\ mHintManager (Exit_signal s) = mHintManager s) as (Ht' & Hu & Hm).
  { unfold Exit_signal, AbortWaitLocked. repeat case_match; try done.
    by case_bool_decide. }
  destruct (Routine_run_exiting answers (Exit_signal s) p) as (s1 & ? & Ht1 & ? & Hm1);
    [by apply Exit_signal_wf|done|done|destruct p; simpl; lia|].
  exists s1, (set_thread None s1). unfold Exit_join. rewrite Ht1. by rewrite <- Hm, <- Hm1.
Qed.

(** *** Witnesses *)

(** Start-up, a touch, the thread entering [WaitForIdle], and a longer touch
    that interrupts it. *)
Definition demo_labels : list ih_label :=
  [LInit (fun _ => 5) 6; LAcquire 2000 (Timespec 10 0);
   LRoutine (Build_idle_answers 0 1 "busy" 0 false false);
   LRoutine (Build_idle_answers 0 1 "busy" 0 false false);
   LAcquire 4000 (Timespec 11 500000000)].

Definition demo_start : InteractionHandler hint_log :=
  InteractionHandler_new (HintLog ["INTERACTION"] true []) 0 0 (Timespec 0 0).

Definition demo_end : InteractionHandler hint_log :=
  default demo_start (ih_run ih_default demo_labels demo_start).

(** [Routine] reads [mDurationMs] for [WaitForIdle] after it has released [mLock]: an
    [Acquire] that gets the lock in between writes it, and which of the two durations
    the thread waits for is open. *)
Lemma duration_read_races : exists s s',
  ih_reach ih_default any_label demo_start s /\ mThread s = Some RCall /\
  ih_exec ih_default (LAcquire 4000 (Timespec 11 0)) s = Some s' /\
  forall a, mThread <$> Routine_step a s = Some (Some (RPoll 2650)) /\
            mThread <$> Routine_step a s' = Some (Some (RPoll 4650)).
Proof.
  destruct (ih_run ih_default (take 3 demo_labels) demo_start) as [s|] eqn:E; [|vm_compute in E; discriminate E].
  exists s. eexists. split_and!.
  - eapply (ih_run_reach ih_default any_label (take 3 demo_labels) _ demo_start); [constructor|repeat constructor|exact E].
  - vm_compute in E. by injection E as <-.
  - reflexivity.
  - intros a. vm_compute in E. injection E as <-. by split.
Qed.

Lemma ih_reachable_wf_witness :
  mState demo_end = INTERACTION_STATE_INTERACTION /\ mEventCount demo_end = 1 /\ ih_wf demo_end.
Proof.
  split; [reflexivity|]. split; [reflexivity|].
  apply (ih_reachable_wf ih_default (HintLog ["INTERACTION"] true []) 0 0 (Timespec 0 0)).
  apply (ih_run_reach ih_default any_label demo_labels _ demo_start);
    [constructor|repeat constructor|vm_compute; reflexivity].
Defined.

Lemma perf_lock_alternates_witness :
  perf_held (hl_calls (mHintManager demo_end)) = Some true.
Proof.
  apply (perf_lock_alternates ih_default ["INTERACTION"] true 0 0 (Timespec 0 0)).
  apply (ih_run_reach ih_default not_exit demo_labels _ demo_start);
    [constructor|repeat constructor; discriminate|vm_compute; reflexivity].
Defined.

Lemma ih_default_ok : ih_config_ok ih_default.
Proof. unfold ih_config_ok; simpl; lia. Qed.

Lemma acquire_covers_request_witness :
  CalcTimespecDiffMs (mLastTimespec (Acquire ih_default 100 (Timespec 12 0) demo_end))
    (Timespec 12 0) + finalDuration ih_default 100 <= mDurationMs (Acquire ih_default 100 (Timespec 12 0) demo_end).
Proof.
  refine (proj2 (acquire_covers_request ih_default demo_end 100 (Timespec 12 0) _ _ _ _));
    [apply ih_default_ok|reflexivity|discriminate|vm_compute; split; congruence].
Defined.

Lemma finalDuration_clamped_witness : finalDuration ih_default 2000 = 2650.
Proof.
  apply (finalDuration_clamped ih_default 2000); [apply ih_default_ok|simpl; lia].
Defined.

Lemma finalDuration_negative_is_max_witness : finalDuration ih_default (-1000) = 5650.
Proof.
  apply (finalDuration_negative_is_max ih_default (-1000)); [apply ih_default_ok|lia|simpl; lia].
Defined.

Lemma exit_terminates_thread_witness :
  exists s1 s2, Routine_run (repeat (Build_idle_answers 1 0 "" 0 false false) 4)
      (Exit_signal demo_end) = Some s1 /\ Exit_join s1 = Some s2 /\
    mThread s2 = None /\ mState s2 = INTERACTION_STATE_UNINITIALIZED /\
    mHintManager s2 = mHintManager demo_end.
Proof.
  apply (exit_terminates_thread demo_end (RPoll 2650));
    [split; vm_compute; [split; congruence|naive_solver]|reflexivity|reflexivity].
Defined.
