(* ===== verification/Doubles.v ===== *)
(** IEEE 754 arithmetic for the sources' [double] and [float] expressions.

    Values and operations are the Standard Library's executable [SpecFloat]
    (binary64 and binary32, round to nearest even).  On top of it: conversions
    from integers, C's float-to-integer conversions, where a value that is not
    finite or does not fit is undefined behaviour ([None]), [lround], and the
    facts the components need: division by zero leaves the finite numbers, small
    integers convert exactly, and a bound on the magnitude of an operation. *)
From S2P Require Import Prelude.
From Stdlib Require Import SpecFloat.

Abbreviation double := spec_float.
Abbreviation float := spec_float.

Definition d_of_Z (z : Z) : double := binary_normalize 53 1024 z 0 false.
Definition dmul : double -> double -> double := SFmul 53 1024.
Definition ddiv : double -> double -> double := SFdiv 53 1024.
Definition deq : double -> double -> bool := SFeqb.

Definition f_of_Z (z : Z) : float := binary_normalize 24 128 z 0 false.
Definition fmul : float -> float -> float := SFmul 24 128.
Definition fsub : float -> float -> float := SFsub 24 128.
Definition fdiv : float -> float -> float := SFdiv 24 128.
Definition feq : float -> float -> bool := SFeqb.

(** The widening conversion, which is exact. *)
Definition d_of_float (x : float) : double :=
  match x with
  | S754_finite s m e => binary_normalize 53 1024 (if s then Z.neg m else Z.pos m) e s
  | _ => x
  end.

Definition cond_opp (s : bool) (z : Z) : Z := if s then - z else z.

(** Truncation towards zero of a finite number. *)
Definition trunc (x : spec_float) : option Z :=
  match x with
  | S754_zero _ => Some 0
  | S754_finite s m e =>
      Some (cond_opp s (if 0 <=? e then Z.pos m * 2 ^ e else Z.pos m / 2 ^ (- e)))
  | _ => None
  end.

(** [static_cast<int64_t>(x)] *)
Definition d_to_i64 (x : double) : option Z := z ← trunc x; ck64 z.

(** [std::lround]: to nearest, halfway cases away from zero, as a 64-bit [long]. *)
Definition lround (x : double) : option Z :=
  match x with
  | S754_zero _ => Some 0
  | S754_finite s m e =>
      ck64 (cond_opp s (if 0 <=? e then Z.pos m * 2 ^ e
                        else (2 * Z.pos m + 2 ^ (- e)) / 2 ^ (1 - e)))
  | _ => None
  end.

(** The constants of the sources; a decimal literal is the correctly rounded
    quotient. *)
Definition d_lit (num den : Z) : double := ddiv (d_of_Z num) (d_of_Z den).

Definition d_finite (x : double) : bool :=
  match x with S754_zero _ | S754_finite _ _ _ => true | _ => false end.

(** [d_le x k]: [x] is finite with [|x| <= 2 ^ k]. *)
Definition d_le (x : double) (k : Z) : Prop :=
  match x with
  | S754_zero _ => True
  | S754_finite _ m e => e <= k /\ Z.pos m <= 2 ^ (k - e)
  | _ => False
  end.

(** [d_ge1 x]: [x] is finite with [|x| >= 1]. *)
Definition d_ge1 (x : double) : Prop :=
  match x with
  | S754_finite _ m e => 0 <= e \/ 2 ^ (- e) <= Z.pos m
  | _ => False
  end.

(** ** Division by zero *)

Lemma ddiv_zero_not_finite x : d_finite (ddiv x (d_of_Z 0)) = false.
Proof. by destruct x. Qed.

Lemma ddiv_not_finite x y : d_finite x = false -> d_finite (ddiv x y) = false.
Proof. by destruct x, y. Qed.

Lemma d_to_i64_not_finite x : d_finite x = false -> d_to_i64 x = None.
Proof. by destruct x. Qed.

(** ** Magnitude of a rounded result *)

Lemma digits2_pos_bounds p : 2 ^ (Z.pos (digits2_pos p) - 1) <= Z.pos p < 2 ^ Z.pos (digits2_pos p).
Proof.
  induction p as [p IH|p IH|]; simpl digits2_pos; [| |lia].
  all: rewrite Pos2Z.inj_succ; replace (Z.succ (Z.pos (digits2_pos p)) - 1)
    with (Z.succ (Z.pos (digits2_pos p) - 1)) by lia; rewrite !Z.pow_succ_r by lia; lia.
Qed.

Lemma Zdigits2_le m j : 0 <= j -> 0 <= m <= 2 ^ j -> Zdigits2 m <= j + 1.
Proof.
  intros Hj Hm. destruct m as [|p|p]; simpl; [lia| |lia].
  destruct (digits2_pos_bounds p) as [Hl _].
  destruct (Z.le_gt_cases (Z.pos (digits2_pos p)) (j + 1)) as [|Hgt]; [done|].
  assert (2 ^ (j + 1) <= 2 ^ (Z.pos (digits2_pos p) - 1)) by (apply Z.pow_le_mono_r; lia).
  rewrite Z.pow_add_r in * by lia. lia.
Qed.

Lemma Zdigits2_pos m : 0 < m -> 1 <= Zdigits2 m.
Proof. destruct m; simpl; lia. Qed.

Lemma shr_1_m mrs : 0 <= shr_m mrs -> shr_m (shr_1 mrs) = shr_m mrs / 2.
Proof.
  destruct mrs as [m r s]; cbn [shr_m].
  destruct m as [|[p|p|]|]; cbn [shr_1 shr_m]; try done; intros _.
  - apply Z.div_unique with 1; lia.
  - apply Z.div_unique with 0; lia.
Qed.

Lemma iter_shr_1_m p mrs :
  0 <= shr_m mrs -> shr_m (iter_pos shr_1 p mrs) = shr_m mrs / 2 ^ Z.pos p.
Proof.
  assert (forall a b, 0 <= a -> 0 <= a / 2 ^ Z.pos b) as Hdiv by (intros; apply Z.div_pos; lia).
  revert mrs. induction p as [q IH|q IH|]; intros mrs Hm; simpl iter_pos.
  - pose proof (shr_1_m mrs Hm) as H1. pose proof (Hdiv _ 1%positive Hm) as H2.
    change (2 ^ 1) with 2 in H2.
    rewrite IH; rewrite IH; rewrite H1; auto.
    rewrite Pos2Z.inj_xI, !Z.div_div by lia. f_equal.
    replace (2 * Z.pos q + 1) with (1 + Z.pos q + Z.pos q) by lia.
    rewrite !Z.pow_add_r by lia. lia.
  - rewrite IH; rewrite IH; auto.
    rewrite Z.div_div, <- Z.pow_add_r by lia. do 2 f_equal. lia.
  - by apply shr_1_m.
Qed.

Lemma shr_spec mrs e n :
  0 <= shr_m mrs ->
  let '(mrs', e') := shr mrs e n in
  e' = e + Z.max 0 n /\ shr_m mrs' = shr_m mrs / 2 ^ Z.max 0 n.
Proof.
  intros Hm. destruct n as [|p|p]; simpl; rewrite ?Z.div_1_r; split; try lia.
  by apply iter_shr_1_m.
Qed.

Lemma pow2_div_le m k j : 0 <= j <= k -> m <= 2 ^ k -> m / 2 ^ j <= 2 ^ (k - j).
Proof.
  intros Hj Hm. rewrite Z.pow_sub_r by lia. apply Z.div_le_mono; lia.
Qed.

(** Normalising the exponent keeps a bound [2 ^ k] on the value. *)
Lemma shr_fexp_le m e l k :
  0 <= k -> 0 <= m -> e <= k -> m <= 2 ^ (k - e) ->
  let '(mrs, e') := shr_fexp 53 1024 m e l in
  e' <= k /\ 0 <= shr_m mrs <= 2 ^ (k - e').
Proof.
  intros Hk Hm He Hle. unfold shr_fexp.
  set (n := fexp 53 1024 (Zdigits2 m + e) - e).
  assert (Hsm : shr_m (shr_record_of_loc m l) = m) by (by destruct l as [|[]]).
  pose proof (shr_spec (shr_record_of_loc m l) e n) as Hs. rewrite Hsm in Hs.
  destruct (shr _ _ _) as [mrs e']. destruct (Hs Hm) as [-> ->].
  assert (e + Z.max 0 n <= k).
  { pose proof (Zdigits2_le m (k - e)). unfold n, fexp, emin. lia. }
  split; [done|]. split; [apply Z.div_pos; lia|].
  replace (k - (e + Z.max 0 n)) with (k - e - Z.max 0 n) by lia. apply pow2_div_le; lia.
Qed.

Lemma round_nearest_even_le m l : m <= round_nearest_even m l <= m + 1.
Proof. destruct l as [|[]]; simpl; try case_match; lia. Qed.

(** Rounding at most doubles the bound. *)
Lemma binary_round_aux_le s m e l k :
  0 <= k <= 900 -> 0 <= m -> e <= k -> m <= 2 ^ (k - e) ->
  d_le (binary_round_aux 53 1024 s m e l) (k + 1).
Proof.
  intros Hk Hm He Hle. unfold binary_round_aux.
  pose proof (shr_fexp_le m e l k ltac:(lia) Hm He Hle) as H1.
  destruct (shr_fexp 53 1024 m e l) as [mrs1 e1]. destruct H1 as (He1 & Hm1 & Hm1').
  set (m2 := round_nearest_even _ _).
  pose proof (round_nearest_even_le (shr_m mrs1) (loc_of_shr_record mrs1)) as Hr.
  assert (m2 <= 2 ^ (k + 1 - e1)).
  { replace (k + 1 - e1) with (Z.succ (k - e1)) by lia. rewrite Z.pow_succ_r by lia.
    subst m2. pose proof (Z.pow_pos_nonneg 2 (k - e1)). lia. }
  pose proof (shr_fexp_le m2 e1 loc_Exact (k + 1) ltac:(lia) ltac:(subst m2; lia) ltac:(lia) ltac:(done))
    as H2.
  destruct (shr_fexp 53 1024 m2 e1 loc_Exact) as [mrs2 e2]. destruct H2 as (He2 & Hm2 & Hm2').
  destruct (shr_m mrs2) as [|p|p]; [done| |lia].
  rewrite (proj2 (Z.leb_le _ _)) by lia. done.
Qed.

Lemma d_le_mono x j k : d_le x j -> j <= k -> d_le x k.
Proof.
  destruct x; simpl; try done. intros [? ?] ?. split; [lia|].
  etrans; [done|]. apply Z.pow_le_mono_r; lia.
Qed.

Lemma dmul_le x y j k :
  0 <= j -> 0 <= k -> j + k <= 900 -> d_le x j -> d_le y k -> d_le (dmul x y) (j + k + 1).
Proof.
  intros Hj Hk Hjk Hx Hy. destruct x as [| | |sx mx ex], y as [| | |sy my ey]; try done.
  destruct Hx as [Hex Hmx], Hy as [Hey Hmy]. unfold dmul, SFmul.
  apply binary_round_aux_le; [lia|lia|lia|].
  replace (j + k - (ex + ey)) with ((j - ex) + (k - ey)) by lia.
  rewrite Z.pow_add_r, Pos2Z.inj_mul by lia. nia.
Qed.

Lemma div_le_of_mul a b c : 0 < b -> 0 <= c -> a <= c * b -> a / b <= c.
Proof. intros Hb Hc Ha. apply Z.div_le_upper_bound; lia. Qed.

(** Dividing by a number of magnitude at least one. *)
Lemma ddiv_le x y k :
  0 <= k <= 900 -> d_le x k -> d_ge1 y -> d_le (ddiv x y) (k + 1).
Proof.
  intros Hk Hx Hy. destruct y as [| | |sy my ey]; try done.
  destruct x as [| | |sx mx ex]; try done. destruct Hx as [Hex Hmx].
  unfold ddiv, SFdiv, SFdiv_core_binary.
  set (e' := Z.min _ (ex - ey)). set (s := ex - ey - e').
  assert (Hs : 0 <= s) by (unfold s, e'; lia).
  replace (match s with 0 => Z.pos mx | Z.pos _ => Z.shiftl (Z.pos mx) s | Z.neg _ => 0 end)
    with (Z.pos mx * 2 ^ s)
    by (destruct s; [lia|by rewrite Z.shiftl_mul_pow2 by lia|lia]).
  pose proof (Z_div_mod (Z.pos mx * 2 ^ s) (Z.pos my) ltac:(lia)) as Hdm.
  destruct (Z.div_eucl _ _) as [q r]. destruct Hdm as [Hq Hr].
  assert (Hdy : 1 <= Zdigits2 (Z.pos my) + ey).
  { simpl. destruct (digits2_pos_bounds my) as [_ Hu]. simpl in Hy.
    destruct (Z.le_gt_cases 0 ey); [lia|]. destruct Hy as [|Hy]; [lia|].
    destruct (Z.le_gt_cases (Z.pos (digits2_pos my)) (- ey)); [|lia].
    pose proof (Z.pow_le_mono_r 2 (Z.pos (digits2_pos my)) (- ey)). lia. }
  assert (He' : e' <= k).
  { pose proof (Zdigits2_le (Z.pos mx) (k - ex)). unfold e', fexp, emin. lia. }
  assert (Hmxs : Z.pos mx * 2 ^ s <= 2 ^ (k - ey - e')).
  { replace (k - ey - e') with ((k - ex) + s) by (unfold s; lia).
    rewrite Z.pow_add_r by (unfold s; lia). nia. }
  apply binary_round_aux_le; [done| |done|].
  - pose proof (Z.pow_pos_nonneg 2 s). nia.
  - simpl in Hy. destruct (Z.le_gt_cases 0 ey) as [Hey|Hey].
    + assert (2 ^ (k - ey - e') <= 2 ^ (k - e')) by (apply Z.pow_le_mono_r; lia). nia.
    + destruct Hy as [|Hy]; [lia|].
      replace (k - ey - e') with ((k - e') + - ey) in Hmxs by lia.
      rewrite Z.pow_add_r in Hmxs by lia.
      pose proof (Z.pow_pos_nonneg 2 (- ey)). pose proof (Z.pow_pos_nonneg 2 (k - e')). nia.
Qed.

(** [shl_align] rewrites a number with a smaller exponent. *)
Lemma shl_align_spec m e e' :
  let '(mz, ez) := shl_align m e e' in
  ez = Z.min e e' /\ Z.pos mz = Z.pos m * 2 ^ (e - Z.min e e').
Proof.
  unfold shl_align. destruct (e' - e) as [|d|d] eqn:E.
  - rewrite Z.min_l, Z.sub_diag by lia. lia.
  - rewrite Z.min_l, Z.sub_diag by lia. lia.
  - split; [lia|]. rewrite Z.min_r by lia. replace (e - e') with (Z.pos d) by lia.
    change (Z.pos (shift_pos d m) = Z.pos m * 2 ^ Z.pos d).
    rewrite shift_pos_correct. apply Z.mul_comm.
Qed.

Lemma d_of_Z_le z k : 0 <= k <= 900 -> Z.abs z <= 2 ^ k -> d_le (d_of_Z z) (k + 1).
Proof.
  intros Hk Hz. unfold d_of_Z, binary_normalize, binary_round.
  destruct z as [|p|p]; [done| |]; simpl Z.abs in Hz.
  all: pose proof (shl_align_spec p 0 (fexp 53 1024 (Z.pos (digits2_pos p) + 0))) as Hs;
    destruct (shl_align _ _ _) as [mz ez]; destruct Hs as [-> Hm];
    apply binary_round_aux_le; [done|lia|lia|]; rewrite Hm;
    set (n := Z.min _ _); replace (k - n) with (k + (0 - n)) by lia;
    rewrite Z.pow_add_r by lia; apply Z.mul_le_mono_nonneg_r; [apply Z.pow_nonneg|]; lia.
Qed.

(** A normalised 53-bit significand is not changed by rounding. *)
Lemma shr_fexp_normal m e :
  0 < m -> Zdigits2 m = 53 -> -1074 <= e -> 
  shr_fexp 53 1024 m e loc_Exact = (Build_shr_record m false false, e).
Proof.
  intros Hm Hd He. unfold shr_fexp. rewrite Hd. unfold fexp, emin.
  replace (Z.max _ _ - e) with 0 by lia. done.
Qed.

Lemma Zdigits2_unique m d : 0 < d -> 2 ^ (d - 1) <= m < 2 ^ d -> Zdigits2 m = d.
Proof.
  intros Hd Hm. destruct m as [|p|p]; simpl.
  - pose proof (Z.pow_pos_nonneg 2 (d - 1)). lia.
  - destruct (digits2_pos_bounds p) as [Hl Hu].
    destruct (Z.lt_trichotomy (Z.pos (digits2_pos p)) d) as [Hlt|[->|Hgt]]; [|done|].
    + pose proof (Z.pow_le_mono_r 2 (Z.pos (digits2_pos p)) (d - 1)). lia.
    + pose proof (Z.pow_le_mono_r 2 d (Z.pos (digits2_pos p) - 1)). lia.
  - pose proof (Z.pow_pos_nonneg 2 (d - 1)). lia.
Qed.

(** Integers of at most 53 bits convert exactly. *)
Lemma d_of_Z_exact p :
  Z.pos p < 2 ^ 53 ->
  exists m e, d_of_Z (Z.pos p) = S754_finite false m e /\
    d_of_Z (Z.neg p) = S754_finite true m e /\ -1074 <= e <= 0 /\ Z.pos m = Z.pos p * 2 ^ (- e).
Proof.
  intros Hp. destruct (digits2_pos_bounds p) as [Hl Hu].
  set (d := Z.pos (digits2_pos p)) in *.
  assert (Hd : 1 <= d <= 53).
  { split; [lia|]. destruct (Z.le_gt_cases d 53); [done|].
    pose proof (Z.pow_le_mono_r 2 53 (d - 1)). lia. }
  pose proof (shl_align_spec p 0 (fexp 53 1024 (d + 0))) as Hs.
  unfold d_of_Z, binary_normalize, binary_round. fold d.
  assert (Hf : fexp 53 1024 (d + 0) = d - 53) by (unfold fexp, emin; lia).
  rewrite Hf in *. destruct (shl_align _ _ _) as [mz ez]. destruct Hs as [-> Hm].
  rewrite Z.min_r in * by lia. replace (0 - (d - 53)) with (53 - d) in Hm by lia.
  assert (Hdz : Zdigits2 (Z.pos mz) = 53).
  { apply Zdigits2_unique; [lia|]. rewrite Hm.
    replace (53 - 1) with ((d - 1) + (53 - d)) by lia.
    replace 53 with (d + (53 - d)) at 4 by lia. rewrite !Z.pow_add_r by lia.
    pose proof (Z.pow_pos_nonneg 2 (53 - d)). nia. }
  exists mz, (d - 53). unfold binary_round_aux.
  rewrite shr_fexp_normal by lia. simpl shr_m. simpl loc_of_shr_record.
  change (round_nearest_even (Z.pos mz) loc_Exact) with (Z.pos mz).
  rewrite shr_fexp_normal by lia. simpl shr_m.
  rewrite (proj2 (Z.leb_le _ _)) by lia.
  repeat split; try lia. rewrite Hm. do 2 f_equal. lia.
Qed.

Lemma d_of_Z_ge1 z : z <> 0 -> Z.abs z < 2 ^ 53 -> d_ge1 (d_of_Z z).
Proof.
  intros Hz Hb. destruct z as [|p|p]; [done| |]; simpl Z.abs in Hb;
    destruct (d_of_Z_exact p Hb) as (m & e & Hpos & Hneg & He & Hm);
    rewrite ?Hpos, ?Hneg; simpl; right; rewrite Hm;
    pose proof (Z.pow_pos_nonneg 2 (- e)); nia.
Qed.

(** ** Conversion back to integers *)

Lemma trunc_le x k : 0 <= k -> d_le x k -> exists z, trunc x = Some z /\ Z.abs z <= 2 ^ k.
Proof.
  intros Hk Hx. destruct x as [| | |s m e]; simpl in *; try done.
  - exists 0. split; [done|]. pose proof (Z.pow_pos_nonneg 2 k). lia.
  - eexists; split; [done|]. destruct Hx as [He Hm].
    assert (Z.abs (cond_opp s (if 0 <=? e then Z.pos m * 2 ^ e else Z.pos m / 2 ^ (- e))) =
      (if 0 <=? e then Z.pos m * 2 ^ e else Z.pos m / 2 ^ (- e))) as ->.
    { destruct s, (0 <=? e) eqn:E; simpl; rewrite ?Z.abs_opp; apply Z.abs_eq;
        try (apply Z.div_pos; [lia|apply Z.pow_pos_nonneg; lia]);
        pose proof (Z.pow_pos_nonneg 2 e); nia. }
    destruct (0 <=? e) eqn:E.
    + replace k with ((k - e) + e) at 1 by lia. rewrite Z.pow_add_r by lia.
      pose proof (Z.pow_pos_nonneg 2 e). nia.
    + replace k with ((k - e) - (- e)) at 1 by lia. apply pow2_div_le; lia.
Qed.

Lemma d_to_i64_le x k :
  0 <= k <= 62 -> d_le x k -> exists z, d_to_i64 x = Some z /\ Z.abs z <= 2 ^ k.
Proof.
  intros Hk Hx. destruct (trunc_le x k ltac:(lia) Hx) as (z & Ht & Hz).
  exists z. split; [|done]. unfold d_to_i64. rewrite Ht. simpl.
  apply ck_s_in. pose proof (Z.pow_le_mono_r 2 k 62). width_simpl.
  change (2 ^ 62) with 4611686018427387904 in *. lia.
Qed.
