(* ===== verification/Session.v ===== *)
(** Model of [PowerHintSession] (src/aidl/power-libperfmgr/PowerHintSession.{h,cpp}):
    one ADPF session, its PID controller and its stale timer.

    A method is a function from the session to a status, the new session and the
    effects it has outside the object, in the order the source performs them:
    [sched_setattr] calls, messages to the looper, and the registration with
    [PowerSessionManager] (SessionManager.v runs the effects).  Clock readings
    and [PowerHintMonitor::isRunning] are arguments.  [None] is undefined
    behaviour: a signed overflow, an integer division by zero, or a conversion to
    [int64_t] of a [double] that does not fit.  Tracing only matters where it
    evaluates a division; SessionTrace has what it writes. *)
From S2P Require Import Prelude Doubles.

(** ** Tunables *)

(** The namespace-level constants, after start-up. *)
Record tunables := {
  kPowerHalAdpfUclamp : bool;
  sPidPOver : double;
  sPidPUnder : double;
  sPidI : double;
  sPidDOver : double;
  sPidDUnder : double;
  sPidIInit : Z;
  sPidIHighLimit : Z;
  sPidILowLimit : Z;
  sUclampMinHighLimit : Z;
  sUclampMinLowLimit : Z;
  sUclampMinGranularity : Z;
  sStaleTimeFactor : Z;
  sPSamplingWindow : Z;
  sISamplingWindow : Z;
  sDSamplingWindow : Z
}.

(** libbase's property functions, as the initialisers call them. *)
Record property_source := {
  GetProperty : string -> string -> string;
  GetBoolProperty : string -> bool -> bool;
  GetIntProperty : string -> Z -> Z;
  GetUintProperty : string -> Z -> Z;
  ParseDouble : string -> option double;
  to_string_double : double -> string
}.

Definition getDoubleProperty (env : property_source) (prop : string) (value : double) : double :=
  let result := GetProperty env prop (to_string_double env value) in
  match ParseDouble env result with
  | Some v => v
  | None => value
  end.

(** [sPidI == 0 ? 0 : static_cast<int64_t>(GetIntProperty(...) / sPidI)] *)
Definition pid_limit (env : property_source) (i : double) (prop : string) (default_value : Z) :
    option Z :=
  if deq i (d_of_Z 0) then Some 0
  else d_to_i64 (ddiv (d_of_Z (GetIntProperty env prop default_value)) i).

Definition load_tunables (env : property_source) : option tunables :=
  let i := getDoubleProperty env "vendor.powerhal.adpf.pid_i" (d_lit 1 1000) in
  i_init ← pid_limit env i "vendor.powerhal.adpf.pid_i.init" 200;
  i_high ← pid_limit env i "vendor.powerhal.adpf.pid_i.high_limit" 512;
  i_low ← pid_limit env i "vendor.powerhal.adpf.pid_i.low_limit" (-30);
  Some {|
    kPowerHalAdpfUclamp := GetBoolProperty env "vendor.powerhal.adpf.uclamp" true;
    sPidPOver := getDoubleProperty env "vendor.powerhal.adpf.pid_p.over" (d_of_Z 2);
    sPidPUnder := getDoubleProperty env "vendor.powerhal.adpf.pid_p.under" (d_of_Z 1);
    sPidI := i;
    sPidDOver := getDoubleProperty env "vendor.powerhal.adpf.pid_d.over" (d_of_Z 500);
    sPidDUnder := getDoubleProperty env "vendor.powerhal.adpf.pid_d.under" (d_of_Z 0);
    sPidIInit := i_init;
    sPidIHighLimit := i_high;
    sPidILowLimit := i_low;
    sUclampMinHighLimit := i32 (GetUintProperty env "vendor.powerhal.adpf.uclamp_min.high_limit" 384);
    sUclampMinLowLimit := i32 (GetUintProperty env "vendor.powerhal.adpf.uclamp_min.low_limit" 2);
    sUclampMinGranularity := GetUintProperty env "vendor.powerhal.adpf.uclamp_min.granularity" 5;
    sStaleTimeFactor := GetUintProperty env "vendor.powerhal.adpf.stale_timeout_factor" 20;
    sPSamplingWindow := GetUintProperty env "vendor.powerhal.adpf.p.window" 1;
    sISamplingWindow := GetUintProperty env "vendor.powerhal.adpf.i.window" 0;
    sDSamplingWindow := GetUintProperty env "vendor.powerhal.adpf.d.window" 1
  |}.

(** ** Data *)

Definition kMaxUclampValue : Z := 1024.

Record AppHintDesc := {
  tgid : Z;
  uid : Z;
  threadIds : list Z;
  duration : Z;
  current_min : Z;
  is_active : bool;
  update_count : Z;
  integral_error : Z;
  previous_error : Z
}.

Record StaleHandler := {
  mIsMonitoringStale : bool;
  mLastUpdatedTime : Z
}.

Record PowerHintSession := {
  mDescriptor : AppHintDesc;
  mStaleHandler : StaleHandler;
  kAdpfRate : Z;
  mSessionClosed : bool
}.

(** What a method does outside the session.  [EffSched] is one [sched_setattr]
    with its [sched_util_min] and [sched_util_max]. *)
Inductive effect :=
  | EffSched (tid util_min util_max : Z)
  | EffUpdateBoostMode
  | EffArmStale (delay_ns : Z)
  | EffRemoveStale
  | EffAddPowerSession
  | EffRemovePowerSession.

#[export] Instance effect_eq_dec : EqDecision effect.
Proof. solve_decision. Defined.

Definition with_desc (f : AppHintDesc -> AppHintDesc) (s : PowerHintSession) : PowerHintSession :=
  {| mDescriptor := f (mDescriptor s); mStaleHandler := mStaleHandler s;
     kAdpfRate := kAdpfRate s; mSessionClosed := mSessionClosed s |}.

Definition with_stale (h : StaleHandler) (s : PowerHintSession) : PowerHintSession :=
  {| mDescriptor := mDescriptor s; mStaleHandler := h;
     kAdpfRate := kAdpfRate s; mSessionClosed := mSessionClosed s |}.

Definition with_closed (b : bool) (s : PowerHintSession) : PowerHintSession :=
  {| mDescriptor := mDescriptor s; mStaleHandler := mStaleHandler s;
     kAdpfRate := kAdpfRate s; mSessionClosed := b |}.

Definition set_current_min (m : Z) (d : AppHintDesc) : AppHintDesc :=
  {| tgid := tgid d; uid := uid d; threadIds := threadIds d; duration := duration d;
     current_min := m; is_active := is_active d; update_count := update_count d;
     integral_error := integral_error d; previous_error := previous_error d |}.

Definition set_active (b : bool) (d : AppHintDesc) : AppHintDesc :=
  {| tgid := tgid d; uid := uid d; threadIds := threadIds d; duration := duration d;
     current_min := current_min d; is_active := b; update_count := update_count d;
     integral_error := integral_error d; previous_error := previous_error d |}.

Definition set_integral (e : Z) (d : AppHintDesc) : AppHintDesc :=
  {| tgid := tgid d; uid := uid d; threadIds := threadIds d; duration := duration d;
     current_min := current_min d; is_active := is_active d; update_count := update_count d;
     integral_error := e; previous_error := previous_error d |}.

Definition set_duration_ns (ns : Z) (d : AppHintDesc) : AppHintDesc :=
  {| tgid := tgid d; uid := uid d; threadIds := threadIds d; duration := ns;
     current_min := current_min d; is_active := is_active d; update_count := update_count d;
     integral_error := integral_error d; previous_error := previous_error d |}.

(** The fields the PID loop leaves behind, with [update_count++]. *)
Definition set_pid (integral previous : Z) (d : AppHintDesc) : AppHintDesc :=
  {| tgid := tgid d; uid := uid d; threadIds := threadIds d; duration := duration d;
     current_min := current_min d; is_active := is_active d;
     update_count := u64 (update_count d + 1);
     integral_error := integral; previous_error := previous |}.

(** ** Operations *)

Definition ns_to_100us (ns : Z) : Z := Z.quot ns 100000.

Section session.
Context (t : tunables).

Definition sched_setattr_calls (tids : list Z) (min max : Z) : list effect :=
  if kPowerHalAdpfUclamp t then map (fun tid => EffSched tid (u32 min) (u32 max)) tids else [].

Definition setUclamp (min max : Z) (s : PowerHintSession) : PowerHintSession * list effect :=
  let min := Z.max 0 min in
  let min := Z.min min max in
  let max := Z.max 0 max in
  let max := Z.max min max in
  (with_desc (set_current_min min) s, sched_setattr_calls (threadIds (mDescriptor s)) min max).

Definition PowerHintSession_new (tg u : Z) (tids : list Z) (durationNanos adpfRate now : Z) :
    PowerHintSession * list effect :=
  let s := {| mDescriptor := {| tgid := tg; uid := u; threadIds := tids;
                duration := durationNanos; current_min := 0; is_active := true;
                update_count := 0; integral_error := 0; previous_error := 0 |};
              mStaleHandler := {| mIsMonitoringStale := false; mLastUpdatedTime := now |};
              kAdpfRate := adpfRate; mSessionClosed := false |} in
  let '(s, eff) := setUclamp (sUclampMinHighLimit t) kMaxUclampValue s in
  (s, EffAddPowerSession :: eff).

Definition pause (s : PowerHintSession) : ScopedAStatus * PowerHintSession * list effect :=
  if negb (is_active (mDescriptor s)) then (fromExceptionCode EX_ILLEGAL_STATE, s, [])
  else
    let '(s, eff) := setUclamp 0 kMaxUclampValue s in
    (status_ok, with_desc (set_active false) s, eff ++ [EffUpdateBoostMode]).

Definition resume (s : PowerHintSession) : ScopedAStatus * PowerHintSession * list effect :=
  if is_active (mDescriptor s) then (fromExceptionCode EX_ILLEGAL_STATE, s, [])
  else
    let s := with_desc (set_active true) s in
    let s := with_desc (set_integral (Z.max (sPidIInit t) (integral_error (mDescriptor s)))) s in
    let '(s, eff) := setUclamp (sUclampMinHighLimit t) kMaxUclampValue s in
    (status_ok, s, eff ++ [EffUpdateBoostMode]).

Definition close (s : PowerHintSession) : ScopedAStatus * PowerHintSession * list effect :=
  if mSessionClosed s then (fromExceptionCode EX_ILLEGAL_STATE, s, [])
  else
    let s := with_closed true s in
    let '(s, eff) := setUclamp 0 kMaxUclampValue s in
    (status_ok, s, [EffRemoveStale] ++ eff ++ [EffRemovePowerSession; EffUpdateBoostMode]).

(** The quotient of the two [int64_t] is an integer division; only its result
    becomes a [double]. *)
Definition updateTargetWorkDuration (targetDurationNanos : Z) (s : PowerHintSession) :
    option (ScopedAStatus * PowerHintSession) :=
  if targetDurationNanos <=? 0 then Some (fromExceptionCode EX_ILLEGAL_ARGUMENT, s)
  else
    let d := mDescriptor s in
    q ← ck64 (Z.quot (duration d) targetDurationNanos);
    let ratio := d_of_Z q in
    scaled ← d_to_i64 (dmul (d_of_Z (integral_error d)) ratio);
    let s := with_desc (set_integral (Z.max (sPidIInit t) scaled)) s in
    Some (status_ok, with_desc (set_duration_ns targetDurationNanos) s).

(** *** The PID controller *)

Record pid_acc := {
  err_sum : Z;
  derivative_sum : Z;
  pid_integral : Z;
  pid_previous : Z
}.

Definition window_start (window length : Z) : Z :=
  if (window =? 0) || (length <? window) then 0 else length - window.

(** The body of the loop, for sample number [i]. *)
Definition pid_sample (target dt p_start i_start d_start i actual : Z) (a : pid_acc) :
    option pid_acc :=
  _ ← ck64 (Z.abs actual);
  _ ← ck64 (target * 20);
  diff ← ck64 (actual - target);
  let error := ns_to_100us diff in
  dsum ← (if d_start <=? i
          then (x ← ck64 (error - pid_previous a); ck64 (derivative_sum a + x))
          else Some (derivative_sum a));
  esum ← (if p_start <=? i then ck64 (err_sum a + error) else Some (err_sum a));
  integral ← (if i_start <=? i
              then (x ← ck64 (error * dt); y ← ck64 (pid_integral a + x);
                    Some (Z.max (sPidILowLimit t) (Z.min (sPidIHighLimit t) y)))
              else Some (pid_integral a));
  Some {| err_sum := esum; derivative_sum := dsum; pid_integral := integral;
          pid_previous := error |}.

Fixpoint pid_loop (target dt p_start i_start d_start i : Z) (samples : list Z) (a : pid_acc) :
    option pid_acc :=
  match samples with
  | [] => Some a
  | actual :: samples =>
      a ← pid_sample target dt p_start i_start d_start i actual a;
      pid_loop target dt p_start i_start d_start (i + 1) samples a
  end.

Definition pOut (a : pid_acc) (n : Z) : option Z :=
  d_to_i64 (ddiv (dmul (if 0 <? err_sum a then sPidPOver t else sPidPUnder t)
                       (d_of_Z (err_sum a))) (d_of_Z n)).

Definition iOut (a : pid_acc) : option Z := d_to_i64 (dmul (sPidI t) (d_of_Z (pid_integral a))).

Definition dOut (a : pid_acc) (dt n : Z) : option Z :=
  d_to_i64 (ddiv (ddiv (dmul (if 0 <? derivative_sum a then sPidDOver t else sPidDUnder t)
                             (d_of_Z (derivative_sum a))) (d_of_Z dt)) (d_of_Z n)).

(** The two integer divisions that tracing evaluates. *)
Definition trace_divisions (atrace : bool) (a : pid_acc) (dt np nd : Z) : option unit :=
  if atrace then
    _ ← (if np =? 0 then None else ck64 (Z.quot (err_sum a) np));
    _ ← (if (dt =? 0) || (nd =? 0) then None else ck64 (Z.quot (derivative_sum a) dt));
    Some tt
  else Some tt.

(** The controller: the state it leaves and its output. *)
Definition pid_control (atrace : bool) (target : Z) (samples : list Z) (integral previous : Z) :
    option (pid_acc * Z) :=
  let length := Z.of_nat (length samples) in
  let p_start := window_start (sPSamplingWindow t) length in
  let i_start := window_start (sISamplingWindow t) length in
  let d_start := window_start (sDSamplingWindow t) length in
  let dt := ns_to_100us target in
  let start := Z.min p_start (Z.min i_start d_start) in
  a ← pid_loop target dt p_start i_start d_start start (drop (Z.to_nat start) samples)
        {| err_sum := 0; derivative_sum := 0; pid_integral := integral; pid_previous := previous |};
  _ ← trace_divisions atrace a dt (length - p_start) (length - d_start);
  p ← pOut a (length - p_start);
  i ← iOut a;
  d ← dOut a dt (length - d_start);
  pi ← ck64 (p + i);
  output ← ck64 (pi + d);
  Some (a, output).

(** *** The stale timer *)

(** Times are nanoseconds; the rate is truncated to milliseconds first. *)
Definition getStaleTime (s : PowerHintSession) : Z :=
  mLastUpdatedTime (mStaleHandler s) + Z.quot (kAdpfRate s) 1000000 * sStaleTimeFactor t * 1000000.

Definition isStale (now : Z) (s : PowerHintSession) : bool := getStaleTime s <=? now.

Definition updateStaleTimer (running : bool) (now : Z) (s : PowerHintSession) :
    PowerHintSession * list effect :=
  if running then
    let when := getStaleTime s in
    let monitoring := mIsMonitoringStale (mStaleHandler s) in
    let s := with_stale {| mIsMonitoringStale := monitoring; mLastUpdatedTime := now |} s in
    let eff1 := if when <? now then [EffUpdateBoostMode] else [] in
    if monitoring then (s, eff1)
    else
      let next := getStaleTime s in
      (with_stale {| mIsMonitoringStale := true; mLastUpdatedTime := now |} s,
       eff1 ++ [EffArmStale (next - now)])
  else (s, []).

Definition setStale (s : PowerHintSession) : PowerHintSession * list effect :=
  let '(s, eff) := setUclamp 0 kMaxUclampValue s in (s, eff ++ [EffUpdateBoostMode]).

(** [StaleHandler::handleMessage] *)
Definition handleStaleMessage (now : Z) (s : PowerHintSession) : PowerHintSession * list effect :=
  let when := getStaleTime s in
  if when <? now then
    let '(s, eff) := setStale s in
    (with_stale {| mIsMonitoringStale := false;
                   mLastUpdatedTime := mLastUpdatedTime (mStaleHandler s) |} s, eff)
  else (s, [EffArmStale (when - now)]).

(** *** Reporting *)

(** [static_cast<int>(output)] keeps the low 32 bits. *)
Definition next_uclamp_min (output : Z) : Z :=
  Z.max (sUclampMinLowLimit t) (Z.min (sUclampMinHighLimit t) (i32 output)).

Definition apply_output (output : Z) (s : PowerHintSession) :
    option (PowerHintSession * list effect) :=
  if output =? 0 then Some (s, [])
  else
    let next_min := next_uclamp_min output in
    delta ← ck32 (current_min (mDescriptor s) - next_min);
    if sUclampMinGranularity t <? u32 (Z.abs delta)
    then Some (setUclamp next_min kMaxUclampValue s)
    else Some (s, []).

(** [now1] is read by [isStale], [now2] by [updateStaleTimer]. *)
Definition reportActualWorkDuration (running atrace : bool) (now1 now2 : Z)
    (actualDurations : list Z) (s : PowerHintSession) :
    option (ScopedAStatus * PowerHintSession * list effect) :=
  if duration (mDescriptor s) =? 0 then Some (fromExceptionCode EX_ILLEGAL_STATE, s, [])
  else if bool_decide (actualDurations = []) then
    Some (fromExceptionCode EX_ILLEGAL_ARGUMENT, s, [])
  else if negb (is_active (mDescriptor s)) then
    Some (fromExceptionCode EX_ILLEGAL_STATE, s, [])
  else
    let s :=
      if running && isStale now1 s
      then with_desc (set_integral (Z.max (sPidIInit t) (integral_error (mDescriptor s)))) s
      else s in
    '(a, output) ← pid_control atrace (duration (mDescriptor s)) actualDurations
                     (integral_error (mDescriptor s)) (previous_error (mDescriptor s));
    let s := with_desc (set_pid (pid_integral a) (pid_previous a)) s in
    let '(s, eff1) := updateStaleTimer running now2 s in
    '(s, eff2) ← apply_output output s;
    Some (status_ok, s, eff1 ++ eff2).

End session.

(** ** Specification *)

(** The calls a session receives. *)
Inductive session_call :=
  | CallPause
  | CallResume
  | CallClose
  | CallUpdateTarget (ns : Z)
  | CallReport (atrace : bool) (now1 now2 : Z) (actualDurations : list Z)
  | CallStaleMessage (now : Z).

#[export] Instance session_call_eq_dec : EqDecision session_call.
Proof. solve_decision. Defined.

Definition session_exec (t : tunables) (running : bool) (c : session_call) (s : PowerHintSession) :
    option (ScopedAStatus * PowerHintSession * list effect) :=
  match c with
  | CallPause => Some (pause t s)
  | CallResume => Some (resume t s)
  | CallClose => Some (close t s)
  | CallUpdateTarget ns => '(st, s) ← updateTargetWorkDuration t ns s; Some (st, s, [])
  | CallReport atrace n1 n2 ds => reportActualWorkDuration t running atrace n1 n2 ds s
  | CallStaleMessage now =>
      let '(s, eff) := handleStaleMessage t now s in Some (status_ok, s, eff)
  end.

(** Every [sched_setattr] names a thread of the session and a clamp with
    [0 <= min <= max = 1024]. *)
Definition sched_ok (tids : list Z) (e : effect) : Prop :=
  match e with
  | EffSched tid lo hi => tid ∈ tids /\ 0 <= lo <= hi /\ hi = kMaxUclampValue
  | _ => True
  end.

Definition uclamp_limits_ok (t : tunables) : Prop :=
  0 <= sUclampMinLowLimit t <= sUclampMinHighLimit t /\
  sUclampMinHighLimit t <= kMaxUclampValue.

(** Gains, limits and windows of ordinary size. *)
Definition pid_tunables_ok (t : tunables) : Prop :=
  d_le (sPidPOver t) 10 /\ d_le (sPidPUnder t) 10 /\ d_le (sPidI t) 0 /\
  d_le (sPidDOver t) 10 /\ d_le (sPidDUnder t) 10 /\
  - 2 ^ 40 <= sPidILowLimit t <= sPidIHighLimit t /\ sPidIHighLimit t <= 2 ^ 40 /\
  Z.abs (sPidIInit t) <= 2 ^ 40 /\
  0 <= sPSamplingWindow t /\ 0 <= sISamplingWindow t /\ 0 <= sDSamplingWindow t.

(** A target between 100 us and 2^40 ns (18 minutes), and a controller state a report
    can leave behind. *)
Definition controller_ok (s : PowerHintSession) : Prop :=
  100000 <= duration (mDescriptor s) <= 2 ^ 40 /\
  Z.abs (integral_error (mDescriptor s)) <= 2 ^ 40 /\
  Z.abs (previous_error (mDescriptor s)) <= 2 ^ 25 /\
  0 <= current_min (mDescriptor s) <= kMaxUclampValue.

(** Every property unset: the defaults written in the sources. *)
Definition unset_properties : property_source := {|
  GetProperty _ default_value := default_value;
  GetBoolProperty _ default_value := default_value;
  GetIntProperty _ default_value := default_value;
  GetUintProperty _ default_value := default_value;
  ParseDouble _ := None;
  to_string_double _ := EmptyString
|}.

Definition default_tunables : tunables := {|
  kPowerHalAdpfUclamp := true;
  sPidPOver := d_of_Z 2; sPidPUnder := d_of_Z 1; sPidI := d_lit 1 1000;
  sPidDOver := d_of_Z 500; sPidDUnder := d_of_Z 0;
  sPidIInit := 200000; sPidIHighLimit := 512000; sPidILowLimit := -30000;
  sUclampMinHighLimit := 384; sUclampMinLowLimit := 2; sUclampMinGranularity := 5;
  sStaleTimeFactor := 20; sPSamplingWindow := 1; sISamplingWindow := 0; sDSamplingWindow := 1
|}.

(** Bounds on the controller's state after [n] samples. *)
Definition acc_ok (n : Z) (a : pid_acc) : Prop :=
  Z.abs (err_sum a) <= n * 2 ^ 25 /\ Z.abs (derivative_sum a) <= n * 2 ^ 26 /\
  Z.abs (pid_integral a) <= 2 ^ 40 /\ Z.abs (pid_previous a) <= 2 ^ 25.

(** ** Lemmas *)

Section lemmas.
Context (t : tunables).

Lemma window_start_range w n : 0 <= w -> 0 < n -> 0 <= window_start w n < n.
Proof. intros. unfold window_start. destruct (_ || _) eqn:?; lia. Qed.

Lemma setUclamp_spec m s :
  let m' := Z.min (Z.max 0 m) kMaxUclampValue in
  setUclamp t m kMaxUclampValue s =
    (with_desc (set_current_min m') s,
     sched_setattr_calls t (threadIds (mDescriptor s)) m' kMaxUclampValue).
Proof.
  unfold setUclamp, kMaxUclampValue. simpl. repeat f_equal. lia.
Qed.

Lemma sched_setattr_calls_ok tids m :
  0 <= m <= kMaxUclampValue ->
  Forall (sched_ok tids) (sched_setattr_calls t tids m kMaxUclampValue).
Proof.
  unfold kMaxUclampValue. intros Hm. unfold sched_setattr_calls.
  destruct (kPowerHalAdpfUclamp t); [|constructor].
  apply Forall_forall. intros e (tid & -> & Hin)%list_elem_of_fmap. simpl.
  rewrite !wrap_u_id by lia. unfold kMaxUclampValue. split; [done|lia].
Qed.

Lemma setUclamp_ok m s s' eff :
  setUclamp t m kMaxUclampValue s = (s', eff) ->
  threadIds (mDescriptor s') = threadIds (mDescriptor s) /\
  0 <= current_min (mDescriptor s') <= kMaxUclampValue /\
  Forall (sched_ok (threadIds (mDescriptor s))) eff.
Proof.
  rewrite setUclamp_spec. intros [= <- <-]. simpl. unfold kMaxUclampValue. split; [done|].
  split; [lia|]. apply sched_setattr_calls_ok. unfold kMaxUclampValue. lia.
Qed.

Lemma next_uclamp_min_range o :
  uclamp_limits_ok t ->
  sUclampMinLowLimit t <= next_uclamp_min t o <= sUclampMinHighLimit t.
Proof. unfold uclamp_limits_ok, next_uclamp_min. lia. Qed.

Lemma ns_to_100us_bound ns : Z.abs ns <= 2 ^ 41 -> Z.abs (ns_to_100us ns) <= 2 ^ 25.
Proof.
  unfold ns_to_100us. intros H. rewrite <- Z.quot_abs by lia. simpl Z.abs at 2.
  rewrite Z.quot_div_nonneg by lia.
  transitivity (2 ^ 41 / 100000); [apply Z.div_le_mono; lia|vm_compute; congruence].
Qed.

End lemmas.

(** Discharges the range checks of an expression whose bounds are in context. *)
Tactic Notation "in_range" constr(x) :=
  rewrite (ck_s_in 64 x) by (width_simpl; lia); cbn [mbind option_bind].

Section defined.
Context (t : tunables) (Ht : pid_tunables_ok t).

Lemma clamp_integral_bound y :
  Z.abs (Z.max (sPidILowLimit t) (Z.min (sPidIHighLimit t) y)) <= 2 ^ 40.
Proof using Ht. destruct Ht as (_ & _ & _ & _ & _ & ? & ? & _). lia. Qed.

Lemma pid_sample_defined target ps ist ds i actual a n :
  Z.abs target <= 2 ^ 40 -> Z.abs actual <= 2 ^ 40 -> 0 <= n <= 2 ^ 20 -> acc_ok n a ->
  exists a', pid_sample t target (ns_to_100us target) ps ist ds i actual a = Some a' /\
    acc_ok (n + 1) a'.
Proof using Ht.
  intros Htg Hac Hn (He & Hd & Hi & Hp). unfold pid_sample.
  pose proof (ns_to_100us_bound target ltac:(lia)) as Hdt.
  pose proof (ns_to_100us_bound (actual - target) ltac:(lia)) as Her.
  change (2 ^ 40) with 1099511627776 in *. change (2 ^ 20) with 1048576 in *.
  change (2 ^ 25) with 33554432 in *. change (2 ^ 26) with 67108864 in *.
  in_range (Z.abs actual). in_range (target * 20). in_range (actual - target).
  set (error := ns_to_100us (actual - target)) in *.
  assert (exists d', (if ds <=? i then x ← ck64 (error - pid_previous a); ck64 (derivative_sum a + x)
    else Some (derivative_sum a)) = Some d' /\ Z.abs d' <= (n + 1) * 67108864) as (d' & -> & Hd').
  { destruct (ds <=? i); [|eexists; split; [done|lia]]. in_range (error - pid_previous a).
    in_range (derivative_sum a + (error - pid_previous a)). eexists; split; [done|lia]. }
  assert (exists e', (if ps <=? i then ck64 (err_sum a + error) else Some (err_sum a)) = Some e' /\
    Z.abs e' <= (n + 1) * 33554432) as (e' & -> & He').
  { destruct (ps <=? i); [|eexists; split; [done|lia]]. in_range (err_sum a + error). eexists; split; [done|lia]. }
  cbn [mbind option_bind].
  assert (exists i', (if ist <=? i then x ← ck64 (error * ns_to_100us target);
      y ← ck64 (pid_integral a + x); Some (Z.max (sPidILowLimit t) (Z.min (sPidIHighLimit t) y))
    else Some (pid_integral a)) = Some i' /\ Z.abs i' <= 1099511627776) as (i' & -> & Hi').
  { destruct (ist <=? i); [|eexists; split; [done|lia]].
    assert (Z.abs (error * ns_to_100us target) <= 33554432 * 33554432) by (rewrite Z.abs_mul; nia).
    in_range (error * ns_to_100us target).
    in_range (pid_integral a + error * ns_to_100us target).
    eexists; split; [done|]. apply clamp_integral_bound. }
  eexists; split; [done|]. unfold acc_ok; simpl. lia.
Qed.

Lemma pid_loop_defined target ps ist ds samples : forall i a n,
  Z.abs target <= 2 ^ 40 -> Forall (fun x => Z.abs x <= 2 ^ 40) samples ->
  0 <= n -> n + Z.of_nat (length samples) <= 2 ^ 20 -> acc_ok n a ->
  exists a', pid_loop t target (ns_to_100us target) ps ist ds i samples a = Some a' /\
    acc_ok (2 ^ 20) a'.
Proof using Ht.
  induction samples as [|x samples IH]; intros i a n Htg Hs Hn Hlen Ha; simpl in *.
  { eexists; split; [done|]. unfold acc_ok in *. lia. }
  inversion Hs; subst.
  destruct (pid_sample_defined target ps ist ds i x a n) as (a1 & -> & Ha1); [done|done|lia|done|].
  apply (IH (i + 1) a1 (n + 1)); done || lia.
Qed.

(** One scaled average of the controller: gain times sum over count. *)
Lemma scaled_average_defined g x n k :
  0 <= k <= 50 -> d_le g 10 -> Z.abs x <= 2 ^ k -> 0 < n < 2 ^ 53 ->
  d_le (ddiv (dmul g (d_of_Z x)) (d_of_Z n)) (k + 13).
Proof.
  intros Hk Hg Hx Hn. replace (k + 13) with ((10 + (k + 1) + 1) + 1) by lia.
  apply ddiv_le; [lia| |apply d_of_Z_ge1; lia].
  apply dmul_le; [lia|lia|lia|done|apply d_of_Z_le; lia].
Qed.

Lemma pOut_defined a n :
  acc_ok (2 ^ 20) a -> 0 < n < 2 ^ 53 -> exists z, pOut t a n = Some z /\ Z.abs z <= 2 ^ 58.
Proof using Ht.
  intros (He & _) Hn. destruct Ht as (? & ? & _). apply d_to_i64_le; [lia|].
  apply (scaled_average_defined _ _ n 45); [lia| | |done]; [by case_match|].
  etrans; [exact He|]. vm_compute; congruence.
Qed.

Lemma iOut_defined a : acc_ok (2 ^ 20) a -> exists z, iOut t a = Some z /\ Z.abs z <= 2 ^ 42.
Proof using Ht.
  intros (_ & _ & Hi & _). destruct Ht as (_ & _ & ? & _). apply d_to_i64_le; [lia|].
  apply (dmul_le _ _ 0 41); [lia|lia|lia|done|]. by apply (d_of_Z_le _ 40).
Qed.

Lemma dOut_defined a dt n :
  acc_ok (2 ^ 20) a -> dt <> 0 -> Z.abs dt < 2 ^ 53 -> 0 < n < 2 ^ 53 ->
  exists z, dOut t a dt n = Some z /\ Z.abs z <= 2 ^ 60.
Proof using Ht.
  intros (_ & Hd & _) Hdt Hdt' Hn. destruct Ht as (_ & _ & _ & ? & ? & _).
  apply d_to_i64_le; [lia|]. apply (ddiv_le _ _ 59); [lia| |apply d_of_Z_ge1; lia].
  apply (ddiv_le _ _ 58); [lia| |by apply d_of_Z_ge1].
  apply (dmul_le _ _ 10 47); [lia|lia|lia|by case_match|]. apply (d_of_Z_le _ 46); [lia|].
  etrans; [exact Hd|]. vm_compute; congruence.
Qed.

End defined.

(** Peels the binds of an equation [... = Some _], naming nothing. *)
Ltac peel :=
  repeat match goal with
  | H : _ ≫= _ = Some _ |- _ => apply bind_Some in H as (? & ? & ?)
  | p : _ * _ |- _ => destruct p
  | H : Some _ = Some _ |- _ => simplify_eq H; clear H; intros; subst
  end; simplify_eq/=.

(** A method that ends with a [setUclamp]: the clamp's facts give the goal. *)
Ltac uclamp_call :=
  match goal with
  | H : context [setUclamp ?t ?m ?M ?s] |- _ =>
      let E := fresh in
      destruct (setUclamp t m M s) eqn:E; destruct (setUclamp_ok _ _ _ _ _ E) as (? & ? & ?)
  end; simplify_eq/=; split; [|done];
  repeat first [done | apply Forall_cons_2 | apply Forall_app_2 | apply Forall_nil_2].

Section facts.
Context (t : tunables).

(** The divisions of the trace: the quotients are no larger than the sums. *)
Lemma trace_divisions_defined atrace a dt np nd :
  acc_ok (2 ^ 20) a -> dt <> 0 -> 0 < np -> 0 < nd -> trace_divisions atrace a dt np nd = Some tt.
Proof.
  intros (He & Hd & _) Hdt Hnp Hnd. unfold trace_divisions. destruct atrace; [|done].
  assert (forall x y, y <> 0 -> Z.abs (Z.quot x y) <= Z.abs x) as Hq.
  { intros x y Hy. rewrite <- Z.quot_abs by done. apply Z.quot_le_upper_bound; nia. }
  pose proof (Hq (err_sum a) np ltac:(lia)). pose proof (Hq (derivative_sum a) dt Hdt).
  change (2 ^ 20) with 1048576 in *. change (2 ^ 25) with 33554432 in *.
  change (2 ^ 26) with 67108864 in *.
  rewrite (proj2 (Z.eqb_neq np 0)), (proj2 (Z.eqb_neq dt 0)), (proj2 (Z.eqb_neq nd 0)) by lia.
  simpl. in_range (Z.quot (err_sum a) np). by in_range (Z.quot (derivative_sum a) dt).
Qed.

Lemma pid_control_defined atrace target samples integral previous :
  pid_tunables_ok t -> 100000 <= target <= 2 ^ 40 ->
  Forall (fun x => Z.abs x <= 2 ^ 40) samples -> samples <> [] ->
  Z.of_nat (length samples) <= 2 ^ 20 ->
  Z.abs integral <= 2 ^ 40 -> Z.abs previous <= 2 ^ 25 ->
  exists a o, pid_control t atrace target samples integral previous = Some (a, o) /\
    acc_ok (2 ^ 20) a.
Proof.
  intros Ht Htg Hs Hne Hlen Hint Hprev. unfold pid_control.
  set (len := Z.of_nat (length samples)) in *.
  assert (0 < len) by (destruct samples; [done|simpl in *; lia]).
  pose proof Ht as (_ & _ & _ & _ & _ & _ & _ & _ & Hwp & Hwi & Hwd).
  pose proof (window_start_range _ _ Hwp H) as Hp.
  pose proof (window_start_range _ _ Hwi H) as Hi.
  pose proof (window_start_range _ _ Hwd H) as Hd.
  set (p_start := window_start (sPSamplingWindow t) len) in *.
  set (i_start := window_start (sISamplingWindow t) len) in *.
  set (d_start := window_start (sDSamplingWindow t) len) in *.
  set (start := Z.min p_start _).
  edestruct (pid_loop_defined t Ht target p_start i_start d_start (drop (Z.to_nat start) samples)
    start {| err_sum := 0; derivative_sum := 0; pid_integral := integral;
             pid_previous := previous |} 0) as (a & -> & Ha).
  { lia. } { by apply Forall_drop. } { done. }
  { rewrite length_drop. lia. } { unfold acc_ok; simpl; lia. }
  cbn [mbind option_bind].
  assert (1 <= ns_to_100us target).
  { unfold ns_to_100us. rewrite Z.quot_div_nonneg by lia. apply Z.div_le_lower_bound; lia. }
  rewrite (trace_divisions_defined atrace a _ _ _ Ha) by lia. cbn [mbind option_bind].
  destruct (pOut_defined t Ht a (len - p_start) Ha) as (p & -> & Hpo); [lia|].
  destruct (iOut_defined t Ht a Ha) as (i & -> & Hio).
  pose proof (ns_to_100us_bound target ltac:(lia)).
  destruct (dOut_defined t Ht a (ns_to_100us target) (len - d_start) Ha) as (d & -> & Hdo);
    [lia|lia|lia|].
  cbn [mbind option_bind]. change (2 ^ 58) with 288230376151711744 in *.
  change (2 ^ 42) with 4398046511104 in *. change (2 ^ 60) with 1152921504606846976 in *.
  in_range (p + i). in_range (p + i + d). eauto.
Qed.

Lemma pid_sample_integral target dt ps ist ds i actual a a' :
  sPidILowLimit t <= sPidIHighLimit t -> ist <= i ->
  pid_sample t target dt ps ist ds i actual a = Some a' ->
  sPidILowLimit t <= pid_integral a' <= sPidIHighLimit t.
Proof.
  intros Hlim Hi Hs. unfold pid_sample in Hs. rewrite (proj2 (Z.leb_le ist i)) in Hs by lia.
  peel. simpl. lia.
Qed.

(** The last sample is inside the integral window, so the loop ends clamped. *)
Lemma pid_loop_integral target dt ps ist ds samples : forall i a a',
  sPidILowLimit t <= sPidIHighLimit t -> samples <> [] ->
  ist <= i + Z.of_nat (length samples) - 1 ->
  pid_loop t target dt ps ist ds i samples a = Some a' ->
  sPidILowLimit t <= pid_integral a' <= sPidIHighLimit t.
Proof.
  induction samples as [|x samples IH]; intros i a a' Hlim Hne Hi Hl; [done|].
  cbn [pid_loop] in Hl. apply bind_Some in Hl as (a1 & H1 & Hl).
  destruct samples as [|y samples].
  - simplify_eq/=. eapply pid_sample_integral; [done| |done]. lia.
  - eapply IH; [done|done| |exact Hl]. simpl in *. lia.
Qed.

Lemma pid_control_integral atrace target samples integral previous a o :
  sPidILowLimit t <= sPidIHighLimit t -> 0 <= sISamplingWindow t -> 0 <= sPSamplingWindow t ->
  0 <= sDSamplingWindow t -> samples <> [] ->
  pid_control t atrace target samples integral previous = Some (a, o) ->
  sPidILowLimit t <= pid_integral a <= sPidIHighLimit t.
Proof.
  intros Hlim Hwi Hwp Hwd Hne Hc. unfold pid_control in Hc.
  assert (Hpos : 0 < Z.of_nat (length samples)) by (destruct samples; [done|simpl; lia]).
  pose proof (window_start_range _ _ Hwi Hpos). pose proof (window_start_range _ _ Hwp Hpos).
  pose proof (window_start_range _ _ Hwd Hpos).
  apply bind_Some in Hc as (a1 & Hl & Hc). peel.
  eapply pid_loop_integral; [done| | |exact Hl].
  - intros Hn%(f_equal length). rewrite length_drop in Hn. simpl in Hn. lia.
  - rewrite length_drop. lia.
Qed.

(** A target under 100 microseconds makes the derivative term a division by
    zero. *)
Lemma pid_control_short_target atrace target samples integral previous :
  Z.abs target < 100000 -> pid_control t atrace target samples integral previous = None.
Proof.
  intros Htg. unfold pid_control.
  assert (ns_to_100us target = 0) as ->.
  { unfold ns_to_100us. apply Z.quot_small_iff; lia. }
  destruct (pid_loop _ _ _ _ _ _ _ _ _) as [a|]; [|done]. simpl.
  destruct (trace_divisions _ _ _ _ _); [|done]. simpl.
  destruct (pOut _ _ _); [|done]. simpl. destruct (iOut _ _); [|done]. simpl.
  unfold dOut. rewrite d_to_i64_not_finite; [done|].
  apply ddiv_not_finite, ddiv_zero_not_finite.
Qed.

(** What [apply_output] and [updateStaleTimer] may change. *)
Lemma apply_output_spec o s s' eff :
  uclamp_limits_ok t -> apply_output t o s = Some (s', eff) ->
  Forall (sched_ok (threadIds (mDescriptor s))) eff /\
  (s' = s /\ eff = [] \/
   exists m, s' = with_desc (set_current_min m) s /\
     sUclampMinLowLimit t <= m <= sUclampMinHighLimit t).
Proof.
  intros Hlim Ho. unfold apply_output in Ho.
  case_match; [peel; by eauto|]. apply bind_Some in Ho as (delta & _ & Ho).
  case_match; [|peel; by eauto].
  pose proof (next_uclamp_min_range t o Hlim) as Hr. pose proof Hlim as (? & ?).
  rewrite setUclamp_spec in Ho. simplify_eq. unfold kMaxUclampValue in *.
  split; [apply sched_setattr_calls_ok; unfold kMaxUclampValue; lia|].
  right. eexists; split; [done|]. lia.
Qed.

Lemma apply_output_defined o s :
  uclamp_limits_ok t -> 0 <= current_min (mDescriptor s) <= kMaxUclampValue ->
  is_Some (apply_output t o s).
Proof.
  intros Hlim Hm. unfold apply_output. case_match; [by eauto|].
  pose proof (next_uclamp_min_range t o Hlim). destruct Hlim. unfold kMaxUclampValue in *.
  rewrite (ck_s_in 32) by (width_simpl; lia). simpl. case_match; eauto.
Qed.

Lemma updateStaleTimer_spec running now s s' eff :
  updateStaleTimer t running now s = (s', eff) ->
  mDescriptor s' = mDescriptor s /\ kAdpfRate s' = kAdpfRate s /\
  mSessionClosed s' = mSessionClosed s /\
  (forall tids, Forall (sched_ok tids) eff) /\
  (forall d, (EffArmStale d ∈ eff) ->
     mIsMonitoringStale (mStaleHandler s) = false /\ mIsMonitoringStale (mStaleHandler s') = true).
Proof.
  unfold updateStaleTimer. intros. repeat case_match; simplify_eq/=; repeat split; auto;
    intros; try (apply Forall_app; split); repeat constructor; set_solver.
Qed.

(** The descriptor [reportActualWorkDuration] hands to the controller. *)
Lemma report_inv running atrace n1 n2 ds s st s' eff :
  reportActualWorkDuration t running atrace n1 n2 ds s = Some (st, s', eff) ->
  (st <> status_ok /\ s' = s /\ eff = []) \/
  (st = status_ok /\ ds <> [] /\ is_active (mDescriptor s) = true /\ duration (mDescriptor s) <> 0 /\
   exists i a o s1 eff1 eff2,
     pid_control t atrace (duration (mDescriptor s)) ds i (previous_error (mDescriptor s)) =
       Some (a, o) /\
     updateStaleTimer t running n2 (with_desc (set_pid (pid_integral a) (pid_previous a))
       (if running && isStale t n1 s then with_desc (set_integral i) s else s)) = (s1, eff1) /\
     apply_output t o s1 = Some (s', eff2) /\ eff = eff1 ++ eff2).
Proof.
  intros Hr. unfold reportActualWorkDuration in Hr.
  destruct (duration (mDescriptor s) =? 0) eqn:Hd; [peel; by left|].
  case_bool_decide; [peel; by left|].
  destruct (is_active (mDescriptor s)) eqn:Hact; simpl in Hr; [|peel; by left].
  right. apply bind_Some in Hr as ([a o] & Hc & Hr).
  destruct (updateStaleTimer _ _ _ _) as [s1 eff1] eqn:Hst.
  apply bind_Some in Hr as ([s2 eff2] & Ho & Hr). simplify_eq.
  repeat split; [done|lia|]. 
  destruct (running && isStale t n1 s) eqn:Hb; simpl in *.
  - eexists _, a, o, s1, eff1, eff2. eauto.
  - exists (integral_error (mDescriptor s)), a, o, s1, eff1, eff2. eauto.
Qed.

End facts.

(** ** Properties *)

(** C5: on every call a session can receive, in any order, the clamp value it
    keeps stays within 0..1024, and every [sched_setattr] it issues names one of
    its own threads with [0 <= sched_util_min <= sched_util_max = 1024]. *)
Theorem session_calls_sched_ok t running c s st s' eff :
  uclamp_limits_ok t -> 0 <= current_min (mDescriptor s) <= kMaxUclampValue ->
  session_exec t running c s = Some (st, s', eff) ->
  Forall (sched_ok (threadIds (mDescriptor s))) eff /\
  threadIds (mDescriptor s') = threadIds (mDescriptor s) /\
  0 <= current_min (mDescriptor s') <= kMaxUclampValue.
Proof.
  intros Hlim Hm He. destruct c; simpl in He.
  - unfold pause in He. case_match; [simplify_eq; auto|]. uclamp_call. 
  - unfold resume in He. case_match; [simplify_eq; auto|]. uclamp_call.
  - unfold close in He. case_match; [simplify_eq; auto|]. uclamp_call.
  - unfold updateTargetWorkDuration in He. case_match; peel; auto.
  - destruct (report_inv _ _ _ _ _ _ _ _ _ _ He)
      as [(_ & -> & ->)|(_ & _ & _ & _ & i & a & o & s1 & e1 & e2 & _ & Hst & Ho & ->)]; [auto|].
    destruct (updateStaleTimer_spec _ _ _ _ _ _ Hst) as (Hd & _ & _ & He1 & _).
    destruct (apply_output_spec _ _ _ _ _ Hlim Ho) as [He2 Hs'].
    assert (threadIds (mDescriptor s1) = threadIds (mDescriptor s) /\
      current_min (mDescriptor s1) = current_min (mDescriptor s)) as [Ht1 Hc1]
      by (rewrite Hd; by case_match).
    rewrite Ht1 in He2. split; [apply Forall_app; auto|].
    unfold uclamp_limits_ok in Hlim.
    destruct Hs' as [[-> _]|(m & -> & ?)]; simpl; rewrite ?Ht1, ?Hc1; split; done || lia.
  - unfold handleStaleMessage, setStale in He.
    destruct (_ <? now); [uclamp_call|simplify_eq/=].
    split; [|done]. by apply Forall_cons_2, Forall_nil_2.
Qed.

(** C6: tracing on or off, [reportActualWorkDuration] runs without undefined behaviour
    in its controller (no signed overflow, no division by zero, no [double] that does not
    fit its integer) and leaves a state the next report can start from, provided that the
    gains are at most 2^10 (the integral gain at most 1), the limits and the initial
    integral at most 2^40 and the clamp limits within 0..1024 (the defaults are), the target
    is between 100 microseconds and 2^40 ns, there are at most 2^20 samples of at most
    2^40 ns in magnitude each, and the integral term, the previous error and the clamp
    are within 2^40, 2^25 and 0..1024, as every such report leaves them.  The deadlines of
    the stale timer are not part of this. *)
Theorem report_no_undefined_behaviour t running atrace n1 n2 ds s :
  pid_tunables_ok t -> uclamp_limits_ok t -> controller_ok s ->
  Forall (fun x => Z.abs x <= 2 ^ 40) ds -> Z.of_nat (length ds) <= 2 ^ 20 ->
  exists st s' eff, reportActualWorkDuration t running atrace n1 n2 ds s = Some (st, s', eff) /\
    controller_ok s'.
Proof.
  intros Ht Hlim Hs Hds Hlen. pose proof Hs as (Hdur & Hint & Hprev & Hmin).
  unfold reportActualWorkDuration.
  case_match; [by eauto|]. case_bool_decide; [by eauto|].
  destruct (is_active _) eqn:Hact; simpl; [|by eauto].
  set (s0 := if running && isStale t n1 s then _ else s).
  assert (duration (mDescriptor s0) = duration (mDescriptor s) /\
    previous_error (mDescriptor s0) = previous_error (mDescriptor s) /\
    current_min (mDescriptor s0) = current_min (mDescriptor s) /\
    Z.abs (integral_error (mDescriptor s0)) <= 2 ^ 40) as (Hd0 & Hp0 & Hm0 & Hi0).
  { subst s0. destruct Ht as (_ & _ & _ & _ & _ & _ & _ & ? & _).
    case_match; simpl; split_and!; try done; lia. }
  rewrite Hd0, Hp0.
  destruct (pid_control_defined t atrace (duration (mDescriptor s)) ds (integral_error (mDescriptor s0))
    (previous_error (mDescriptor s))) as (a & o & -> & Ha); [done..|].
  simpl. destruct (updateStaleTimer _ _ _ _) as [s1 e1] eqn:Hst.
  destruct (updateStaleTimer_spec _ _ _ _ _ _ Hst) as (Hd & _).
  destruct (apply_output_defined t o s1 Hlim) as [[s2 e2] Ho].
  { rewrite Hd. simpl. by rewrite Hm0. }
  rewrite Ho. simpl. do 3 eexists. split; [done|].
  destruct Ha as (_ & _ & Hai & Hap). unfold uclamp_limits_ok in Hlim.
  destruct (apply_output_spec _ _ _ _ _ Hlim Ho) as [_ [[-> _]|(m & -> & ?)]];
    unfold controller_ok; simpl; rewrite Hd; simpl; rewrite ?Hd0, ?Hm0; split_and!; lia.
Qed.

(** C7: an accepted report leaves the integral term inside
    [sPidILowLimit, sPidIHighLimit] whatever it was before, and the uclamp minimum
    either unchanged or inside [sUclampMinLowLimit, sUclampMinHighLimit]. *)
Theorem report_keeps_limits t running atrace n1 n2 ds s s' eff :
  sPidILowLimit t <= sPidIHighLimit t -> uclamp_limits_ok t ->
  0 <= sPSamplingWindow t -> 0 <= sISamplingWindow t -> 0 <= sDSamplingWindow t ->
  reportActualWorkDuration t running atrace n1 n2 ds s = Some (status_ok, s', eff) ->
  sPidILowLimit t <= integral_error (mDescriptor s') <= sPidIHighLimit t /\
  (current_min (mDescriptor s') = current_min (mDescriptor s) \/
   sUclampMinLowLimit t <= current_min (mDescriptor s') <= sUclampMinHighLimit t).
Proof.
  intros Hlim Hul Hwp Hwi Hwd Hr.
  destruct (report_inv _ _ _ _ _ _ _ _ _ _ Hr)
    as [(? & _)|(_ & Hne & _ & _ & i & a & o & s1 & e1 & e2 & Hc & Hst & Ho & ->)]; [done|].
  pose proof (pid_control_integral _ _ _ _ _ _ _ _ Hlim Hwi Hwp Hwd Hne Hc) as Hi.
  destruct (updateStaleTimer_spec _ _ _ _ _ _ Hst) as (Hd & _).
  assert (integral_error (mDescriptor s1) = pid_integral a /\
    current_min (mDescriptor s1) = current_min (mDescriptor s)) as [Hi1 Hc1]
    by (rewrite Hd; by case_match).
  destruct (apply_output_spec _ _ _ _ _ Hul Ho) as [_ [[-> _]|(m & -> & ?)]]; simpl;
    rewrite ?Hi1, ?Hc1; auto.
Qed.

(** a session whose target is below 100 microseconds (and not 0) has no
    defined report: the target in units of 100 microseconds is 0, the derivative
    term divides by it, and the infinity or NaN is converted to [int64_t]. *)
Lemma report_short_target_undefined t running atrace n1 n2 ds s :
  duration (mDescriptor s) <> 0 -> Z.abs (duration (mDescriptor s)) < 100000 ->
  ds <> [] -> is_active (mDescriptor s) = true ->
  reportActualWorkDuration t running atrace n1 n2 ds s = None.
Proof.
  intros Hnz Hd Hne Hact. unfold reportActualWorkDuration.
  rewrite (proj2 (Z.eqb_neq _ _)), bool_decide_false, Hact by done. simpl.
  rewrite pid_control_short_target; [done|]. by case_match.
Qed.

(** [updateTargetWorkDuration] rescales the integral term with the integer
    quotient of the two durations, so a longer target multiplies it by 0: the
    history is dropped, and the term restarts at [max sPidIInit 0]. *)
Lemma update_target_longer_drops_integral t ns s :
  0 <= duration (mDescriptor s) < ns -> Z.abs (integral_error (mDescriptor s)) <= 2 ^ 63 ->
  exists s', updateTargetWorkDuration t ns s = Some (status_ok, s') /\
    integral_error (mDescriptor s') = Z.max (sPidIInit t) 0 /\
    duration (mDescriptor s') = ns.
Proof.
  intros Hd Hi. unfold updateTargetWorkDuration. rewrite (proj2 (Z.leb_gt _ _)) by lia.
  rewrite Z.quot_small by lia. change (ck64 0) with (Some 0). cbn [mbind option_bind].
  assert (d_to_i64 (dmul (d_of_Z (integral_error (mDescriptor s))) (d_of_Z 0)) = Some 0) as ->.
  { pose proof (d_of_Z_le _ 63 ltac:(lia) Hi). by destruct (d_of_Z (integral_error _)). }
  simpl. eauto.
Qed.

(** with every property unset, start-up computes the integral limits
    200000, 512000 and -30000 from the written 200, 512, -30 and the gain 0.001 in
    [double] arithmetic, and the result is within the bounds the other results
    ask for. *)
Lemma default_tunables_loaded :
  load_tunables unset_properties = Some default_tunables /\
  pid_tunables_ok default_tunables /\ uclamp_limits_ok default_tunables.
Proof.
  split; [vm_compute; reflexivity|].
  split; [|vm_compute; naive_solver]. vm_compute. intuition congruence.
Qed.

(** *** Witnesses *)

(** A 60 Hz session with two threads, as the constructor leaves it. *)
Definition demo_session : PowerHintSession :=
  fst (PowerHintSession_new default_tunables 100 1000 [101; 102] 16666666 16666666 0).

Lemma default_limits_ok : uclamp_limits_ok default_tunables.
Proof. vm_compute; naive_solver. Qed.

Lemma default_pid_ok : pid_tunables_ok default_tunables.
Proof. vm_compute. intuition congruence. Qed.

(** The session after [pause], and after a report of one long and one short frame. *)
Definition demo_paused : PowerHintSession * list effect :=
  Eval vm_compute in
    match session_exec default_tunables true CallPause demo_session with
    | Some (_, s', eff) => (s', eff)
    | None => (demo_session, [])
    end.

Definition demo_reported : PowerHintSession * list effect :=
  Eval vm_compute in
    match reportActualWorkDuration default_tunables true false 5 6 [20000000; 15000000] demo_session with
    | Some (_, s', eff) => (s', eff)
    | None => (demo_session, [])
    end.

Lemma demo_paused_eq :
  session_exec default_tunables true CallPause demo_session =
    Some (status_ok, fst demo_paused, snd demo_paused).
Proof. vm_compute. reflexivity. Qed.

Lemma demo_reported_eq :
  reportActualWorkDuration default_tunables true false 5 6 [20000000; 15000000] demo_session =
    Some (status_ok, fst demo_reported, snd demo_reported).
Proof. vm_compute. reflexivity. Qed.

Lemma session_calls_sched_ok_witness :
  Forall (sched_ok (threadIds (mDescriptor demo_session))) (snd demo_paused) /\
  threadIds (mDescriptor (fst demo_paused)) = threadIds (mDescriptor demo_session) /\
  0 <= current_min (mDescriptor (fst demo_paused)) <= kMaxUclampValue.
Proof.
  refine (session_calls_sched_ok default_tunables true CallPause demo_session status_ok
    (fst demo_paused) (snd demo_paused) default_limits_ok _ demo_paused_eq).
  vm_compute; split; congruence.
Defined.

Lemma report_no_undefined_behaviour_witness :
  exists st s' eff,
    reportActualWorkDuration default_tunables true true 5 6 [20000000; 15000000] demo_session =
      Some (st, s', eff) /\ controller_ok s'.
Proof.
  apply (report_no_undefined_behaviour default_tunables true true 5 6 [20000000; 15000000] demo_session);
    [apply default_pid_ok|apply default_limits_ok|vm_compute; intuition congruence
    |repeat constructor; vm_compute; congruence|vm_compute; congruence].
Defined.

Lemma report_keeps_limits_witness :
  sPidILowLimit default_tunables <= integral_error (mDescriptor (fst demo_reported)) <=
    sPidIHighLimit default_tunables /\
  (current_min (mDescriptor (fst demo_reported)) = current_min (mDescriptor demo_session) \/
   sUclampMinLowLimit default_tunables <= current_min (mDescriptor (fst demo_reported)) <=
     sUclampMinHighLimit default_tunables).
Proof.
  refine (report_keeps_limits default_tunables true false 5 6 [20000000; 15000000] demo_session
    (fst demo_reported) (snd demo_reported) _ default_limits_ok _ _ _ demo_reported_eq);
    vm_compute; congruence.
Defined.

Lemma report_short_target_undefined_witness :
  reportActualWorkDuration default_tunables true false 5 6 [20000]
    (with_desc (set_duration_ns 50000) demo_session) = None.
Proof.
  apply report_short_target_undefined; [discriminate|vm_compute; congruence|discriminate|reflexivity].
Defined.

Lemma update_target_longer_drops_integral_witness :
  exists s', updateTargetWorkDuration default_tunables 33333333
      (with_desc (set_integral 400000) demo_session) = Some (status_ok, s') /\
    integral_error (mDescriptor s') = 200000 /\ duration (mDescriptor s') = 33333333.
Proof.
  apply (update_target_longer_drops_integral default_tunables 33333333
    (with_desc (set_integral 400000) demo_session));
    [vm_compute; split; congruence|vm_compute; congruence].
Defined.
