(* ===== verification/Looper.v ===== *)
(** The interface of libutils' [Looper] as the power HAL uses it.

    The looper is not part of the repository: it is a class with the three calls
    the sessions make, the step that takes one due message out of the queue
    ([poll], what [pollOnce] does before it calls a handler), and the observation
    [pending], the number of queued messages of a handler.  [LooperLaws] states
    what the documentation of the calls promises about [pending].  The queue
    sorted by due time is an instance. *)
From S2P Require Import Prelude.

(** The two classes derived from [MessageHandler]: the session manager, and the
    stale handler of one session. *)
Inductive handler :=
  | ManagerHandler
  | StaleHandlerOf (sid : Z).

#[export] Instance handler_eq_dec : EqDecision handler.
Proof. solve_decision. Defined.

Class Looper (L : Type) := {
  sendMessageDelayed : Z -> Z -> handler -> L -> L;
  removeMessages : handler -> L -> L;
  poll : Z -> L -> option (handler * L);
  pending : L -> handler -> nat
}.

(** [sendMessage] is due at once. *)
Definition sendMessage `{Looper L} (now : Z) : handler -> L -> L := sendMessageDelayed now 0.

Class LooperLaws (L : Type) `{Looper L} := {
  pending_sendMessageDelayed l now d h h' :
    pending (sendMessageDelayed now d h l) h' =
      ((if decide (h = h') then 1 else 0) + pending l h')%nat;
  pending_removeMessages l h h' :
    pending (removeMessages h l) h' = (if decide (h = h') then 0 else pending l h')%nat;
  pending_poll l now h l' h' :
    poll now l = Some (h, l') ->
    pending l h' = ((if decide (h = h') then 1 else 0) + pending l' h')%nat
}.

(** *** The queue *)

Abbreviation msg_queue := (list (Z * handler)).

Fixpoint mq_insert (due : Z) (h : handler) (q : msg_queue) : msg_queue :=
  match q with
  | [] => [(due, h)]
  | (due', h') :: q' =>
      if due <? due' then (due, h) :: q else (due', h') :: mq_insert due h q'
  end.

Definition mq_pending (q : list (Z * handler)) (h : handler) : nat :=
  length (filter (fun m => m.2 = h) q).

#[export] Instance msg_queue_looper : Looper msg_queue := {|
  sendMessageDelayed now d h := mq_insert (now + d) h;
  removeMessages h q := filter (fun m => m.2 <> h) q;
  poll now q :=
    match q with
    | (due, h) :: q' => if due <=? now then Some (h, q') else None
    | [] => None
    end;
  pending := mq_pending
|}.

Lemma mq_pending_cons due h q h' :
  mq_pending ((due, h) :: q) h' = ((if decide (h = h') then 1 else 0) + mq_pending q h')%nat.
Proof. unfold mq_pending. rewrite filter_cons. simpl. by case_decide. Qed.

#[export] Instance msg_queue_laws : LooperLaws msg_queue.
Proof.
  split; simpl.
  - intros q now d h h'. induction q as [|[due' h''] q IH]; simpl; [apply mq_pending_cons|].
    destruct (_ <? due'); [apply mq_pending_cons|]. rewrite !mq_pending_cons, IH. lia.
  - intros q h h'. induction q as [|[due' h''] q IH]; [by case_decide|].
    rewrite filter_cons. simpl. repeat case_decide; simplify_eq; simpl;
      rewrite ?mq_pending_cons, ?IH; repeat case_decide; simplify_eq; done || lia.
  - intros q now h q' h' Hp. destruct q as [|[due h''] q]; [done|].
    simpl in Hp. case_match; simplify_eq. apply mq_pending_cons.
Qed.

(** *** Due times

    What a client relies on who cares when a message is delivered: a message is due
    the given delay after it is sent, [poll] only delivers what is due, and finds
    something as long as anything is due.  [timed_wf] is the invariant of the
    implementation. *)

Class TimedLooper (L : Type) `{Looper L} := {
  dues : L -> handler -> list Z;
  timed_wf : L -> Prop;
  wf_sendMessageDelayed l now d h : timed_wf l -> timed_wf (sendMessageDelayed now d h l);
  wf_removeMessages l h : timed_wf l -> timed_wf (removeMessages h l);
  wf_poll l now h l' : timed_wf l -> poll now l = Some (h, l') -> timed_wf l';
  dues_sendMessageDelayed l now d h h' x :
    x ∈ dues (sendMessageDelayed now d h l) h' <-> (h = h' /\ x = now + d) \/ x ∈ dues l h';
  dues_removeMessages l h h' x : x ∈ dues (removeMessages h l) h' <-> h <> h' /\ x ∈ dues l h';
  dues_poll_other l now h l' h' x :
    poll now l = Some (h, l') -> h <> h' -> x ∈ dues l' h' <-> x ∈ dues l h';
  dues_poll_none l now h x : timed_wf l -> poll now l = None -> x ∈ dues l h -> now < x
}.

(** The queue in the order of the due times. *)
Fixpoint mq_sorted (q : msg_queue) : Prop :=
  match q with
  | [] => True
  | (due, _) :: q => Forall (fun m => due <= m.1) q /\ mq_sorted q
  end.

Definition mq_dues (q : msg_queue) (h : handler) : list Z := (filter (fun m => m.2 = h) q).*1.

Lemma elem_of_mq_dues q h x : x ∈ mq_dues q h <-> (x, h) ∈ q.
Proof.
  unfold mq_dues. rewrite list_elem_of_fmap. split.
  - intros ([y h'] & -> & [Hh Hq]%list_elem_of_filter). cbn in *. by subst.
  - intros Hq. exists (x, h). split; [done|]. by apply list_elem_of_filter.
Qed.

Lemma elem_of_mq_insert due h q m : m ∈ mq_insert due h q <-> m = (due, h) \/ m ∈ q.
Proof.
  induction q as [|[due' h'] q IH]; cbn; [set_solver|]. case_match; [set_solver|].
  rewrite elem_of_cons, IH, elem_of_cons. tauto.
Qed.

Lemma mq_insert_sorted due h q : mq_sorted q -> mq_sorted (mq_insert due h q).
Proof.
  induction q as [|[due' h'] q IH]; cbn; [by repeat constructor|]. intros [Hf Hs].
  case_match eqn:Hlt; cbn.
  - split; [|done]. constructor; [cbn; lia|]. eapply Forall_impl; [exact Hf|]. cbn. lia.
  - split; [|by apply IH]. apply Forall_forall. intros m [->|Hm]%elem_of_mq_insert; [cbn; lia|].
    by eapply Forall_forall in Hf.
Qed.

#[export] Program Instance msg_queue_timed : TimedLooper msg_queue := {|
  dues := mq_dues;
  timed_wf := mq_sorted
|}.
Next Obligation. intros. by apply mq_insert_sorted. Qed.
Next Obligation.
  intros q h. cbn. induction q as [|[due h'] q IH]; [done|]. intros [Hf Hs]. rewrite filter_cons.
  case_decide; cbn; [|by apply IH]. split; [|by apply IH]. apply Forall_forall.
  intros m [_ Hm]%list_elem_of_filter. by eapply Forall_forall in Hf.
Qed.
Next Obligation. intros [|[due h'] q] now h l' Hs Hp; [done|]. cbn in Hp. case_match; simplify_eq. apply Hs. Qed.
Next Obligation. intros. rewrite !elem_of_mq_dues. cbn. rewrite elem_of_mq_insert. naive_solver. Qed.
Next Obligation. intros. rewrite !elem_of_mq_dues. cbn. rewrite list_elem_of_filter. naive_solver. Qed.
Next Obligation.
  intros [|[due h''] q] now h l' h' x Hp Hne; [done|]. cbn in Hp. case_match; simplify_eq.
  rewrite !elem_of_mq_dues, elem_of_cons. naive_solver.
Qed.
Next Obligation.
  intros [|[due h'] q] now h x Hs Hp; rewrite elem_of_mq_dues; [set_solver|]. cbn in *.
  case_match; [done|]. rewrite elem_of_cons. intros [[= -> ->]|Hq]; [lia|].
  destruct Hs as [Hf _]. eapply Forall_forall in Hf; [|exact Hq]. cbn in Hf. lia.
Qed.

Create Rewrite HintDb looper.
#[export] Hint Rewrite @pending_sendMessageDelayed @pending_removeMessages
  using typeclasses eauto : looper.
