(* ===== verification/SessionManager.v ===== *)
(** Model of [PowerSessionManager] and [PowerHintMonitor]
    (src/aidl/power-libperfmgr/PowerSessionManager.{h,cpp}) and of the sessions
    running against them.

    [world] holds what the service shares: the session objects on the heap, the
    manager, the looper's queue, the hint manager, and the two pieces of kernel
    state the code writes, the last uclamp value and the task profile of every
    thread.  A label is one binder call, one destructor or one message the
    monitor thread takes from the looper, with the answers of the environment
    (clock readings, results of [SetTaskProfiles]); a step runs the method and
    performs its effects in order.  Dereferencing a session that was deleted is
    the result [WUseAfterFree].  A call and a message handler are each one step. *)
From S2P Require Import Prelude HintManager Looper Session Doubles.

(** ** The manager *)

Record PowerSessionManager := {
  kDisableBoostHintName : string;
  mHintManager_set : bool;      (* mHintManager is not null *)
  mSessions : gset Z;
  mTidRefCountMap : gmap Z Z;
  mDisplayRefreshRate : Z;
  mActive : bool
}.

Definition PowerSessionManager_new (env : property_source) : PowerSessionManager := {|
  kDisableBoostHintName :=
    GetProperty env "vendor.powerhal.adpf.disable.hint" "ADPF_DISABLE_TA_BOOST";
  mHintManager_set := false;
  mSessions := ∅;
  mTidRefCountMap := ∅;
  mDisplayRefreshRate := 60;
  mActive := false
|}.

Definition with_tids (m : gmap Z Z) (sessions : gset Z) (p : PowerSessionManager) :
    PowerSessionManager :=
  {| kDisableBoostHintName := kDisableBoostHintName p; mHintManager_set := mHintManager_set p;
     mSessions := sessions; mTidRefCountMap := m;
     mDisplayRefreshRate := mDisplayRefreshRate p; mActive := mActive p |}.

Definition with_mActive (b : bool) (p : PowerSessionManager) : PowerSessionManager :=
  {| kDisableBoostHintName := kDisableBoostHintName p; mHintManager_set := mHintManager_set p;
     mSessions := mSessions p; mTidRefCountMap := mTidRefCountMap p;
     mDisplayRefreshRate := mDisplayRefreshRate p; mActive := b |}.

Definition setHintManager `{HintManager HM} (hm : HM) (p : PowerSessionManager) :
    PowerSessionManager :=
  if IsHintSupported hm (kDisableBoostHintName p) then
    {| kDisableBoostHintName := kDisableBoostHintName p; mHintManager_set := true;
       mSessions := mSessions p; mTidRefCountMap := mTidRefCountMap p;
       mDisplayRefreshRate := mDisplayRefreshRate p; mActive := mActive p |}
  else p.

Definition updateHintMode (mode : string) (enabled : bool) (p : PowerSessionManager) :
    PowerSessionManager :=
  let with_rate r :=
    {| kDisableBoostHintName := kDisableBoostHintName p; mHintManager_set := mHintManager_set p;
       mSessions := mSessions p; mTidRefCountMap := mTidRefCountMap p;
       mDisplayRefreshRate := r; mActive := mActive p |} in
  if enabled && (String.substring 0 8 mode =? "REFRESH_")%string then
    if (mode =? "REFRESH_120FPS")%string then with_rate 120
    else if (mode =? "REFRESH_90FPS")%string then with_rate 90
    else if (mode =? "REFRESH_60FPS")%string then with_rate 60
    else p
  else p.

Definition getDisplayRefreshRate (p : PowerSessionManager) : Z := mDisplayRefreshRate p.

(** The reference counts, and the threads whose last successful task profile is
    ResetUclampGrp. *)
Definition tid_state : Type := gmap Z Z * gset Z.

(** One iteration of the loop of [addPowerSession]; [ok] is what
    [SetTaskProfiles] answers if it is called.  [None]: the count, an [int], overflows,
    which is undefined. *)
Definition add_tid (ok : bool) (t : Z) (ts : tid_state) : option tid_state :=
  let '(m, prof) := ts in
  match m !! t with
  | None => Some (if ok then (<[t := 1]> m, {[t]} ∪ prof) else (m, prof))
  | Some n =>
      if n <=? 0 then Some (m, prof)
      else n' ← ck32 (n + 1); Some (<[t := n']> m, prof)
  end.

(** One iteration of the loop of [removePowerSession]; the counts in the map are
    positive, so that taking one off stays within an [int]. *)
Definition remove_tid (ok : bool) (t : Z) (ts : tid_state) : tid_state :=
  let '(m, prof) := ts in
  match m !! t with
  | None => (m, prof)
  | Some n =>
      if n - 1 <=? 0
      then (delete t m, if ok then prof ∖ {[t]} else prof)
      else (<[t := n - 1]> m, prof)
  end.

(** The loops; [oks i] is the answer for the thread at position [i]. *)
Fixpoint add_tids (oks : nat -> bool) (i : nat) (tids : list Z) (ts : tid_state) :
    option tid_state :=
  match tids with
  | [] => Some ts
  | t :: tids => ts ← add_tid (oks i) t ts; add_tids oks (S i) tids ts
  end.

Fixpoint remove_tids (oks : nat -> bool) (i : nat) (tids : list Z) (ts : tid_state) : tid_state :=
  match tids with
  | [] => ts
  | t :: tids => remove_tids oks (S i) tids (remove_tid (oks i) t ts)
  end.

Definition addPowerSession (oks : nat -> bool) (sid : Z) (tids : list Z)
    (p : PowerSessionManager) (prof : gset Z) : option (PowerSessionManager * gset Z) :=
  '(m, prof) ← add_tids oks 0 tids (mTidRefCountMap p, prof);
  Some (with_tids m ({[sid]} ∪ mSessions p) p, prof).

Definition removePowerSession (oks : nat -> bool) (sid : Z) (tids : list Z)
    (p : PowerSessionManager) (prof : gset Z) : PowerSessionManager * gset Z :=
  let '(m, prof) := remove_tids oks 0 tids (mTidRefCountMap p, prof) in
  (with_tids m (mSessions p ∖ {[sid]}) p, prof).

(** The loop of [isAnySessionActive] over the registered pointers; [clock sid] is
    the reading [isStale] takes.  [None]: a pointer to a deleted session. *)
Fixpoint any_active (t : tunables) (store : gmap Z PowerHintSession) (clock : Z -> Z)
    (sids : list Z) : option bool :=
  match sids with
  | [] => Some false
  | sid :: sids =>
      s ← store !! sid;
      if is_active (mDescriptor s) && negb (isStale t (clock sid) s) then Some true
      else any_active t store clock sids
  end.

(** [isAnySessionActive]: the new [mActive] when it changes. *)
Definition isAnySessionActive (t : tunables) (store : gmap Z PowerHintSession) (clock : Z -> Z)
    (p : PowerSessionManager) : option (option bool * PowerSessionManager) :=
  active ← any_active t store clock (elements (mSessions p));
  if Bool.eqb active (mActive p) then Some (None, p)
  else Some (Some active, with_mActive active p).

Definition enableSystemTopAppBoost `{HintManager HM} (p : PowerSessionManager) (hm : HM) : HM :=
  if mHintManager_set p then EndHint (kDisableBoostHintName p) hm else hm.

Definition disableSystemTopAppBoost `{HintManager HM} (p : PowerSessionManager) (hm : HM) : HM :=
  if mHintManager_set p then DoHint (kDisableBoostHintName p) hm else hm.

(** [PowerSessionManager::handleMessage] *)
Definition handleManagerMessage `{HintManager HM} (t : tunables)
    (store : gmap Z PowerHintSession) (clock : Z -> Z) (p : PowerSessionManager) (hm : HM) :
    option (PowerSessionManager * HM) :=
  '(active, p) ← isAnySessionActive t store clock p;
  Some (p, match active with
           | None => hm
           | Some true => disableSystemTopAppBoost p hm
           | Some false => enableSystemTopAppBoost p hm
           end).

(** ** The service *)

Record world (HM L : Type) := {
  w_store : gmap Z PowerHintSession;
  w_next : Z;                         (* identity of the next object *)
  w_mgr : PowerSessionManager;
  w_looper : L;
  w_running : bool;                   (* PowerHintMonitor::isRunning *)
  w_hints : HM;
  w_uclamp : gmap Z (Z * Z);          (* last sched_setattr of each thread *)
  w_profiles : gset Z
}.
Arguments w_store {HM L} _.
Arguments w_next {HM L} _.
Arguments w_mgr {HM L} _.
Arguments w_looper {HM L} _.
Arguments w_running {HM L} _.
Arguments w_hints {HM L} _.
Arguments w_uclamp {HM L} _.
Arguments w_profiles {HM L} _.
Arguments Build_world {HM L} _ _ _ _ _ _ _ _.

Section service.
Context `{HintManager HM} `{Looper L} (t : tunables).

Abbreviation W := (world HM L).

Definition set_store (st : gmap Z PowerHintSession) (w : W) : W :=
  Build_world st (w_next w) (w_mgr w) (w_looper w) (w_running w) (w_hints w) (w_uclamp w)
    (w_profiles w).

Definition set_looper (l : L) (w : W) : W :=
  Build_world (w_store w) (w_next w) (w_mgr w) l (w_running w) (w_hints w) (w_uclamp w)
    (w_profiles w).

Definition set_mgr (pp : PowerSessionManager * gset Z) (w : W) : W :=
  Build_world (w_store w) (w_next w) (fst pp) (w_looper w) (w_running w) (w_hints w) (w_uclamp w)
    (snd pp).

Definition set_uclamp (u : gmap Z (Z * Z)) (w : W) : W :=
  Build_world (w_store w) (w_next w) (w_mgr w) (w_looper w) (w_running w) (w_hints w) u
    (w_profiles w).

(** One effect of a method of session [sid] with threads [tids].  Only the constructor
    registers; where that is undefined [wstep] stops the run. *)
Definition apply_effect (oks : nat -> bool) (now sid : Z) (tids : list Z) (w : W) (e : effect) : W :=
  match e with
  | EffSched tid lo hi => set_uclamp (<[tid := (lo, hi)]> (w_uclamp w)) w
  | EffUpdateBoostMode => set_looper (sendMessage now ManagerHandler (w_looper w)) w
  | EffArmStale d => set_looper (sendMessageDelayed now d (StaleHandlerOf sid) (w_looper w)) w
  | EffRemoveStale => set_looper (removeMessages (StaleHandlerOf sid) (w_looper w)) w
  | EffAddPowerSession =>
      set_mgr (default (w_mgr w, w_profiles w)
                 (addPowerSession oks sid tids (w_mgr w) (w_profiles w))) w
  | EffRemovePowerSession => set_mgr (removePowerSession oks sid tids (w_mgr w) (w_profiles w)) w
  end.

Definition apply_effects (oks : nat -> bool) (now sid : Z) (tids : list Z) (eff : list effect)
    (w : W) : W := foldl (apply_effect oks now sid tids) w eff.

Inductive wlabel :=
  | WCreate (oks : nat -> bool) (now tgid uid : Z) (tids : list Z) (durationNanos adpfRate : Z)
  | WCall (oks : nat -> bool) (now sid : Z) (c : session_call)
  | WDestroy (oks : nat -> bool) (now sid : Z)
  | WPoll (now : Z) (clock : Z -> Z).

Inductive wresult :=
  | WOk (w : W)
  | WDisabled                  (* the label does not apply *)
  | WUndefined                 (* undefined arithmetic in the session or its registration *)
  | WUseAfterFree.             (* a deleted session is dereferenced *)

(** Runs [f] on the object [sid] and performs the effects. *)
Definition on_session (oks : nat -> bool) (now sid : Z)
    (f : PowerHintSession -> option (PowerHintSession * list effect)) (w : W) : option W :=
  s ← w_store w !! sid;
  '(s', eff) ← f s;
  Some (apply_effects oks now sid (threadIds (mDescriptor s)) eff
          (set_store (<[sid := s']> (w_store w)) w)).

(** A binder call is never a looper message. *)
Definition binder_call (c : session_call) : bool :=
  match c with CallStaleMessage _ => false | _ => true end.

Definition wstep (lbl : wlabel) (w : W) : wresult :=
  match lbl with
  | WCreate oks now tg u tids dur rate =>
      let '(s, eff) := PowerHintSession_new t tg u tids dur rate now in
      let sid := w_next w in
      match addPowerSession oks sid tids (w_mgr w) (w_profiles w) with
      | None => WUndefined
      | Some _ =>
          WOk (apply_effects oks now sid tids eff
                (Build_world (<[sid := s]> (w_store w)) (sid + 1) (w_mgr w) (w_looper w)
                   (w_running w) (w_hints w) (w_uclamp w) (w_profiles w)))
      end
  | WCall oks now sid c =>
      match w_store w !! sid with
      | None => WDisabled
      | Some s =>
          if binder_call c then
            match on_session oks now sid
                    (fun s => '(_, s', eff) ← session_exec t (w_running w) c s; Some (s', eff)) w with
            | Some w' => WOk w'
            | None => WUndefined
            end
          else WDisabled
      end
  | WDestroy oks now sid =>
      match on_session oks now sid (fun s => let '(_, s', eff) := close t s in Some (s', eff)) w with
      | Some w' => WOk (set_store (delete sid (w_store w')) w')
      | None => WDisabled
      end
  | WPoll now clock =>
      match poll now (w_looper w) with
      | None => WDisabled
      | Some (h, l) =>
          let w := set_looper l w in
          match h with
          | ManagerHandler =>
              match handleManagerMessage t (w_store w) clock (w_mgr w) (w_hints w) with
              | Some (p, hm) =>
                  WOk (Build_world (w_store w) (w_next w) p (w_looper w) (w_running w) hm
                         (w_uclamp w) (w_profiles w))
              | None => WUseAfterFree
              end
          | StaleHandlerOf sid =>
              match on_session (fun _ => true) now sid
                      (fun s => Some (handleStaleMessage t now s)) w with
              | Some w' => WOk w'
              | None => WUseAfterFree
              end
          end
      end
  end.

Definition wexec (r : wresult) (lbl : wlabel) : wresult :=
  match r with WOk w => wstep lbl w | _ => r end.

(** A run from a world. *)
Definition wrun (lbls : list wlabel) (w : W) : wresult := foldl wexec (WOk w) lbls.

(** The start of the service: [PowerHintMonitor::start] and [setHintManager] when
    ADPF is enabled, as main does. *)
Definition world_init (p : PowerSessionManager) (l : L) (hm : HM) (adpf : bool) : W :=
  Build_world ∅ 0 (if adpf then setHintManager hm p else p) l adpf hm ∅ ∅.

End service.

(** ** Specification *)

(** What a step does to the parts the invariants speak about. *)
Section spec.
Context `{HintManager HM} `{Looper L} (t : tunables).

Abbreviation W := (world HM L).

Definition stale_pending (w : W) (sid : Z) : nat := pending (w_looper w) (StaleHandlerOf sid).

Definition monitoring (s : PowerHintSession) : bool := mIsMonitoringStale (mStaleHandler s).

Definition registration (w : W) : PowerSessionManager * gset Z := (w_mgr w, w_profiles w).

(** Manager, profiles and hints untouched. *)
Definition same_manager (w w' : W) : Prop :=
  registration w' = registration w /\ w_hints w' = w_hints w.

Definition label_oks (lbl : wlabel) : nat -> bool :=
  match lbl with
  | WCreate oks _ _ _ _ _ _ | WCall oks _ _ _ | WDestroy oks _ _ => oks
  | WPoll _ _ => fun _ => true
  end.

Definition is_report (sid : Z) (lbl : wlabel) : bool :=
  match lbl with
  | WCall _ _ sid' (CallReport _ _ _ _) => bool_decide (sid' = sid)
  | _ => false
  end.

(** The abstract transitions: creating a session, a method that leaves the
    registration alone (and may arm the stale timer of an unmonitored session), a
    delivered stale message, closing a session (and deleting it), and a delivered
    manager message. *)
Inductive wtrans (lbl : wlabel) (w w' : W) : Prop :=
  | T_create (s : PowerHintSession) :
      w_store w' = <[w_next w := s]> (w_store w) ->
      w_next w' = w_next w + 1 ->
      mSessionClosed s = false -> monitoring s = false ->
      addPowerSession (label_oks lbl) (w_next w) (threadIds (mDescriptor s)) (w_mgr w) (w_profiles w) =
        Some (registration w') ->
      w_hints w' = w_hints w ->
      (forall x, stale_pending w' x = stale_pending w x) -> wtrans lbl w w'
  | T_method (sid : Z) (s s' : PowerHintSession) (armed : bool) :
      w_store w !! sid = Some s -> w_store w' = <[sid := s']> (w_store w) ->
      w_next w' = w_next w ->
      mSessionClosed s' = mSessionClosed s ->
      threadIds (mDescriptor s') = threadIds (mDescriptor s) ->
      (if armed then monitoring s = false /\ monitoring s' = true /\ is_report sid lbl = true
       else monitoring s' = monitoring s) ->
      same_manager w w' ->
      (forall x, stale_pending w' x =
         ((if decide (x = sid) then Nat.b2n armed else 0) + stale_pending w x)%nat) -> wtrans lbl w w'
  | T_stale (sid : Z) (s s' : PowerHintSession) (again : bool) :
      w_store w !! sid = Some s -> w_store w' = <[sid := s']> (w_store w) ->
      w_next w' = w_next w ->
      mSessionClosed s' = mSessionClosed s ->
      threadIds (mDescriptor s') = threadIds (mDescriptor s) ->
      monitoring s' = again && monitoring s ->
      same_manager w w' ->
      (forall x, ((if decide (x = sid) then 1 else 0) + stale_pending w' x)%nat =
         ((if decide (x = sid) then Nat.b2n again else 0) + stale_pending w x)%nat) -> wtrans lbl w w'
  | T_close (sid : Z) (s s' : PowerHintSession) (deleted : bool) :
      w_store w !! sid = Some s ->
      w_store w' = (if deleted then delete sid (w_store w) else <[sid := s']> (w_store w)) ->
      w_next w' = w_next w ->
      mSessionClosed s = false -> mSessionClosed s' = true ->
      threadIds (mDescriptor s') = threadIds (mDescriptor s) ->
      registration w' =
        removePowerSession (label_oks lbl) sid (threadIds (mDescriptor s)) (w_mgr w) (w_profiles w) ->
      w_hints w' = w_hints w ->
      (forall x, stale_pending w' x = (if decide (x = sid) then 0 else stale_pending w x)%nat) ->
      wtrans lbl w w'
  | T_delete (sid : Z) (s : PowerHintSession) :
      w_store w !! sid = Some s -> mSessionClosed s = true ->
      w_store w' = delete sid (w_store w) -> w_next w' = w_next w ->
      same_manager w w' ->
      (forall x, stale_pending w' x = stale_pending w x) -> wtrans lbl w w'
  | T_manager (clock : Z -> Z) :
      w_store w' = w_store w -> w_next w' = w_next w ->
      w_profiles w' = w_profiles w ->
      handleManagerMessage t (w_store w) clock (w_mgr w) (w_hints w) = Some (w_mgr w', w_hints w') ->
      (forall x, stale_pending w' x = stale_pending w x) -> wtrans lbl w w'.

(** The registered pointers are the open sessions. *)
Definition registered_ok (w : W) : Prop :=
  (forall sid, sid ∈ mSessions (w_mgr w) <->
     exists s, w_store w !! sid = Some s /\ mSessionClosed s = false) /\
  (forall sid, is_Some (w_store w !! sid) -> sid < w_next w).

(** Open sessions are monitored exactly while one stale message is queued for
    them; nothing is queued for closed or deleted ones. *)
Definition stale_ok (w : W) : Prop :=
  forall sid, stale_pending w sid =
    match w_store w !! sid with
    | Some s => if mSessionClosed s then 0%nat else Nat.b2n (monitoring s)
    | None => 0%nat
    end.

(** How many times thread [tid] occurs in open sessions. *)
Definition count_tid (tid : Z) (tids : list Z) : Z := Z.of_nat (length (filter (.= tid) tids)).

Definition session_refs (tid : Z) (s : PowerHintSession) : Z :=
  if mSessionClosed s then 0 else count_tid tid (threadIds (mDescriptor s)).

Definition refs (store : gmap Z PowerHintSession) (tid : Z) : Z :=
  map_fold (fun _ s acc => session_refs tid s + acc) 0 store.

Definition count_ok (n : Z) (o : option Z) : Prop :=
  match o with Some k => k = n /\ 0 < n | None => n = 0 end.

Definition refcounts_ok (w : W) : Prop :=
  (forall tid, count_ok (refs (w_store w) tid) (mTidRefCountMap (w_mgr w) !! tid)) /\
  (forall tid, tid ∈ w_profiles w <-> is_Some (mTidRefCountMap (w_mgr w) !! tid)).

(** The hint that disables the top-app boost follows [mActive]. *)
Definition hint_ok (w : W) : Prop :=
  mHintManager_set (w_mgr w) = true ->
  requested (w_hints w) (kDisableBoostHintName (w_mgr w)) = mActive (w_mgr w).

(** Client discipline: a closed session receives no report. *)
Definition no_report_when_closed (w : W) (lbl : wlabel) : Prop :=
  forall sid s, is_report sid lbl = true -> w_store w !! sid = Some s -> mSessionClosed s = false.

(** Every [SetTaskProfiles] of the label succeeds. *)
Definition profiles_succeed (lbl : wlabel) : Prop := forall i, label_oks lbl i = true.

(** Runs in which no label breaks the discipline in the world it meets. *)
Fixpoint disciplined (lbls : list wlabel) (w : W) : Prop :=
  match lbls with
  | [] => True
  | lbl :: lbls =>
      no_report_when_closed w lbl /\
      match wstep t lbl w with WOk w' => disciplined lbls w' | _ => True end
  end.

End spec.

(** ** Lemmas *)

(** *** Effects *)

Section effects.
Context `{HintManager HM} `{LooperLaws L} (t : tunables).

(** Effects that leave the manager and the queued stale messages alone. *)
Definition is_arm (e : effect) : bool := match e with EffArmStale _ => true | _ => false end.

Definition quiet (e : effect) : bool :=
  match e with
  | EffSched _ _ _ | EffUpdateBoostMode | EffArmStale _ => true
  | _ => false
  end.

Definition arms (eff : list effect) : nat := length (List.filter is_arm eff).

Lemma apply_effects_quiet oks now sid tids eff (w : world HM L) :
  forallb quiet eff = true ->
  let w' := apply_effects oks now sid tids eff w in
  w_store w' = w_store w /\ w_next w' = w_next w /\ w_running w' = w_running w /\
  same_manager w w' /\
  (forall x, stale_pending w' x =
     ((if decide (x = sid) then arms eff else 0) + stale_pending w x)%nat).
Proof.
  unfold same_manager. revert w. induction eff as [|e eff IH]; intros w Hq; simpl in *.
  { repeat split; try done. intros. by case_decide. }
  apply andb_true_iff in Hq as [He Hq].
  destruct (IH (apply_effect oks now sid tids w e) Hq) as (-> & -> & -> & [-> ->] & Hp).
  destruct e; try done; repeat split; intros x; rewrite Hp; unfold stale_pending, arms; simpl;
    unfold sendMessage; rewrite ?pending_sendMessageDelayed; repeat case_decide; simplify_eq; lia.
Qed.

Lemma sched_quiet tids lo hi :
  forallb quiet (sched_setattr_calls t tids lo hi) = true /\
  arms (sched_setattr_calls t tids lo hi) = 0%nat.
Proof.
  unfold sched_setattr_calls. case_match; [|done]. by induction tids.
Qed.

Lemma arms_app e1 e2 : arms (e1 ++ e2) = (arms e1 + arms e2)%nat.
Proof. unfold arms. by rewrite List.filter_app, length_app. Qed.

End effects.

Create Rewrite HintDb effects.
#[export] Hint Rewrite arms_app forallb_app : effects.

(** *** What the methods of a session do to the world *)

Section methods.
Context (t : tunables).

Definition is_report_call (c : session_call) : bool :=
  match c with CallReport _ _ _ _ => true | _ => false end.

(** A method that does not register, close or disarm: [armed] tells whether it
    queued a stale message. *)
Definition quiet_call (c : session_call) (s s' : PowerHintSession) (eff : list effect) : Prop :=
  mSessionClosed s' = mSessionClosed s /\
  threadIds (mDescriptor s') = threadIds (mDescriptor s) /\
  forallb quiet eff = true /\
  exists armed, arms eff = Nat.b2n armed /\
    if armed then monitoring s = false /\ monitoring s' = true /\ is_report_call c = true
    else monitoring s' = monitoring s.

(** A failed precondition changes nothing; a uclamp update with the closing
    message is quiet. *)
Lemma quiet_call_id c s : quiet_call c s s [].
Proof. repeat (split; [done|]). by exists false. Qed.

Lemma quiet_call_uclamp c s s' e :
  mSessionClosed s' = mSessionClosed s ->
  threadIds (mDescriptor s') = threadIds (mDescriptor s) -> monitoring s' = monitoring s ->
  forallb quiet e = true -> arms e = 0%nat -> quiet_call c s s' (e ++ [EffUpdateBoostMode]).
Proof.
  intros ? ? ? Hq Ha. split; [done|]. split; [done|].
  split; [by rewrite forallb_app, Hq|]. exists false. rewrite arms_app, Ha. done.
Qed.

Lemma setUclamp_quiet lo hi s :
  let '(s', eff) := setUclamp t lo hi s in
  mSessionClosed s' = mSessionClosed s /\
  threadIds (mDescriptor s') = threadIds (mDescriptor s) /\ monitoring s' = monitoring s /\
  forallb quiet eff = true /\ arms eff = 0%nat.
Proof. unfold setUclamp. repeat split; apply sched_quiet. Qed.

Lemma apply_output_quiet o s s' eff :
  apply_output t o s = Some (s', eff) ->
  mSessionClosed s' = mSessionClosed s /\
  threadIds (mDescriptor s') = threadIds (mDescriptor s) /\ monitoring s' = monitoring s /\
  forallb quiet eff = true /\ arms eff = 0%nat.
Proof.
  unfold apply_output. intros Ho. case_match; [by simplify_eq|].
  apply bind_Some in Ho as (d & _ & Ho). case_match; simplify_eq; [|done].
  pose proof (setUclamp_quiet (next_uclamp_min t o) kMaxUclampValue s) as Hu.
  by destruct (setUclamp _ _ _ _); simplify_eq.
Qed.

Lemma updateStaleTimer_quiet running now s s' eff :
  updateStaleTimer t running now s = (s', eff) ->
  mSessionClosed s' = mSessionClosed s /\
  threadIds (mDescriptor s') = threadIds (mDescriptor s) /\
  forallb quiet eff = true /\
  exists armed, arms eff = Nat.b2n armed /\
    if armed then monitoring s = false /\ monitoring s' = true else monitoring s' = monitoring s.
Proof.
  unfold updateStaleTimer, monitoring. intros. destruct running; simplify_eq;
    [|by repeat (split; [done|]); exists false].
  destruct (mIsMonitoringStale (mStaleHandler s)) eqn:Hm; simplify_eq/=;
    (split; [done|]; split; [done|]; split; [by case_match|]).
  - exists false. split; [by case_match|done].
  - exists true. split; [by case_match|done].
Qed.

Lemma session_exec_quiet running c s st s' eff :
  binder_call c = true -> c <> CallClose ->
  session_exec t running c s = Some (st, s', eff) -> quiet_call c s s' eff.
Proof.
  intros Hb Hc He. destruct c; try done; simpl in He.
  - unfold pause in He. pose proof (setUclamp_quiet 0 kMaxUclampValue s) as Hu.
    destruct (setUclamp _ _ _ _) as [s1 e1]. destruct_and!.
    case_match; simplify_eq; [apply quiet_call_id|by apply quiet_call_uclamp].
  - unfold resume in He. case_match; [simplify_eq; apply quiet_call_id|].
    match goal with H : context [setUclamp t ?m ?M ?s1] |- _ =>
      pose proof (setUclamp_quiet m M s1) as Hu end.
    destruct (setUclamp _ _ _ _) as [s1 e1]. destruct_and!. simplify_eq. by apply quiet_call_uclamp.
  - apply bind_Some in He as ([st1 s1] & Hu & He). simplify_eq.
    unfold updateTargetWorkDuration in Hu. case_match; [simplify_eq; apply quiet_call_id|].
    apply bind_Some in Hu as (q & _ & Hu). apply bind_Some in Hu as (z & _ & Hu). simplify_eq.
    repeat (split; [done|]). by exists false.
  - destruct (report_inv _ _ _ _ _ _ _ _ _ _ He)
      as [(_ & -> & ->)|(_ & _ & _ & _ & i & a & o & s1 & e1 & e2 & _ & Hst & Ho & ->)].
    { apply quiet_call_id. }
    apply updateStaleTimer_quiet in Hst as (Hc1 & Ht1 & Hq1 & armed & Ha1 & Hm1).
    apply apply_output_quiet in Ho as (Hc2 & Ht2 & Hm2 & Hq2 & Ha2).
    split; [rewrite Hc2, Hc1; by destruct (_ && _)|].
    split; [rewrite Ht2, Ht1; by destruct (_ && _)|].
    split; [rewrite forallb_app; by apply andb_true_iff|].
    exists armed. rewrite arms_app, Ha1, Ha2, Hm2. split; [lia|].
    destruct (_ && _), armed; naive_solver.
Qed.

Lemma close_open s st s' eff :
  mSessionClosed s = false -> close t s = (st, s', eff) ->
  exists e, eff = EffRemoveStale :: e ++ [EffRemovePowerSession; EffUpdateBoostMode] /\
    forallb quiet e = true /\ arms e = 0%nat /\ st = status_ok /\
    mSessionClosed s' = true /\ threadIds (mDescriptor s') = threadIds (mDescriptor s).
Proof.
  intros Ho Hc. unfold close in Hc. rewrite Ho in Hc.
  pose proof (setUclamp_quiet 0 kMaxUclampValue (with_closed true s)) as Hu.
  destruct (setUclamp _ _ _ _) as [s1 e1]. destruct_and!. simplify_eq. by exists e1.
Qed.

Lemma close_closed s : mSessionClosed s = true -> close t s = (fromExceptionCode EX_ILLEGAL_STATE, s, []).
Proof. intros Hc. unfold close. by rewrite Hc. Qed.

Lemma handleStaleMessage_quiet now s s' eff :
  handleStaleMessage t now s = (s', eff) ->
  mSessionClosed s' = mSessionClosed s /\
  threadIds (mDescriptor s') = threadIds (mDescriptor s) /\
  forallb quiet eff = true /\
  exists again, arms eff = Nat.b2n again /\ monitoring s' = again && monitoring s.
Proof.
  unfold handleStaleMessage, setStale. intros Hs.
  pose proof (setUclamp_quiet 0 kMaxUclampValue s) as Hu.
  destruct (setUclamp _ _ _ _) as [s1 e1]. destruct Hu as (? & ? & ? & Hq & Ha).
  case_match; simplify_eq; (split; [done|]; split; [done|]; split).
  - by rewrite forallb_app, Hq.
  - exists false. by rewrite arms_app, Ha.
  - done.
  - by exists true.
Qed.

End methods.

(** *** Every step is an abstract transition *)

Section transitions.
Context `{HintManager HM} `{LooperLaws L} (t : tunables).

Abbreviation W := (world HM L).

Lemma on_session_inv oks now sid f (w w' : W) :
  on_session oks now sid f w = Some w' ->
  exists s s' eff, w_store w !! sid = Some s /\ f s = Some (s', eff) /\
    w' = apply_effects oks now sid (threadIds (mDescriptor s)) eff
           (set_store (<[sid := s']> (w_store w)) w).
Proof.
  intros Hs. unfold on_session in Hs. apply bind_Some in Hs as (s & ? & Hs).
  apply bind_Some in Hs as ([s' eff] & ? & ?). simplify_eq. eauto 10.
Qed.

(** The effects of closing an open session. *)
Lemma apply_close oks now sid tids e (w : W) :
  forallb quiet e = true -> arms e = 0%nat ->
  let w' := apply_effects oks now sid tids
              (EffRemoveStale :: e ++ [EffRemovePowerSession; EffUpdateBoostMode]) w in
  w_store w' = w_store w /\ w_next w' = w_next w /\ w_running w' = w_running w /\
  registration w' = removePowerSession oks sid tids (w_mgr w) (w_profiles w) /\
  w_hints w' = w_hints w /\
  (forall x, stale_pending w' x = (if decide (x = sid) then 0 else stale_pending w x)%nat).
Proof.
  intros Hq Ha. simpl. unfold apply_effects. simpl. rewrite foldl_app. simpl.
  set (w1 := set_looper (removeMessages (StaleHandlerOf sid) (w_looper w)) w).
  destruct (apply_effects_quiet oks now sid tids e w1 Hq) as (Hs & Hn & Hr & [Hg Hh] & Hp).
  unfold apply_effects in *. set (w2 := foldl _ w1 e) in *.
  injection Hg as Hg1 Hg2. simpl in *. rewrite Hs, Hn, Hr, Hh, Hg1, Hg2.
  split_and!; try done.
  - unfold registration. simpl. by destruct (removePowerSession _ _ _ _ _).
  - intros x. unfold stale_pending at 1. simpl. unfold sendMessage.
    rewrite pending_sendMessageDelayed. simpl.
    change (pending (w_looper w2) (StaleHandlerOf x)) with (stale_pending w2 x).
    rewrite Hp, Ha. unfold stale_pending. simpl. rewrite pending_removeMessages.
    repeat case_decide; simplify_eq; done.
Qed.

Lemma wstep_create oks now tg u tids dur rate (w w' : W) :
  wstep t (WCreate oks now tg u tids dur rate) w = WOk w' ->
  wtrans t (WCreate oks now tg u tids dur rate) w w'.
Proof.
  intros Hs. unfold wstep, PowerHintSession_new in Hs. cbv zeta in Hs.
  match type of Hs with context [setUclamp t ?m ?M ?s0] =>
    pose proof (setUclamp_quiet t m M s0) as Hu end.
  destruct (setUclamp _ _ _ _) as [s1 e1]. destruct Hu as (Hc & Ht & Hm & Hq & Ha).
  simpl in Hc, Ht, Hm. destruct (addPowerSession _ _ _ _ _) as [pp|] eqn:Hadd; [|done].
  match type of Hs with context [apply_effects _ _ _ _ _ ?w1] => set (w0 := w1) in Hs end.
  assert (w' = apply_effects oks now (w_next w) tids (EffAddPowerSession :: e1) w0) as ->
    by congruence.
  clear Hs. set (w1 := apply_effect oks now (w_next w) tids w0 EffAddPowerSession).
  change (apply_effects oks now (w_next w) tids (EffAddPowerSession :: e1) w0)
    with (apply_effects oks now (w_next w) tids e1 w1).
  destruct (apply_effects_quiet oks now (w_next w) tids e1 w1 Hq) as (Hs & Hn & Hr & [Hg Hh] & Hp).
  apply T_create with s1; try done.
  - rewrite Hg, Ht. unfold registration. simpl. rewrite Hadd. simpl. by destruct pp.
  - intros x. rewrite Hp, Ha. by case_decide.
Qed.

Lemma wstep_close oks now sid s s' st eff (w : W) :
  w_store w !! sid = Some s -> close t s = (st, s', eff) ->
  let w' := apply_effects oks now sid (threadIds (mDescriptor s)) eff
              (set_store (<[sid := s']> (w_store w)) w) in
  forall lbl, label_oks lbl = oks ->
  wtrans t lbl w w' /\ wtrans t lbl w (set_store (delete sid (w_store w')) w').
Proof.
  intros Hl Hc w' lbl <-. destruct (mSessionClosed s) eqn:Hcl.
  - rewrite close_closed in Hc by done. simplify_eq. subst w'. simpl. split.
    + apply T_method with sid s' s' false; try done. intros. by case_decide.
    + apply T_delete with sid s'; try done. simpl. by rewrite delete_insert_eq.
  - destruct (close_open _ _ _ _ _ Hcl Hc) as (e & -> & Hq & Ha & _ & Hc' & Ht).
    destruct (apply_close (label_oks lbl) now sid (threadIds (mDescriptor s)) e
      (set_store (<[sid := s']> (w_store w)) w) Hq Ha) as (Hs & Hn & Hr & Hg & Hh & Hp).
    fold w' in Hs, Hn, Hr, Hg, Hh, Hp. split.
    + by apply T_close with sid s s' false.
    + apply T_close with sid s s' true; try done. simpl. rewrite Hs. apply delete_insert_eq.
Qed.

Lemma wstep_call oks now sid c (w w' : W) :
  wstep t (WCall oks now sid c) w = WOk w' -> wtrans t (WCall oks now sid c) w w'.
Proof.
  intros Hs. simpl in Hs. destruct (w_store w !! sid) as [s0|]; [|done].
  destruct (binder_call c) eqn:Hb; [|done].
  destruct (on_session _ _ _ _ _) as [w1|] eqn:Ho; simplify_eq.
  apply on_session_inv in Ho as (s & s' & eff & Hl' & He & ->).
  apply bind_Some in He as ([[st s1] eff1] & He & ?). simplify_eq.
  destruct (decide (c = CallClose)) as [->|Hne].
  { simpl in He. simplify_eq. by eapply wstep_close. }
  destruct (session_exec_quiet _ _ _ _ _ _ _ Hb Hne He) as (Hc & Ht & Hq & armed & Ha & Hm).
  match goal with |- wtrans _ _ _ (apply_effects _ _ _ _ _ ?w1) =>
    destruct (apply_effects_quiet oks now sid (threadIds (mDescriptor s)) eff w1 Hq)
      as (Hs & Hn & Hr & Hg & Hp) end.
  eapply (T_method _ _ _ _ sid s s' armed); try done.
  - destruct armed; [|done]. destruct Hm as (? & ? & Hr'). split_and!; try done.
    destruct c; try done. by apply bool_decide_true.
  - intros x. rewrite Hp, Ha. done.
Qed.

Lemma wstep_poll now clock (w w' : W) :
  wstep t (WPoll now clock) w = WOk w' -> wtrans t (WPoll now clock) w w'.
Proof.
  intros Hs. simpl in Hs. destruct (poll now (w_looper w)) as [[h l]|] eqn:Hpl; [|done].
  pose proof (fun x => pending_poll _ _ _ _ (StaleHandlerOf x) Hpl) as Hpp. destruct h as [|sid].
  - destruct (handleManagerMessage _ _ _ _ _) as [[p hm]|] eqn:Hm; simplify_eq.
    apply T_manager with clock; try done.
    intros x. unfold stale_pending at 2. rewrite Hpp. by rewrite decide_False.
  - destruct (on_session _ _ _ _ _) as [w1|] eqn:Ho; simplify_eq.
    apply on_session_inv in Ho as (s & s' & eff & Hl' & He & ->). simplify_eq/=.
    destruct (handleStaleMessage_quiet _ _ _ _ _ He) as (Hc & Ht & Hq & again & Ha & Hm).
    match goal with |- wtrans _ _ _ (apply_effects _ _ _ _ _ ?w1) =>
      destruct (apply_effects_quiet (fun _ => true) now sid (threadIds (mDescriptor s)) eff w1 Hq)
        as (Hs & Hn & Hr & Hg & Hp) end.
    eapply (T_stale _ _ _ _ sid s s' again); try done.
    intros x. rewrite Hp, Ha. unfold stale_pending at 2. rewrite Hpp. unfold stale_pending. simpl.
    repeat case_decide; simplify_eq; lia.
Qed.

Lemma wstep_trans lbl (w w' : W) : wstep t lbl w = WOk w' -> wtrans t lbl w w'.
Proof.
  destruct lbl as [| |oks now sid|]; [apply wstep_create|apply wstep_call| |apply wstep_poll].
  intros Hs. simpl in Hs. destruct (on_session _ _ _ _ _) as [w1|] eqn:Ho; simplify_eq.
  apply on_session_inv in Ho as (s & s' & eff & Hl' & He & ->).
  destruct (close t s) as [[st s1] eff1] eqn:Hc. simplify_eq. by eapply wstep_close.
Qed.

End transitions.

(** *** Reference counts *)

Section refcounts.

Lemma count_tid_cons tid x tids :
  count_tid tid (x :: tids) = (if decide (x = tid) then 1 else 0) + count_tid tid tids.
Proof. unfold count_tid. rewrite filter_cons. case_decide; simpl length; lia. Qed.

Lemma count_tid_nonneg tid tids : 0 <= count_tid tid tids.
Proof. unfold count_tid. lia. Qed.

Lemma count_tid_length tid tids : count_tid tid tids <= Z.of_nat (length tids).
Proof. unfold count_tid. pose proof (length_filter (.= tid) tids). lia. Qed.

Lemma session_refs_nonneg tid s : 0 <= session_refs tid s.
Proof. unfold session_refs. case_match; [done|apply count_tid_nonneg]. Qed.

Lemma refs_insert store sid s tid :
  store !! sid = None -> refs (<[sid := s]> store) tid = session_refs tid s + refs store tid.
Proof.
  intros Hn. unfold refs. rewrite map_fold_insert_L; [done| |done]. intros. lia.
Qed.

Lemma refs_delete store sid s tid :
  store !! sid = Some s -> refs store tid = session_refs tid s + refs (delete sid store) tid.
Proof.
  intros Hs. rewrite <- (insert_delete_id store sid s) at 1 by done.
  apply refs_insert, lookup_delete_eq.
Qed.

Lemma refs_update store sid s s' tid :
  store !! sid = Some s ->
  refs (<[sid := s']> store) tid = refs store tid - session_refs tid s + session_refs tid s'.
Proof.
  intros Hs. rewrite <- insert_delete_eq, refs_insert by apply lookup_delete_eq.
  rewrite (refs_delete store sid s) by done. lia.
Qed.

Lemma refs_nonneg store tid : 0 <= refs store tid.
Proof.
  unfold refs. apply (map_fold_weak_ind (fun acc _ => 0 <= acc)); [done|].
  intros sid s m acc _ IH. pose proof (session_refs_nonneg tid s). lia.
Qed.

(** The counts and the profiles agree with [cnt]. *)
Definition tids_ok (cnt : Z -> Z) (ts : tid_state) : Prop :=
  (forall tid, count_ok (cnt tid) (fst ts !! tid)) /\
  (forall tid, tid ∈ snd ts <-> is_Some (fst ts !! tid)).

Lemma tids_ok_ext cnt cnt' ts :
  (forall tid, cnt tid = cnt' tid) -> tids_ok cnt ts -> tids_ok cnt' ts.
Proof. intros Hc [H1 H2]. split; [|done]. intros tid. by rewrite <- Hc. Qed.

Lemma add_tid_ok cnt x ts :
  tids_ok cnt ts -> cnt x + 1 < 2 ^ 31 -> exists ts', add_tid true x ts = Some ts' /\
  tids_ok (fun tid => (if decide (x = tid) then 1 else 0) + cnt tid) ts'.
Proof.
  destruct ts as [m prof]. intros [Hc Hp] Hb. simpl in *. unfold add_tid.
  pose proof (Hc x) as Hx. destruct (m !! x) as [n|] eqn:Hl; simpl in Hx.
  - destruct Hx as [-> Hpos]. rewrite (proj2 (Z.leb_gt _ _)) by lia.
    rewrite ck_s_in by (change (2 ^ (32 - 1)) with (2 ^ 31); lia).
    eexists; split; [reflexivity|]. split; intros tid; simpl; destruct (decide (x = tid)) as [<-|];
      rewrite ?lookup_insert_eq, ?lookup_insert_ne by done; simpl.
    + lia.
    + by apply Hc.
    + rewrite Hp, Hl. naive_solver.
    + by apply Hp.
  - eexists; split; [reflexivity|]. split; intros tid; simpl; destruct (decide (x = tid)) as [<-|];
      rewrite ?lookup_insert_eq, ?lookup_insert_ne by done; simpl.
    + lia.
    + by apply Hc.
    + set_solver.
    + rewrite <- Hp. set_solver.
Qed.

Lemma remove_tid_ok cnt x ts :
  tids_ok cnt ts -> 0 < cnt x ->
  tids_ok (fun tid => cnt tid - (if decide (x = tid) then 1 else 0)) (remove_tid true x ts).
Proof.
  destruct ts as [m prof]. intros [Hc Hp] Hb. simpl in *. unfold remove_tid.
  pose proof (Hc x) as Hx. destruct (m !! x) as [n|] eqn:Hl; simpl in Hx; [|lia].
  destruct Hx as [-> Hpos]. destruct (cnt x - 1 <=? 0) eqn:Hz;
    split; intros tid; simpl; destruct (decide (x = tid)) as [<-|];
    rewrite ?lookup_delete_eq, ?lookup_delete_ne, ?lookup_insert_eq, ?lookup_insert_ne by done; simpl.
  - lia.
  - rewrite Z.sub_0_r. by apply Hc.
  - rewrite is_Some_alt. set_solver.
  - rewrite <- Hp. set_solver.
  - lia.
  - rewrite Z.sub_0_r. by apply Hc.
  - rewrite Hp, Hl. naive_solver.
  - by apply Hp.
Qed.

(** An iteration that is defined stays within an [int]. *)
Lemma add_tid_fits cnt x ts ts' :
  tids_ok cnt ts -> add_tid true x ts = Some ts' -> cnt x + 1 < 2 ^ 31.
Proof.
  destruct ts as [m prof]. intros [Hc _] Ha. simpl in *. unfold add_tid in Ha.
  pose proof (Hc x) as Hx. destruct (m !! x) as [n|]; simpl in Hx; [|lia].
  destruct Hx as [-> Hpos]. rewrite (proj2 (Z.leb_gt _ _)) in Ha by lia.
  apply bind_Some in Ha as (n' & [_ Hn]%ck_s_Some & _). change (2 ^ (32 - 1)) with (2 ^ 31) in Hn. lia.
Qed.

Lemma add_tids_ok oks tids : (forall i, oks i = true) -> forall i cnt ts ts',
  tids_ok cnt ts -> add_tids oks i tids ts = Some ts' ->
  tids_ok (fun tid => count_tid tid tids + cnt tid) ts'.
Proof.
  intros Hok. induction tids as [|x tids IH]; intros i cnt ts ts' Ht Ha; simpl in Ha.
  { simplify_eq. by eapply tids_ok_ext; [|done]. }
  apply bind_Some in Ha as (ts1 & H1 & Ha). rewrite Hok in H1.
  destruct (add_tid_ok cnt x ts Ht (add_tid_fits _ _ _ _ Ht H1)) as (ts2 & H2 & Ht2).
  assert (ts2 = ts1) as -> by congruence. eapply tids_ok_ext; [|by eapply IH].
  intros tid. simpl. rewrite count_tid_cons. lia.
Qed.

(** Registration is defined as long as the counts stay within an [int]. *)
Lemma add_tids_defined oks tids : (forall i, oks i = true) -> forall i cnt ts,
  tids_ok cnt ts -> (forall tid, cnt tid + count_tid tid tids < 2 ^ 31) ->
  is_Some (add_tids oks i tids ts).
Proof.
  intros Hok. induction tids as [|x tids IH]; intros i cnt ts Ht Hb; simpl; [by eauto|].
  rewrite Hok. destruct (add_tid_ok cnt x ts Ht) as (ts1 & -> & H1).
  - specialize (Hb x). rewrite count_tid_cons, decide_True in Hb by done.
    pose proof (count_tid_nonneg x tids). lia.
  - simpl. eapply IH; [exact H1|]. intros tid. simpl. specialize (Hb tid).
    rewrite count_tid_cons in Hb. lia.
Qed.

Lemma remove_loop_ok oks tids : (forall i, oks i = true) -> forall i cnt ts,
  tids_ok cnt ts -> (forall tid, count_tid tid tids <= cnt tid) ->
  tids_ok (fun tid => cnt tid - count_tid tid tids) (remove_tids oks i tids ts).
Proof.
  intros Hok. induction tids as [|x tids IH]; intros i cnt ts Ht Hb; simpl.
  { eapply tids_ok_ext; [|done]. intros. simpl. unfold count_tid. simpl. lia. }
  rewrite Hok. eapply tids_ok_ext; [|eapply IH; [apply remove_tid_ok; [done|]|]].
  - intros tid. simpl. rewrite count_tid_cons. lia.
  - specialize (Hb x). rewrite count_tid_cons, decide_True in Hb by done.
    pose proof (count_tid_nonneg x tids). lia.
  - intros tid. simpl. specialize (Hb tid). rewrite count_tid_cons in Hb. lia.
Qed.

End refcounts.

(** *** Invariants *)

Section invariants.
Context `{HintManagerLaws HM} `{LooperLaws L} (t : tunables).

Abbreviation W := (world HM L).

Lemma add_sessions oks sid tids p prof pp :
  addPowerSession oks sid tids p prof = Some pp -> mSessions (fst pp) = {[sid]} ∪ mSessions p.
Proof. intros ([m q] & _ & [= <-])%bind_Some. done. Qed.

Lemma remove_sessions oks sid tids p prof :
  mSessions (fst (removePowerSession oks sid tids p prof)) = mSessions p ∖ {[sid]}.
Proof. unfold removePowerSession. by destruct (remove_tids _ _ _ _). Qed.

(** Parts of the manager that registration does not touch. *)
Definition boost_part (p : PowerSessionManager) : string * bool * bool :=
  (kDisableBoostHintName p, mHintManager_set p, mActive p).

Lemma add_boost_part oks sid tids p prof pp :
  addPowerSession oks sid tids p prof = Some pp -> boost_part (fst pp) = boost_part p.
Proof. intros ([m q] & _ & [= <-])%bind_Some. done. Qed.

Lemma remove_boost_part oks sid tids p prof :
  boost_part (fst (removePowerSession oks sid tids p prof)) = boost_part p.
Proof. unfold removePowerSession. by destruct (remove_tids _ _ _ _). Qed.

(** What [handleMessage] of the manager does. *)
Lemma handleManagerMessage_inv store clock p (hm : HM) p' hm' :
  handleManagerMessage t store clock p hm = Some (p', hm') ->
  mSessions p' = mSessions p /\ mTidRefCountMap p' = mTidRefCountMap p /\
  kDisableBoostHintName p' = kDisableBoostHintName p /\
  mHintManager_set p' = mHintManager_set p /\
  any_active t store clock (elements (mSessions p)) = Some (mActive p') /\
  hm' = (if mHintManager_set p && xorb (mActive p) (mActive p')
         then if mActive p' then DoHint (kDisableBoostHintName p) hm
              else EndHint (kDisableBoostHintName p) hm
         else hm).
Proof.
  unfold handleManagerMessage, isAnySessionActive. intros Hm.
  apply bind_Some in Hm as ([a p1] & Hm & ?). apply bind_Some in Hm as (b & Ha & Hm).
  destruct (Bool.eqb b (mActive p)) eqn:Hb; simplify_eq/=.
  - apply Bool.eqb_prop in Hb as ->. split_and!; try done.
    by destruct (mActive p'), (mHintManager_set p').
  - split_and!; try done. unfold disableSystemTopAppBoost, enableSystemTopAppBoost. simpl.
    by destruct (mHintManager_set p), b, (mActive p).
Qed.

Lemma registered_update (w w' : W) sid s s' :
  registered_ok w -> w_store w !! sid = Some s -> w_store w' = <[sid := s']> (w_store w) ->
  w_next w' = w_next w -> mSessionClosed s' = mSessionClosed s -> w_mgr w' = w_mgr w ->
  registered_ok w'.
Proof.
  intros [Hr Hn] Hl Hst Hnx Hc Hg. split; intros x; rewrite ?Hg, ?Hst, ?Hnx, ?Hr;
    destruct (decide (x = sid)) as [->|]; rewrite ?lookup_insert_eq, ?lookup_insert_ne by done; auto.
  split; intros (s0 & ? & ?); simplify_eq; eexists; split; done || congruence.
Qed.

Lemma wtrans_registered lbl (w w' : W) : wtrans t lbl w w' -> registered_ok w -> registered_ok w'.
Proof.
  intros Ht [Hr Hn]. destruct Ht as
    [s Hst Hnx Hc _ Hg _ _|sid s s' armed Hl Hst Hnx Hc _ _ [Hg _] _
    |sid s s' again Hl Hst Hnx Hc _ _ [Hg _] _|sid s s' deleted Hl Hst Hnx Hc Hc' _ Hg _ _
    |sid s Hl Hc Hst Hnx [Hg _] _|clock Hst Hnx _ Hm _];
    try (apply (f_equal fst) in Hg; simpl in Hg).
  - assert (w_store w !! w_next w = None) as Hfresh.
    { destruct (w_store w !! w_next w) eqn:He; [|done].
      pose proof (Hn (w_next w) ltac:(by rewrite He)). lia. }
    split.
    + intros sid. apply add_sessions in Hg as Ha. simpl in Ha.
      rewrite Ha, Hst, elem_of_union, elem_of_singleton, Hr.
      destruct (decide (sid = w_next w)) as [->|Hne].
      * rewrite lookup_insert_eq. naive_solver.
      * rewrite lookup_insert_ne by done. naive_solver.
    + intros sid. rewrite Hst, Hnx. destruct (decide (sid = w_next w)) as [->|Hne]; [lia|].
      rewrite lookup_insert_ne by done. intros Hs. specialize (Hn sid Hs). lia.
  - by eapply registered_update.
  - by eapply registered_update.
  - split; intros x; rewrite ?Hg, ?Hst, ?Hnx, ?remove_sessions, ?elem_of_difference,
      ?elem_of_singleton, ?Hr; destruct (decide (x = sid)) as [->|], deleted;
      rewrite ?lookup_insert_eq, ?lookup_insert_ne, ?lookup_delete_eq, ?lookup_delete_ne by done;
      try naive_solver.
    split; [naive_solver|]. intros (s0 & ? & ?). congruence.
  - split; intros x; rewrite ?Hg, ?Hst, ?Hnx, ?Hr; destruct (decide (x = sid)) as [->|];
      rewrite ?lookup_delete_eq, ?lookup_delete_ne by done; try by eauto.
    split; intros (s0 & ? & ?); congruence.
  - apply handleManagerMessage_inv in Hm as (Hs & _). split; intros x;
      rewrite ?Hs, ?Hst, ?Hnx; auto.
Qed.

Lemma wtrans_stale lbl (w w' : W) :
  wtrans t lbl w w' -> no_report_when_closed w lbl -> registered_ok w -> stale_ok w -> stale_ok w'.
Proof.
  intros Ht Hd [_ Hn] Hok. destruct Ht as
    [s Hst Hnx Hc Hm _ _ Hp|sid s s' armed Hl Hst _ Hc _ Hm _ Hp
    |sid s s' again Hl Hst _ Hc _ Hm _ Hp|sid s s' deleted Hl Hst _ Hc Hc' _ _ _ Hp
    |sid s Hl Hc Hst _ _ Hp|clock Hst _ _ _ Hp];
    intros x; specialize (Hok x); specialize (Hp x).
  - rewrite Hp, Hok, Hst. destruct (decide (x = w_next w)) as [->|].
    + rewrite lookup_insert_eq, Hc, Hm. destruct (w_store w !! w_next w) eqn:He; [|done].
      pose proof (Hn (w_next w) ltac:(by rewrite He)). lia.
    + by rewrite lookup_insert_ne.
  - rewrite Hp, Hok, Hst. destruct (decide (x = sid)) as [->|].
    + rewrite lookup_insert_eq, Hl, Hc. destruct armed.
      * destruct Hm as (Hm & Hm' & Hr). by rewrite (Hd _ _ Hr Hl), Hm, Hm'.
      * by rewrite Hm.
    + by rewrite lookup_insert_ne.
  - rewrite Hst, Hok in *. destruct (decide (x = sid)) as [->|].
    + rewrite lookup_insert_eq, Hc, Hm. rewrite Hl in Hp.
      destruct (mSessionClosed s), again, (monitoring s); simpl in *; lia.
    + rewrite lookup_insert_ne by done. lia.
  - rewrite Hp, Hok, Hst. destruct (decide (x = sid)) as [->|], deleted;
      by rewrite ?lookup_insert_eq, ?lookup_insert_ne, ?lookup_delete_eq, ?lookup_delete_ne, ?Hc'.
  - rewrite Hp, Hok, Hst. destruct (decide (x = sid)) as [->|].
    + by rewrite lookup_delete_eq, Hl, Hc.
    + by rewrite lookup_delete_ne.
  - by rewrite Hp, Hok, Hst.
Qed.

Lemma wtrans_hint lbl (w w' : W) : wtrans t lbl w w' -> hint_ok w -> hint_ok w'.
Proof.
  intros Ht Hh. destruct Ht as
    [s _ _ _ _ Hg Hhm _|sid s s' armed _ _ _ _ _ _ [Hg Hhm] _
    |sid s s' again _ _ _ _ _ _ [Hg Hhm] _|sid s s' deleted _ _ _ _ _ _ Hg Hhm _
    |sid s _ _ _ _ [Hg Hhm] _|clock _ _ _ Hm _]; unfold hint_ok in *.
  1-5: rewrite Hhm; assert (boost_part (w_mgr w') = boost_part (w_mgr w)) as Hb by
    (exact (add_boost_part _ _ _ _ _ _ Hg)
     || (apply (f_equal fst) in Hg; simpl in Hg; rewrite Hg; done || apply remove_boost_part)); injection Hb as -> -> ->; done.
  apply handleManagerMessage_inv in Hm as (_ & _ & -> & -> & _ & ->). intros Hs.
  specialize (Hh Hs). rewrite Hs. simpl.
  destruct (mActive (w_mgr w)), (mActive (w_mgr w')); simpl; hm_simpl;
    rewrite ?bool_decide_true by done; done.
Qed.

End invariants.

Section counting.
Context `{HintManagerLaws HM} `{LooperLaws L} (t : tunables).

Abbreviation W := (world HM L).

Definition world_tids (w : W) : tid_state := (mTidRefCountMap (w_mgr w), w_profiles w).

Lemma refcounts_ok_tids (w : W) : refcounts_ok w <-> tids_ok (refs (w_store w)) (world_tids w).
Proof. done. Qed.

Lemma add_registration oks sid tids p prof p' prof' :
  addPowerSession oks sid tids p prof = Some (p', prof') ->
  add_tids oks 0 tids (mTidRefCountMap p, prof) = Some (mTidRefCountMap p', prof').
Proof. intros ([m q] & -> & [= <- <-])%bind_Some. done. Qed.

Lemma remove_registration oks sid tids p prof p' prof' :
  (p', prof') = removePowerSession oks sid tids p prof ->
  (mTidRefCountMap p', prof') = remove_tids oks 0 tids (mTidRefCountMap p, prof).
Proof. unfold removePowerSession. destruct (remove_tids _ _ _ _). by intros; simplify_eq. Qed.

Lemma refcounts_same (w w' : W) :
  registration w' = registration w -> (forall tid, refs (w_store w') tid = refs (w_store w) tid) ->
  refcounts_ok w -> refcounts_ok w'.
Proof.
  intros Hg Hr. injection Hg as Hm Hp. rewrite !refcounts_ok_tids. unfold world_tids.
  rewrite Hm, Hp. by apply tids_ok_ext.
Qed.

Lemma session_refs_open tid s :
  mSessionClosed s = false -> session_refs tid s = count_tid tid (threadIds (mDescriptor s)).
Proof. intros Hc. unfold session_refs. by rewrite Hc. Qed.

Lemma refs_same_session store sid s s' tid :
  store !! sid = Some s -> mSessionClosed s' = mSessionClosed s ->
  threadIds (mDescriptor s') = threadIds (mDescriptor s) ->
  refs (<[sid := s']> store) tid = refs store tid.
Proof.
  intros Hl Hc Ht. rewrite (refs_update _ _ s) by done. unfold session_refs. rewrite Hc, Ht. lia.
Qed.

(** Registering a session. *)
Lemma refcounts_create (w w' : W) oks sid s :
  (forall i, oks i = true) -> w_store w !! sid = None -> w_store w' = <[sid := s]> (w_store w) ->
  mSessionClosed s = false ->
  addPowerSession oks sid (threadIds (mDescriptor s)) (w_mgr w) (w_profiles w) = Some (registration w') ->
  refcounts_ok w -> refcounts_ok w'.
Proof.
  intros Hok Hfresh Hst Hc Hg Hr. apply add_registration in Hg.
  rewrite refcounts_ok_tids.
  eapply tids_ok_ext; [|exact (add_tids_ok oks _ Hok 0%nat _ _ _ (proj1 (refcounts_ok_tids w) Hr) Hg)].
  intros tid. by rewrite Hst, refs_insert, session_refs_open.
Qed.

(** Removing the registration of an open session. *)
Lemma refcounts_close (w w' : W) oks sid s :
  (forall i, oks i = true) -> w_store w !! sid = Some s -> mSessionClosed s = false ->
  (forall tid, refs (w_store w') tid = refs (delete sid (w_store w)) tid) ->
  registration w' = removePowerSession oks sid (threadIds (mDescriptor s)) (w_mgr w) (w_profiles w) ->
  refcounts_ok w -> refcounts_ok w'.
Proof.
  intros Hok Hl Hc Hst Hg Hr.
  assert (forall tid, refs (w_store w) tid =
    count_tid tid (threadIds (mDescriptor s)) + refs (w_store w') tid) as Hrefs.
  { intros tid. by rewrite Hst, (refs_delete (w_store w) sid s), session_refs_open. }
  rewrite refcounts_ok_tids. unfold world_tids. erewrite remove_registration by exact Hg.
  eapply tids_ok_ext; [|apply remove_loop_ok; [done|exact Hr|]].
  - intros tid. simpl. rewrite Hrefs. lia.
  - intros tid. rewrite Hrefs. pose proof (refs_nonneg (w_store w') tid). lia.
Qed.

Lemma wtrans_refcounts lbl (w w' : W) :
  wtrans t lbl w w' -> profiles_succeed lbl -> registered_ok w -> refcounts_ok w -> refcounts_ok w'.
Proof.
  intros Ht Hok [_ Hn] Hr. unfold profiles_succeed in Hok. destruct Ht as
    [s Hst _ Hc _ Hg _ _|sid s s' armed Hl Hst _ Hc Htid _ [Hg _] _
    |sid s s' again Hl Hst _ Hc Htid _ [Hg _] _|sid s s' deleted Hl Hst _ Hc Hc' Htid Hg _ _
    |sid s Hl Hc Hst _ [Hg _] _|clock Hst _ Hp Hm _].
  - eapply refcounts_create; try done.
    destruct (w_store w !! w_next w) eqn:He; [|done].
    pose proof (Hn (w_next w) ltac:(by rewrite He)). lia.
  - eapply refcounts_same; [done| |done]. intros. rewrite Hst. by eapply refs_same_session.
  - eapply refcounts_same; [done| |done]. intros. rewrite Hst. by eapply refs_same_session.
  - eapply refcounts_close; try done. intros tid. rewrite Hst. destruct deleted; [done|].
    rewrite (refs_update _ _ s), (refs_delete (w_store w) sid s) by done.
    assert (session_refs tid s' = 0) as -> by (unfold session_refs; by rewrite Hc'). lia.
  - eapply refcounts_same; [done| |done]. intros tid.
    rewrite Hst, (refs_delete (w_store w) sid s) by done. unfold session_refs. rewrite Hc. lia.
  - apply handleManagerMessage_inv in Hm as (_ & Hm & _).
    rewrite refcounts_ok_tids in *. unfold world_tids in *. by rewrite Hm, Hp, Hst.
Qed.

End counting.

(** *** Runs *)

Section runs.
Context `{HintManagerLaws HM} `{LooperLaws L} (t : tunables).

Abbreviation W := (world HM L).

Lemma wexec_stuck (r : wresult) lbls :
  (forall w : W, r <> WOk w) -> foldl (wexec t) r lbls = r.
Proof.
  intros Hr. induction lbls as [|lbl lbls IH]; [done|]. simpl.
  destruct r; try done. by destruct (Hr w).
Qed.

Lemma wrun_cons lbl lbls (w : W) :
  wrun t (lbl :: lbls) w =
    match wstep t lbl w with WOk w' => wrun t lbls w' | r => r end.
Proof.
  unfold wrun at 1. simpl. destruct (wstep t lbl w) eqn:Hs; [done|by apply wexec_stuck..].
Qed.

Lemma wrun_inv (P : W -> Prop) :
  (forall lbl w w', wstep t lbl w = WOk w' -> P w -> P w') ->
  forall lbls w w', wrun t lbls w = WOk w' -> P w -> P w'.
Proof.
  intros Hstep lbls. induction lbls as [|lbl lbls IH]; intros w w' Hr Hp.
  { by unfold wrun in Hr; simplify_eq/=. }
  rewrite wrun_cons in Hr. destruct (wstep t lbl w) as [w1| | |] eqn:Hs; try done.
  by eapply IH; [|eapply Hstep].
Qed.

Lemma wrun_registered lbls (w w' : W) :
  wrun t lbls w = WOk w' -> registered_ok w -> registered_ok w'.
Proof. apply wrun_inv. intros lbl w1 w2 Hs. by eapply wtrans_registered, wstep_trans. Qed.

Lemma wrun_hint lbls (w w' : W) : wrun t lbls w = WOk w' -> hint_ok w -> hint_ok w'.
Proof. apply wrun_inv. intros lbl w1 w2 Hs. by eapply wtrans_hint, wstep_trans. Qed.

Lemma wrun_refcounts lbls : forall (w w' : W),
  Forall profiles_succeed lbls -> registered_ok w -> wrun t lbls w = WOk w' ->
  refcounts_ok w -> refcounts_ok w'.
Proof.
  induction lbls as [|lbl lbls IH]; intros w w' Hok Hreg Hr Hp.
  { by unfold wrun in Hr; simplify_eq/=. }
  rewrite wrun_cons in Hr. destruct (wstep t lbl w) as [w1| | |] eqn:Hs; try done.
  apply Forall_cons in Hok as [Hok1 Hok]. apply wstep_trans in Hs.
  eapply (IH w1 w'); [done|by eapply wtrans_registered|done|by eapply wtrans_refcounts].
Qed.

(** A new session registers without overflow while the counts leave room. *)
Lemma wstep_create_defined oks now tg u tids dur rate (w : W) :
  (forall i, oks i = true) -> refcounts_ok w ->
  (forall tid, refs (w_store w) tid + count_tid tid tids < 2 ^ 31) ->
  exists w', wstep t (WCreate oks now tg u tids dur rate) w = WOk w'.
Proof.
  intros Hok Hr Hb.
  destruct (add_tids_defined oks tids Hok 0%nat _ _ (proj1 (refcounts_ok_tids w) Hr) Hb) as [[m prof] Ha].
  unfold wstep. destruct (PowerHintSession_new _ _ _ _ _ _ _) as [s eff]. unfold addPowerSession.
  unfold world_tids in Ha. rewrite Ha. simpl. eauto.
Qed.

(** A manager message finds every registered pointer alive. *)
Lemma any_active_defined store clock sids :
  (forall sid, sid ∈ sids -> is_Some (store !! sid)) ->
  exists b, any_active t store clock sids = Some b /\
    (b = true <-> exists sid s, sid ∈ sids /\ store !! sid = Some s /\
       is_active (mDescriptor s) = true /\ isStale t (clock sid) s = false).
Proof.
  induction sids as [|sid sids IH]; intros Hd; simpl.
  { exists false. split; [done|]. split; [done|]. by intros (? & ? & ?%elem_of_nil & _). }
  destruct (Hd sid) as [s Hs]; [set_solver|]. rewrite Hs. simpl.
  destruct (is_active (mDescriptor s) && negb (isStale t (clock sid) s)) eqn:Ha.
  - exists true. split; [done|]. split; [|done]. intros _. exists sid, s.
    apply andb_true_iff in Ha as [? ?%negb_true_iff]. set_solver.
  - destruct IH as (b & -> & Hb); [set_solver|]. exists b. split; [done|]. rewrite Hb. split.
    + intros (x & s' & ? & ?). exists x, s'. set_solver.
    + intros (x & s' & [->|?]%elem_of_cons & Hx & ? & Hst); [|by exists x, s'].
      simplify_eq. rewrite Hst in Ha. by destruct (is_active _).
Qed.

Lemma registered_active (w : W) clock :
  registered_ok w -> exists b, any_active t (w_store w) clock (elements (mSessions (w_mgr w))) = Some b /\
    (b = true <-> exists sid s, w_store w !! sid = Some s /\ mSessionClosed s = false /\
       is_active (mDescriptor s) = true /\ isStale t (clock sid) s = false).
Proof.
  intros [Hr _]. destruct (any_active_defined (w_store w) clock (elements (mSessions (w_mgr w))))
    as (b & Hb & Hiff).
  { intros sid (s & ? & ?)%elem_of_elements%Hr. eauto. }
  exists b. split; [done|]. rewrite Hiff. split.
  - intros (sid & s & (s' & ? & ?)%elem_of_elements%Hr & ? & ? & ?). simplify_eq. eauto 10.
  - intros (sid & s & ? & ? & ? & ?). exists sid, s. rewrite elem_of_elements, Hr. eauto 10.
Qed.

Lemma handleManagerMessage_defined (w : W) clock :
  registered_ok w -> is_Some (handleManagerMessage t (w_store w) clock (w_mgr w) (w_hints w)).
Proof.
  intros Hr. destruct (registered_active w clock Hr) as (b & Hb & _).
  unfold handleManagerMessage, isAnySessionActive. rewrite Hb. simpl. case_match; eauto.
Qed.

Lemma world_init_registered env (l : L) (hm : HM) adpf :
  registered_ok (world_init (PowerSessionManager_new env) l hm adpf).
Proof.
  split; intros sid; simpl.
  - unfold setHintManager. rewrite lookup_empty. repeat case_match; simpl; set_solver.
  - rewrite lookup_empty. by intros [].
Qed.

Lemma world_init_stale env (l : L) (hm : HM) adpf :
  (forall h, pending l h = 0%nat) -> stale_ok (world_init (PowerSessionManager_new env) l hm adpf).
Proof. intros Hl sid. unfold stale_pending. simpl. by rewrite Hl, lookup_empty. Qed.

Lemma world_init_hint env (l : L) (hm : HM) adpf :
  (forall h, requested hm h = false) -> hint_ok (world_init (PowerSessionManager_new env) l hm adpf).
Proof.
  intros Hh _. simpl. rewrite Hh. unfold setHintManager. by repeat case_match.
Qed.

Lemma world_init_refcounts env (l : L) (hm : HM) adpf :
  refcounts_ok (world_init (PowerSessionManager_new env) l hm adpf).
Proof.
  assert (mTidRefCountMap (w_mgr (world_init (PowerSessionManager_new env) l hm adpf)) = ∅) as Hm
    by (simpl; unfold setHintManager; by repeat case_match).
  split; intros tid; rewrite Hm, lookup_empty; [done|]. simpl.
  split; [set_solver|by intros []].
Qed.

(** A stale message is only ever queued for a live session. *)
Lemma stale_poll_live now (w : W) sid l :
  stale_ok w -> poll now (w_looper w) = Some (StaleHandlerOf sid, l) -> is_Some (w_store w !! sid).
Proof.
  intros Hst Hpl. pose proof (pending_poll _ _ _ _ (StaleHandlerOf sid) Hpl) as Hp.
  rewrite decide_True in Hp by done. specialize (Hst sid). unfold stale_pending in Hst.
  destruct (w_store w !! sid); [by eauto|lia].
Qed.

Lemma wstep_no_use_after_free lbl (w : W) :
  registered_ok w -> stale_ok w -> wstep t lbl w <> WUseAfterFree.
Proof.
  intros Hr Hst. destruct lbl as [| | |now clock]; simpl.
  - by repeat case_match.
  - by repeat case_match.
  - by repeat case_match.
  - destruct (poll now (w_looper w)) as [[h l]|] eqn:Hpl; [|done]. destruct h as [|sid].
    + destruct (handleManagerMessage_defined w clock Hr) as [[p hm] ->]. done.
    + destruct (stale_poll_live _ _ _ _ Hst Hpl) as [s Hs].
      unfold on_session. simpl. rewrite Hs. simpl. by destruct (handleStaleMessage _ _ _).
Qed.

End runs.

(** ** Properties *)

Section properties.
Context `{HintManagerLaws HM} `{LooperLaws L} (t : tunables) (env : property_source).
Context (l : L) (hm : HM) (adpf : bool).

Abbreviation start := (world_init (PowerSessionManager_new env) l hm adpf).

(** C9: after any sequence of session creations, calls, deletions and delivered
    messages, [mSessions] holds exactly the sessions that exist and are not closed;
    so the manager's message handler, which follows those pointers, never meets a
    deleted session. *)
Theorem registered_sessions_are_live lbls w clock :
  wrun t lbls start = WOk w ->
  (forall sid, sid ∈ mSessions (w_mgr w) <->
     exists s, w_store w !! sid = Some s /\ mSessionClosed s = false) /\
  is_Some (handleManagerMessage t (w_store w) clock (w_mgr w) (w_hints w)).
Proof.
  intros Hr. pose proof (wrun_registered _ _ _ _ Hr (world_init_registered _ _ _ _)) as Hok.
  split; [apply Hok|by apply handleManagerMessage_defined].
Qed.

(** With every call and every delivered message one atomic step, and clients that do not
    report on a session after closing it, no run dereferences a deleted session: the stale
    message that carries a raw session pointer is queued at most once per session, only
    while the session is open, and [close] removes it.  What the threads do in between is
    in SessionThreads, where the stale handler does reach a deleted session. *)
Lemma disciplined_no_use_after_free lbls :
  (forall h, pending l h = 0%nat) -> disciplined t lbls start ->
  wrun t lbls start <> WUseAfterFree.
Proof.
  intros Hl. pose proof (world_init_registered env l hm adpf) as Hr.
  pose proof (world_init_stale env l hm adpf Hl) as Hst. revert Hr Hst.
  generalize start. induction lbls as [|lbl lbls IH]; intros w Hr Hst Hd; [done|].
  destruct Hd as [Hd1 Hd]. rewrite wrun_cons.
  pose proof (wstep_no_use_after_free t lbl w Hr Hst) as Hn.
  destruct (wstep t lbl w) as [w1| | |] eqn:Hs; try done. apply wstep_trans in Hs.
  apply IH; [by eapply wtrans_registered|by eapply wtrans_stale|done].
Qed.

(** C10: while [SetTaskProfiles] succeeds, the reference count of every thread is the
    number of times it occurs in the open sessions, absent when that is 0, and the
    threads in the ResetUclampGrp profile are exactly the counted ones; and the
    registration of a further session is defined as long as no thread would then occur
    2^31 times. *)
Theorem refcounts_match_open_sessions lbls w :
  Forall profiles_succeed lbls -> wrun t lbls start = WOk w ->
  (forall tid, match mTidRefCountMap (w_mgr w) !! tid with
               | Some n => n = refs (w_store w) tid /\ 0 < n /\ tid ∈ w_profiles w
               | None => refs (w_store w) tid = 0 /\ tid ∉ w_profiles w
               end) /\
  (forall oks now tg u tids dur rate, (forall i, oks i = true) ->
     (forall tid, refs (w_store w) tid + count_tid tid tids < 2 ^ 31) ->
     exists w', wstep t (WCreate oks now tg u tids dur rate) w = WOk w').
Proof.
  intros Hok Hr.
  assert (refcounts_ok w) as Hc.
  { eapply wrun_refcounts; [done|apply world_init_registered|exact Hr|apply world_init_refcounts]. }
  split; [|intros; by apply wstep_create_defined].
  destruct Hc as [Hc Hp]. intros tid. specialize (Hc tid). specialize (Hp tid).
  destruct (mTidRefCountMap (w_mgr w) !! tid); simpl in *.
  - destruct Hc as [-> ?]. split_and!; try done. by apply Hp.
  - split; [done|]. intros Ht. by apply Hp in Ht as [].
Qed.

(** C11: when the monitor delivers a manager message, the hint that disables the
    top-app boost is requested afterwards exactly if some open session is active
    and not stale, whatever happened before. *)
Theorem boost_hint_follows_sessions lbls w w' now clock l' :
  (forall h, requested hm h = false) ->
  wrun t lbls start = WOk w -> mHintManager_set (w_mgr w) = true ->
  poll now (w_looper w) = Some (ManagerHandler, l') ->
  wstep t (WPoll now clock) w = WOk w' ->
  (requested (w_hints w') (kDisableBoostHintName (w_mgr w')) = true <->
   exists sid s, w_store w !! sid = Some s /\ mSessionClosed s = false /\
     is_active (mDescriptor s) = true /\ isStale t (clock sid) s = false).
Proof.
  intros Hh Hr Hset Hpl Hs.
  pose proof (wrun_registered _ _ _ _ Hr (world_init_registered _ _ _ _)) as Hreg.
  pose proof (wrun_hint _ _ _ _ Hr (world_init_hint _ _ _ _ Hh)) as Hok.
  destruct (registered_active t w clock Hreg) as (b & Hb & Hiff).
  assert (hint_ok w') as Hok' by (by eapply wtrans_hint; [eapply wstep_trans|]).
  simpl in Hs. rewrite Hpl in Hs. simpl in Hs.
  destruct (handleManagerMessage _ _ _ _ _) as [[p hm']|] eqn:Hm; simplify_eq. simpl in *.
  apply handleManagerMessage_inv in Hm as (_ & _ & _ & Hset' & Ha & _).
  rewrite <- Hiff. unfold hint_ok in Hok'. simpl in Hok'. rewrite Hok' by congruence.
  by simplify_eq.
Qed.

End properties.

(** *** Concrete runs *)

(** The service at start-up with every property unset except the ADPF rate. *)
Definition demo_start : world hint_log msg_queue :=
  world_init (PowerSessionManager_new unset_properties) ([] : msg_queue)
    (HintLog ["ADPF_DISABLE_TA_BOOST"] true []) true.

Definition all_succeed : nat -> bool := fun _ => true.

Definition demo_create (oks : nat -> bool) (now : Z) : wlabel :=
  WCreate oks now 100 1000 [101; 102] 16666666 16666666.

(** What a run leaves of the parts the examples look at. *)
Definition run_view (lbls : list wlabel) :
    option (list Z * list (Z * Z) * list (Z * (Z * Z)) * list Z) :=
  match wrun default_tunables lbls demo_start with
  | WOk w => Some (elements (dom (w_store w)), map_to_list (mTidRefCountMap (w_mgr w)),
                   map_to_list (w_uclamp w), elements (w_profiles w))
  | _ => None
  end.

(** closing a session, reporting on it once more and dropping it leaves a
    stale message for the deleted object: [reportActualWorkDuration] is not guarded
    by [mSessionClosed], so it arms the timer again, and the destructor's [close]
    returns early without removing the message.  The delivery, when the stale time
    has passed, dereferences the deleted session. *)
Lemma report_after_close_use_after_free :
  wrun default_tunables
    [demo_create all_succeed 0; WCall all_succeed 1 0 CallClose;
     WCall all_succeed 2 0 (CallReport false 2 2 [20000000]); WDestroy all_succeed 3 0;
     WPoll 400000000 (fun _ => 400000000); WPoll 400000000 (fun _ => 400000000)]
    demo_start = WUseAfterFree.
Proof. vm_compute. reflexivity. Qed.

(** [resume] is not guarded by [mSessionClosed] either: a session that was
    paused and closed raises the clamp of its threads again when it is resumed, and
    dropping it does not lower it, so the boost outlives the session. *)
Lemma resume_after_close_leaves_boost :
  run_view [demo_create all_succeed 0; WCall all_succeed 1 0 CallPause;
            WCall all_succeed 2 0 CallClose; WCall all_succeed 3 0 CallResume;
            WDestroy all_succeed 4 0] =
    Some ([], [], [(101, (384, 1024)); (102, (384, 1024))], []).
Proof. vm_compute. reflexivity. Qed.

(** a thread whose first registration fails to set its task profile is not
    counted for that session, but closing that session still takes one off the
    count: with a second open session on the same threads the count is gone and
    the profile is dropped while the session is open. *)
Lemma failed_profile_loses_count :
  run_view [demo_create (fun _ => false) 0; demo_create all_succeed 1;
            WCall all_succeed 2 0 CallClose] =
    Some ([1; 0], [], [(101, (0, 1024)); (102, (0, 1024))], []).
Proof. vm_compute. reflexivity. Qed.

(** *** Witnesses *)

Definition demo_run : list wlabel :=
  [demo_create all_succeed 0; demo_create all_succeed 1;
   WCall all_succeed 2 1 (CallReport false 2 2 [20000000]); WCall all_succeed 3 0 CallPause].

Definition demo_world : world hint_log msg_queue :=
  match wrun default_tunables demo_run demo_start with WOk w => w | _ => demo_start end.

Lemma demo_run_ok : wrun default_tunables demo_run demo_start = WOk demo_world.
Proof. vm_compute. reflexivity. Qed.

Lemma registered_sessions_are_live_witness :
  (forall sid, sid ∈ mSessions (w_mgr demo_world) <->
     exists s, w_store demo_world !! sid = Some s /\ mSessionClosed s = false) /\
  is_Some (handleManagerMessage default_tunables (w_store demo_world) (fun _ => 3)
    (w_mgr demo_world) (w_hints demo_world)).
Proof.
  exact (registered_sessions_are_live default_tunables unset_properties ([] : msg_queue)
    (HintLog ["ADPF_DISABLE_TA_BOOST"] true []) true demo_run demo_world (fun _ => 3) demo_run_ok).
Defined.

Lemma demo_run_disciplined : disciplined default_tunables demo_run demo_start.
Proof.
  unfold demo_run. repeat (split; [intros sid s Hr Hs; try done|
    match goal with |- match ?r with _ => _ end => let r' := eval vm_compute in r in
      change r with r'; cbv iota end]); [|done].
  simpl in Hr. apply bool_decide_eq_true in Hr as <-. vm_compute in Hs. by simplify_eq.
Qed.

Lemma disciplined_no_use_after_free_witness :
  wrun default_tunables demo_run demo_start <> WUseAfterFree.
Proof.
  exact (disciplined_no_use_after_free default_tunables unset_properties ([] : msg_queue)
    (HintLog ["ADPF_DISABLE_TA_BOOST"] true []) true demo_run
    (fun _ => eq_refl) demo_run_disciplined).
Defined.

Lemma demo_run_succeeds : Forall profiles_succeed demo_run.
Proof. repeat constructor. Qed.

Lemma refcounts_match_open_sessions_witness :
  (forall tid, match mTidRefCountMap (w_mgr demo_world) !! tid with
               | Some n => n = refs (w_store demo_world) tid /\ 0 < n /\ tid ∈ w_profiles demo_world
               | None => refs (w_store demo_world) tid = 0 /\ tid ∉ w_profiles demo_world
               end) /\
  (forall oks now tg u tids dur rate, (forall i, oks i = true) ->
     (forall tid, refs (w_store demo_world) tid + count_tid tid tids < 2 ^ 31) ->
     exists w', wstep default_tunables (WCreate oks now tg u tids dur rate) demo_world = WOk w').
Proof.
  exact (refcounts_match_open_sessions default_tunables unset_properties ([] : msg_queue)
    (HintLog ["ADPF_DISABLE_TA_BOOST"] true []) true demo_run demo_world demo_run_succeeds demo_run_ok).
Defined.

Definition demo_polled : world hint_log msg_queue :=
  match wstep default_tunables (WPoll 3 (fun _ => 3)) demo_world with WOk w => w | _ => demo_start end.

Definition demo_queue : msg_queue :=
  match poll 3 (w_looper demo_world) with Some (_, q) => q | None => [] end.

Lemma boost_hint_follows_sessions_witness :
  requested (w_hints demo_polled) (kDisableBoostHintName (w_mgr demo_polled)) = true <->
  exists sid s, w_store demo_world !! sid = Some s /\ mSessionClosed s = false /\
    is_active (mDescriptor s) = true /\ isStale default_tunables 3 s = false.
Proof.
  refine (boost_hint_follows_sessions default_tunables unset_properties ([] : msg_queue)
    (HintLog ["ADPF_DISABLE_TA_BOOST"] true []) true demo_run demo_world demo_polled 3
    (fun _ => 3) demo_queue (fun _ => eq_refl) demo_run_ok _ _ _); vm_compute; reflexivity.
Defined.
