(* ===== verification/StaleTimer.v ===== *)
(** The stale timer of the sessions against the monitor's clock: with a looper that
    keeps due times (Looper.TimedLooper), a session that stops reporting loses its
    boost as soon as the monitor has caught up with the clock.

    The clock readings of the labels do not go backwards, and a message is sent at
    most [lag] after the reading its delay was computed from. *)
From S2P Require Import Prelude HintManager Doubles Looper Session SessionManager.

(** ** Definitions *)

(** The clamp a session starts and resumes with. *)
Definition initial_boost (t : tunables) : Z := Z.min (Z.max 0 (sUclampMinHighLimit t)) kMaxUclampValue.

(** No boost; for a session that has not [reported] since it started, its initial one
    may be left. *)
Definition released (t : tunables) (reported : bool) (s : PowerHintSession) : Prop :=
  current_min (mDescriptor s) = 0 \/
  (reported = false /\ current_min (mDescriptor s) = initial_boost t).

(** Whether a report was accepted since the session was created or last resumed, after
    a call with status [st]. *)
Definition call_reported (c : session_call) (st : ScopedAStatus) (reported : bool) : bool :=
  if decide (st = status_ok) then
    match c with
    | CallReport _ _ _ _ => true
    | CallResume => false
    | _ => reported
    end
  else reported.

(** The last reading of a label. *)
Definition label_time (lbl : wlabel) : Z :=
  match lbl with
  | WCreate _ now _ _ _ _ _ | WCall _ now _ _ | WDestroy _ now _ | WPoll now _ => now
  end.

(** The readings of a label after [clock]. *)
Definition times_ok (lag clock : Z) (lbl : wlabel) : Prop :=
  match lbl with
  | WCall _ now _ (CallReport _ now1 now2 _) => clock <= now1 <= now2 /\ now2 <= now <= now2 + lag
  | _ => clock <= label_time lbl
  end.

Fixpoint clocked (lag clock : Z) (lbls : list wlabel) : Prop :=
  match lbls with
  | [] => True
  | lbl :: lbls => times_ok lag clock lbl /\ clocked lag (label_time lbl) lbls
  end.

Definition last_time (clock : Z) (lbls : list wlabel) : Z := foldl (fun _ lbl => label_time lbl) clock lbls.

(** The same over a step and over a run of the service, for session [sid]. *)
Definition step_reported `{HintManager HM} `{Looper L} (t : tunables) (sid : Z) (lbl : wlabel)
    (w : world HM L) (reported : bool) : bool :=
  match lbl with
  | WCreate _ _ _ _ _ _ _ => if decide (sid = w_next w) then false else reported
  | WCall _ _ x c =>
      if decide (sid = x) then
        match w_store w !! sid ≫= session_exec t (w_running w) c with
        | Some (st, _, _) => call_reported c st reported
        | None => reported
        end
      else reported
  | _ => reported
  end.

Fixpoint run_reported `{HintManager HM} `{Looper L} (t : tunables) (sid : Z) (lbls : list wlabel)
    (w : world HM L) (reported : bool) : bool :=
  match lbls with
  | [] => reported
  | lbl :: lbls =>
      match wstep t lbl w with
      | WOk w' => run_reported t sid lbls w' (step_reported t sid lbl w reported)
      | _ => reported
      end
  end.

Section invariant.
Context `{HintManager HM} `{TimedLooper L} (t : tunables) (lag : Z).

Abbreviation W := (world HM L).

(** A monitored session has a stale message that comes in time; an unmonitored one is
    released. *)
Definition session_timed (l : L) (sid : Z) (reported : bool) (s : PowerHintSession) : Prop :=
  if monitoring s then exists d, d ∈ dues l (StaleHandlerOf sid) /\ d <= getStaleTime t s + lag
  else released t reported s.

(** [rep sid]: the session has reported. *)
Record timer_ok (clock : Z) (rep : Z -> bool) (w : W) : Prop := {
  to_running : w_running w = true;
  to_wf : timed_wf (w_looper w);
  to_updated sid s : w_store w !! sid = Some s -> mLastUpdatedTime (mStaleHandler s) <= clock;
  to_timed sid s : w_store w !! sid = Some s -> mSessionClosed s = false ->
    session_timed (w_looper w) sid (rep sid) s
}.

End invariant.

(** ** Lemmas *)

(** *** One session *)

Section methods.
Context (t : tunables).
Implicit Types s : PowerHintSession.

(** What a method with its readings in [clock, now] does to the timer of its session;
    the stale message is armed for [now2], its last reading; the session has reported
    before ([b]) and after ([b']). *)
Record timer_step (now2 : Z) (b b' : bool) (s s' : PowerHintSession) (eff : list effect) : Prop := {
  ts_updated : mLastUpdatedTime (mStaleHandler s) <= mLastUpdatedTime (mStaleHandler s') <= now2;
  ts_rate : kAdpfRate s' = kAdpfRate s;
  ts_open : mSessionClosed s' = false -> mSessionClosed s = false /\ EffRemoveStale ∉ eff;
  ts_monitoring : monitoring s' = true ->
    monitoring s = true \/ (EffArmStale (getStaleTime t s' - now2) ∈ eff);
  ts_released : monitoring s' = false ->
    (monitoring s = false /\ (released t b s -> released t b' s')) \/ released t b' s'
}.

Lemma sched_no_timer tids lo hi e : e ∈ sched_setattr_calls t tids lo hi ->
  e <> EffRemoveStale.
Proof.
  unfold sched_setattr_calls. case_match; [|set_solver]. intros (tid & -> & _)%list_elem_of_fmap. done.
Qed.

Lemma setUclamp_timer m s s' eff : setUclamp t m kMaxUclampValue s = (s', eff) ->
  mStaleHandler s' = mStaleHandler s /\ kAdpfRate s' = kAdpfRate s /\
  mSessionClosed s' = mSessionClosed s /\ (EffRemoveStale ∉ eff) /\
  current_min (mDescriptor s') = Z.min (Z.max 0 m) kMaxUclampValue.
Proof.
  rewrite setUclamp_spec. intros [= <- <-]. split_and!; try done.
  intros ?%sched_no_timer. done.
Qed.

(** A method that leaves the timer alone. *)
Lemma timer_step_quiet now2 b b' s s' eff :
  mLastUpdatedTime (mStaleHandler s) <= now2 ->
  mStaleHandler s' = mStaleHandler s -> kAdpfRate s' = kAdpfRate s ->
  (mSessionClosed s' = false -> mSessionClosed s = false /\ EffRemoveStale ∉ eff) ->
  (released t b s -> released t b' s') -> timer_step now2 b b' s s' eff.
Proof.
  intros Hn Hh Hr Hc Hrel. split; rewrite ?Hh; auto; unfold monitoring; rewrite ?Hh; auto. lia.
Qed.

Lemma boost_no_remove eff : EffRemoveStale ∉ eff -> EffRemoveStale ∉ eff ++ [EffUpdateBoostMode].
Proof. intros He [?|?%list_elem_of_singleton]%elem_of_app; done. Qed.

Lemma pause_timer now b s st s' eff : mLastUpdatedTime (mStaleHandler s) <= now ->
  pause t s = (st, s', eff) -> timer_step now b (call_reported CallPause st b) s s' eff.
Proof.
  intros Hn Hp. unfold pause in Hp. case_match; simplify_eq; [by apply timer_step_quiet; auto; set_solver|].
  destruct (setUclamp _ _ _ _) as [s1 e1] eqn:Hu. simplify_eq.
  apply setUclamp_timer in Hu as (Hh & Hr & Hc & He & Hm). apply timer_step_quiet; cbn; auto.
  - intros Ho. split; [congruence|by apply boost_no_remove].
  - intros _. left. cbn. rewrite Hm. done.
Qed.

Lemma resume_timer now b s st s' eff : mLastUpdatedTime (mStaleHandler s) <= now ->
  resume t s = (st, s', eff) -> timer_step now b (call_reported CallResume st b) s s' eff.
Proof.
  intros Hn Hp. unfold resume in Hp. case_match; simplify_eq; [by apply timer_step_quiet; auto; set_solver|].
  destruct (setUclamp _ _ _ _) as [s1 e1] eqn:Hu. simplify_eq.
  apply setUclamp_timer in Hu as (Hh & Hr & Hc & He & Hm). apply timer_step_quiet; auto.
  - intros Ho. split; [rewrite <- Ho, Hc; done|by apply boost_no_remove].
  - intros _. right. split; [done|]. by rewrite Hm.
Qed.

Lemma close_timer now b s st s' eff : mLastUpdatedTime (mStaleHandler s) <= now ->
  close t s = (st, s', eff) -> timer_step now b (call_reported CallClose st b) s s' eff.
Proof.
  intros Hn Hp. unfold close in Hp. case_match; simplify_eq; [by apply timer_step_quiet; auto; set_solver|].
  destruct (setUclamp _ _ _ _) as [s1 e1] eqn:Hu. simplify_eq.
  apply setUclamp_timer in Hu as (Hh & Hr & Hc & _ & Hm). cbn in *. apply timer_step_quiet; auto.
  - intros Ho. congruence.
  - intros _. left. by rewrite Hm.
Qed.

Lemma update_target_timer now ns b s st s' : mLastUpdatedTime (mStaleHandler s) <= now ->
  updateTargetWorkDuration t ns s = Some (st, s') ->
  timer_step now b (call_reported (CallUpdateTarget ns) st b) s s' [].
Proof.
  intros Hn Hu. unfold updateTargetWorkDuration in Hu.
  case_match; [simplify_eq; apply timer_step_quiet; auto; set_solver|].
  apply bind_Some in Hu as (q & _ & Hu). apply bind_Some in Hu as (z & _ & Hu). simplify_eq.
  apply timer_step_quiet; auto. set_solver.
Qed.

Lemma apply_output_timer o s s' eff : apply_output t o s = Some (s', eff) ->
  mStaleHandler s' = mStaleHandler s /\ kAdpfRate s' = kAdpfRate s /\
  mSessionClosed s' = mSessionClosed s /\ EffRemoveStale ∉ eff.
Proof.
  unfold apply_output. intros Ho. case_match; [simplify_eq; set_solver|].
  apply bind_Some in Ho as (d & _ & Ho). case_match; simplify_eq; [|set_solver].
  apply setUclamp_timer in Ho as (? & ? & ? & ? & _). done.
Qed.

(** An accepted report sets the update time and leaves the session monitored. *)
Lemma updateStaleTimer_timer now2 s s' eff : updateStaleTimer t true now2 s = (s', eff) ->
  mStaleHandler s' = {| mIsMonitoringStale := true; mLastUpdatedTime := now2 |} /\
  kAdpfRate s' = kAdpfRate s /\ mSessionClosed s' = mSessionClosed s /\ (EffRemoveStale ∉ eff) /\
  (monitoring s = true \/ (EffArmStale (getStaleTime t s' - now2) ∈ eff)).
Proof.
  unfold updateStaleTimer, monitoring. intros Hu.
  assert (EffRemoveStale ∉ (if getStaleTime t s <? now2 then [EffUpdateBoostMode] else [])) as Hn
    by (destruct (_ <? now2); set_solver).
  destruct (mIsMonitoringStale (mStaleHandler s)) eqn:Hm; simplify_eq; split_and!; auto.
  - set_solver.
  - right. apply elem_of_app. right. by left.
Qed.

Lemma report_timer atrace now1 now2 ds b s st s' eff :
  mLastUpdatedTime (mStaleHandler s) <= now2 ->
  reportActualWorkDuration t true atrace now1 now2 ds s = Some (st, s', eff) ->
  timer_step now2 b (call_reported (CallReport atrace now1 now2 ds) st b) s s' eff.
Proof.
  intros Hn Hr. destruct (report_inv _ _ _ _ _ _ _ _ _ _ Hr) as
    [(Hst & -> & ->)|(_ & _ & _ & _ & i & a & o & s1 & e1 & e2 & _ & Hst & Ho & ->)].
  { unfold call_reported. rewrite decide_False by done. apply timer_step_quiet; auto. set_solver. }
  apply updateStaleTimer_timer in Hst as (Hh1 & Hr1 & Hc1 & He1 & Hm1).
  apply apply_output_timer in Ho as (Hh2 & Hr2 & Hc2 & He2).
  match type of Hr1 with kAdpfRate s1 = kAdpfRate ?s0 =>
    assert (kAdpfRate s0 = kAdpfRate s /\ mSessionClosed s0 = mSessionClosed s /\ monitoring s0 = monitoring s)
      as (Hr0 & Hc0 & Hm0) by (cbn; destruct (isStale t now1 s); done) end.
  split.
  - rewrite Hh2, Hh1. cbn. lia.
  - congruence.
  - intros Hc. split; [congruence|]. set_solver.
  - intros _. destruct Hm1 as [Hm1|Hm1]; [left; congruence|right]. apply elem_of_app. left.
    unfold getStaleTime in *. by rewrite Hh2, Hr2.
  - unfold monitoring. rewrite Hh2, Hh1. done.
Qed.

(** The stale message: the session is released, or its message is queued again for the
    stale time. *)
Lemma handleStaleMessage_timer now b s s' eff : mLastUpdatedTime (mStaleHandler s) <= now ->
  handleStaleMessage t now s = (s', eff) ->
  timer_step now b b s s' eff /\ (monitoring s' = true -> EffArmStale (getStaleTime t s' - now) ∈ eff).
Proof.
  intros Hn Hh. unfold handleStaleMessage, setStale in Hh. destruct (getStaleTime t s <? now).
  - destruct (setUclamp _ _ _ _) as [s1 e1] eqn:Hu. simplify_eq.
    apply setUclamp_timer in Hu as (Hh & Hr & Hc & He & Hm). split; [|done]. split; cbn; auto.
    + rewrite Hh. lia.
    + intros Ho. split; [congruence|by apply boost_no_remove].
    + done.
    + intros _. right. left. cbn. rewrite Hm. done.
  - simplify_eq. split; [apply timer_step_quiet; auto; set_solver|]. intros _. by left.
Qed.

(** The calls of the binder threads. *)
Definition call_time (now : Z) (c : session_call) : Z :=
  match c with CallReport _ _ now2 _ => now2 | _ => now end.

Lemma session_exec_timer now c b s st s' eff : binder_call c = true ->
  mLastUpdatedTime (mStaleHandler s) <= call_time now c ->
  session_exec t true c s = Some (st, s', eff) ->
  timer_step (call_time now c) b (call_reported c st b) s s' eff.
Proof.
  intros Hb Hn He. destruct c; cbn in *; try done; simplify_eq.
  - by eapply pause_timer.
  - by eapply resume_timer.
  - by eapply close_timer.
  - apply bind_Some in He as ([st1 s1] & Hu & ?). simplify_eq. by eapply update_target_timer.
  - by eapply report_timer.
Qed.

End methods.

(** *** The world *)

Section worlds.
Context `{HintManager HM} `{TimedLooper L} (t : tunables) (lag : Z).

Abbreviation W := (world HM L).

(** What the effects of session [sid] do to the queue. *)
Lemma apply_effect_looper oks now sid tids e (w : W) :
  let w' := apply_effect oks now sid tids w e in
  w_running w' = w_running w /\ w_store w' = w_store w /\
  (timed_wf (w_looper w) -> timed_wf (w_looper w')) /\
  (forall x d, x <> sid \/ e <> EffRemoveStale ->
     d ∈ dues (w_looper w) (StaleHandlerOf x) -> d ∈ dues (w_looper w') (StaleHandlerOf x)) /\
  (forall d, e = EffArmStale d -> now + d ∈ dues (w_looper w') (StaleHandlerOf sid)).
Proof.
  destruct e; cbn; unfold sendMessage; (split; [done|]); (split; [done|]);
    (split; [auto using wf_sendMessageDelayed, wf_removeMessages|]); (split; [|intros; simplify_eq]);
    intros; rewrite ?dues_sendMessageDelayed, ?dues_removeMessages; naive_solver.
Qed.

Lemma apply_effects_looper oks now sid tids eff : forall (w : W),
  let w' := apply_effects oks now sid tids eff w in
  w_running w' = w_running w /\ w_store w' = w_store w /\
  (timed_wf (w_looper w) -> timed_wf (w_looper w')) /\
  (forall x d, x <> sid \/ (EffRemoveStale ∉ eff) ->
     d ∈ dues (w_looper w) (StaleHandlerOf x) -> d ∈ dues (w_looper w') (StaleHandlerOf x)) /\
  (forall d, EffRemoveStale ∉ eff -> EffArmStale d ∈ eff -> now + d ∈ dues (w_looper w') (StaleHandlerOf sid)).
Proof.
  induction eff as [|e eff IH]; intros w; cbn.
  { split_and!; try done. intros d _ Hd. by apply elem_of_nil in Hd. }
  destruct (apply_effect_looper oks now sid tids e w) as (Hr1 & Hs1 & Hw1 & Hd1 & Ha1).
  destruct (IH (apply_effect oks now sid tids w e)) as (Hr2 & Hs2 & Hw2 & Hd2 & Ha2).
  unfold apply_effects in *. split_and!; [congruence|congruence|auto| |].
  - intros x d Hx Hd. apply Hd2; [set_solver|]. apply Hd1; [set_solver|done].
  - intros d Hr [<-|Ha]%elem_of_cons; [|apply Ha2; set_solver].
    apply Hd2; [set_solver|]. by apply Ha1.
Qed.

(** The invariant for all sessions but one. *)
Record timer_frame (sid clock : Z) (rep : Z -> bool) (w : W) : Prop := {
  tf_running : w_running w = true;
  tf_wf : timed_wf (w_looper w);
  tf_updated x s : x <> sid -> w_store w !! x = Some s -> mLastUpdatedTime (mStaleHandler s) <= clock;
  tf_timed x s : x <> sid -> w_store w !! x = Some s -> mSessionClosed s = false ->
    session_timed t lag (w_looper w) x (rep x) s
}.

Lemma timer_ok_frame sid clock rep w : timer_ok t lag clock rep w -> timer_frame sid clock rep w.
Proof. intros [Hr Hw Hu Ht]. split; eauto. Qed.

(** The rest of the invariant after a method of the session. *)
Lemma frame_method oks clock now sid tids rep rep' s' eff (w : W) :
  let w' := apply_effects oks now sid tids eff (set_store (<[sid := s']> (w_store w)) w) in
  timer_frame sid clock rep w -> clock <= now -> mLastUpdatedTime (mStaleHandler s') <= now ->
  (forall x, x <> sid -> rep' x = rep x) ->
  (mSessionClosed s' = false -> session_timed t lag (w_looper w') sid (rep' sid) s') ->
  timer_ok t lag now rep' w'.
Proof.
  intros w' [Hr Hw Hu Ht] Hn Hs' Hrep Hc'.
  destruct (apply_effects_looper oks now sid tids eff (set_store (<[sid := s']> (w_store w)) w))
    as (Er & Es & Ew & Ed & _). fold w' in Er, Es, Ew, Ed.
  split; [by rewrite Er|by apply Ew|rewrite Es..]; cbn; intros x sx.
  - intros [[<- <-]|[Hne Hx]]%lookup_insert_Some; [lia|].
    specialize (Hu x sx (not_eq_sym Hne) Hx). lia.
  - intros [[<- <-]|[Hne Hx]]%lookup_insert_Some Hc; [auto|].
    specialize (Ht x sx (not_eq_sym Hne) Hx Hc). rewrite <- Hrep in Ht by done.
    unfold session_timed in *. destruct (monitoring sx); [|done].
    destruct Ht as (d & Hd & Hle). exists d. split; [|done]. apply Ed; [by left|done].
Qed.

(** A method of one session keeps the invariant. *)
Lemma on_session_timed oks clock now2 now sid tids rep rep' s s' eff (w : W) :
  timer_ok t lag clock rep w -> w_store w !! sid = Some s ->
  clock <= now -> now2 <= now <= now2 + lag -> (forall x, x <> sid -> rep' x = rep x) ->
  timer_step t now2 (rep sid) (rep' sid) s s' eff ->
  timer_ok t lag now rep' (apply_effects oks now sid tids eff (set_store (<[sid := s']> (w_store w)) w)).
Proof.
  intros Hok Hl Hn Hlag Hrep [Tu Tr To Tm Tre].
  apply (frame_method oks clock _ _ _ rep); [by apply timer_ok_frame|done|lia|done|]. intros Hc.
  destruct (apply_effects_looper oks now sid tids eff (set_store (<[sid := s']> (w_store w)) w))
    as (_ & _ & _ & Ed & Ea). set (w' := apply_effects _ _ _ _ _ _) in *.
  destruct (To Hc) as [Hc0 Hrem]. pose proof (to_timed _ _ _ _ _ Hok sid s Hl Hc0) as Ht.
  unfold session_timed in *. destruct (monitoring s') eqn:Hm'.
  - destruct (monitoring s) eqn:Hm.
    + destruct Ht as (d & Hd & Hle). exists d. split; [by apply Ed; [right|]|].
      unfold getStaleTime in *. rewrite Tr. lia.
    + destruct (Tm eq_refl) as [?|Ha]; [done|]. exists (now + (getStaleTime t s' - now2)).
      split; [by apply Ea|lia].
  - destruct (Tre eq_refl) as [[Hm Hrel]|Hrel]; [|done]. rewrite Hm in Ht. auto.
Qed.

(** The delivered stale message of a session, which is out of the queue already. *)
Lemma stale_message_timed oks clock now sid tids rep s s' eff (w : W) l :
  timer_ok t lag clock rep w -> 0 <= lag -> poll now (w_looper w) = Some (StaleHandlerOf sid, l) ->
  w_store w !! sid = Some s -> clock <= now -> handleStaleMessage t now s = (s', eff) ->
  timer_ok t lag now rep (apply_effects oks now sid tids eff
    (set_store (<[sid := s']> (w_store w)) (set_looper l w))).
Proof.
  intros Hok Hlag Hp Hl Hn Hh. pose proof (to_updated _ _ _ _ _ Hok sid s Hl) as Hu.
  destruct (handleStaleMessage_timer t now (rep sid) s s' eff) as [[Tu Tr To Tm Tre] Harm]; [lia|done|].
  apply (frame_method oks clock now sid tids rep rep s' eff (set_looper l w)); [|done|lia|done|].
  - destruct Hok as [Hr Hw Hup Ht]. split; cbn; [done|by eapply wf_poll|eauto|].
    intros x sx Hne Hx Hc. specialize (Ht x sx Hx Hc). unfold session_timed in *.
    destruct (monitoring sx); [|done]. destruct Ht as (d & Hd & Hle). exists d. split; [|done].
    eapply dues_poll_other; [exact Hp|congruence|done].
  - intros Hc. destruct (apply_effects_looper oks now sid tids eff
      (set_store (<[sid := s']> (w_store w)) (set_looper l w))) as (_ & _ & _ & _ & Ea).
    cbn [set_store set_looper w_store] in *. destruct (To Hc) as [Hc0 Hrem].
    pose proof (to_timed _ _ _ _ _ Hok sid s Hl Hc0) as Ht. unfold session_timed in *.
    destruct (monitoring s').
    + exists (now + (getStaleTime t s' - now)). split; [|lia]. apply Ea; auto.
    + destruct (Tre eq_refl) as [[Hm Hrel]|Hrel]; [|done]. rewrite Hm in Ht. auto.
Qed.

(** The clock moves on, and other parts of the world change. *)
Lemma timer_ok_mono clock now rep (w w' : W) :
  timer_ok t lag clock rep w -> clock <= now -> w_running w' = w_running w ->
  (timed_wf (w_looper w) -> timed_wf (w_looper w')) ->
  (forall sid s, w_store w' !! sid = Some s -> w_store w !! sid = Some s) ->
  (forall sid d, is_Some (w_store w' !! sid) ->
     d ∈ dues (w_looper w) (StaleHandlerOf sid) -> d ∈ dues (w_looper w') (StaleHandlerOf sid)) ->
  timer_ok t lag now rep w'.
Proof.
  intros [Hr Hw Hu Ht] Hn Er Ew Es Ed. split; [by rewrite Er|by apply Ew| |].
  - intros sid s Hs. specialize (Hu _ _ (Es _ _ Hs)). lia.
  - intros sid s Hs Hc. specialize (Ht _ _ (Es _ _ Hs) Hc). unfold session_timed in *.
    destruct (monitoring s); [|done]. destruct Ht as (d & Hd & Hle). exists d. split; [|done].
    apply Ed; [by eexists|done].
Qed.

(** Every step. *)
Lemma wstep_timed lbl clock rep (w w' : W) :
  0 <= lag -> times_ok lag clock lbl -> timer_ok t lag clock rep w -> wstep t lbl w = WOk w' ->
  timer_ok t lag (label_time lbl) (fun sid => step_reported t sid lbl w (rep sid)) w'.
Proof.
  intros Hlag Htm Hok Hs. destruct lbl as [oks now tg u tids dur rate|oks now sid c|oks now sid|now clk].
  - cbn -[PowerHintSession_new] in Hs. destruct (PowerHintSession_new _ _ _ _ _ _ _) as [s eff] eqn:Hnew.
    destruct (addPowerSession _ _ _ _ _); simplify_eq. unfold PowerHintSession_new in Hnew. cbn [times_ok label_time] in *.
    destruct (setUclamp _ _ _ _) as [s1 e1] eqn:Hu. simplify_eq.
    apply setUclamp_timer in Hu as (Hh & Hr & Hc & He & Hm). destruct Hok as [Or Ow Ou Ot].
    apply (frame_method oks clock now (w_next w) tids rep _ s (EffAddPowerSession :: e1)
      (Build_world (w_store w) (w_next w + 1) (w_mgr w) (w_looper w) (w_running w) (w_hints w)
        (w_uclamp w) (w_profiles w))); [by split; eauto|done|by rewrite Hh|..].
    { intros x Hx. cbn. by rewrite decide_False. }
    intros _. unfold session_timed, monitoring. rewrite Hh. cbn. rewrite decide_True by done. by right.
  - cbn in Hs. destruct (w_store w !! sid) as [s0|] eqn:Hl; [|done].
    destruct (binder_call c) eqn:Hb; [|done]. destruct (on_session _ _ _ _ _) as [w1|] eqn:Ho; simplify_eq.
    apply on_session_inv in Ho as (s & s' & eff & Hl' & He & ->). simplify_eq.
    apply bind_Some in He as ([[st s1] e1] & He & ?). simplify_eq. rewrite (to_running _ _ _ _ _ Hok) in He.
    pose proof (to_updated _ _ _ _ _ Hok sid s0 Hl) as Hup.
    assert (clock <= now /\ call_time now c <= now <= call_time now c + lag /\ clock <= call_time now c)
      as (? & ? & ?) by (destruct c; cbn in *; lia).
    eapply on_session_timed; [done..| |]; cbn.
    { intros x Hx. by rewrite decide_False. }
    rewrite decide_True, Hl by done. cbn. rewrite (to_running _ _ _ _ _ Hok), He.
    eapply session_exec_timer; [done|lia|done].
  - cbn in Hs. destruct (on_session _ _ _ _ _) as [w1|] eqn:Ho; simplify_eq.
    apply on_session_inv in Ho as (s & s' & eff & Hl & He & ->). cbn in He.
    destruct (close t s) as [[st s1] e1] eqn:Hc. simplify_eq. cbn [times_ok label_time] in *.
    pose proof (to_updated _ _ _ _ _ Hok sid s Hl) as Hup.
    assert (mLastUpdatedTime (mStaleHandler s) <= now) as Hup' by lia.
    eapply (timer_ok_mono now now);
      [eapply (on_session_timed oks clock now now sid _ rep); try done|lia|done..| |].
    + lia.
    + pose proof (close_timer t now (rep sid) s st s' eff Hup' Hc) as Hcl.
      unfold call_reported in Hcl. by destruct (decide (st = status_ok)).
    + intros x sx. cbn. rewrite lookup_delete_Some. tauto.
    + done.
  - cbn in Hs, Htm. destruct (poll now (w_looper w)) as [[[|sid] l]|] eqn:Hp; [| |done].
    + destruct (handleManagerMessage _ _ _ _ _) as [[p hm]|]; simplify_eq.
      eapply (timer_ok_mono clock now); [done|done|done| |done|]; cbn.
      * intros. by eapply wf_poll.
      * intros x d _ Hd. eapply dues_poll_other; [exact Hp|done|done].
    + destruct (on_session _ _ _ _ _) as [w1|] eqn:Ho; simplify_eq.
      apply on_session_inv in Ho as (s & s' & eff & Hl & He & ->). cbn in Hl, He. injection He as He.
      exact (stale_message_timed _ clock now sid _ rep s s' eff w l Hok Hlag Hp Hl Htm He).
Qed.

End worlds.

(** *** Runs *)

Section runs.
Context `{HintManager HM} `{TimedLooper L} (t : tunables) (lag : Z) (Hlag : 0 <= lag).

Lemma wrun_timed lbls : forall clock rep (w w' : world HM L),
  clocked lag clock lbls -> timer_ok t lag clock rep w -> wrun t lbls w = WOk w' ->
  timer_ok t lag (last_time clock lbls) (fun sid => run_reported t sid lbls w (rep sid)) w'.
Proof.
  induction lbls as [|lbl lbls IH]; intros clock rep w w' Hc Hok Hr; [by unfold wrun in Hr; simplify_eq/=|].
  destruct Hc as [Hc1 Hc]. rewrite wrun_cons in Hr. cbn [run_reported].
  destruct (wstep t lbl w) as [w1| | |] eqn:Hs; try done.
  eapply (IH (label_time lbl) (fun sid => step_reported t sid lbl w (rep sid))); [done| |exact Hr].
  by eapply wstep_timed.
Qed.

Lemma world_init_timed env (l : L) (hm : HM) clock rep :
  timed_wf l -> timer_ok t lag clock rep (world_init (PowerSessionManager_new env) l hm true).
Proof. intros Hl. split; cbn; try done; intros sid s; by rewrite lookup_empty. Qed.

End runs.

(** ** Properties *)

(** C18: a session that stops reporting does not keep its boost.  In every run of the
    service with clock readings that do not go backwards, whenever the monitor has
    delivered everything that is due, each open session whose stale time has passed
    (by the lag of a send at most) is no longer monitored, and its clamp is 0: whatever a
    report had set is withdrawn.  Only a session without an accepted report since it was
    created or last resumed may still have the boost it got then. *)
Theorem stale_sessions_lose_boost `{HintManager HM} `{TimedLooper L} t lag env (l : L) (hm : HM) lbls w now sid s :
  let start := world_init (PowerSessionManager_new env) l hm true in
  0 <= lag -> timed_wf l -> clocked lag 0 lbls -> wrun t lbls start = WOk w ->
  poll now (w_looper w) = None ->
  w_store w !! sid = Some s -> mSessionClosed s = false -> getStaleTime t s + lag <= now ->
  monitoring s = false /\
  (current_min (mDescriptor s) = 0 \/
   (run_reported t sid lbls start false = false /\ current_min (mDescriptor s) = initial_boost t)).
Proof.
  intros start Hlag Hl Hc Hr Hp Hs Ho Hst.
  pose proof (wrun_timed t lag Hlag lbls 0 (fun _ => false) _ _ Hc
    (world_init_timed t lag env l hm 0 _ Hl) Hr) as Hok.
  pose proof (to_timed _ _ _ _ _ Hok sid s Hs Ho) as Ht. unfold session_timed in Ht.
  destruct (monitoring s); [|done]. destruct Ht as (d & Hd & Hle).
  pose proof (dues_poll_none _ _ _ _ (to_wf _ _ _ _ _ Hok) Hp Hd). lia.
Qed.

(** A session that never reports has no stale timer: whatever the monitor does, the
    boost it was created with stays, although the session counts as stale. *)
Lemma unreported_session_keeps_boost now clock :
  1000000000 <= now ->
  exists w s, wrun default_tunables [demo_create all_succeed 0] demo_start = WOk w /\
    w_store w !! 0 = Some s /\ isStale default_tunables now s = true /\
    current_min (mDescriptor s) = 384 /\ wstep default_tunables (WPoll now clock) w = WDisabled.
Proof.
  intros Hn. eexists _, _. split; [vm_compute; reflexivity|]. split; [vm_compute; reflexivity|].
  split; [|by vm_compute]. unfold isStale. apply Z.leb_le. transitivity 1000000000; [|done].
  by vm_compute.
Qed.

(** *** Witness *)

(** A report raises the clamp; then the monitor is left alone until 500 ms. *)
Definition stale_run : list wlabel :=
  [demo_create all_succeed 0; WCall all_succeed 2 0 (CallReport false 1 2 [20000000]);
   WPoll 320000002 (fun _ => 320000002); WPoll 500000000 (fun _ => 500000000);
   WPoll 500000000 (fun _ => 500000000)].

Definition stale_world : world hint_log msg_queue :=
  match wrun default_tunables stale_run demo_start with WOk w => w | _ => demo_start end.

Definition stale_session (w : world hint_log msg_queue) : option (bool * Z) :=
  s ← w_store w !! 0; Some (monitoring s, current_min (mDescriptor s)).

Lemma stale_sessions_lose_boost_witness :
  exists s, w_store stale_world !! 0 = Some s /\ run_reported default_tunables 0 stale_run demo_start false = true /\
    monitoring s = false /\
    (current_min (mDescriptor s) = 0 \/
     (run_reported default_tunables 0 stale_run demo_start false = false /\
      current_min (mDescriptor s) = initial_boost default_tunables)).
Proof.
  eexists. split; [vm_compute; reflexivity|]. split; [vm_compute; reflexivity|].
  eapply (stale_sessions_lose_boost default_tunables 0 unset_properties ([] : msg_queue)
    (HintLog ["ADPF_DISABLE_TA_BOOST"] true []) stale_run stale_world 500000000 0).
  - done.
  - done.
  - cbn. lia.
  - vm_compute. reflexivity.
  - vm_compute. reflexivity.
  - vm_compute. reflexivity.
  - reflexivity.
  - vm_compute. discriminate.
Defined.
