(* ===== verification/SessionThreads.v ===== *)
(** The threads of one power hint session
    (src/aidl/power-libperfmgr/PowerHintSession.cpp and PowerSessionManager.cpp): the
    binder threads that call it, the thread that destroys it, and the monitor thread
    that runs the message handlers.

    Session and SessionManager model what the calls compute, each call as one step;
    here a call is a program of the steps other threads can interleave with: taking
    and releasing the three mutexes, the atomics the control flow depends on, the
    looper's queue (the looper locks itself: each of its calls is one step), the
    registration with the manager, and every place the session object is
    dereferenced, with the accesses to data that is not atomic.  The outcome of a clock
    comparison or of a test of session data is an argument of the program.  The stale
    handler is reference counted and outlives the session, its pointer to the session
    is not. *)
From S2P Require Import Prelude.

(** ** Programs *)

Inductive lock := mStaleLock | mSessionLock | mManagerLock.

#[export] Instance lock_eq_dec : EqDecision lock.
Proof. solve_decision. Defined.

(** The data that is neither constant nor atomic: the fields of AppHintDesc, and the
    manager's mSessions and mTidRefCountMap.  is_active, mSessionClosed,
    mIsMonitoringStale and mLastUpdatedTime are atomics. *)
Inductive field :=
  | duration | current_min | update_count | integral_error | previous_error
  | mSessions | mTidRefCountMap.

#[export] Instance field_eq_dec : EqDecision field.
Proof. solve_decision. Defined.

Inductive access := Read (f : field) | Write (f : field).

Inductive action :=
  | Acquire (l : lock)
  | Release (l : lock)
  | Access (l : list access) (* the session object is dereferenced, with the accesses [l] *)
  | RemoveStale              (* removeMessages(mStaleHandler) *)
  | SendStale                (* sendMessageDelayed(..., mStaleHandler) *)
  | SendManager              (* sendMessage(mPowerManagerHandler) *)
  | SetMonitoring (b : bool)
  | Unregister               (* mSessions.erase(session) *)
  | Free.                    (* the end of the destructor *)

Inductive prog :=
  | Ret
  | Do (a : action) (k : prog)
  | IfCas (won lost : prog)             (* mSessionClosed.compare_exchange_strong *)
  | IfMonitoring (yes no : prog)        (* mIsMonitoringStale.load() *)
  | IfRegistered (yes no : prog).       (* the session is in mSessions *)

(** The session is used, no field that needs protection with it. *)
Abbreviation Touch := (Access []).

Definition setUclamp_p (k : prog) : prog :=
  Do (Acquire mSessionLock) (Do (Access [Write current_min]) (Do (Release mSessionLock) k)).

Definition updateUniveralBoostMode_p (k : prog) : prog := Do Touch (Do SendManager k).

Definition removePowerSession_p (k : prog) : prog :=
  Do (Acquire mManagerLock) (Do (Access [Write mTidRefCountMap]) (Do Unregister (Do (Release mManagerLock) k))).

(** [k]: what follows the call, on both returns. *)
Definition close_p (k : prog) : prog :=
  Do Touch
    (IfCas
       (Do Touch (Do RemoveStale (setUclamp_p (removePowerSession_p (updateUniveralBoostMode_p k)))))
       k).

Definition pause_p (active : bool) : prog :=
  Do Touch (if active then setUclamp_p (Do Touch (updateUniveralBoostMode_p Ret)) else Ret).

Definition resume_p (active : bool) : prog :=
  Do Touch (if active then Ret else Do (Access [Write integral_error]) (setUclamp_p (updateUniveralBoostMode_p Ret))).

(** [valid]: the new target is positive. *)
Definition updateTargetWorkDuration_p (valid : bool) : prog :=
  if valid then Do (Access [Read duration; Write integral_error; Write duration]) Ret else Ret.

(** [running]: the monitor runs; [late]: [now > when]. *)
Definition updateStaleTimer_p (running late : bool) (k : prog) : prog :=
  Do (Acquire mStaleLock)
    (if running then
       Do Touch
         (let rearm :=
            IfMonitoring (Do (Release mStaleLock) k)
              (Do Touch (Do SendStale (Do (SetMonitoring true) (Do (Release mStaleLock) k)))) in
          if late then updateUniveralBoostMode_p rearm else rearm)
     else Do (Release mStaleLock) k).

(** [valid]: the checks before the computation pass; [output]: the result is not 0;
    [change]: the new value is written.  The comparison with current_min is made
    without mLock. *)
Definition reportActualWorkDuration_p (valid running late output change : bool) : prog :=
  Do (Access [Read duration])
    (if valid then
       Do (Access [Read duration; Write integral_error; Write previous_error; Write update_count])
         (updateStaleTimer_p running late
           (if output then Do (Access [Read current_min]) (if change then setUclamp_p Ret else Ret)
            else Ret))
     else Ret).

Definition destructor_p : prog := close_p (Do Touch (Do Free Ret)).

(** StaleHandler::handleMessage; [getStaleTime] reads [mSession->kAdpfRate]. *)
Definition handleStale_p (late : bool) : prog :=
  Do (Acquire mStaleLock)
    (Do Touch
      (if late then
         setUclamp_p (updateUniveralBoostMode_p (Do (SetMonitoring false) (Do (Release mStaleLock) Ret)))
       else Do SendStale (Do (Release mStaleLock) Ret))).

(** PowerSessionManager::handleMessage, the loop over the sessions at this session. *)
Definition handleManager_p : prog :=
  Do (Acquire mManagerLock)
    (IfRegistered (Do Touch (Do (Release mManagerLock) Ret)) (Do (Release mManagerLock) Ret)).

(** What a binder thread can be asked for. *)
Inductive binder_op :=
  | OpClose
  | OpPause (active : bool)
  | OpResume (active : bool)
  | OpUpdateTarget (valid : bool)
  | OpReport (valid running late output change : bool).

Definition op_prog (o : binder_op) : prog :=
  match o with
  | OpClose => close_p Ret
  | OpPause a => pause_p a
  | OpResume a => resume_p a
  | OpUpdateTarget v => updateTargetWorkDuration_p v
  | OpReport v r l o c => reportActualWorkDuration_p v r l o c
  end.

(** ** Threads *)

(** The monitor, the thread that drops the last reference, and binder threads. *)
Inductive tid := Monitor | Destroyer | Binder (n : nat).

#[export] Instance tid_eq_dec : EqDecision tid.
Proof. solve_decision. Defined.

(** The message the monitor is handling. *)
Inductive message := StaleMessage | ManagerMessage.

(** [destroying]: the last reference is gone. *)
Record tstate := {
  freed : bool;
  closed : bool;
  is_monitoring : bool;
  registered : bool;
  stale_queued : nat;
  manager_queued : nat;
  destroying : bool;
  handling : message;
  owner : lock -> option tid;
  thread : tid -> prog
}.

Definition upd {A B} `{EqDecision A} (f : A -> B) (a : A) (b : B) : A -> B :=
  fun x => if decide (x = a) then b else f x.

Definition set_thread (i : tid) (p : prog) (s : tstate) : tstate :=
  {| freed := freed s; closed := closed s; is_monitoring := is_monitoring s; registered := registered s;
     stale_queued := stale_queued s; manager_queued := manager_queued s; destroying := destroying s;
     handling := handling s; owner := owner s; thread := upd (thread s) i p |}.

Definition set_owner (l : lock) (o : option tid) (s : tstate) : tstate :=
  {| freed := freed s; closed := closed s; is_monitoring := is_monitoring s; registered := registered s;
     stale_queued := stale_queued s; manager_queued := manager_queued s; destroying := destroying s;
     handling := handling s; owner := upd (owner s) l o; thread := thread s |}.

Definition set_session (fr cl mo re : bool) (s : tstate) : tstate :=
  {| freed := fr; closed := cl; is_monitoring := mo; registered := re;
     stale_queued := stale_queued s; manager_queued := manager_queued s; destroying := destroying s;
     handling := handling s; owner := owner s; thread := thread s |}.

Definition set_queues (st mg : nat) (s : tstate) : tstate :=
  {| freed := freed s; closed := closed s; is_monitoring := is_monitoring s; registered := registered s;
     stale_queued := st; manager_queued := mg; destroying := destroying s;
     handling := handling s; owner := owner s; thread := thread s |}.

Definition set_control (d : bool) (m : message) (s : tstate) : tstate :=
  {| freed := freed s; closed := closed s; is_monitoring := is_monitoring s; registered := registered s;
     stale_queued := stale_queued s; manager_queued := manager_queued s; destroying := d;
     handling := m; owner := owner s; thread := thread s |}.

Inductive toutcome :=
  | TOk (s : tstate)
  | TBlocked                 (* the thread waits, or has nothing to do *)
  | TUseAfterFree (i : tid).

(** The places in the session object itself; its mutex is one of them. *)
Definition touches (a : action) : bool :=
  match a with
  | Access _ | Acquire mSessionLock | Release mSessionLock => true
  | _ => false
  end.

(** One step of thread [i]. *)
Definition run_action (i : tid) (a : action) (s : tstate) : toutcome :=
  if touches a && freed s then TUseAfterFree i else
  match a with
  | Acquire l =>
      match owner s l with
      | None => TOk (set_owner l (Some i) s)
      | Some _ => TBlocked
      end
  | Release l => TOk (set_owner l None s)
  | Access _ => TOk s
  | RemoveStale => TOk (set_queues 0 (manager_queued s) s)
  | SendStale => TOk (set_queues (S (stale_queued s)) (manager_queued s) s)
  | SendManager => TOk (set_queues (stale_queued s) (S (manager_queued s)) s)
  | SetMonitoring b => TOk (set_session (freed s) (closed s) b (registered s) s)
  | Unregister => TOk (set_session (freed s) (closed s) (is_monitoring s) false s)
  | Free => TOk (set_session true (closed s) (is_monitoring s) (registered s) s)
  end.

Definition run_thread (i : tid) (s : tstate) : toutcome :=
  match thread s i with
  | Ret => TBlocked
  | Do a k =>
      match run_action i a s with
      | TOk s => TOk (set_thread i k s)
      | r => r
      end
  | IfCas won lost =>
      if closed s then TOk (set_thread i lost s)
      else TOk (set_thread i won (set_session (freed s) true (is_monitoring s) (registered s) s))
  | IfMonitoring yes no => TOk (set_thread i (if is_monitoring s then yes else no) s)
  | IfRegistered yes no => TOk (set_thread i (if registered s then yes else no) s)
  end.

Definition is_ret (p : prog) : bool := match p with Ret => true | _ => false end.

(** A step of the system: a thread runs, a binder thread takes a call on the session
    (as long as references exist), the last reference goes away while no call is
    running, or the monitor takes a message. *)
Inductive tstep : tstate -> toutcome -> Prop :=
  | ts_run i s r : run_thread i s = r -> r <> TBlocked -> tstep s r
  | ts_call n o s : destroying s = false -> thread s (Binder n) = Ret ->
      tstep s (TOk (set_thread (Binder n) (op_prog o) s))
  | ts_destroy s : destroying s = false -> (forall n, thread s (Binder n) = Ret) ->
      tstep s (TOk (set_thread Destroyer destructor_p (set_control true (handling s) s)))
  | ts_poll_stale late s k : thread s Monitor = Ret -> stale_queued s = S k ->
      tstep s (TOk (set_thread Monitor (handleStale_p late)
                      (set_control (destroying s) StaleMessage (set_queues k (manager_queued s) s))))
  | ts_poll_manager s k : thread s Monitor = Ret -> manager_queued s = S k ->
      tstep s (TOk (set_thread Monitor handleManager_p
                      (set_control (destroying s) ManagerMessage (set_queues (stale_queued s) k s)))).

(** The constructor has registered the session. *)
Definition tinit : tstate := {|
  freed := false; closed := false; is_monitoring := false; registered := true;
  stale_queued := 0; manager_queued := 0; destroying := false; handling := ManagerMessage;
  owner := fun _ => None; thread := fun _ => Ret
|}.

Inductive treachable : tstate -> Prop :=
  | tr_init : treachable tinit
  | tr_step s s' : treachable s -> tstep s (TOk s') -> treachable s'.

(** ** Specification *)

(** Whether a program about to run holds [l]: it releases [l] before it takes it. *)
Fixpoint holds (l : lock) (p : prog) : bool :=
  match p with
  | Ret => false
  | Do (Acquire l') k => if decide (l = l') then false else holds l k
  | Do (Release l') k => if decide (l = l') then true else holds l k
  | Do _ k => holds l k
  | IfCas p q | IfMonitoring p q | IfRegistered p q => holds l p
  end.

(** The order in which the locks are taken. *)
Definition rank (l : lock) : nat :=
  match l with mStaleLock => 0 | mSessionLock => 1 | mManagerLock => 2 end.

Definition locks : list lock := [mStaleLock; mSessionLock; mManagerLock].

Definition same_locks (p q : prog) : bool := forallb (fun l => Bool.eqb (holds l p) (holds l q)) locks.

(** The discipline a program follows from here on: a lock is taken only above those
    held and given back, what is held does not depend on a branch, the registration is
    ended under the manager's lock, and nothing follows the end of the object. *)
Fixpoint well_locked (p : prog) : bool :=
  match p with
  | Ret => true
  | Do (Acquire l') k =>
      forallb (fun l => implb (holds l p) (rank l <? rank l')%nat) locks && holds l' k && well_locked k
  | Do (Release l') k => negb (holds l' k) && well_locked k
  | Do Unregister k => holds mManagerLock k && well_locked k
  | Do Free k => is_ret k
  | Do _ k => well_locked k
  | IfCas p q | IfMonitoring p q | IfRegistered p q => same_locks p q && well_locked p && well_locked q
  end.

(** No registration is ended and no object freed in these programs. *)
Fixpoint keeps_session (p : prog) : bool :=
  match p with
  | Ret => true
  | Do Unregister _ | Do Free _ | IfCas _ _ => false
  | Do _ k => keeps_session k
  | IfMonitoring p q | IfRegistered p q => keeps_session p && keeps_session q
  end.

Fixpoint no_free (p : prog) : bool :=
  match p with
  | Ret => true
  | Do Free _ => false
  | Do _ k => no_free k
  | IfCas p q | IfMonitoring p q | IfRegistered p q => no_free p && no_free q
  end.

(** The registration will be ended, whatever the branches. *)
Fixpoint will_unregister (p : prog) : bool :=
  match p with
  | Ret => false
  | Do Unregister _ => true
  | Do _ k => will_unregister k
  | IfCas _ _ => false
  | IfMonitoring p q | IfRegistered p q => will_unregister p && will_unregister q
  end.

(** The object may be freed with neither the registration ended nor the race for
    closing it run before. *)
Fixpoint frees_first (p : prog) : bool :=
  match p with
  | Ret => false
  | Do Free _ => true
  | Do Unregister _ => false
  | Do _ k => frees_first k
  | IfCas _ _ => false
  | IfMonitoring p q | IfRegistered p q => frees_first p || frees_first q
  end.

(** Who wins the race ends the registration. *)
Fixpoint cas_unregisters (p : prog) : bool :=
  match p with
  | Ret => true
  | Do _ k => cas_unregisters k
  | IfCas p q => will_unregister p && cas_unregisters p && cas_unregisters q
  | IfMonitoring p q | IfRegistered p q => cas_unregisters p && cas_unregisters q
  end.

(** A lock is owned by the thread that will give it back. *)
Record lock_inv (s : tstate) : Prop := {
  li_owner : forall i l, owner s l = Some i <-> holds l (thread s i) = true;
  li_locked : forall i, well_locked (thread s i) = true
}.

(** The states of the monitor while it handles a message for the manager. *)
Definition manager_touch : prog := Do Touch (Do (Release mManagerLock) Ret).
Definition manager_progs : list prog :=
  [handleManager_p; IfRegistered manager_touch (Do (Release mManagerLock) Ret); manager_touch;
   Do (Release mManagerLock) Ret; Ret].

(** The life of the object: it is freed by the destroyer alone, after the registration
    has ended, and the manager's handler has it in hand only while it is registered. *)
Record life_inv (s : tstate) : Prop := {
  lf_destroyer : destroying s = false -> thread s Destroyer = Ret;
  lf_binders : destroying s = true -> forall n, thread s (Binder n) = Ret;
  lf_no_free : forall n, no_free (thread s (Binder n)) = true;
  lf_monitor : keeps_session (thread s Monitor) = true;
  lf_cas : forall i, cas_unregisters (thread s i) = true;
  lf_closed : closed s = true -> registered s = false \/ exists i, will_unregister (thread s i) = true;
  lf_frees : forall i, frees_first (thread s i) = true -> registered s = false;
  lf_freed : freed s = true -> registered s = false /\ destroying s = true /\ thread s Destroyer = Ret;
  lf_manager : handling s = ManagerMessage ->
    thread s Monitor ∈ manager_progs /\ (thread s Monitor = manager_touch -> registered s = true)
}.

(** ** Lemmas *)

Lemma upd_eq {A B} `{EqDecision A} (f : A -> B) a b : upd f a b a = b.
Proof. unfold upd. by rewrite decide_True. Qed.

Lemma upd_ne {A B} `{EqDecision A} (f : A -> B) a b x : x <> a -> upd f a b x = f x.
Proof. intros. unfold upd. by rewrite decide_False. Qed.

Lemma same_locks_spec p q : same_locks p q = true -> forall l, holds l p = holds l q.
Proof.
  unfold same_locks, locks. cbn [forallb]. rewrite !andb_true_iff, !Bool.eqb_true_iff.
  intros (H1 & H2 & H3 & _) []; done.
Qed.

(** *** Locks *)

(** A step that changes neither the locks nor what the thread holds. *)
Lemma lock_inv_thread s s' i k : lock_inv s -> owner s' = owner s -> thread s' = upd (thread s) i k ->
  (forall l, holds l k = holds l (thread s i)) -> well_locked k = true -> lock_inv s'.
Proof.
  intros [Ho Hl] Eo Et Hh Hk. split.
  - intros j l. rewrite Eo, Et, Ho. unfold upd. case_decide; [subst j; by rewrite Hh|done].
  - intros j. rewrite Et. unfold upd. by case_decide.
Qed.

Lemma lock_inv_branch s s' i p q (b : bool) : lock_inv s -> (forall l, holds l (thread s i) = holds l p) ->
  same_locks p q && well_locked p && well_locked q = true -> owner s' = owner s ->
  thread s' = upd (thread s) i (if b then p else q) -> lock_inv s'.
Proof.
  intros Hs Hp Hw Eo Et. rewrite !andb_true_iff in Hw. destruct Hw as [[Hpq Hwp] Hwq].
  eapply lock_inv_thread; [exact Hs|exact Eo|exact Et| |by destruct b].
  intros l. rewrite Hp. destruct b; [done|]. by rewrite (same_locks_spec _ _ Hpq).
Qed.

Lemma lock_inv_acquire s i l k : lock_inv s -> thread s i = Do (Acquire l) k -> owner s l = None ->
  lock_inv (set_thread i k (set_owner l (Some i) s)).
Proof.
  intros [Ho Hl] Ei En. pose proof (Hl i) as Hi. rewrite Ei in Hi. cbn in Hi.
  rewrite !andb_true_iff in Hi. destruct Hi as [[_ Hk] Hw]. split; cbn.
  - intros j l'. unfold upd. destruct (decide (l' = l)) as [->|Hne], (decide (j = i)) as [->|Hj].
    + by rewrite Hk.
    + rewrite <- Ho, En. split; congruence.
    + rewrite Ho, Ei. cbn. by rewrite decide_False by done.
    + apply Ho.
  - intros j. unfold upd. by case_decide.
Qed.

Lemma lock_inv_release s i l k : lock_inv s -> thread s i = Do (Release l) k ->
  lock_inv (set_thread i k (set_owner l None s)).
Proof.
  intros [Ho Hl] Ei. pose proof (Hl i) as Hi. rewrite Ei in Hi. cbn in Hi.
  rewrite andb_true_iff, negb_true_iff in Hi. destruct Hi as [Hk Hw].
  assert (owner s l = Some i) as Hown by (apply Ho; rewrite Ei; cbn; by rewrite decide_True).
  split; cbn.
  - intros j l'. unfold upd. destruct (decide (l' = l)) as [->|Hne], (decide (j = i)) as [->|Hj].
    + by rewrite Hk.
    + rewrite <- Ho, Hown. split; congruence.
    + rewrite Ho, Ei. cbn. by rewrite decide_False by done.
    + apply Ho.
  - intros j. unfold upd. by case_decide.
Qed.

Lemma run_thread_lock_inv i s s' : lock_inv s -> run_thread i s = TOk s' -> lock_inv s'.
Proof.
  intros Hs Hr. pose proof (li_locked _ Hs i) as Hw. unfold run_thread in Hr.
  destruct (thread s i) as [|a k|p q|p q|p q] eqn:Ei; [done|..].
  - unfold run_action in Hr. destruct (touches a && freed s); [done|].
    destruct a; cbn in Hw; rewrite ?andb_true_iff in Hw;
      try (injection Hr as <-; eapply lock_inv_thread; [exact Hs|reflexivity|reflexivity|by rewrite Ei|tauto]).
    + destruct (owner s l) eqn:Eo; [done|]. injection Hr as <-. by apply lock_inv_acquire.
    + injection Hr as <-. by apply lock_inv_release.
    + injection Hr as <-. destruct k; [|done..].
      eapply lock_inv_thread; [exact Hs|reflexivity|reflexivity|by rewrite Ei|done].
  - destruct (closed s); injection Hr as <-.
    + by apply (lock_inv_branch s _ i p q false); [|rewrite Ei|..].
    + by apply (lock_inv_branch s _ i p q true); [|rewrite Ei|..].
  - injection Hr as <-. by apply (lock_inv_branch s _ i p q (is_monitoring s)); [|rewrite Ei|..].
  - injection Hr as <-. by apply (lock_inv_branch s _ i p q (registered s)); [|rewrite Ei|..].
Qed.

(** The programs of the system keep the discipline and start without locks. *)
Lemma op_prog_locks o : well_locked (op_prog o) = true /\ forall l, holds l (op_prog o) = false.
Proof. destruct o as [|[]|[]|[]|[] [] [] [] []]; (split; [reflexivity|by intros []]). Qed.

Lemma handleStale_locks late : well_locked (handleStale_p late) = true /\ forall l, holds l (handleStale_p late) = false.
Proof. destruct late; (split; [reflexivity|by intros []]). Qed.

Lemma lock_inv_start s s' i p : lock_inv s -> owner s' = owner s -> thread s' = upd (thread s) i p ->
  thread s i = Ret -> well_locked p = true -> (forall l, holds l p = false) -> lock_inv s'.
Proof.
  intros Hs Eo Et Ei Hw Hp. eapply lock_inv_thread; [done|done|done| |done]. intros l. by rewrite Ei, Hp.
Qed.

Lemma tstep_lock_inv s s' : lock_inv s -> (destroying s = false -> thread s Destroyer = Ret) ->
  tstep s (TOk s') -> lock_inv s'.
Proof.
  intros Hs Hd Hstep. inversion Hstep; subst.
  - by eapply run_thread_lock_inv.
  - eapply lock_inv_start; [exact Hs|reflexivity|reflexivity|done|apply op_prog_locks..].
  - eapply lock_inv_start; [exact Hs|reflexivity|reflexivity|by apply Hd|reflexivity|by intros []].
  - eapply lock_inv_start; [exact Hs|reflexivity|reflexivity|done|apply handleStale_locks..].
  - eapply lock_inv_start; [exact Hs|reflexivity|reflexivity|done|reflexivity|by intros []].
Qed.

(** *** Life of the session *)

Lemma unregister_before_free p : well_locked p = true -> will_unregister p = true -> frees_first p = false.
Proof.
  induction p as [|a k IH|p IHp q IHq|p IHp q IHq|p IHp q IHq]; cbn; try done.
  - destruct a; cbn; rewrite ?andb_true_iff; try done; try tauto. by destruct k.
  - rewrite !andb_true_iff, orb_false_iff. tauto.
  - rewrite !andb_true_iff, orb_false_iff. tauto.
Qed.

Lemma keeps_no_unregister p : keeps_session p = true -> will_unregister p = false.
Proof.
  induction p as [|a k IH|p IHp q IHq|p IHp q IHq|p IHp q IHq]; cbn; try done.
  - by destruct a.
  - rewrite andb_true_iff. intros [H1 H2]. by rewrite IHp.
  - rewrite andb_true_iff. intros [H1 H2]. by rewrite IHp.
Qed.

Lemma no_free_frees p : no_free p = true -> frees_first p = false.
Proof.
  induction p as [|a k IH|p IHp q IHq|p IHp q IHq|p IHp q IHq]; cbn; try done.
  - by destruct a.
  - rewrite andb_true_iff, orb_false_iff. tauto.
  - rewrite andb_true_iff, orb_false_iff. tauto.
Qed.

(** Only the destroyer frees, and only once references are gone. *)
Lemma freeing_thread s i : life_inv s -> keeps_session (thread s i) = false -> no_free (thread s i) = false ->
  i = Destroyer /\ destroying s = true.
Proof.
  intros Hs Hk Hf. destruct i as [| |n].
  - by rewrite (lf_monitor _ Hs) in Hk.
  - split; [done|]. destruct (destroying s) eqn:E; [done|]. by rewrite (lf_destroyer _ Hs E) in Hf.
  - by rewrite (lf_no_free _ Hs) in Hf.
Qed.

(** Losing the race while all binder calls are over: the winner has unregistered. *)
Lemma lost_race_unregistered s won lost : life_inv s -> destroying s = true -> closed s = true ->
  thread s Destroyer = IfCas won lost -> registered s = false.
Proof.
  intros Hs Hd Hc Ei. destruct (lf_closed _ Hs Hc) as [?|[j Hj]]; [done|].
  destruct j as [| |n].
  - by rewrite (keeps_no_unregister _ (lf_monitor _ Hs)) in Hj.
  - by rewrite Ei in Hj.
  - by rewrite (lf_binders _ Hs Hd) in Hj.
Qed.

(** A thread in the step [p -> k], the rest unchanged. *)
Record moves (s s' : tstate) (i : tid) (k : prog) : Prop := {
  mv_thread : thread s' = upd (thread s) i k;
  mv_destroying : destroying s' = destroying s;
  mv_handling : handling s' = handling s
}.

Lemma moves_thread s s' i k j : moves s s' i k -> j <> i -> thread s' j = thread s j.
Proof. intros [-> _ _] Hj. by apply upd_ne. Qed.

Lemma moves_self s s' i k : moves s s' i k -> thread s' i = k.
Proof. intros [-> _ _]. apply upd_eq. Qed.

(** The predicates on the remaining program that every step hands on. *)
Record hands_on (p k : prog) : Prop := {
  ho_no_free : no_free p = true -> no_free k = true;
  ho_keeps : keeps_session p = true -> keeps_session k = true;
  ho_cas : cas_unregisters p = true -> cas_unregisters k = true
}.

Lemma hands_on_do a k : hands_on (Do a k) k.
Proof. split; destruct a; cbn; done. Qed.

Lemma hands_on_branch p q (b : bool) :
  hands_on (IfMonitoring p q) (if b then p else q) /\ hands_on (IfRegistered p q) (if b then p else q) /\
  hands_on (IfCas p q) (if b then p else q).
Proof. split_and!; split; cbn; rewrite ?andb_true_iff; destruct b; naive_solver. Qed.

Ltac this_thread := match goal with |- context [decide (?a = ?b)] => destruct (decide (a = b)) end.

(** What a step has to show beyond that. *)
Lemma life_step s s' i k : life_inv s -> moves s s' i k -> hands_on (thread s i) k -> thread s i <> Ret ->
  (registered s = false -> registered s' = false) ->
  (closed s' = true -> registered s' = false \/ will_unregister k = true \/
     exists j, j <> i /\ will_unregister (thread s j) = true) ->
  (frees_first k = true -> registered s' = false) ->
  (freed s' = true -> freed s = true \/
     (registered s' = false /\ i = Destroyer /\ destroying s = true /\ k = Ret)) ->
  (handling s = ManagerMessage ->
     if decide (i = Monitor) then k ∈ manager_progs /\ (k = manager_touch -> registered s' = true)
     else thread s Monitor = manager_touch -> registered s = true -> registered s' = true) ->
  life_inv s'.
Proof.
  intros Hs Hm [Hn Hk Hc] Hne Hreg Hcl Hfr Hfd Hman.
  assert (forall j, thread s' j = if decide (j = i) then k else thread s j) as Et by (intros j; by rewrite (mv_thread _ _ _ _ Hm)).
  pose proof (mv_destroying _ _ _ _ Hm) as Ed. pose proof (mv_handling _ _ _ _ Hm) as Eh.
  destruct Hs as [H1 H2 H3 H4 H5 H6 H7 H8 H9]. split.
  - rewrite Ed, Et. intros Hd. this_thread; [|by apply H1]. subst i. by destruct Hne; apply H1.
  - rewrite Ed. intros Hd n. rewrite Et. this_thread; [|by apply H2]. subst i. by destruct Hne; apply H2.
  - intros n. rewrite Et. this_thread; [|done]. subst i. by apply Hn.
  - rewrite Et. this_thread; [|done]. subst i. by apply Hk.
  - intros j. rewrite Et. this_thread; [|done]. by apply Hc.
  - intros Hx. destruct (Hcl Hx) as [?|[?|(j & Hj & Hw)]]; [by left| |].
    + right. exists i. by rewrite Et, decide_True.
    + right. exists j. by rewrite Et, decide_False.
  - intros j. rewrite Et. this_thread; [done|]. intros Hx. by apply Hreg, (H7 j).
  - intros Hx. rewrite Ed, Et. destruct (Hfd Hx) as [Hold|(Hr & -> & Hd & ->)].
    + destruct (H8 Hold) as (Hr & Hd & Hret). split_and!; [by apply Hreg|done|].
      this_thread; [|done]. by subst i.
    + by rewrite decide_True.
  - rewrite Eh, Et. intros Hx. specialize (Hman Hx). destruct (H9 Hx) as [Hin Ht].
    destruct (decide (i = Monitor)) as [->|Hi]; [by rewrite decide_True|].
    rewrite decide_False by done. split; [done|]. auto.
Qed.

(** The manager's programs move among themselves. *)
Lemma manager_next p : p ∈ manager_progs ->
  match p with
  | Do _ k => k ∈ manager_progs /\ (k <> manager_touch)
  | IfRegistered y n => y ∈ manager_progs /\ n ∈ manager_progs /\ n <> manager_touch
  | Ret => True
  | _ => False
  end.
Proof.
  unfold manager_progs. rewrite !elem_of_cons, elem_of_nil.
  intros [->|[->|[->|[->|[->|[]]]]]]; cbn; rewrite ?elem_of_cons; naive_solver.
Qed.

Lemma closed_moves s i k : life_inv s -> closed s = true ->
  (will_unregister (thread s i) = true -> will_unregister k = true) ->
  registered s = false \/ will_unregister k = true \/ exists j, j <> i /\ will_unregister (thread s j) = true.
Proof.
  intros Hs Hc Hk. destruct (lf_closed _ Hs Hc) as [?|[j Hj]]; [by left|right].
  destruct (decide (j = i)) as [->|Hne]; [by left; apply Hk|]. right. eauto.
Qed.

(** A step that leaves the session's flags alone. *)
Lemma life_neutral s s' i k : life_inv s -> moves s s' i k -> hands_on (thread s i) k -> thread s i <> Ret ->
  registered s' = registered s -> closed s' = closed s -> freed s' = freed s ->
  (will_unregister (thread s i) = true -> will_unregister k = true) ->
  (frees_first k = true -> frees_first (thread s i) = true) ->
  (thread s i ∈ manager_progs -> k ∈ manager_progs /\ (k = manager_touch -> registered s = true)) ->
  life_inv s'.
Proof.
  intros Hs Hm Hh Hne Er Ec Ef Hw Hfr Hman. apply (life_step s s' i k); try done; rewrite ?Er, ?Ec, ?Ef; try done.
  - intros Hc. by apply closed_moves.
  - intros Hx. apply (lf_frees _ Hs i). auto.
  - by left.
  - intros Hx. destruct (decide (i = Monitor)) as [->|_]; [|done]. by apply Hman, (lf_manager _ Hs).
Qed.

Lemma life_unregister s i k : life_inv s -> lock_inv s -> thread s i = Do Unregister k ->
  life_inv (set_thread i k (set_session (freed s) (closed s) (is_monitoring s) false s)).
Proof.
  intros Hs [Ho Hl] Ei. apply (life_step s _ i k); try done.
  - rewrite Ei. apply hands_on_do.
  - by rewrite Ei.
  - by left.
  - by left.
  - intros _. destruct (decide (i = Monitor)) as [->|Hne].
    + pose proof (lf_monitor _ Hs) as Hk. by rewrite Ei in Hk.
    + intros Ht _. exfalso. apply Hne. specialize (Hl i). rewrite Ei in Hl. cbn in Hl.
      apply andb_true_iff in Hl as [Hl _].
      assert (owner s mManagerLock = Some i) as E1 by (apply Ho; by rewrite Ei).
      assert (owner s mManagerLock = Some Monitor) as E2 by (apply Ho; by rewrite Ht). congruence.
Qed.

Lemma life_free s i k : life_inv s -> lock_inv s -> thread s i = Do Free k ->
  life_inv (set_thread i k (set_session true (closed s) (is_monitoring s) (registered s) s)).
Proof.
  intros Hs [Ho Hl] Ei. specialize (Hl i). rewrite Ei in Hl. destruct k; [|done..].
  assert (registered s = false) as Hr by (apply (lf_frees _ Hs i); by rewrite Ei).
  destruct (freeing_thread s i Hs) as [-> Hd]; [by rewrite Ei..|].
  apply (life_step s _ Destroyer Ret); try done; rewrite ?Ei; try done; intros _; [by left|by right|].
  by rewrite decide_False.
Qed.

Lemma life_cas s i won lost : life_inv s -> lock_inv s -> thread s i = IfCas won lost ->
  life_inv (if closed s then set_thread i lost s
            else set_thread i won (set_session (freed s) true (is_monitoring s) (registered s) s)).
Proof.
  intros Hs Hl Ei. pose proof (li_locked _ Hl i) as Hw. rewrite Ei in Hw. cbn [well_locked] in Hw.
  rewrite !andb_true_iff in Hw. destruct Hw as [[_ Hw1] Hw2].
  assert (i <> Monitor) as Hne.
  { intros ->. pose proof (lf_monitor _ Hs) as Hk. by rewrite Ei in Hk. }
  destruct (hands_on_branch won lost true) as (_ & _ & Hh1). destruct (hands_on_branch won lost false) as (_ & _ & Hh2).
  destruct (closed s) eqn:Ec.
  - apply (life_step s _ i lost); try done; rewrite ?Ei; try done; cbn.
    + intros _. apply closed_moves; [done|done|]. by rewrite Ei.
    + intros Hf. destruct (freeing_thread s i Hs) as [-> Hd].
      * by rewrite Ei.
      * rewrite Ei. cbn. apply andb_false_iff. right. destruct (no_free lost) eqn:En; [|done].
        by rewrite (no_free_frees _ En) in Hf.
      * by apply (lost_race_unregistered s won lost).
    + by left.
    + intros _. by rewrite decide_False.
  - pose proof (lf_cas _ Hs i) as Hc. rewrite Ei in Hc. cbn in Hc. rewrite !andb_true_iff in Hc.
    destruct Hc as [[Hwill _] _].
    apply (life_step s _ i won); try done; rewrite ?Ei; try done; cbn.
    + right. by left.
    + by rewrite (unregister_before_free _ Hw1 Hwill).
    + by left.
    + intros _. by rewrite decide_False.
Qed.

Lemma run_thread_life i s s' : life_inv s -> lock_inv s -> run_thread i s = TOk s' -> life_inv s'.
Proof.
  intros Hs Hl Hr. unfold run_thread in Hr. destruct (thread s i) as [|a k|p q|p q|p q] eqn:Ei; [done|..].
  - assert (forall s1, thread s1 = thread s -> destroying s1 = destroying s -> handling s1 = handling s ->
      registered s1 = registered s -> closed s1 = closed s -> freed s1 = freed s ->
      a <> Unregister -> a <> Free -> life_inv (set_thread i k s1)) as Hneutral.
    { intros s1 E1 E2 E3 E4 E5 E6 Hu Hf. apply (life_neutral s _ i k); try done; rewrite ?Ei.
      - split; cbn; congruence.
      - apply hands_on_do.
      - done.
      - by destruct a.
      - by destruct a.
      - intros [? ?]%manager_next. by split. }
    unfold run_action in Hr. destruct (touches a && freed s); [done|].
    destruct a; try (injection Hr as <-; by apply Hneutral).
    + destruct (owner s l); [done|]. injection Hr as <-. by apply Hneutral.
    + injection Hr as <-. by apply life_unregister.
    + injection Hr as <-. by apply life_free.
  - pose proof (life_cas s i p q Hs Hl Ei) as H. by destruct (closed s); injection Hr as <-.
  - injection Hr as <-. apply (life_neutral s _ i (if is_monitoring s then p else q)); try done; rewrite ?Ei; try done; cbn.
    + apply hands_on_branch.
    + rewrite andb_true_iff. by intros []; destruct (is_monitoring s).
    + rewrite orb_true_iff. destruct (is_monitoring s); auto.
    + by intros ?%manager_next.
  - injection Hr as <-. apply (life_neutral s _ i (if registered s then p else q)); try done; rewrite ?Ei; try done; cbn.
    + apply hands_on_branch.
    + rewrite andb_true_iff. by intros []; destruct (registered s).
    + rewrite orb_true_iff. destruct (registered s); auto.
    + intros (H1 & H2 & H3)%manager_next. by destruct (registered s).
Qed.

(** The facts on a program that starts. *)
Lemma op_prog_life o : no_free (op_prog o) = true /\ cas_unregisters (op_prog o) = true /\
  will_unregister (op_prog o) = false /\ frees_first (op_prog o) = false.
Proof. by destruct o as [|[]|[]|[]|[] [] [] [] []]. Qed.

(** A thread that had nothing to do starts [p]. *)
Lemma life_start s s' i p : life_inv s -> thread s i = Ret -> thread s' = upd (thread s) i p ->
  registered s' = registered s -> closed s' = closed s -> freed s' = freed s ->
  cas_unregisters p = true -> frees_first p = false ->
  (destroying s' = false -> thread s' Destroyer = Ret) ->
  (destroying s' = true -> forall n, thread s' (Binder n) = Ret) ->
  (forall n, i = Binder n -> no_free p = true) -> (i = Monitor -> keeps_session p = true) ->
  (freed s = true -> destroying s' = true /\ i <> Destroyer) ->
  (handling s' = ManagerMessage -> thread s' Monitor ∈ manager_progs /\
     (thread s' Monitor = manager_touch -> registered s = true)) -> life_inv s'.
Proof.
  intros [H1 H2 H3 H4 H5 H6 H7 H8 H9] Ei Et Er Ec Ef Hcas Hfr Hd Hb Hn Hk Hf Hm.
  assert (forall j, thread s' j = if decide (j = i) then p else thread s j) as E by (intros j; by rewrite Et).
  split; rewrite ?Er, ?Ec, ?Ef; try done.
  - intros n. rewrite E. this_thread; [|done]. by apply (Hn n).
  - rewrite E. this_thread; [|done]. by apply Hk.
  - intros j. rewrite E. by this_thread.
  - intros Hc. destruct (H6 Hc) as [?|[j Hj]]; [by left|right]. exists j. rewrite E.
    rewrite decide_False; [done|]. intros ->. by rewrite Ei in Hj.
  - intros j. rewrite E. this_thread; [congruence|]. apply H7.
  - intros Hx. destruct (H8 Hx) as (? & _ & Hret), (Hf Hx) as [? ?]. split_and!; [done|done|].
    rewrite E. by rewrite decide_False.
Qed.

Lemma tstep_life s s' : life_inv s -> lock_inv s -> tstep s (TOk s') -> life_inv s'.
Proof.
  intros Hs Hl Hstep. inversion Hstep; subst; clear Hstep.
  - by eapply run_thread_life.
  - destruct (op_prog_life o) as (P1 & P2 & P3 & P4).
    eapply (life_start s _ (Binder n) (op_prog o)); try done; cbn.
    + intros. rewrite upd_ne by done. by apply (lf_destroyer _ Hs).
    + congruence.
    + intros Hf. apply (lf_freed _ Hs) in Hf as (_ & ? & _). congruence.
    + intros Hx. rewrite upd_ne by done. by apply (lf_manager _ Hs).
  - eapply (life_start s _ Destroyer destructor_p); try done; cbn.
    + by apply (lf_destroyer _ Hs).
    + intros Hf. apply (lf_freed _ Hs) in Hf as (_ & ? & _). congruence.
    + intros Hx. rewrite upd_ne by done. by apply (lf_manager _ Hs).
  - eapply (life_start s _ Monitor (handleStale_p late)); try done; cbn; try (by destruct late).
    + intros. rewrite upd_ne by done. by apply (lf_destroyer _ Hs).
    + intros ? n. rewrite upd_ne by done. by apply (lf_binders _ Hs).
    + intros Hf. apply (lf_freed _ Hs) in Hf as (_ & ? & _). done.
  - eapply (life_start s _ Monitor handleManager_p); try done; cbn.
    + intros. rewrite upd_ne by done. by apply (lf_destroyer _ Hs).
    + intros ? n. rewrite upd_ne by done. by apply (lf_binders _ Hs).
    + intros Hf. apply (lf_freed _ Hs) in Hf as (_ & ? & _). done.
    + intros _. rewrite upd_eq. split; [left|done].
Qed.

Lemma reachable_inv s : treachable s -> life_inv s /\ lock_inv s.
Proof.
  induction 1 as [|s s' _ [Hs Hl] Hstep].
  - split; [|by split; [intros i []; cbn; naive_solver|]].
    split; cbn; try done. intros _. split; [|done]. unfold manager_progs. by rewrite !elem_of_cons; tauto.
  - split; [by eapply tstep_life|]. eapply tstep_lock_inv; [done|apply Hs|done].
Qed.

(** A thread that waits waits for a lock above those it holds, so that the owner of the
    highest lock waited for can run. *)
Lemma waiting_thread i s : thread s i <> Ret -> run_thread i s = TBlocked ->
  exists l k j, thread s i = Do (Acquire l) k /\ owner s l = Some j.
Proof.
  intros Hne. unfold run_thread. destruct (thread s i) as [|a k|p q|p q|p q]; try done; [|by destruct (closed s)].
  unfold run_action. destruct (touches a && freed s); [done|]. destruct a as [l|l| | | | | | |]; try done.
  destruct (owner s l) as [j|] eqn:Eo; [|done]. eauto.
Qed.

Lemma owner_unfinished s l j : lock_inv s -> owner s l = Some j -> thread s j <> Ret.
Proof. intros Hs Ho E. apply (li_owner _ Hs) in Ho. by rewrite E in Ho. Qed.

Lemma waits_above s l l' j k : lock_inv s -> owner s l = Some j -> thread s j = Do (Acquire l') k ->
  (rank l < rank l')%nat.
Proof.
  intros Hs Ho E. apply (li_owner _ Hs) in Ho. pose proof (li_locked _ Hs j) as Hw. rewrite E in Ho, Hw.
  cbn [well_locked] in Hw. rewrite !andb_true_iff in Hw. destruct Hw as [[Hw _] _].
  rewrite forallb_forall in Hw. specialize (Hw l). rewrite Ho in Hw. apply Nat.ltb_lt, Hw. destruct l; cbn; auto.
Qed.

Lemma someone_runs s : lock_inv s -> forall n l j, (2 - rank l <= n)%nat -> owner s l = Some j ->
  exists i, thread s i <> Ret /\ run_thread i s <> TBlocked.
Proof.
  intros Hs. induction n as [|n IH]; intros l j Hn Ho; pose proof (owner_unfinished _ _ _ Hs Ho) as Hj;
    (destruct (run_thread j s) eqn:Er; [exists j; rewrite Er; done| |exists j; rewrite Er; done]);
    destruct (waiting_thread j s Hj Er) as (l' & k & j' & E & Ho'); pose proof (waits_above _ _ _ _ _ Hs Ho E).
  - destruct l, l'; simpl in *; lia.
  - apply (IH l' j'); [|done]. destruct l, l'; simpl in *; lia.
Qed.

(** ** Properties *)

(** C12: Whatever the interleaving of binder calls, the destructor and the monitor
    thread, the only code that can dereference a session after it was destroyed is the
    stale handler: the binder calls, the destructor and the manager's walk over its
    sessions never do, because the session is unregistered under the manager's lock
    before it is freed. *)
Theorem only_stale_handler_races s i :
  treachable s -> tstep s (TUseAfterFree i) -> i = Monitor /\ handling s = StaleMessage.
Proof.
  intros [Hs Hl]%reachable_inv Hstep. inversion Hstep as [j s1 r Hr _| | | |]; subst.
  assert (j = i /\ freed s = true /\ exists a k, thread s i = Do a k /\ touches a = true) as (-> & Hf & a & k & Ei & Ha).
  { unfold run_thread in Hr. destruct (thread s j) as [|a k|p q|p q|p q] eqn:Ej; try done; [|by destruct (closed s)].
    unfold run_action in Hr. destruct (touches a) eqn:Ea, (freed s); cbn in Hr;
      try (destruct a; try done; by destruct (owner s l)).
    injection Hr as ->. eauto 10. }
  destruct (lf_freed _ Hs Hf) as (Hreg & Hd & Hret).
  destruct i as [| |n]; [|congruence|by rewrite (lf_binders _ Hs Hd) in Ei].
  split; [done|]. destruct (handling s) eqn:Eh; [done|]. destruct (lf_manager _ Hs Eh) as [Hin Ht].
  assert (thread s Monitor = manager_touch) as Em; [|specialize (Ht Em); congruence].
  rewrite Ei in Hin |- *. unfold manager_progs in Hin. rewrite !elem_of_cons, elem_of_nil in Hin.
  destruct Hin as [E|[E|[E|[E|[E|[]]]]]]; try done; injection E as -> ->; done.
Qed.

(** C13: The locks cannot deadlock: in every reachable state, if any thread has
    something left to do, some thread can take its next step.  (The stale handler's
    lock is taken before the session's; the manager's is taken alone.) *)
Theorem threads_no_deadlock s i :
  treachable s -> thread s i <> Ret ->
  exists j, thread s j <> Ret /\ run_thread j s <> TBlocked.
Proof.
  intros [_ Hl]%reachable_inv Hi. destruct (run_thread i s) eqn:Er; [exists i; by rewrite Er| |exists i; by rewrite Er].
  destruct (waiting_thread i s Hi Er) as (l & k & j & _ & Ho). by apply (someone_runs s Hl 2 l j); [lia|].
Qed.

(** *** The race *)

(** [n] steps of thread [i]. *)
Fixpoint run_n (n : nat) (i : tid) (s : tstate) : option tstate :=
  match n with
  | O => Some s
  | S n => match run_thread i s with TOk s => run_n n i s | _ => None end
  end.

Lemma run_n_reachable n i s s' : treachable s -> run_n n i s = Some s' -> treachable s'.
Proof.
  revert s. induction n as [|n IH]; intros s Hs Hr; cbn in Hr; [congruence|].
  destruct (run_thread i s) as [s1| |] eqn:E; [|done..]. apply (IH s1); [|done].
  eapply tr_step; [exact Hs|]. by eapply ts_run.
Qed.

(** A report arms the stale timer; the monitor takes the due message; before its
    handler has read the session, the last reference goes away. *)
Definition race_reported : option tstate :=
  run_n 10 (Binder 0) (set_thread (Binder 0) (op_prog (OpReport true true false true false)) tinit).

Definition race_polled : option tstate :=
  s ← race_reported;
  Some (set_thread Monitor (handleStale_p true)
          (set_control (destroying s) StaleMessage (set_queues 0 (manager_queued s) s))).

Definition race_freed : option tstate :=
  s ← race_polled;
  s ← run_n 1 Monitor s;
  run_n 15 Destroyer (set_thread Destroyer destructor_p (set_control true StaleMessage s)).

Lemma race_reported_reachable s : race_reported = Some s -> treachable s.
Proof.
  apply run_n_reachable. eapply tr_step; [apply tr_init|]. by apply ts_call.
Qed.

Lemma race_polled_reachable s : race_polled = Some s ->
  treachable s /\ destroying s = false /\ (forall n, thread s (Binder n) = Ret) /\ handling s = StaleMessage.
Proof.
  unfold race_polled. destruct race_reported as [s1|] eqn:E; [|done]. cbn. intros [= <-].
  pose proof (race_reported_reachable s1 E) as Hr.
  assert (thread s1 Monitor = Ret /\ stale_queued s1 = 1%nat /\ destroying s1 = false /\
    forall n, thread s1 (Binder n) = Ret) as (H1 & H2 & H3 & H4).
  { vm_compute in E. injection E as <-. split_and!; try reflexivity. intros [|n]; reflexivity. }
  split_and!; [|done| |done].
  - eapply tr_step; [exact Hr|]. by apply ts_poll_stale.
  - intros n. cbn. by rewrite upd_ne.
Qed.

Lemma race_freed_reachable s : race_freed = Some s -> treachable s.
Proof.
  unfold race_freed. destruct race_polled as [s1|] eqn:E1; [|done]. cbn [mbind option_bind].
  destruct (race_polled_reachable s1 E1) as (Hr & Hd & Hb & Hm).
  destruct (run_n 1 Monitor s1) as [s2|] eqn:E2; [|done]. cbn [mbind option_bind].
  pose proof (run_n_reachable _ _ _ _ Hr E2) as Hr2.
  assert (destroying s2 = false /\ (forall n, thread s2 (Binder n) = Ret) /\ handling s2 = StaleMessage) as (Hd2 & Hb2 & Hm2).
  { vm_compute in E1. injection E1 as <-. vm_compute in E2. injection E2 as <-. split_and!; [done| |done].
    intros [|n]; reflexivity. }
  rewrite <- Hm2. apply run_n_reachable. eapply tr_step; [exact Hr2|]. by apply ts_destroy.
Qed.

(** Thread [i] runs while the others stand still. *)
Definition runs (i : tid) : tstate -> tstate -> Prop := rtc (fun s s' => run_thread i s = TOk s').

Lemma run_n_runs n i s s' : run_n n i s = Some s' -> runs i s s'.
Proof.
  revert s. induction n as [|n IH]; intros s Hr; cbn in Hr; [injection Hr as <-; apply rtc_refl|].
  destruct (run_thread i s) as [s1| |] eqn:E; [|done..]. by eapply rtc_l; [|apply IH].
Qed.

(** While nothing but a stale handler that has not begun is under way, no lock is
    taken. *)
Lemma locks_free s late : treachable s -> thread s Monitor = handleStale_p late ->
  destroying s = false -> (forall n, thread s (Binder n) = Ret) ->
  freed s = false /\ thread s Destroyer = Ret /\ forall l, owner s l = None.
Proof.
  intros [Hs Hl]%reachable_inv Hm Hd Hb. pose proof (lf_destroyer _ Hs Hd) as Hr. split_and!; [|done|].
  - destruct (freed s) eqn:Hf; [|done]. apply (lf_freed _ Hs) in Hf as (_ & ? & _). congruence.
  - intros l. destruct (owner s l) as [i|] eqn:Ho; [|done]. apply (li_owner _ Hl) in Ho.
    destruct i as [| |n]; rewrite ?Hm, ?Hr, ?Hb in Ho; by destruct l, late.
Qed.

Lemma run_n_step n i s s1 s' : run_thread i s = TOk s1 -> run_n n i s1 = Some s' -> run_n (S n) i s = Some s'.
Proof. cbn. by intros ->. Qed.

(** The destructor of an open session, alone, to its end. *)
Lemma destructor_runs s : closed s = false -> freed s = false -> (forall l, owner s l = None) ->
  thread s Destroyer = destructor_p ->
  exists s', run_n 15 Destroyer s = Some s' /\ thread s' Destroyer = Ret /\ freed s' = true /\
    stale_queued s' = 0%nat /\ owner s' mStaleLock = None /\ thread s' Monitor = thread s Monitor.
Proof.
  destruct s as [fr cl mo re st mg de ha ow th]. cbn [closed freed owner thread]. intros -> -> Ho Ht.
  eexists. split.
  { eapply run_n_step; [unfold run_thread; cbn; rewrite Ht; reflexivity|].
    do 14 (eapply run_n_step; [cbv; rewrite ?Ho; reflexivity|]). reflexivity. }
  cbn. by rewrite Ho.
Qed.

(** C39: close removes the messages that are queued, not the one the monitor has taken
    already.  Whenever the monitor has taken a stale message of an open session and
    its handler has not begun, and no call is running, the last reference may go away:
    the destructor closes the session, removes what is queued and ends, with no report
    after the close, and the handler then dereferences the destroyed object. *)
Theorem stale_handler_use_after_free s late :
  treachable s -> thread s Monitor = handleStale_p late -> closed s = false ->
  destroying s = false -> (forall n, thread s (Binder n) = Ret) ->
  exists s1 s2 s3, tstep s (TOk s1) /\ destroying s1 = true /\
    runs Destroyer s1 s2 /\ thread s2 Destroyer = Ret /\ freed s2 = true /\ stale_queued s2 = 0%nat /\
    runs Monitor s2 s3 /\ run_thread Monitor s3 = TUseAfterFree Monitor.
Proof.
  intros Hs Hm Hc Hd Hb. destruct (locks_free s late Hs Hm Hd Hb) as (Hf & Hr & Ho).
  set (s1 := set_thread Destroyer destructor_p (set_control true (handling s) s)).
  destruct (destructor_runs s1) as (s2 & E2 & Hr2 & Hf2 & Hq2 & Ho2 & Hm2); [done..|by apply upd_eq|].
  cbn in Hm2. rewrite upd_ne, Hm in Hm2 by done.
  assert (run_thread Monitor s2 = TOk (set_thread Monitor
    (match handleStale_p late with Do _ k => k | p => p end) (set_owner mStaleLock (Some Monitor) s2))) as E3.
  { unfold run_thread. rewrite Hm2. cbn. by rewrite Ho2. }
  exists s1, s2. eexists. split; [by apply ts_destroy|]. split; [done|].
  split; [by eapply run_n_runs|]. split_and!; [done..| |].
  - eapply rtc_l; [exact E3|apply rtc_refl].
  - unfold run_thread. cbn [thread set_thread]. rewrite upd_eq. cbn. unfold run_action. cbn. by rewrite Hf2.
Qed.

(** *** Witnesses *)

Definition freed_state : tstate := default tinit race_freed.

Lemma freed_state_reachable : treachable freed_state.
Proof. apply race_freed_reachable. vm_compute. reflexivity. Qed.

Lemma only_stale_handler_races_witness : handling freed_state = StaleMessage.
Proof.
  apply (only_stale_handler_races freed_state Monitor); [exact freed_state_reachable|].
  apply (ts_run Monitor); [vm_compute; reflexivity|discriminate].
Defined.

(** The monitor is in the middle of its handler. *)
Lemma threads_no_deadlock_witness :
  exists j, thread freed_state j <> Ret /\ run_thread j freed_state <> TBlocked.
Proof.
  apply (threads_no_deadlock freed_state Monitor); [exact freed_state_reachable|vm_compute; discriminate].
Defined.

(** The state in which the monitor has taken the message that a report armed. *)
Definition polled_state : tstate := default tinit race_polled.

Lemma polled_state_reachable : treachable polled_state.
Proof. apply race_polled_reachable. vm_compute. reflexivity. Qed.

Lemma stale_handler_use_after_free_witness :
  exists s1 s2 s3, tstep polled_state (TOk s1) /\ destroying s1 = true /\
    runs Destroyer s1 s2 /\ thread s2 Destroyer = Ret /\ freed s2 = true /\ stale_queued s2 = 0%nat /\
    runs Monitor s2 s3 /\ run_thread Monitor s3 = TUseAfterFree Monitor.
Proof.
  apply (stale_handler_use_after_free polled_state true);
    [exact polled_state_reachable|reflexivity|reflexivity|reflexivity|].
  intros [|n]; reflexivity.
Defined.
