(* ===== verification/SessionRaces.v ===== *)
(** Data races of a power hint session
    (src/aidl/power-libperfmgr/PowerHintSession.cpp and PowerSessionManager.cpp).

    The programs of SessionThreads name the data they read and write that is neither
    constant nor atomic.  Two threads race where their next steps touch the same field
    and one of them writes: nothing orders the two accesses.  Each field has a rule
    (its mutex, or the threads that may use it), a checker that follows the locks a
    program holds, and every reachable state keeps the rules.  The accesses of [delete
    mDescriptor] are not listed: what can follow it is the subject of
    SessionThreads. *)
From S2P Require Import Prelude SessionThreads.

(** ** Races *)

(** What the next step of a program touches. *)
Definition next_accesses (p : prog) : list access :=
  match p with
  | Do (Access l) _ => l
  | Do Unregister _ => [Write mSessions]
  | IfRegistered _ _ => [Read mSessions]
  | _ => []
  end.

Definition access_field (a : access) : field := match a with Read f | Write f => f end.

Definition writes (a : access) : bool := match a with Read _ => false | Write _ => true end.

Definition conflict (a b : access) : bool :=
  bool_decide (access_field a = access_field b) && (writes a || writes b).

(** Threads [i] and [j] are about to make the accesses [a] and [b], in either order. *)
Record race (s : tstate) (i j : tid) (a b : access) : Prop := {
  rc_threads : i <> j;
  rc_left : a ∈ next_accesses (thread s i);
  rc_right : b ∈ next_accesses (thread s j);
  rc_conflict : conflict a b = true
}.

(** ** Rules *)

Definition is_binder (i : tid) : bool := match i with Binder _ => true | _ => false end.

(** The rule of a field for a thread that holds the locks [held]. *)
Definition guarded (binder : bool) (held : lock -> bool) (a : access) : bool :=
  match access_field a with
  | mSessions | mTidRefCountMap => held mManagerLock
  | current_min => held mSessionLock || (binder && negb (writes a))
  | _ => binder
  end.

Fixpoint disciplined (binder : bool) (p : prog) : bool :=
  forallb (guarded binder (fun l => holds l p)) (next_accesses p) &&
  match p with
  | Ret => true
  | Do _ k => disciplined binder k
  | IfCas p q | IfMonitoring p q | IfRegistered p q => disciplined binder p && disciplined binder q
  end.

(** ** Lemmas *)

(** What a thread can go on with. *)
Definition continues (p k : prog) : Prop :=
  match p with
  | Ret => False
  | Do _ k' => k = k'
  | IfCas p q | IfMonitoring p q | IfRegistered p q => k = p \/ k = q
  end.

Lemma run_thread_continues i s s' : run_thread i s = TOk s' ->
  exists k, thread s' = upd (thread s) i k /\ continues (thread s i) k.
Proof.
  unfold run_thread, run_action. destruct (thread s i) as [|a k|p q|p q|p q]; [done|..].
  - destruct (touches a && freed s); [done|].
    destruct a; try destruct (owner s l); intros [= <-]; by exists k.
  - destruct (closed s); intros [= <-]; eexists; (split; [reflexivity|]); [by right|by left].
  - intros [= <-]. eexists. split; [reflexivity|]. destruct (is_monitoring s); [by left|by right].
  - intros [= <-]. eexists. split; [reflexivity|]. destruct (registered s); [by left|by right].
Qed.

Lemma disciplined_continues b p k : continues p k -> disciplined b p = true -> disciplined b k = true.
Proof.
  destruct p; cbn; [done|..]; rewrite ?andb_true_iff; naive_solver.
Qed.

Lemma disciplined_next b p a : disciplined b p = true -> a ∈ next_accesses p ->
  guarded b (fun l => holds l p) a = true.
Proof.
  intros Hd Ha. destruct p as [|act k|p q|p q|p q]; cbn [disciplined] in Hd; rewrite andb_true_iff, forallb_forall in Hd;
    by apply Hd, list_elem_of_In.
Qed.

Definition races_inv (s : tstate) : Prop := forall i, disciplined (is_binder i) (thread s i) = true.

(** The programs of the system follow the rules. *)
Lemma op_prog_disciplined o : disciplined true (op_prog o) = true.
Proof. by destruct o as [|[]|[]|[]|[] [] [] [] []]. Qed.

Lemma races_inv_upd s s' i k : races_inv s -> thread s' = upd (thread s) i k ->
  disciplined (is_binder i) k = true -> races_inv s'.
Proof. intros Hs Et Hk j. rewrite Et. unfold upd. case_decide; [by subst|done]. Qed.

Lemma reachable_races_inv s : treachable s -> races_inv s.
Proof.
  induction 1 as [|s s' _ Hs Hstep]; [by intros i|]. inversion Hstep; subst.
  - destruct (run_thread_continues _ _ _ ltac:(eassumption)) as (k & Et & Hk).
    eapply races_inv_upd; [exact Hs|exact Et|]. by eapply disciplined_continues.
  - eapply races_inv_upd; [exact Hs|reflexivity|apply op_prog_disciplined].
  - by eapply races_inv_upd; [exact Hs|reflexivity|].
  - eapply races_inv_upd; [exact Hs|reflexivity|by destruct late].
  - by eapply races_inv_upd; [exact Hs|reflexivity|].
Qed.

(** A lock keeps its holder's accesses to itself. *)
Lemma holds_exclusive s l i j : lock_inv s -> holds l (thread s i) = true -> holds l (thread s j) = true -> i = j.
Proof. intros Hl Hi%(li_owner _ Hl) Hj%(li_owner _ Hl). congruence. Qed.

Lemma race_sym s i j a b : race s i j a b -> race s j i b a.
Proof.
  intros [H1 H2 H3 H4]. split; try done. unfold conflict in *. rewrite andb_true_iff, bool_decide_eq_true in *.
  rewrite orb_comm. by destruct H4.
Qed.

Lemma race_guarded s i j a b : treachable s -> race s i j a b ->
  guarded (is_binder i) (fun l => holds l (thread s i)) a = true /\
  guarded (is_binder j) (fun l => holds l (thread s j)) b = true.
Proof.
  intros Hr%reachable_races_inv [_ Ha Hb _]. split; eapply disciplined_next; eauto; apply Hr.
Qed.

Lemma is_binder_true i : is_binder i = true -> exists n, i = Binder n.
Proof. destruct i; naive_solver. Qed.

(** The race seen from the thread that writes, [j]. *)
Lemma race_with_writer s i j a b : treachable s -> race s i j a b -> writes b = true ->
  access_field b = access_field a /\
  match access_field a with
  | mSessions | mTidRefCountMap => False
  | current_min => is_binder i = true /\ writes a = false
  | _ => is_binder i = true /\ is_binder j = true
  end.
Proof.
  intros Hr Hrace Hw. destruct (race_guarded _ _ _ _ _ Hr Hrace) as [Ga Gb].
  destruct Hrace as [Hne _ _ Hc]. unfold conflict in Hc.
  rewrite andb_true_iff, bool_decide_eq_true in Hc. destruct Hc as [Ef _].
  pose proof (proj2 (reachable_inv s Hr)) as Hl. unfold guarded in Ga, Gb. rewrite <- Ef in Gb. split; [done|].
  rewrite Hw, andb_false_r, orb_false_r in Gb.
  destruct (access_field a); try done; try (by destruct Hne; eapply holds_exclusive).
  apply orb_true_iff in Ga as [Ga|Ga]; [by destruct Hne; eapply holds_exclusive|].
  by rewrite andb_true_iff, negb_true_iff in Ga.
Qed.

Lemma race_has_writer s i j a b : race s i j a b -> writes b = true \/ writes a = true.
Proof. intros [_ _ _ Hc]. unfold conflict in Hc. rewrite andb_true_iff, orb_true_iff in Hc. tauto. Qed.

(** A binder thread that is inside a call runs beside no destructor. *)
Lemma binder_beside_destroyer s n a b : treachable s -> ~ race s (Binder n) Destroyer a b.
Proof.
  intros Hr [_ Ha Hb _]. pose proof (proj1 (reachable_inv s Hr)) as Hl. destruct (destroying s) eqn:Ed.
  - rewrite (lf_binders _ Hl Ed) in Ha. by apply not_elem_of_nil in Ha.
  - rewrite (lf_destroyer _ Hl Ed) in Hb. by apply not_elem_of_nil in Hb.
Qed.

(** The manager's handler writes no field of the session. *)
Lemma monitor_writes_stale s f : treachable s -> Write f ∈ next_accesses (thread s Monitor) -> handling s = StaleMessage.
Proof.
  intros Hr Ha. destruct (handling s) eqn:Eh; [done|]. destruct (lf_manager _ (proj1 (reachable_inv s Hr)) Eh) as [Hin _].
  unfold manager_progs in Hin. rewrite !elem_of_cons, elem_of_nil in Hin.
  destruct Hin as [E|[E|[E|[E|[E|[]]]]]]; rewrite E in Ha; cbn in Ha; rewrite ?elem_of_cons, ?elem_of_nil in Ha; naive_solver.
Qed.

Lemma single_binder_id s i a : (forall n, n <> 0%nat -> thread s (Binder n) = Ret) ->
  a ∈ next_accesses (thread s i) -> is_binder i = true -> i = Binder 0.
Proof.
  intros Hone Ha [n ->]%is_binder_true. destruct (decide (n = 0%nat)) as [->|Hn]; [done|].
  rewrite (Hone n Hn) in Ha. by apply not_elem_of_nil in Ha.
Qed.

Lemma single_binder_writer s i j a b :
  treachable s -> (forall n, n <> 0%nat -> thread s (Binder n) = Ret) -> race s i j a b -> writes b = true ->
  handling s = StaleMessage /\ i = Binder 0 /\ a = Read current_min /\ j = Monitor /\ b = Write current_min.
Proof.
  intros Hr Hone Hrace Hw. destruct (race_with_writer _ _ _ _ _ Hr Hrace Hw) as [Ef H].
  pose proof Hrace as [Hne Ha Hb _].
  assert (i = Binder 0) as -> by (apply (single_binder_id s i a Hone Ha); destruct (access_field a); naive_solver).
  destruct j as [| |m].
  - destruct a as [f|f], b as [g|g]; cbn in *; try done; subst g; destruct f; try naive_solver.
    split; [by eapply monitor_writes_stale|done].
  - by destruct (binder_beside_destroyer s 0 a b Hr).
  - by destruct Hne; rewrite (single_binder_id s (Binder m) b Hone Hb eq_refl).
Qed.

(** ** Properties *)

(** C14: However many binder threads call a session, the manager's tables are never in a
    race, current_min is in a race only between a write and the unlocked read of a
    report, and the controller's fields only between two binder calls. *)
Theorem session_data_races s i j a b :
  treachable s -> race s i j a b ->
  match access_field a with
  | mSessions | mTidRefCountMap => False
  | current_min =>
      (is_binder i = true /\ a = Read current_min /\ b = Write current_min) \/
      (is_binder j = true /\ a = Write current_min /\ b = Read current_min)
  | _ => is_binder i = true /\ is_binder j = true
  end.
Proof.
  intros Hr Hrace. destruct (race_has_writer _ _ _ _ _ Hrace) as [Hw|Hw].
  - destruct (race_with_writer _ _ _ _ _ Hr Hrace Hw) as [Ef H]. destruct a as [f|f], b as [g|g]; cbn in *; try done; subst g;
      destruct f; naive_solver.
  - destruct (race_with_writer _ _ _ _ _ Hr (race_sym _ _ _ _ _ Hrace) Hw) as [Ef H].
    destruct a as [f|f], b as [g|g]; cbn in *; try done; subst g; destruct f; naive_solver.
Qed.

(** C15: With the one binder thread the service has (its main sets the maximum of the
    thread pool to 0 and joins the pool), a session has a single data race: a report
    compares current_min without mLock, and the stale handler, which runs on the
    monitor's thread, writes it. *)
Theorem single_binder_data_races s i j a b :
  treachable s -> (forall n, n <> 0%nat -> thread s (Binder n) = Ret) -> race s i j a b ->
  handling s = StaleMessage /\
  ((i = Binder 0 /\ a = Read current_min /\ j = Monitor /\ b = Write current_min) \/
   (j = Binder 0 /\ b = Read current_min /\ i = Monitor /\ a = Write current_min)).
Proof.
  intros Hr Hone Hrace. destruct (race_has_writer _ _ _ _ _ Hrace) as [Hw|Hw].
  - destruct (single_binder_writer _ _ _ _ _ Hr Hone Hrace Hw); auto.
  - destruct (single_binder_writer _ _ _ _ _ Hr Hone (race_sym _ _ _ _ _ Hrace) Hw); auto.
Qed.

(** *** The race *)

(** A report re-arms the stale timer and is preempted before it reads current_min; the
    stale time passes, the monitor takes the message and its handler resets the
    clamp. *)
Definition race_armed : option tstate :=
  run_n 9 (Binder 0) (set_thread (Binder 0) (op_prog (OpReport true true false true false)) tinit).

Definition race_on_current_min : option tstate :=
  s ← race_armed;
  run_n 3 Monitor
    (set_thread Monitor (handleStale_p true)
       (set_control (destroying s) StaleMessage (set_queues 0 (manager_queued s) s))).

Definition racing_state : tstate := default tinit race_on_current_min.

Lemma race_armed_reachable s : race_armed = Some s -> treachable s.
Proof.
  apply run_n_reachable. eapply tr_step; [apply tr_init|]. by apply ts_call.
Qed.

Lemma race_armed_due s : race_armed = Some s -> thread s Monitor = Ret /\ stale_queued s = 1%nat.
Proof. intros E. vm_compute in E. injection E as <-. split; reflexivity. Qed.

Lemma race_on_current_min_reachable s : race_on_current_min = Some s -> treachable s.
Proof.
  unfold race_on_current_min. destruct race_armed as [s1|] eqn:E; [|done]. cbn [mbind option_bind].
  destruct (race_armed_due s1 E) as [Hm Hq]. pose proof (race_armed_reachable s1 E) as Hr. apply run_n_reachable.
  eapply tr_step; [exact Hr|]. by apply ts_poll_stale.
Qed.

Lemma racing_state_reachable : treachable racing_state.
Proof.
  unfold racing_state. destruct race_on_current_min as [s|] eqn:E; [|apply tr_init].
  by apply race_on_current_min_reachable.
Qed.

Lemma racing_state_races : race racing_state (Binder 0) Monitor (Read current_min) (Write current_min).
Proof. split; [done|apply list_elem_of_In; vm_compute; auto..|reflexivity]. Qed.

(** *** Witnesses *)

Lemma session_data_races_witness :
  race racing_state (Binder 0) Monitor (Read current_min) (Write current_min) /\ Write current_min = Write current_min.
Proof.
  split; [exact racing_state_races|].
  destruct (session_data_races racing_state (Binder 0) Monitor (Read current_min) (Write current_min)
    racing_state_reachable racing_state_races) as [(_ & _ & H)|(_ & H & _)]; [exact H|discriminate H].
Defined.

(** The one binder thread is inside a report, the monitor inside the stale handler. *)
Lemma single_binder_data_races_witness : handling racing_state = StaleMessage.
Proof.
  apply (single_binder_data_races racing_state (Binder 0) Monitor (Read current_min) (Write current_min)
    racing_state_reachable); [|exact racing_state_races].
  intros [|n] Hn; [by destruct Hn|]. vm_compute. reflexivity.
Defined.
