(* ===== verification/PowerHal.v ===== *)
(** Model of the binder services [Power] and [PowerExt]
    (src/aidl/power-libperfmgr/Power.{h,cpp}, PowerExt.{h,cpp}): modes, boosts and
    the creation of hint sessions, on top of the interaction handler, the session
    manager and the hint manager.

    [Power], its [InteractionHandler], [PowerExt] and [PowerSessionManager] share
    one [HintManager]; the handler's field is that object.  The enumerations and
    their [toString] are generated from the AIDL interface: the constructors the
    switches name are constructors here, every other value is [ModeOther] or
    [BoostOther], and [toString] is a parameter. *)
From S2P Require Import Prelude HintManager Interaction Session Looper SessionManager.

(** ** Data *)

Inductive Mode :=
  | DOUBLE_TAP_TO_WAKE | LOW_POWER | SUSTAINED_PERFORMANCE | FIXED_PERFORMANCE | VR | LAUNCH
  | EXPENSIVE_RENDERING | INTERACTIVE | DEVICE_IDLE | DISPLAY_INACTIVE
  | AUDIO_STREAMING_LOW_LATENCY | CAMERA_STREAMING_SECURE | CAMERA_STREAMING_LOW
  | CAMERA_STREAMING_MID | CAMERA_STREAMING_HIGH | ModeOther (value : Z).

Inductive Boost :=
  | INTERACTION | DISPLAY_UPDATE_IMMINENT | ML_ACC | AUDIO_LAUNCH | CAMERA_LAUNCH | CAMERA_SHOT
  | BoostOther (value : Z).

Record Power (HM : Type) := {
  mInteractionHandler : InteractionHandler HM;
  mVRModeOn : bool;
  mSustainedPerfModeOn : bool;
  mAdpfRateNs : Z
}.
Arguments mInteractionHandler {HM} _.
Arguments mVRModeOn {HM} _.
Arguments mSustainedPerfModeOn {HM} _.
Arguments mAdpfRateNs {HM} _.
Arguments Build_Power {HM} _ _ _ _.

Definition kPowerHalAdpfRateDefault : Z := -1.

Section power.
Context `{HintManager HM} (cfg : ih_config).
Context (mode_toString : Mode -> string) (boost_toString : Boost -> string).

Definition hints (p : Power HM) : HM := mHintManager (mInteractionHandler p).

Definition on_hints (f : HM -> HM) (p : Power HM) : Power HM :=
  Build_Power (set_hm (f (hints p)) (mInteractionHandler p)) (mVRModeOn p)
    (mSustainedPerfModeOn p) (mAdpfRateNs p).

Definition set_VRModeOn (b : bool) (p : Power HM) : Power HM :=
  Build_Power (mInteractionHandler p) b (mSustainedPerfModeOn p) (mAdpfRateNs p).

Definition set_SustainedPerfModeOn (b : bool) (p : Power HM) : Power HM :=
  Build_Power (mInteractionHandler p) (mVRModeOn p) b (mAdpfRateNs p).

Definition set_handler (h : InteractionHandler HM) (p : Power HM) : Power HM :=
  Build_Power h (mVRModeOn p) (mSustainedPerfModeOn p) (mAdpfRateNs p).

(** ** Power *)

(** The constructor; [open], [eventfd_ret] and the junk are what
    [InteractionHandler] needs. *)
Definition Power_new (env : property_source) (open : string -> Z) (eventfd_ret junk1 junk2 : Z)
    (junk_time : timespec) (hm : HM) : Power HM :=
  let h := snd (Init open eventfd_ret (InteractionHandler_new hm junk1 junk2 junk_time)) in
  let p := Build_Power h false false
             (GetIntProperty env "vendor.powerhal.adpf.rate" kPowerHalAdpfRateDefault) in
  let state := GetProperty env "vendor.powerhal.state" "" in
  let p :=
    if (state =? "SUSTAINED_PERFORMANCE")%string then
      set_SustainedPerfModeOn true (on_hints (DoHint "SUSTAINED_PERFORMANCE") p)
    else if (state =? "VR")%string then set_VRModeOn true (on_hints (DoHint state) p)
    else if (state =? "VR_SUSTAINED_PERFORMANCE")%string then
      set_VRModeOn true (set_SustainedPerfModeOn true
        (on_hints (DoHint "VR_SUSTAINED_PERFORMANCE") p))
    else p in
  let state := GetProperty env "vendor.powerhal.audio" "" in
  let p := if (state =? "AUDIO_STREAMING_LOW_LATENCY")%string then on_hints (DoHint state) p else p in
  let state := GetProperty env "vendor.powerhal.rendering" "" in
  if (state =? "EXPENSIVE_RENDERING")%string then on_hints (DoHint "EXPENSIVE_RENDERING") p else p.

(** The branch shared by LOW_POWER and the default case. *)
Definition set_plain_mode (type : Mode) (enabled : bool) (p : Power HM) : Power HM :=
  if enabled then on_hints (DoHint (mode_toString type)) p
  else on_hints (EndHint (mode_toString type)) p.

Definition set_sustained (enabled : bool) (p : Power HM) : Power HM :=
  if enabled && negb (mSustainedPerfModeOn p) then
    let p := if negb (mVRModeOn p) then on_hints (DoHint "SUSTAINED_PERFORMANCE") p
             else on_hints (DoHint "VR_SUSTAINED_PERFORMANCE") (on_hints (EndHint "VR") p) in
    set_SustainedPerfModeOn true p
  else if negb enabled && mSustainedPerfModeOn p then
    let p := on_hints (EndHint "VR_SUSTAINED_PERFORMANCE") p in
    let p := on_hints (EndHint "SUSTAINED_PERFORMANCE") p in
    let p := if mVRModeOn p then on_hints (DoHint "VR") p else p in
    set_SustainedPerfModeOn false p
  else p.

Definition set_vr (enabled : bool) (p : Power HM) : Power HM :=
  if enabled && negb (mVRModeOn p) then
    let p := if negb (mSustainedPerfModeOn p) then on_hints (DoHint "VR") p
             else on_hints (DoHint "VR_SUSTAINED_PERFORMANCE")
                    (on_hints (EndHint "SUSTAINED_PERFORMANCE") p) in
    set_VRModeOn true p
  else if negb enabled && mVRModeOn p then
    let p := on_hints (EndHint "VR_SUSTAINED_PERFORMANCE") p in
    let p := on_hints (EndHint "VR") p in
    let p := if mSustainedPerfModeOn p then on_hints (DoHint "SUSTAINED_PERFORMANCE") p else p in
    set_VRModeOn false p
  else p.

Definition Power_setMode (type : Mode) (enabled : bool) (p : Power HM) (m : PowerSessionManager) :
    ScopedAStatus * Power HM * PowerSessionManager :=
  let m := updateHintMode (mode_toString type) enabled m in
  let p :=
    match type with
    | SUSTAINED_PERFORMANCE => set_sustained enabled p
    | VR => set_vr enabled p
    | LAUNCH =>
        if mVRModeOn p || mSustainedPerfModeOn p then p else set_plain_mode type enabled p
    | _ => set_plain_mode type enabled p
    end in
  (status_ok, p, m).

Definition Power_isModeSupported (type : Mode) (p : Power HM) : ScopedAStatus * bool :=
  let supported := IsHintSupported (hints p) (mode_toString type) in
  (status_ok,
   match type with
   | LOW_POWER | DOUBLE_TAP_TO_WAKE | INTERACTIVE => true
   | _ => supported
   end).

Definition Power_setBoost (type : Boost) (durationMs : Z) (now : timespec) (p : Power HM) :
    ScopedAStatus * Power HM :=
  let p :=
    match type with
    | INTERACTION =>
        if mVRModeOn p || mSustainedPerfModeOn p then p
        else set_handler (Acquire cfg durationMs now (mInteractionHandler p)) p
    | _ =>
        if mVRModeOn p || mSustainedPerfModeOn p then p
        else if 0 <? durationMs then on_hints (DoHintFor (boost_toString type) durationMs) p
        else if durationMs =? 0 then on_hints (DoHint (boost_toString type)) p
        else on_hints (EndHint (boost_toString type)) p
    end in
  (status_ok, p).

Definition Power_isBoostSupported (type : Boost) (p : Power HM) : ScopedAStatus * bool :=
  (status_ok, IsHintSupported (hints p) (boost_toString type)).

Definition boolToString (b : bool) : string := if b then "true" else "false".

Definition LF : string := String (Ascii.ascii_of_nat 10) "".

(** The text [dump] writes after the nodes of the hint manager. *)
Definition Power_dump (p : Power HM) : string :=
  ("HintManager Running: " ++ boolToString (IsRunning (hints p)) ++ LF ++
   "VRMode: " ++ boolToString (mVRModeOn p) ++ LF ++
   "SustainedPerformanceMode: " ++ boolToString (mSustainedPerfModeOn p) ++ LF)%string.

(** The new session is the object [w_next w]. *)
Definition createHintSession {HM' L : Type} `{HintManager HM'} `{Looper L} (t : tunables)
    (oks : nat -> bool) (now tgid uid : Z) (threadIds : list Z) (durationNanos : Z) (p : Power HM)
    (w : world HM' L) : ScopedAStatus * option Z * wresult :=
  if mAdpfRateNs p <=? 0 then (fromExceptionCode EX_UNSUPPORTED_OPERATION, None, WOk w)
  else if bool_decide (threadIds = []) then (fromExceptionCode EX_ILLEGAL_ARGUMENT, None, WOk w)
  else (status_ok, Some (w_next w),
        wstep t (WCreate oks now tgid uid threadIds durationNanos (mAdpfRateNs p)) w).

Definition getHintSessionPreferredRate (p : Power HM) : ScopedAStatus * Z :=
  (if mAdpfRateNs p <=? 0 then fromExceptionCode EX_UNSUPPORTED_OPERATION else status_ok,
   mAdpfRateNs p).

(** ** PowerExt *)

Definition PowerExt_setMode (mode : string) (enabled : bool) (p : Power HM)
    (m : PowerSessionManager) : ScopedAStatus * Power HM * PowerSessionManager :=
  let p := if enabled then on_hints (DoHint mode) p else on_hints (EndHint mode) p in
  (status_ok, p, updateHintMode mode enabled m).

Definition PowerExt_isModeSupported (mode : string) (p : Power HM) : ScopedAStatus * bool :=
  (status_ok, IsHintSupported (hints p) mode).

Definition PowerExt_setBoost (boost : string) (durationMs : Z) (p : Power HM) :
    ScopedAStatus * Power HM :=
  (status_ok,
   if 0 <? durationMs then on_hints (DoHintFor boost durationMs) p
   else if durationMs =? 0 then on_hints (DoHint boost) p
   else on_hints (EndHint boost) p).

Definition PowerExt_isBoostSupported (boost : string) (p : Power HM) : ScopedAStatus * bool :=
  (status_ok, IsHintSupported (hints p) boost).

(** ** Specification *)

(** The calls that reach the shared hint manager, and the steps of the handler's
    own thread. *)
Inductive power_call :=
  | PSetMode (type : Mode) (enabled : bool)
  | PSetBoost (type : Boost) (durationMs : Z) (now : timespec)
  | PExtSetMode (mode : string) (enabled : bool)
  | PExtSetBoost (boost : string) (durationMs : Z)
  | PRoutine (a : idle_answers).

Definition power_exec (pm : Power HM * PowerSessionManager) (c : power_call) :
    Power HM * PowerSessionManager :=
  let '(p, m) := pm in
  match c with
  | PSetMode type enabled => let '(_, p, m) := Power_setMode type enabled p m in (p, m)
  | PSetBoost type d now => (snd (Power_setBoost type d now p), m)
  | PExtSetMode mode enabled => let '(_, p, m) := PowerExt_setMode mode enabled p m in (p, m)
  | PExtSetBoost boost d => (snd (PowerExt_setBoost boost d p), m)
  | PRoutine a =>
      match Routine_step a (mInteractionHandler p) with
      | Some h => (set_handler h p, m)
      | None => (p, m)
      end
  end.

Definition power_run (cs : list power_call) (pm : Power HM * PowerSessionManager) :
    Power HM * PowerSessionManager := foldl power_exec pm cs.

(** The three hints that encode the two flags. *)
Definition performance_hint (h : string) : bool :=
  bool_decide (h ∈ ["SUSTAINED_PERFORMANCE"; "VR"; "VR_SUSTAINED_PERFORMANCE"]).

(** The extension is not used to drive those three. *)
Definition ext_ok (c : power_call) : Prop :=
  match c with
  | PExtSetMode h _ | PExtSetBoost h _ => performance_hint h = false
  | _ => True
  end.

(** The hint the two flags stand for. *)
Definition mode_hints_ok (p : Power HM) : Prop :=
  requested (hints p) "SUSTAINED_PERFORMANCE" = mSustainedPerfModeOn p && negb (mVRModeOn p) /\
  requested (hints p) "VR" = mVRModeOn p && negb (mSustainedPerfModeOn p) /\
  requested (hints p) "VR_SUSTAINED_PERFORMANCE" = mVRModeOn p && mSustainedPerfModeOn p.

(** What a sequence of [setMode] calls asks for. *)
Definition wanted_step (vs : bool * bool) (c : power_call) : bool * bool :=
  match c with
  | PSetMode VR enabled => (enabled, snd vs)
  | PSetMode SUSTAINED_PERFORMANCE enabled => (fst vs, enabled)
  | _ => vs
  end.

End power.

(** ** Lemmas *)

Section lemmas.
Context `{HintManagerLaws HM} (cfg : ih_config).
Context (mode_toString : Mode -> string) (boost_toString : Boost -> string).

(** The three observations, which calls on other hints do not change. *)
Definition perf_view (m : HM) : bool * bool * bool :=
  (requested m "SUSTAINED_PERFORMANCE", requested m "VR", requested m "VR_SUSTAINED_PERFORMANCE").

Lemma not_performance h : performance_hint h = false ->
  h <> "SUSTAINED_PERFORMANCE" /\ h <> "VR" /\ h <> "VR_SUSTAINED_PERFORMANCE".
Proof. unfold performance_hint. intros Hp. case_bool_decide as Hn; [done|]. set_solver. Qed.

Lemma view_DoHint h m : performance_hint h = false -> perf_view (DoHint h m) = perf_view m.
Proof.
  intros (? & ? & ?)%not_performance. unfold perf_view. hm_simpl.
  by rewrite !bool_decide_false.
Qed.

Lemma view_DoHintFor h d m : performance_hint h = false -> perf_view (DoHintFor h d m) = perf_view m.
Proof.
  intros (? & ? & ?)%not_performance. unfold perf_view. hm_simpl.
  by rewrite !bool_decide_false.
Qed.

Lemma view_EndHint h m : performance_hint h = false -> perf_view (EndHint h m) = perf_view m.
Proof.
  intros (? & ? & ?)%not_performance. unfold perf_view. hm_simpl.
  by rewrite !bool_decide_false.
Qed.

(** One call on another hint, or none. *)
Ltac view_hint :=
  first [done | by apply view_DoHint | by apply view_DoHintFor | by apply view_EndHint].

(** Flags and observations together: what the invariant depends on. *)
Definition power_view (p : Power HM) : bool * bool * (bool * bool * bool) :=
  (mVRModeOn p, mSustainedPerfModeOn p, perf_view (hints p)).

Lemma mode_hints_ok_view p p' :
  power_view p' = power_view p -> mode_hints_ok p -> mode_hints_ok p'.
Proof.
  intros Hv. injection Hv as Hv Hs H1 H2 H3. unfold mode_hints_ok. by rewrite H1, H2, H3, Hv, Hs.
Qed.

Lemma view_on_hints f p :
  perf_view (f (hints p)) = perf_view (hints p) -> power_view (on_hints f p) = power_view p.
Proof. intros Hv. unfold power_view. change (hints (on_hints f p)) with (f (hints p)). by rewrite Hv. Qed.

Lemma view_Acquire d now h :
  perf_view (mHintManager (Acquire cfg d now h)) = perf_view (mHintManager h).
Proof.
  unfold Acquire, AbortWaitLocked, PerfLock. repeat case_match; simpl; view_hint.
Qed.

Lemma view_Routine a (h h' : InteractionHandler HM) :
  Routine_step a h = Some h' -> perf_view (mHintManager h') = perf_view (mHintManager h).
Proof.
  unfold Routine_step, Release, PerfRel. intros. repeat case_match; simplify_eq/=; view_hint.
Qed.

(** [toString] of the other modes and of the boosts is none of the three names. *)
Context (Hmode : forall m, m <> VR -> m <> SUSTAINED_PERFORMANCE ->
  performance_hint (mode_toString m) = false).
Context (Hboost : forall b, performance_hint (boost_toString b) = false).

Lemma view_plain m enabled p :
  m <> VR -> m <> SUSTAINED_PERFORMANCE ->
  power_view (set_plain_mode mode_toString m enabled p) = power_view p.
Proof.
  intros H1 H2. unfold set_plain_mode. pose proof (Hmode m H1 H2).
  destruct enabled; apply view_on_hints; view_hint.
Qed.

(** The switch of the two performance modes keeps the encoding and sets its flag. *)
Lemma set_sustained_ok enabled p :
  mode_hints_ok p -> mode_hints_ok (set_sustained enabled p) /\
  mSustainedPerfModeOn (set_sustained enabled p) = enabled /\
  mVRModeOn (set_sustained enabled p) = mVRModeOn p.
Proof.
  unfold mode_hints_ok, set_sustained, on_hints, hints. intros (H1 & H2 & H3).
  destruct enabled, (mSustainedPerfModeOn p) eqn:Hs, (mVRModeOn p) eqn:Hv; simpl;
    rewrite ?Hs, ?Hv; simpl; hm_simpl; rewrite ?H1, ?H2, ?H3, ?Hv; done.
Qed.

Lemma set_vr_ok enabled p :
  mode_hints_ok p -> mode_hints_ok (set_vr enabled p) /\
  mVRModeOn (set_vr enabled p) = enabled /\
  mSustainedPerfModeOn (set_vr enabled p) = mSustainedPerfModeOn p.
Proof.
  unfold mode_hints_ok, set_vr, on_hints, hints. intros (H1 & H2 & H3).
  destruct enabled, (mSustainedPerfModeOn p) eqn:Hs, (mVRModeOn p) eqn:Hv; simpl;
    rewrite ?Hs, ?Hv; simpl; hm_simpl; rewrite ?H1, ?H2, ?H3, ?Hs; done.
Qed.

(** A call either leaves flags and observations alone or sets one flag. *)
Lemma power_exec_view c pm :
  ext_ok c ->
  power_view (fst (power_exec cfg mode_toString boost_toString pm c)) = power_view (fst pm) \/
  (exists enabled, c = PSetMode VR enabled /\
     fst (power_exec cfg mode_toString boost_toString pm c) = set_vr enabled (fst pm)) \/
  (exists enabled, c = PSetMode SUSTAINED_PERFORMANCE enabled /\
     fst (power_exec cfg mode_toString boost_toString pm c) = set_sustained enabled (fst pm)).
Proof.
  intros He. destruct pm as [p m], c as [type enabled|type d now|mode enabled|boost d|a]; simpl in *.
  - destruct type; eauto; left; simpl; try case_match; try done; by apply view_plain.
  - left. destruct type; simpl; (case_match; [done|]);
      try (unfold power_view; simpl; unfold hints; simpl; by rewrite view_Acquire);
      repeat case_match; apply view_on_hints; view_hint.
  - left. destruct enabled; apply view_on_hints; view_hint.
  - left. repeat case_match; apply view_on_hints; view_hint.
  - left. destruct (Routine_step a (mInteractionHandler p)) eqn:Hr; [|done].
    unfold power_view, hints. simpl. by rewrite (view_Routine _ _ _ Hr).
Qed.

(** One call: the encoding is kept and the flags follow the request. *)
Lemma power_exec_ok c pm :
  ext_ok c -> mode_hints_ok (fst pm) ->
  let p' := fst (power_exec cfg mode_toString boost_toString pm c) in
  mode_hints_ok p' /\
  (mVRModeOn p', mSustainedPerfModeOn p') =
    wanted_step (mVRModeOn (fst pm), mSustainedPerfModeOn (fst pm)) c.
Proof.
  intros He Hok. cbv zeta.
  destruct (power_exec_view c pm He) as [Hv|[(en & -> & ->)|(en & -> & ->)]].
  - split; [by eapply mode_hints_ok_view|]. injection Hv as Hv1 Hv2 _ _ _. rewrite Hv1, Hv2.
    destruct c as [[]| | | |]; try done; destruct pm as [p m]; simpl in *;
      rewrite <- ?Hv1, <- ?Hv2; [pose proof (set_sustained_ok enabled p Hok)
      |pose proof (set_vr_ok enabled p Hok)]; naive_solver congruence.
  - destruct (set_vr_ok en (fst pm) Hok) as (? & -> & ->). done.
  - destruct (set_sustained_ok en (fst pm) Hok) as (? & -> & ->). done.
Qed.

End lemmas.

(** ** Properties *)

(** The mode the service starts in. *)
Definition initial_modes (env : property_source) : bool * bool :=
  let state := GetProperty env "vendor.powerhal.state" "" in
  (bool_decide (state = "VR" \/ state = "VR_SUSTAINED_PERFORMANCE"),
   bool_decide (state = "SUSTAINED_PERFORMANCE" \/ state = "VR_SUSTAINED_PERFORMANCE")).

Section properties.
Context `{HintManagerLaws HM} (cfg : ih_config).
Context (mode_toString : Mode -> string) (boost_toString : Boost -> string).

Lemma view_Init open ev (h : InteractionHandler HM) : mHintManager (snd (Init open ev h)) = mHintManager h.
Proof. unfold Init. by repeat case_match. Qed.

(** The last two properties of the constructor request other hints. *)
Lemma view_request (b : bool) h p :
  performance_hint h = false -> power_view (if b then on_hints (DoHint h) p else p) = power_view p.
Proof. intros Hh. destruct b; [|done]. apply view_on_hints. by apply view_DoHint. Qed.

Lemma Power_new_ok env open ev j1 j2 jt hm :
  (forall h, requested hm h = false) ->
  let p := Power_new env open ev j1 j2 jt hm in
  mode_hints_ok p /\ (mVRModeOn p, mSustainedPerfModeOn p) = initial_modes env.
Proof.
  intros Hh. cbv zeta. unfold Power_new. cbv zeta.
  set (h := snd (Init _ _ _)).
  assert (mHintManager h = hm) as Hhm by apply view_Init.
  match goal with |- context [if (?a =? "AUDIO_STREAMING_LOW_LATENCY")%string then _ else ?q] =>
    set (p1 := q) end.
  assert (mode_hints_ok p1 /\ (mVRModeOn p1, mSustainedPerfModeOn p1) = initial_modes env)
    as [Hok Hi].
  { subst p1. unfold initial_modes.
    destruct (String.eqb_spec (GetProperty env "vendor.powerhal.state" "") "SUSTAINED_PERFORMANCE")
      as [->|]; [|destruct (String.eqb_spec (GetProperty env "vendor.powerhal.state" "") "VR")
      as [->|]; [|destruct (String.eqb_spec (GetProperty env "vendor.powerhal.state" "")
      "VR_SUSTAINED_PERFORMANCE") as [->|]]]; unfold mode_hints_ok, on_hints, hints; simpl;
      rewrite Hhm; hm_simpl; rewrite ?Hh; repeat case_bool_decide; naive_solver. }
  match goal with |- context [mode_hints_ok ?p] =>
    assert (power_view p = power_view p1) as Hv end.
  { destruct (String.eqb_spec (GetProperty env "vendor.powerhal.audio" "")
      "AUDIO_STREAMING_LOW_LATENCY") as [->|];
      (rewrite view_request by done); [|done]. by apply (view_request true). }
  split; [by eapply mode_hints_ok_view|]. injection Hv as Hv1 Hv2 _ _ _. by rewrite Hv1, Hv2.
Qed.

Lemma power_run_modes m cs p :
  (forall md, md <> VR -> md <> SUSTAINED_PERFORMANCE -> performance_hint (mode_toString md) = false) ->
  (forall b, performance_hint (boost_toString b) = false) ->
  Forall ext_ok cs -> mode_hints_ok p ->
  let p' := fst (power_run cfg mode_toString boost_toString cs (p, m)) in
  mode_hints_ok p' /\
  (mVRModeOn p', mSustainedPerfModeOn p') = foldl wanted_step (mVRModeOn p, mSustainedPerfModeOn p) cs.
Proof.
  intros Hm Hb. revert m p. induction cs as [|c cs IH]; intros m p He Hok; [done|].
  apply Forall_cons in He as [He1 He]. cbv zeta in *. unfold power_run in *. cbn [foldl].
  destruct (power_exec_ok cfg mode_toString boost_toString Hm Hb c (p, m) He1 Hok) as [Hok1 Hf].
  destruct (power_exec _ _ _ _ _) as [p1 m1]. cbn [fst] in *. rewrite <- Hf. by apply IH.
Qed.

(** C16: after any sequence of setMode and setBoost calls (and of extension calls
    on other hints), interleaved with the idle thread, the two flags are what the
    start-up property and the last setMode calls asked for, and of the three hints
    SUSTAINED_PERFORMANCE, VR and VR_SUSTAINED_PERFORMANCE exactly the one that
    stands for the flags is requested. *)
Theorem performance_mode_hints env open ev j1 j2 jt hm m cs :
  (forall md, md <> VR -> md <> SUSTAINED_PERFORMANCE -> performance_hint (mode_toString md) = false) ->
  (forall b, performance_hint (boost_toString b) = false) ->
  (forall h, requested hm h = false) -> Forall ext_ok cs ->
  let p := fst (power_run cfg mode_toString boost_toString cs
                  (Power_new env open ev j1 j2 jt hm, m)) in
  mode_hints_ok p /\
  (mVRModeOn p, mSustainedPerfModeOn p) = foldl wanted_step (initial_modes env) cs.
Proof.
  intros Hm Hb Hh He. destruct (Power_new_ok env open ev j1 j2 jt hm Hh) as [Hok <-].
  by apply power_run_modes.
Qed.

(** while VR or sustained performance is on, [setBoost] and the LAUNCH mode
    do nothing at all. *)
Lemma performance_mode_ignores_boosts p m type d now enabled :
  mVRModeOn p || mSustainedPerfModeOn p = true ->
  Power_setBoost cfg boost_toString type d now p = (status_ok, p) /\
  fst (Power_setMode mode_toString LAUNCH enabled p m) = (status_ok, p).
Proof.
  intros Hp. unfold Power_setBoost, Power_setMode. rewrite Hp. by destruct type.
Qed.

(** What [WCreate] leaves in the world. *)
Lemma wstep_create_spec `{LooperLaws L} t oks now tg u tids dur rate (w w' : world HM L) :
  wstep t (WCreate oks now tg u tids dur rate) w = WOk w' ->
  exists s, w_store w' !! w_next w = Some s /\ kAdpfRate s = rate /\ threadIds (mDescriptor s) = tids /\
    is_active (mDescriptor s) = true /\ mSessionClosed s = false /\
    w_next w ∈ mSessions (w_mgr w').
Proof.
  unfold wstep, PowerHintSession_new, setUclamp. cbv zeta.
  destruct (addPowerSession _ _ _ _ _) as [pp|] eqn:Hadd; [|done].
  cbn [threadIds mDescriptor]. intros Hw.
  match type of Hw with WOk ?x = _ => assert (w' = x) as -> by congruence end. clear Hw.
  match goal with |- context [apply_effects ?o ?n ?i ?ts (_ :: ?e) ?w0] =>
    change (apply_effects o n i ts (EffAddPowerSession :: e) w0) with
      (apply_effects o n i ts e (apply_effect o n i ts w0 EffAddPowerSession));
    pose proof (apply_effects_quiet o n i ts e (apply_effect o n i ts w0 EffAddPowerSession)
      (proj1 (sched_quiet t _ _ _))) as (Hs & _ & _ & [Hg _] & _) end.
  eexists. rewrite Hs. split; [apply lookup_insert_eq|]. repeat (split; [done|]).
  apply (f_equal fst) in Hg. cbn [fst registration] in Hg. rewrite Hg.
  cbn [apply_effect set_mgr w_mgr w_profiles]. rewrite Hadd. cbn [default from_option].
  change (w_next w ∈ mSessions (fst pp)). rewrite (add_sessions _ _ _ _ _ _ Hadd). set_solver.
Qed.

(** a session is created exactly when the ADPF rate is positive, which is
    when [getHintSessionPreferredRate] succeeds, and the thread list is not empty;
    the session then runs at that rate and is open, active and registered. *)
Lemma createHintSession_result `{LooperLaws L} t oks now tg u tids dur (p : Power HM) (w : world HM L) :
  let '(st, sid, r) := createHintSession t oks now tg u tids dur p w in
  (st = status_ok <-> fst (getHintSessionPreferredRate p) = status_ok /\ tids <> []) /\
  (st <> status_ok -> sid = None /\ r = WOk w) /\
  (st = status_ok -> sid = Some (w_next w) /\ forall w', r = WOk w' -> exists s,
     w_store w' !! w_next w = Some s /\ kAdpfRate s = mAdpfRateNs p /\
     threadIds (mDescriptor s) = tids /\ is_active (mDescriptor s) = true /\
     mSessionClosed s = false /\ w_next w ∈ mSessions (w_mgr w')).
Proof.
  unfold createHintSession, getHintSessionPreferredRate. cbn [fst].
  destruct (mAdpfRateNs p <=? 0); [naive_solver|].
  case_bool_decide as Ht; [naive_solver|].
  split; [done|]. split; [done|]. intros _. split; [done|]. intros w' Hw.
  by apply (wstep_create_spec _ _ _ _ _ _ _ _ _ _ Hw).
Qed.

End properties.

(** *** Witnesses *)

(** Names as the AIDL compiler prints them, for the modes the examples use. *)
Definition demo_mode_name (m : Mode) : string :=
  match m with
  | VR => "VR" | SUSTAINED_PERFORMANCE => "SUSTAINED_PERFORMANCE" | LAUNCH => "LAUNCH"
  | LOW_POWER => "LOW_POWER" | _ => "OTHER"
  end.

Definition demo_boost_name (b : Boost) : string :=
  match b with INTERACTION => "INTERACTION" | _ => "OTHER" end.

Definition demo_power : Power hint_log :=
  Power_new unset_properties (fun _ => 7) 8 0 0 (Timespec 0 0) (HintLog [] true []).

Definition demo_calls : list power_call :=
  [PSetMode VR true; PSetBoost INTERACTION 100 (Timespec 1 0); PSetMode SUSTAINED_PERFORMANCE true;
   PSetMode VR false].

Lemma performance_mode_hints_witness :
  let p := fst (power_run ih_default demo_mode_name demo_boost_name demo_calls
                  (demo_power, PowerSessionManager_new unset_properties)) in
  mode_hints_ok p /\ (mVRModeOn p, mSustainedPerfModeOn p) = (false, true).
Proof.
  refine (performance_mode_hints ih_default demo_mode_name demo_boost_name unset_properties
    (fun _ => 7) 8 0 0 (Timespec 0 0) (HintLog [] true []) (PowerSessionManager_new unset_properties)
    demo_calls _ _ (fun _ => eq_refl) _).
  - intros []; done.
  - intros []; done.
  - repeat constructor.
Defined.

Lemma performance_mode_ignores_boosts_witness :
  let p := set_vr true demo_power in
  Power_setBoost ih_default demo_boost_name INTERACTION 100 (Timespec 1 0) p = (status_ok, p) /\
  fst (Power_setMode demo_mode_name LAUNCH true p (PowerSessionManager_new unset_properties)) =
    (status_ok, p).
Proof. apply (performance_mode_ignores_boosts ih_default); reflexivity. Defined.

Lemma createHintSession_result_witness :
  let '(st, sid, r) := createHintSession default_tunables all_succeed 0 100 1000 [101] 16666666
                         demo_power demo_start in
  (st = status_ok <-> fst (getHintSessionPreferredRate demo_power) = status_ok /\ [101] <> []) /\
  (st <> status_ok -> sid = None /\ r = WOk demo_start) /\
  (st = status_ok -> sid = Some (w_next demo_start) /\ forall w', r = WOk w' -> exists s,
     w_store w' !! w_next demo_start = Some s /\ kAdpfRate s = mAdpfRateNs demo_power /\
     threadIds (mDescriptor s) = [101] /\ is_active (mDescriptor s) = true /\
     mSessionClosed s = false /\ w_next demo_start ∈ mSessions (w_mgr w')).
Proof.
  exact (createHintSession_result default_tunables all_succeed 0 100 1000 [101] 16666666
    demo_power demo_start).
Defined.
