(* ===== verification/PowerService.v ===== *)
(** The power service as a whole (src/aidl/power-libperfmgr/service.cpp): its main,
    and Power with its interaction handler, PowerExt, the session manager and the
    sessions running against one shared hint manager.

    The hint manager is the call log, so that what one client asked for can be told
    from what the others did; [sv_power] and [sv_world] hold the same object.  What
    GetFromJSON reads from the configuration is the list of hints it supports; the
    statuses of the binder calls are arguments. *)
From S2P Require Import Prelude HintManager Interaction Session Looper SessionManager PowerHal.

(** ** The service *)

#[export] Instance Boost_eq_dec : EqDecision Boost.
Proof. solve_decision. Defined.

Record service (L : Type) := {
  sv_power : Power hint_log;
  sv_world : world hint_log L
}.
Arguments sv_power {L} _.
Arguments sv_world {L} _.
Arguments Build_service {L} _ _.

Definition kPowerHalInitProp : string := "vendor.powerhal.init".
Definition kConfigProperty : string := "vendor.powerhal.config".
Definition kConfigDefaultFileName : string := "powerhint.json".

(** The constants of InteractionHandler.cpp, as they are initialised. *)
Definition load_ih_config (env : property_source) : ih_config := {|
  kDisplayIdleSupport := GetBoolProperty env "vendor.powerhal.disp.idle_support" true;
  kWaitMs := GetUintProperty env "vendor.powerhal.disp.idle_wait" 100;
  kMinDurationMs := GetUintProperty env "vendor.powerhal.interaction.min" 1400;
  kMaxDurationMs := GetUintProperty env "vendor.powerhal.interaction.max" 5650;
  kDurationOffsetMs := GetUintProperty env "vendor.powerhal.interaction.offset" 650
|}.

Inductive main_result (L : Type) :=
  | MainAborted                    (* LOG(FATAL) or CHECK *)
  | MainServing (s : service L).
Arguments MainAborted {L}.
Arguments MainServing {L} s.

Section service.
Context `{Looper L} (cfg : ih_config) (t : tunables).
Context (mode_toString : Mode -> string) (boost_toString : Boost -> string).

(** What [InteractionHandler] needs is as for [Power_new]; [l]: the looper of the
    monitor. *)
Definition service_main (env : property_source) (GetFromJSON : string -> option (list string))
    (setExtension addService : Z) (open : string -> Z) (eventfd_ret junk1 junk2 : Z) (junk_time : timespec)
    (l : L) : main_result L :=
  let config_path := ("/vendor/etc/" ++ GetProperty env kConfigProperty kConfigDefaultFileName)%string in
  match GetFromJSON config_path with
  | None => MainAborted
  | Some supported =>
      let hm := HintLog supported false [] in
      let pw := Power_new env open eventfd_ret junk1 junk2 junk_time hm in
      if negb (setExtension =? 0) then MainAborted
      else if negb (addService =? 0) then MainAborted
      else
        let adpf := negb (GetIntProperty env "vendor.powerhal.adpf.rate" (-1) =? -1) in
        MainServing (Build_service pw
          (world_init (PowerSessionManager_new env) l (hints pw) adpf))
  end.

(** The hint manager is one object: after a step of one side the other side has it
    too. *)
Definition share_world (hm : hint_log) (m : PowerSessionManager) (w : world hint_log L) : world hint_log L :=
  Build_world (w_store w) (w_next w) m (w_looper w) (w_running w) hm (w_uclamp w) (w_profiles w).

Definition share_power (w : world hint_log L) (p : Power hint_log) : Power hint_log :=
  on_hints (fun _ => w_hints w) p.

(** A call of Power or PowerExt or a step of the handler's thread; a request for a
    session; a call on a session, its destruction, or a message of the monitor; the
    detached thread starting the hint manager. *)
Inductive service_label :=
  | SPower (c : power_call)
  | SCreate (oks : nat -> bool) (now tgid uid : Z) (threadIds : list Z) (durationNanos : Z)
  | SWorld (lbl : wlabel)
  | SStart.

(** A session is created by Power alone. *)
Definition world_label (lbl : wlabel) : bool :=
  match lbl with WCreate _ _ _ _ _ _ _ => false | _ => true end.

(** [None]: the label does not apply, or undefined behaviour in a session. *)
Definition service_step (lbl : service_label) (s : service L) : option (service L) :=
  let after (r : wresult) : option (service L) :=
    match r with
    | WOk w => Some (Build_service (share_power w (sv_power s)) w)
    | _ => None
    end in
  match lbl with
  | SPower c =>
      let '(p, m) := power_exec cfg mode_toString boost_toString (sv_power s, w_mgr (sv_world s)) c in
      Some (Build_service p (share_world (hints p) m (sv_world s)))
  | SCreate oks now tgid uid tids dur =>
      let '(_, _, r) := createHintSession t oks now tgid uid tids dur (sv_power s) (sv_world s) in after r
  | SWorld lbl => if world_label lbl then after (wstep t lbl (sv_world s)) else None
  | SStart =>
      let hm := hints (sv_power s) in
      let hm := HintLog (hl_supported hm) true (hl_calls hm) in
      Some (Build_service (on_hints (fun _ => hm) (sv_power s)) (share_world hm (w_mgr (sv_world s)) (sv_world s)))
  end.

Fixpoint service_run (lbls : list service_label) (s : service L) : option (service L) :=
  match lbls with
  | [] => Some s
  | lbl :: lbls => s ← service_step lbl s; service_run lbls s
  end.

End service.

(** ** Specification *)

Definition call_name (c : hint_call) : string :=
  match c with CallDoHint h | CallDoHintFor h _ | CallEndHint h => h end.

(** The hints the service manages itself: the three performance modes, the
    interaction boost, and the hint [k] that disables the top-app boost. *)
Definition unmanaged (k h : string) : Prop :=
  performance_hint h = false /\ h <> "INTERACTION" /\ h <> k.

(** The names of the clients do not clash. *)
Record names_ok (k : string) (mode_toString : Mode -> string) (boost_toString : Boost -> string) : Prop := {
  names_disable : performance_hint k = false /\
    k ∉ ["INTERACTION"; "AUDIO_STREAMING_LOW_LATENCY"; "EXPENSIVE_RENDERING"];
  names_mode m : m <> VR -> m <> SUSTAINED_PERFORMANCE -> unmanaged k (mode_toString m);
  names_boost b : performance_hint (boost_toString b) = false /\
    (b <> INTERACTION -> unmanaged k (boost_toString b))
}.

(** The extension keeps away from the hints the service manages itself. *)
Definition label_ok (k : string) (lbl : service_label) : Prop :=
  match lbl with
  | SPower (PExtSetMode h _) | SPower (PExtSetBoost h _) => unmanaged k h
  | _ => True
  end.

(** Every client finds its hints as it left them: the modes, the interaction boost
    (taken and released alternately), and the hint of the session manager. *)
Record service_ok {L} (k : string) (s : service L) : Prop := {
  sk_shared : hints (sv_power s) = w_hints (sv_world s);
  sk_modes : mode_hints_ok (sv_power s);
  sk_wf : ih_wf (mInteractionHandler (sv_power s));
  sk_interaction : perf_held (hl_calls (hints (sv_power s))) =
    Some (boosting (mState (mInteractionHandler (sv_power s))));
  sk_name : kDisableBoostHintName (w_mgr (sv_world s)) = k;
  sk_sessions : hint_ok (sv_world s)
}.

(** ** Lemmas *)

(** Calls added to the log, all with names in [P]. *)
Definition log_extends (P : string -> Prop) (m m' : hint_log) : Prop :=
  exists cs, hl_calls m' = cs ++ hl_calls m /\ Forall (fun c => P (call_name c)) cs.

Lemma log_extends_refl P m : log_extends P m m.
Proof. by exists []. Qed.

Lemma log_extends_trans P m1 m2 m3 : log_extends P m1 m2 -> log_extends P m2 m3 -> log_extends P m1 m3.
Proof.
  intros (c1 & E1 & H1) (c2 & E2 & H2). exists (c2 ++ c1). rewrite E2, E1, app_assoc. split; [done|].
  by apply Forall_app.
Qed.

Lemma log_extends_impl (P Q : string -> Prop) m m' :
  (forall h, P h -> Q h) -> log_extends P m m' -> log_extends Q m m'.
Proof. intros H (cs & E & Hc). exists cs. split; [done|]. eapply Forall_impl; [exact Hc|]. simpl. auto. Qed.

Lemma log_extends_push (P : string -> Prop) c m m' :
  P (call_name c) -> log_extends P m m' -> log_extends P m (hl_push c m').
Proof.
  intros Hc He. eapply log_extends_trans; [exact He|]. exists [c]. split; [done|]. by apply Forall_singleton.
Qed.

Lemma log_extends_requested h m m' : log_extends (fun x => x <> h) m m' -> requested m' h = requested m h.
Proof.
  intros (cs & E & Hc). cbn. rewrite E. clear E. induction Hc as [|c cs Hc _ IH]; [done|].
  destruct c; cbn in *; (rewrite decide_False by done); exact IH.
Qed.

Lemma log_extends_perf m m' : log_extends (fun x => x <> "INTERACTION") m m' ->
  perf_held (hl_calls m') = perf_held (hl_calls m).
Proof.
  intros (cs & E & Hc). rewrite E. clear E. induction Hc as [|c cs Hc _ IH]; [done|].
  cbn [app perf_held]. rewrite IH. destruct (perf_held (hl_calls m)) as [b|]; [|done].
  destruct c; cbn in *; rewrite ?decide_False by done; done.
Qed.

Create HintDb service.
#[local] Hint Resolve log_extends_refl log_extends_push : service.

(** A view of the three performance hints survives calls on other hints. *)
Lemma log_extends_view m m' : log_extends (fun x => performance_hint x = false) m m' ->
  perf_view m' = perf_view m.
Proof.
  intros He. unfold perf_view. f_equal; [f_equal|]; apply log_extends_requested;
    (eapply log_extends_impl; [|exact He]); intros h (? & ? & ?)%not_performance; done.
Qed.

(** The calls of the handler name the interaction hint only. *)
Lemma Acquire_log cfg d now (h : InteractionHandler hint_log) :
  log_extends (fun x => x = "INTERACTION") (mHintManager h) (mHintManager (Acquire cfg d now h)).
Proof. unfold Acquire, AbortWaitLocked, PerfLock. repeat case_match; simpl; auto with service. Qed.

Lemma Routine_log a (h h' : InteractionHandler hint_log) : Routine_step a h = Some h' ->
  log_extends (fun x => x = "INTERACTION") (mHintManager h) (mHintManager h').
Proof.
  unfold Routine_step, Release, PerfRel. intros. repeat case_match; simplify_eq/=; auto with service.
Qed.

(** ** The steps *)

Section steps.
Context `{LooperLaws L} (cfg : ih_config) (t : tunables).
Context (mode_toString : Mode -> string) (boost_toString : Boost -> string) (k : string).
Context (Hn : names_ok k mode_toString boost_toString).

Implicit Types (p : Power hint_log) (s : service L).

(** The names a call of Power other than on the handler may use. *)
Definition own_name (h : string) : Prop := h <> "INTERACTION" /\ h <> k.

Lemma unmanaged_own h : unmanaged k h -> own_name h.
Proof. by intros (_ & ? & ?). Qed.

Lemma performance_own h : performance_hint h = true -> own_name h.
Proof.
  destruct (names_disable _ _ _ Hn) as [Hk _]. intros Hh. split; [|congruence].
  by intros ->.
Qed.

#[local] Hint Resolve unmanaged_own : service.
#[local] Hint Extern 1 (own_name _) => apply performance_own; reflexivity : service.

(** The handler untouched but for its hint manager, with calls on other names. *)
Definition handler_kept p p' : Prop :=
  mInteractionHandler p' = set_hm (hints p') (mInteractionHandler p) /\
  log_extends own_name (hints p) (hints p').

Lemma handler_kept_refl p : handler_kept p p.
Proof. split; [|apply log_extends_refl]. unfold hints. by destruct (mInteractionHandler p). Qed.

Lemma kept_push c p p' : own_name (call_name c) ->
  handler_kept p p' -> handler_kept p (on_hints (hl_push c) p').
Proof.
  intros Hc [Hh He]. unfold handler_kept, hints, on_hints in *. cbn in *. split.
  - by rewrite Hh.
  - by apply log_extends_push.
Qed.

Lemma kept_VR b p p' : handler_kept p p' -> handler_kept p (set_VRModeOn b p').
Proof. done. Qed.

Lemma kept_Sustained b p p' : handler_kept p p' -> handler_kept p (set_SustainedPerfModeOn b p').
Proof. done. Qed.

#[local] Hint Resolve handler_kept_refl kept_push kept_VR kept_Sustained : service.

Lemma kept_plain type enabled p : type <> VR -> type <> SUSTAINED_PERFORMANCE ->
  handler_kept p (set_plain_mode mode_toString type enabled p).
Proof.
  intros H1 H2. pose proof (names_mode _ _ _ Hn type H1 H2). unfold set_plain_mode. cbn.
  case_match; auto with service.
Qed.

Lemma kept_sustained enabled p : handler_kept p (set_sustained enabled p).
Proof. unfold set_sustained. cbn. repeat case_match; auto 8 with service. Qed.

Lemma kept_vr enabled p : handler_kept p (set_vr enabled p).
Proof. unfold set_vr. cbn. repeat case_match; auto 8 with service. Qed.

(** A call either keeps the handler or is one of its critical sections. *)
Lemma power_exec_handler c p m :
  label_ok k (SPower c) ->
  let p' := fst (power_exec cfg mode_toString boost_toString (p, m) c) in
  handler_kept p p' \/
  (exists l, not_exit l /\ ih_exec cfg l (mInteractionHandler p) = Some (mInteractionHandler p') /\
     log_extends (fun x => x = "INTERACTION") (hints p) (hints p')).
Proof.
  intros Hl. cbv zeta. destruct c as [type en|type d now|h en|h d|a]; cbn in *.
  - left. destruct type; try case_match; auto using kept_sustained, kept_vr, handler_kept_refl;
      by apply kept_plain.
  - destruct (names_boost _ _ _ Hn type) as [_ Hb].
    destruct (decide (type = INTERACTION)) as [->|Hne].
    + case_match; [left; apply handler_kept_refl|]. right. exists (LAcquire d now).
      split_and!; [done..|]. apply Acquire_log.
    + specialize (Hb Hne). left. destruct type; [done|..]; repeat case_match; auto with service.
  - left. case_match; auto with service.
  - left. repeat case_match; auto with service.
  - destruct (Routine_step a _) as [h'|] eqn:Hr; [|left; apply handler_kept_refl].
    right. exists (LRoutine a). split_and!; [done..|]. by eapply Routine_log.
Qed.

(** The session manager calls the hint manager on its own hint only. *)
Lemma wtrans_log lbl (w w' : world hint_log L) : wtrans t lbl w w' ->
  kDisableBoostHintName (w_mgr w') = kDisableBoostHintName (w_mgr w) /\
  log_extends (fun x => x = kDisableBoostHintName (w_mgr w)) (w_hints w) (w_hints w').
Proof.
  intros Ht. destruct Ht as
    [s _ _ _ _ Hg Hh _|sid s s' armed _ _ _ _ _ _ [Hg Hh] _
    |sid s s' again _ _ _ _ _ _ [Hg Hh] _|sid s s' deleted _ _ _ _ _ _ Hg Hh _
    |sid s _ _ _ _ [Hg Hh] _|clock _ _ _ Hm _].
  1-5: rewrite Hh; split; [|apply log_extends_refl];
    assert (boost_part (w_mgr w') = boost_part (w_mgr w)) as Hb by
    (exact (add_boost_part _ _ _ _ _ _ Hg)
     || (apply (f_equal fst) in Hg; simpl in Hg; rewrite Hg; done || apply remove_boost_part)); by injection Hb.
  apply handleManagerMessage_inv in Hm as (_ & _ & -> & _ & _ & ->). split; [done|].
  cbn. repeat case_match; auto with service.
Qed.

Lemma updateHintMode_boost_part mode enabled m : boost_part (updateHintMode mode enabled m) = boost_part m.
Proof. unfold updateHintMode. by repeat case_match. Qed.

Lemma power_exec_boost_part c p m :
  boost_part (snd (power_exec cfg mode_toString boost_toString (p, m) c)) = boost_part m.
Proof. destruct c; cbn; try case_match; done || apply updateHintMode_boost_part. Qed.

Lemma hint_ok_share (w : world hint_log L) hm m :
  boost_part m = boost_part (w_mgr w) ->
  log_extends (fun x => x <> kDisableBoostHintName (w_mgr w)) (w_hints w) hm ->
  hint_ok w -> hint_ok (share_world hm m w).
Proof.
  intros Hb He Hw. injection Hb as Hk Hs Ha. unfold hint_ok in *. cbn [share_world w_mgr w_hints].
  rewrite Hk, Hs, Ha. intros Hset. rewrite <- (Hw Hset). by apply log_extends_requested.
Qed.

Lemma disable_not_interaction : k <> "INTERACTION".
Proof. destruct (names_disable _ _ _ Hn) as [_ Hk]. set_solver. Qed.

(** A call of Power keeps the hints of the sessions, and the other way round. *)
Lemma power_side_ok c s : label_ok k (SPower c) -> service_ok k s ->
  let '(p, m) := power_exec cfg mode_toString boost_toString (sv_power s, w_mgr (sv_world s)) c in
  service_ok k (Build_service p (share_world (hints p) m (sv_world s))).
Proof.
  intros Hl [Hsh Hm Hwf Hi Hk Hw].
  assert (ext_ok c) as Hext by (destruct c; try done; apply Hl).
  pose proof (power_exec_ok cfg mode_toString boost_toString
    (fun m H1 H2 => proj1 (names_mode _ _ _ Hn m H1 H2)) (fun b => proj1 (names_boost _ _ _ Hn b))
    c (sv_power s, w_mgr (sv_world s)) Hext Hm) as [Hm' _].
  pose proof (power_exec_boost_part c (sv_power s) (w_mgr (sv_world s))) as Hb.
  pose proof (power_exec_handler c (sv_power s) (w_mgr (sv_world s)) Hl) as Hh.
  destruct (power_exec _ _ _ _ _) as [p m]. cbn [fst snd] in *.
  assert (kDisableBoostHintName m = k) as Hk' by (rewrite <- Hk; by injection Hb).
  destruct Hh as [[Hh He]|(l & Hx & Hh & He)].
  - split; cbn [sv_power sv_world share_world w_hints w_mgr]; try done.
    + rewrite Hh. exact Hwf.
    + rewrite Hh. cbn [set_hm mState]. rewrite <- Hi. apply log_extends_perf.
      eapply log_extends_impl; [|exact He]. by intros h [? _].
    + apply hint_ok_share; [done| |done]. rewrite Hk, <- Hsh.
      eapply log_extends_impl; [|exact He]. by intros h [_ ?].
  - split; cbn [sv_power sv_world share_world w_hints w_mgr]; try done.
    + by eapply ih_exec_wf.
    + by eapply perf_held_step.
    + apply hint_ok_share; [done| |done]. rewrite Hk, <- Hsh.
      eapply log_extends_impl; [|exact He]. intros h ->. apply not_eq_sym, disable_not_interaction.
Qed.

Lemma world_side_ok lbl s w : wstep t lbl (sv_world s) = WOk w -> service_ok k s ->
  service_ok k (Build_service (share_power w (sv_power s)) w).
Proof.
  intros Hw%wstep_trans [Hsh Hm Hwf Hi Hk Hh]. pose proof (wtrans_hint _ _ _ _ Hw Hh) as Hh'.
  destruct (wtrans_log _ _ _ Hw) as [Hk' He]. rewrite Hk, <- Hsh in He.
  split; cbn [sv_power sv_world]; try done.
  - eapply mode_hints_ok_view; [|exact Hm]. apply view_on_hints, log_extends_view.
    eapply log_extends_impl; [|exact He]. intros h ->. apply (names_disable _ _ _ Hn).
  - cbn. rewrite <- Hi. apply log_extends_perf.
    eapply log_extends_impl; [|exact He]. intros h ->. apply disable_not_interaction.
  - by rewrite Hk'.
Qed.

Lemma service_step_ok lbl s s' : label_ok k lbl ->
  service_step cfg t mode_toString boost_toString lbl s = Some s' -> service_ok k s -> service_ok k s'.
Proof.
  intros Hl Hs Hok. destruct lbl as [c|oks now tg u tids dur|lbl|]; cbn [service_step] in Hs.
  - pose proof (power_side_ok c s Hl Hok). by destruct (power_exec _ _ _ _ _); simplify_eq.
  - unfold createHintSession in Hs. destruct (_ <=? 0); [|case_bool_decide].
    3: by (destruct (wstep _ _ _) eqn:Hw; simplify_eq; eapply world_side_ok).
    all: simplify_eq; destruct Hok as [Hsh Hm Hwf Hi Hk Hh]; unfold share_power, on_hints; rewrite <- Hsh;
      split; try done.
  - destruct (world_label lbl); [|done].
    destruct (wstep _ _ _) eqn:Hw; simplify_eq. by eapply world_side_ok.
  - simplify_eq. destruct Hok as [Hsh Hm Hwf Hi Hk Hh]. split; try done.
    unfold hint_ok in *. cbn in *. by rewrite Hsh.
Qed.

Lemma service_run_ok lbls s s' : Forall (label_ok k) lbls ->
  service_run cfg t mode_toString boost_toString lbls s = Some s' -> service_ok k s -> service_ok k s'.
Proof.
  intros Hl. revert s. induction Hl as [|lbl lbls Hl _ IH]; intros s Hr Hok; cbn in Hr; [by simplify_eq|].
  apply bind_Some in Hr as (s1 & Hs & Hr). eapply IH; [done|]. by eapply service_step_ok.
Qed.

(** The constructor of Power calls the hint manager on the names of modes only. *)
Lemma Power_new_kept env open ev j1 j2 jt hm :
  let p := Power_new env open ev j1 j2 jt hm in
  mInteractionHandler p = set_hm (hints p) (snd (Init open ev (InteractionHandler_new hm j1 j2 jt))) /\
  log_extends own_name hm (hints p).
Proof.
  cbv zeta. set (p0 := Build_Power (snd (Init open ev (InteractionHandler_new hm j1 j2 jt))) false false 0).
  assert (hints p0 = hm) as Hp0 by apply view_Init.
  assert (own_name "AUDIO_STREAMING_LOW_LATENCY" /\ own_name "EXPENSIVE_RENDERING") as [Ha Hr]
    by (destruct (names_disable _ _ _ Hn) as [_ Hk]; unfold own_name; set_solver).
  enough (handler_kept p0 (Power_new env open ev j1 j2 jt hm)) as [Hh He] by (rewrite Hp0 in He; by split).
  unfold Power_new. cbn [DoHint hint_log_manager].
  assert (forall r, handler_kept p0 (Build_Power (mInteractionHandler p0) false false r)) as Hk0
    by (intros r; exact (handler_kept_refl p0)).
  repeat case_match; repeat match goal with
  | Hs : String.eqb _ _ = true |- _ => apply String.eqb_eq in Hs; rewrite ?Hs
  end; auto 8 with service.
Qed.

Lemma service_main_ok env json ext add open ev j1 j2 jt (l : L) s :
  k = kDisableBoostHintName (PowerSessionManager_new env) ->
  service_main env json ext add open ev j1 j2 jt l = MainServing s -> service_ok k s.
Proof.
  intros Hk. unfold service_main. destruct (json _) as [sup|]; [|done]. repeat (case_match; [done|]).
  intros [= <-]. set (hm := HintLog sup false []).
  destruct (Power_new_ok env open ev j1 j2 jt hm ltac:(done)) as [Hm _].
  destruct (Power_new_kept env open ev j1 j2 jt hm) as [Hh He].
  set (p := Power_new env open ev j1 j2 jt hm) in *.
  assert (ih_wf (snd (Init open ev (InteractionHandler_new hm j1 j2 jt)))) as Hwf by (by apply Init_wf).
  assert (kDisableBoostHintName (w_mgr (world_init (PowerSessionManager_new env) l (hints p)
    (negb (GetIntProperty env "vendor.powerhal.adpf.rate" (-1) =? -1)))) = k) as Hk'.
  { rewrite Hk. cbn [world_init w_mgr]. unfold setHintManager. by repeat case_match. }
  split; cbn [sv_power sv_world]; [done|done|by rewrite Hh| |done|].
  - rewrite Hh. cbn [set_hm mState].
    rewrite (log_extends_perf hm) by (eapply log_extends_impl; [|exact He]; by intros h [? _]).
    unfold Init. by repeat case_match.
  - intros _. rewrite Hk'. cbn [world_init w_mgr w_hints].
    rewrite (log_extends_requested k hm) by (eapply log_extends_impl; [|exact He]; by intros h [_ ?]).
    unfold setHintManager. by repeat case_match.
Qed.

End steps.

(** ** Properties *)

(** C17: the power service with all its clients of the hint manager running
    together.  From every start of main that succeeds, after any interleaving of
    the calls of Power and PowerExt, the interaction thread, the sessions, the
    monitor's messages and the late start of the hint manager: exactly the mode hint that stands for the two mode
    flags is requested, the interaction boost has been taken and released in strict
    alternation and is held exactly while the handler boosts, and the hint that
    disables the top-app boost follows the session manager's flag.  The hints
    managed this way are VR, SUSTAINED_PERFORMANCE, VR_SUSTAINED_PERFORMANCE, INTERACTION
    and the configured hint that disables the boost: no other mode or boost may have one of
    these names, the configured one may not be one of the others or a mode the service sets
    at start ([names_ok]), and clients of PowerExt may not name them ([label_ok]), which
    PowerExt does not prevent. *)
Theorem service_hints_consistent `{LooperLaws L} cfg t mode_toString boost_toString
    env json ext add open ev j1 j2 jt (l : L) s0 lbls s :
  let k := kDisableBoostHintName (PowerSessionManager_new env) in
  names_ok k mode_toString boost_toString ->
  service_main env json ext add open ev j1 j2 jt l = MainServing s0 ->
  Forall (label_ok k) lbls ->
  service_run cfg t mode_toString boost_toString lbls s0 = Some s -> service_ok k s.
Proof.
  intros k Hn Hs0 Hl Hr. eapply service_run_ok; [done..|]. by eapply service_main_ok.
Qed.

(** *** Witness *)

(** Started in VR mode with ADPF on. *)
Definition demo_env : property_source := {|
  GetProperty name value := if (name =? "vendor.powerhal.state")%string then "VR" else value;
  GetBoolProperty _ value := value;
  GetIntProperty name value := if (name =? "vendor.powerhal.adpf.rate")%string then 16666666 else value;
  GetUintProperty _ value := value;
  ParseDouble _ := None;
  to_string_double _ := ""
|}.

Definition demo_main : main_result msg_queue :=
  service_main demo_env
    (fun path => if (path =? "/vendor/etc/powerhint.json")%string then Some ["ADPF_DISABLE_TA_BOOST"] else None)
    0 0 (fun _ => 7) 8 0 0 (Timespec 0 0) ([] : msg_queue).

Definition demo_service : service msg_queue :=
  match demo_main with
  | MainServing s => s
  | MainAborted => Build_service demo_power SessionManager.demo_start
  end.

(** A session starts while VR is on; VR ends, a touch takes the interaction boost,
    the monitor runs, the extension and the hint manager's start come in between. *)
Definition demo_service_labels : list service_label :=
  [SCreate (fun _ => true) 0 100 1000 [101] 16666666; SPower (PSetBoost INTERACTION 100 (Timespec 1 0));
   SWorld (WCall (fun _ => true) 2 0 CallPause); SWorld (WCall (fun _ => true) 3 0 CallResume); SStart;
   SPower (PSetMode VR false); SPower (PExtSetMode "CAMERA" true);
   SWorld (WPoll 10 (fun _ => 10)); SPower (PSetBoost INTERACTION 100 (Timespec 2 0));
   SPower (PSetMode SUSTAINED_PERFORMANCE true)].

Definition demo_service_end : service msg_queue :=
  default demo_service
    (service_run ih_default default_tunables demo_mode_name demo_boost_name demo_service_labels demo_service).

Lemma demo_names_ok : names_ok "ADPF_DISABLE_TA_BOOST" demo_mode_name demo_boost_name.
Proof.
  split; [split; [done|set_solver]|intros []; done|intros []; done].
Qed.

Lemma service_hints_consistent_witness :
  service_ok "ADPF_DISABLE_TA_BOOST" demo_service_end /\
  reverse (hl_calls (hints (sv_power demo_service_end))) =
    [CallDoHint "VR"; CallEndHint "VR_SUSTAINED_PERFORMANCE"; CallEndHint "VR"; CallDoHint "CAMERA";
     CallDoHint "ADPF_DISABLE_TA_BOOST"; CallDoHint "INTERACTION"; CallDoHint "SUSTAINED_PERFORMANCE"].
Proof.
  split; [|vm_compute; reflexivity].
  apply (service_hints_consistent ih_default default_tunables demo_mode_name demo_boost_name demo_env
    (fun path => if (path =? "/vendor/etc/powerhint.json")%string then Some ["ADPF_DISABLE_TA_BOOST"] else None)
    0 0 (fun _ => 7) 8 0 0 (Timespec 0 0) ([] : msg_queue) demo_service demo_service_labels).
  - exact demo_names_ok.
  - reflexivity.
  - repeat constructor; done.
  - vm_compute. reflexivity.
Defined.
