(* ===== verification/PowerHints.v ===== *)
(** The hints of the device (src/configs/power/powerhint.json) and what a restart of
    the power service makes of them.

    libperfmgr reads the file: a node is a sysfs file or a property with the values it
    may take, a hint is the set of actions that name it.  While hints are requested, a
    node holds the first of its values that an action of a requested hint asks for,
    and its default value otherwise; this is the library's part, so it is a
    hypothesis on the properties a restarted service reads ([reflects]).  The
    constructor of Power reads those properties back to find the modes it was in. *)
From S2P Require Import Prelude HintManager Interaction Session Looper SessionManager PowerHal PowerService.

(** ** The configuration *)

Inductive node_type := FileNode | PropertyNode.

#[export] Instance node_type_eq_dec : EqDecision node_type.
Proof. solve_decision. Defined.

Record hint_node := HintNode {
  Name : string;
  Path : string;
  Values : list string;
  DefaultIndex : option nat;
  ResetOnInit : bool;
  HoldFd : bool;
  NodeType : node_type
}.

Record hint_action := HintAction {
  PowerHint : string;
  Node : string;
  Duration : Z;
  Value : string
}.

Definition hint_nodes : list hint_node := [
  HintNode "CPULittleClusterMaxFreq" "/sys/devices/system/cpu/cpu0/cpufreq/scaling_max_freq"
    ["1794000"; "1456000"; "1248000"; "1053000"]
    (Some 0%nat) true false FileNode;
  HintNode "CPULittleClusterMinFreq" "/sys/devices/system/cpu/cpu0/cpufreq/scaling_min_freq"
    ["1248000"; "1053000"; "832000"; "455000"]
    None true false FileNode;
  HintNode "CPUBigClusterMaxFreq" "/sys/devices/system/cpu/cpu4/cpufreq/scaling_max_freq"
    ["2704000"; "2314000"; "2106000"; "1794000"]
    (Some 0%nat) true false FileNode;
  HintNode "CPUBigClusterMinFreq" "/sys/devices/system/cpu/cpu4/cpufreq/scaling_min_freq"
    ["1794000"; "1469000"; "1261000"; "1066000"; "858000"; "650000"]
    None true false FileNode;
  HintNode "GPUMaxFreq" "/sys/kernel/gpu/gpu_max_clock"
    ["572000"; "546000"; "455000"]
    (Some 0%nat) true false FileNode;
  HintNode "GPUMinFreq" "/sys/kernel/gpu/gpu_min_clock"
    ["455000"; "338000"; "299000"; "260000"]
    None true false FileNode;
  HintNode "TASchedtuneBoost" "/dev/stune/top-app/schedtune.boost"
    ["70"; "5"]
    None true false FileNode;
  HintNode "PMQoSCpuDmaLatency" "/dev/cpu_dma_latency"
    ["44"; "100"]
    None false true FileNode;
  HintNode "PowerHALMainState" "vendor.powerhal.state"
    ["CAMERA_STREAMING_MID"; "SUSTAINED_PERFORMANCE"; "VR_MODE"; "VR_SUSTAINED_PERFORMANCE"; ""]
    None false false PropertyNode;
  HintNode "PowerHALAudioState" "vendor.powerhal.audio"
    ["AUDIO_STREAMING_LOW_LATENCY"; ""]
    None false false PropertyNode;
  HintNode "PowerHALRenderingState" "vendor.powerhal.rendering"
    ["EXPENSIVE_RENDERING"; ""]
    None false false PropertyNode
].

Definition hint_actions : list hint_action := [
  HintAction "INTERACTION" "CPUBigClusterMinFreq" 0 "858000";
  HintAction "INTERACTION" "CPULittleClusterMinFreq" 0 "832000";
  HintAction "INTERACTION" "TASchedtuneBoost" 0 "70";
  HintAction "LAUNCH" "CPUBigClusterMaxFreq" 5000 "1794000";
  HintAction "LAUNCH" "CPUBigClusterMinFreq" 5000 "1066000";
  HintAction "LAUNCH" "CPULittleClusterMinFreq" 5000 "1248000";
  HintAction "LAUNCH" "PMQoSCpuDmaLatency" 5000 "44";
  HintAction "CAMERA_LAUNCH" "CPUBigClusterMaxFreq" 1000 "2704000";
  HintAction "CAMERA_LAUNCH" "CPUBigClusterMinFreq" 1000 "1469000";
  HintAction "CAMERA_LAUNCH" "CPULittleClusterMaxFreq" 1000 "1794000";
  HintAction "CAMERA_LAUNCH" "CPULittleClusterMinFreq" 1000 "1248000";
  HintAction "CAMERA_LAUNCH" "PMQoSCpuDmaLatency" 1000 "44";
  HintAction "CAMERA_STREAMING_MID" "PowerHALMainState" 0 "CAMERA_STREAMING_MID";
  HintAction "CAMERA_STREAMING_MID" "CPUBigClusterMaxFreq" 0 "1794000";
  HintAction "CAMERA_SHOT" "CPUBigClusterMaxFreq" 1000 "2704000";
  HintAction "CAMERA_SHOT" "CPUBigClusterMinFreq" 1000 "1469000";
  HintAction "CAMERA_SHOT" "CPULittleClusterMaxFreq" 1000 "1794000";
  HintAction "CAMERA_SHOT" "CPULittleClusterMinFreq" 1000 "1053000";
  HintAction "CAMERA_SHOT" "PMQoSCpuDmaLatency" 1000 "44";
  HintAction "AUDIO_LAUNCH" "PMQoSCpuDmaLatency" 2000 "44";
  HintAction "AUDIO_STREAMING_LOW_LATENCY" "PowerHALAudioState" 0 "AUDIO_STREAMING_LOW_LATENCY";
  HintAction "AUDIO_STREAMING_LOW_LATENCY" "PMQoSCpuDmaLatency" 0 "44";
  HintAction "SUSTAINED_PERFORMANCE" "PowerHALMainState" 0 "SUSTAINED_PERFORMANCE";
  HintAction "SUSTAINED_PERFORMANCE" "CPUBigClusterMaxFreq" 0 "1794000";
  HintAction "SUSTAINED_PERFORMANCE" "CPULittleClusterMaxFreq" 0 "1794000";
  HintAction "SUSTAINED_PERFORMANCE" "GPUMaxFreq" 0 "455000";
  HintAction "VR_MODE" "PowerHALMainState" 0 "VR_MODE";
  HintAction "VR_SUSTAINED_PERFORMANCE" "PowerHALMainState" 0 "VR_SUSTAINED_PERFORMANCE";
  HintAction "EXPENSIVE_RENDERING" "PowerHALRenderingState" 0 "EXPENSIVE_RENDERING";
  HintAction "EXPENSIVE_RENDERING" "GPUMinFreq" 0 "455000";
  HintAction "EXPENSIVE_RENDERING" "GPUMaxFreq" 0 "572000"
].

(** What GetFromJSON makes of it: the hints that have an action. *)
Definition supported_hints : list string := remove_dups (map PowerHint hint_actions).

(** Names and paths are unique, an index is in range, an action names a node and one
    of its values, and a hint acts on a node once. *)
Definition action_ok (a : hint_action) : bool :=
  existsb (fun n => bool_decide (Name n = Node a /\ Value a ∈ Values n)) hint_nodes && (0 <=? Duration a).

Definition config_ok : bool :=
  bool_decide (NoDup (map Name hint_nodes) /\ NoDup (map Path hint_nodes)) &&
  forallb (fun n => Nat.ltb (default 0%nat (DefaultIndex n)) (length (Values n))) hint_nodes &&
  forallb action_ok hint_actions &&
  bool_decide (NoDup (map (fun a => (PowerHint a, Node a)) hint_actions)).

(** ** What a node holds *)

Definition node_default (n : hint_node) : string :=
  nth (default (pred (length (Values n))) (DefaultIndex n)) (Values n) "".

(** Some action of a requested hint asks for this value. *)
Definition asked (req : string -> bool) (n : hint_node) (v : string) : bool :=
  existsb (fun a => (Node a =? Name n)%string && (Value a =? v)%string && req (PowerHint a)) hint_actions.

Definition node_value (req : string -> bool) (n : hint_node) : string :=
  default (node_default n) (List.find (asked req n) (Values n)).

(** The properties of the configuration as libperfmgr leaves them; an empty property
    counts as unset. *)
Definition reflects (env : property_source) (req : string -> bool) : Prop :=
  forall n value, n ∈ hint_nodes -> NodeType n = PropertyNode ->
    GetProperty env (Path n) value = if (node_value req n =? "")%string then value else node_value req n.

(** The hints in force when the properties are written, after the calls of a log: of
    those requested, all but the ones whose time may be over: that were asked for with a
    duration, or have an action with one. *)
Definition untimed (h : string) (c : hint_call) : bool :=
  match c with CallDoHintFor x _ => negb (x =? h)%string | _ => true end.

Definition lasting (h : string) : bool :=
  forallb (fun a => negb (PowerHint a =? h)%string || (Duration a =? 0)) hint_actions.

Definition in_force (m : hint_log) (active : string -> bool) : Prop :=
  forall h, (active h = true -> requested m h = true) /\
    (requested m h = true -> lasting h = true -> forallb (untimed h) (hl_calls m) = true -> active h = true).

(** The three property nodes, in terms of the hints that act on them. *)
Definition main_state (req : string -> bool) : string :=
  if req "CAMERA_STREAMING_MID" then "CAMERA_STREAMING_MID"
  else if req "SUSTAINED_PERFORMANCE" then "SUSTAINED_PERFORMANCE"
  else if req "VR_MODE" then "VR_MODE"
  else if req "VR_SUSTAINED_PERFORMANCE" then "VR_SUSTAINED_PERFORMANCE" else "".

(** ** Lemmas *)

Lemma config_well_formed : config_ok = true.
Proof. by vm_compute. Qed.

Section nodes.
Context (env : property_source) (req : string -> bool) (Henv : reflects env req).

Lemma read_node k n : hint_nodes !! k = Some n -> NodeType n = PropertyNode ->
  GetProperty env (Path n) "" = node_value req n.
Proof using Henv.
  intros Hk Ht. rewrite (Henv n "" (list_elem_of_lookup_2 _ _ _ Hk) Ht).
  case_match eqn:He; [|done]. by apply String.eqb_eq in He.
Qed.

Lemma read_state : GetProperty env "vendor.powerhal.state" "" = main_state req.
Proof using Henv.
  etrans; [exact (read_node 8 _ eq_refl eq_refl)|]. unfold main_state. cbn.
  destruct (req "CAMERA_STREAMING_MID"), (req "SUSTAINED_PERFORMANCE"), (req "VR_MODE"),
    (req "VR_SUSTAINED_PERFORMANCE"); done.
Qed.

Lemma read_audio : GetProperty env "vendor.powerhal.audio" "" =
  if req "AUDIO_STREAMING_LOW_LATENCY" then "AUDIO_STREAMING_LOW_LATENCY" else "".
Proof using Henv. etrans; [exact (read_node 9 _ eq_refl eq_refl)|]. cbn. by destruct (req _). Qed.

Lemma read_rendering : GetProperty env "vendor.powerhal.rendering" "" =
  if req "EXPENSIVE_RENDERING" then "EXPENSIVE_RENDERING" else "".
Proof using Henv. etrans; [exact (read_node 10 _ eq_refl eq_refl)|]. cbn. by destruct (req _). Qed.

End nodes.

(** What a new Power requests for the two other properties. *)
Lemma Power_new_requests `{HintManagerLaws HM} env open ev j1 j2 jt (hm : HM) :
  (forall h, requested hm h = false) ->
  let p := Power_new env open ev j1 j2 jt hm in
  requested (hints p) "AUDIO_STREAMING_LOW_LATENCY" =
    (GetProperty env "vendor.powerhal.audio" "" =? "AUDIO_STREAMING_LOW_LATENCY")%string /\
  requested (hints p) "EXPENSIVE_RENDERING" =
    (GetProperty env "vendor.powerhal.rendering" "" =? "EXPENSIVE_RENDERING")%string.
Proof.
  intros Hh. cbv zeta. unfold Power_new. cbv zeta. set (h := snd (Init _ _ _)).
  assert (mHintManager h = hm) as Hhm by apply view_Init.
  destruct (String.eqb_spec (GetProperty env "vendor.powerhal.state" "") "SUSTAINED_PERFORMANCE") as [_|_];
    [|destruct (String.eqb_spec (GetProperty env "vendor.powerhal.state" "") "VR") as [->|_];
    [|destruct (GetProperty env "vendor.powerhal.state" "" =? "VR_SUSTAINED_PERFORMANCE")%string]];
  destruct (String.eqb_spec (GetProperty env "vendor.powerhal.audio" "") "AUDIO_STREAMING_LOW_LATENCY") as [->|_];
  destruct (GetProperty env "vendor.powerhal.rendering" "" =? "EXPENSIVE_RENDERING")%string;
  unfold on_hints, hints; cbn; rewrite Hhm; hm_simpl; rewrite ?(Hh "AUDIO_STREAMING_LOW_LATENCY"), ?(Hh "EXPENSIVE_RENDERING"); done.
Qed.

(** The flags as the constructor reads them from [main_state]. *)
Lemma initial_modes_state env req : reflects env req ->
  initial_modes env =
    (negb (req "CAMERA_STREAMING_MID") && negb (req "SUSTAINED_PERFORMANCE") && negb (req "VR_MODE") &&
       req "VR_SUSTAINED_PERFORMANCE",
     negb (req "CAMERA_STREAMING_MID") && (req "SUSTAINED_PERFORMANCE" ||
       negb (req "VR_MODE") && req "VR_SUSTAINED_PERFORMANCE")).
Proof.
  intros Hr. unfold initial_modes. rewrite (read_state env req Hr). unfold main_state.
  by destruct (req "CAMERA_STREAMING_MID"), (req "SUSTAINED_PERFORMANCE"), (req "VR_MODE"),
    (req "VR_SUSTAINED_PERFORMANCE").
Qed.

(** *** The performance hints are requested without a duration *)

Definition perf_untimed (m : hint_log) : Prop :=
  Forall (fun c => match c with CallDoHintFor h _ => performance_hint h = false | _ => True end) (hl_calls m).

Lemma perf_untimed_extends m m' :
  log_extends (fun h => performance_hint h = false) m m' -> perf_untimed m -> perf_untimed m'.
Proof.
  intros (cs & E & Hc) Hm. unfold perf_untimed. rewrite E. apply Forall_app. split; [|done].
  eapply Forall_impl; [exact Hc|]. by intros [].
Qed.

Lemma perf_untimed_hint m h : performance_hint h = true -> perf_untimed m ->
  forallb (untimed h) (hl_calls m) = true.
Proof.
  intros Hh Hm. apply forallb_forall. intros c Hc%list_elem_of_In.
  pose proof (proj1 (Forall_forall _ _) Hm c Hc) as Hx. destruct c as [|x d|]; cbn; try done.
  destruct (String.eqb_spec x h) as [->|]; [cbn in Hx; congruence|done].
Qed.

Section untimed.
Context `{LooperLaws L} (cfg : ih_config) (t : tunables).
Context (mode_toString : Mode -> string) (boost_toString : Boost -> string) (k : string).
Context (Hn : names_ok k mode_toString boost_toString).

Lemma untimed_power_exec c (p : Power hint_log) m : label_ok k (SPower c) -> perf_untimed (hints p) ->
  perf_untimed (hints (fst (power_exec cfg mode_toString boost_toString (p, m) c))).
Proof using Hn.
  intros Hl Hp. unfold perf_untimed in *. destruct c as [type en|type d now|h en|h d|a]; cbn in *.
  - unfold set_sustained, set_vr, set_plain_mode. destruct type; cbn; repeat case_match; cbn; auto.
  - assert (log_extends (fun h => performance_hint h = false) (hints p)
      (mHintManager (Acquire cfg d now (mInteractionHandler p)))) as Ha
      by (eapply log_extends_impl; [|apply Acquire_log]; by intros ? ->).
    pose proof (proj1 (names_boost _ _ _ Hn type)). apply perf_untimed_extends in Ha; [|done].
    destruct type; cbn; repeat case_match; cbn; auto.
  - case_match; cbn; auto.
  - destruct Hl as [Hl _]. repeat case_match; cbn; auto.
  - destruct (Routine_step a _) as [h'|] eqn:Hr; [|done]. cbn.
    eapply perf_untimed_extends; [|exact Hp]. eapply log_extends_impl; [|by eapply Routine_log].
    by intros ? ->.
Qed.

Lemma untimed_world lbl (w w' : world hint_log L) : wstep t lbl w = WOk w' ->
  kDisableBoostHintName (w_mgr w) = k -> perf_untimed (w_hints w) -> perf_untimed (w_hints w').
Proof using H0 Hn.
  intros Hs%wstep_trans Hk. apply perf_untimed_extends. destruct (wtrans_log _ _ _ _ Hs) as [_ He].
  eapply log_extends_impl; [|exact He]. intros h ->. rewrite Hk. apply (names_disable _ _ _ Hn).
Qed.

Lemma untimed_step lbl (s s' : service L) : label_ok k lbl ->
  service_step cfg t mode_toString boost_toString lbl s = Some s' -> service_ok k s ->
  perf_untimed (hints (sv_power s)) -> perf_untimed (hints (sv_power s')).
Proof using H0 Hn.
  intros Hl Hs Hok Hp. pose proof (sk_shared _ _ Hok) as Hsh. destruct lbl as [c|oks now tg u tids dur|lbl|]; cbn [service_step] in Hs.
  - pose proof (untimed_power_exec c (sv_power s) (w_mgr (sv_world s)) Hl Hp) as Hu.
    by destruct (power_exec _ _ _ _ _); simplify_eq.
  - unfold createHintSession in Hs. rewrite Hsh in Hp. destruct (_ <=? 0); [|case_bool_decide].
    3: destruct (wstep _ _ _) eqn:Hw; simplify_eq; by eapply untimed_world, Hp; [|apply Hok].
    all: by simplify_eq.
  - rewrite Hsh in Hp. destruct (world_label lbl); [|done].
    destruct (wstep _ _ _) eqn:Hw; simplify_eq. by eapply untimed_world, Hp; [|apply Hok].
  - by simplify_eq.
Qed.

Lemma untimed_run lbls (s s' : service L) : Forall (label_ok k) lbls ->
  service_run cfg t mode_toString boost_toString lbls s = Some s' -> service_ok k s ->
  perf_untimed (hints (sv_power s)) -> perf_untimed (hints (sv_power s')).
Proof using H0 Hn.
  intros Hl. revert s. induction Hl as [|lbl lbls Hl _ IH]; intros s Hr Hok Hp; cbn in Hr; [by simplify_eq|].
  apply bind_Some in Hr as (s1 & Hs & Hr).
  eapply IH; [done|by eapply service_step_ok|by eapply untimed_step].
Qed.

End untimed.

Lemma untimed_main `{Looper L} env json ext add open ev j1 j2 jt (l : L) s :
  service_main env json ext add open ev j1 j2 jt l = MainServing s -> perf_untimed (hints (sv_power s)).
Proof.
  unfold service_main. destruct (json _) as [sup|]; [|done]. repeat (case_match; [done|]).
  intros [= <-]. cbn [sv_power]. unfold Power_new. cbv zeta. set (h := snd (Init _ _ _)).
  assert (mHintManager h = HintLog sup false []) as Hh by apply view_Init.
  unfold perf_untimed, on_hints, hints. cbn.
  repeat case_match; cbn; rewrite Hh; cbn; repeat constructor.
Qed.

(** Of the hints Power keeps itself, those in force are those requested. *)
Lemma in_force_performance m active h : in_force m active -> perf_untimed m -> performance_hint h = true ->
  lasting h = true -> active h = requested m h.
Proof.
  intros Hf Hu Hp Hl. destruct (Hf h) as [H1 H2]. apply Bool.eq_true_iff_eq. split; [done|].
  intros Hr. by apply H2; [..|apply perf_untimed_hint].
Qed.

(** ** Properties *)

(** C19: a power service that dies comes back with the modes its clients set.  After
    any run of the service from its main (with names and labels as in PowerService),
    when libperfmgr has written the properties of powerhint.json for the hints still in
    force and main runs again: the audio and the rendering hint are on exactly if they
    were in force; sustained performance is on exactly if it was, and VR exactly if both
    VR and sustained performance were (VR alone leaves no trace in the properties), except
    that a camera stream in force (CAMERA_STREAMING_MID) hides both, and the hint VR_MODE,
    which only a client of PowerExt asks for, hides both if VR was on. *)
Theorem restart_restores_modes `{LooperLaws L} cfg t mode_toString boost_toString
    env json ext add open ev j1 j2 jt (l : L) s0 lbls s
    active env' json' ext' add' open' ev' j1' j2' jt' (l' : L) s' :
  let k := kDisableBoostHintName (PowerSessionManager_new env) in
  names_ok k mode_toString boost_toString ->
  service_main env json ext add open ev j1 j2 jt l = MainServing s0 ->
  Forall (label_ok k) lbls -> service_run cfg t mode_toString boost_toString lbls s0 = Some s ->
  in_force (hints (sv_power s)) active -> reflects env' active ->
  service_main env' json' ext' add' open' ev' j1' j2' jt' l' = MainServing s' ->
  let sustained := mSustainedPerfModeOn (sv_power s) in
  let vr := mVRModeOn (sv_power s) in
  let hidden := active "CAMERA_STREAMING_MID" || (vr && active "VR_MODE") in
  mSustainedPerfModeOn (sv_power s') = sustained && negb hidden /\
  mVRModeOn (sv_power s') = vr && sustained && negb hidden /\
  requested (hints (sv_power s')) "AUDIO_STREAMING_LOW_LATENCY" = active "AUDIO_STREAMING_LOW_LATENCY" /\
  requested (hints (sv_power s')) "EXPENSIVE_RENDERING" = active "EXPENSIVE_RENDERING".
Proof.
  intros k Hn Hs0 Hl Hr Hf He Hs' sustained vr hidden.
  pose proof (service_main_ok _ _ _ Hn _ _ _ _ _ _ _ _ _ _ _ eq_refl Hs0) as Hok0.
  pose proof (service_run_ok _ _ _ _ _ Hn _ _ _ Hl Hr Hok0) as [_ (H1 & _ & H3) _ _ _ _].
  pose proof (untimed_run _ _ _ _ _ Hn _ _ _ Hl Hr Hok0 (untimed_main _ _ _ _ _ _ _ _ _ _ _ Hs0)) as Hu.
  pose proof (in_force_performance _ _ "SUSTAINED_PERFORMANCE" Hf Hu eq_refl eq_refl) as Ha1.
  pose proof (in_force_performance _ _ "VR_SUSTAINED_PERFORMANCE" Hf Hu eq_refl eq_refl) as Ha3.
  unfold service_main in Hs'. destruct (json' _) as [sup|]; [|done]. repeat (case_match; [done|]).
  injection Hs' as <-. cbn [sv_power]. set (hm := HintLog sup false []).
  destruct (Power_new_ok env' open' ev' j1' j2' jt' hm ltac:(done)) as [_ Hm].
  destruct (Power_new_requests env' open' ev' j1' j2' jt' hm ltac:(done)) as [-> ->].
  rewrite (initial_modes_state _ _ He) in Hm. injection Hm as -> ->.
  rewrite (read_audio _ _ He), (read_rendering _ _ He). subst hidden vr sustained.
  rewrite Ha1, Ha3, H1, H3.
  destruct (mSustainedPerfModeOn _), (mVRModeOn _), (active "AUDIO_STREAMING_LOW_LATENCY"),
    (active "EXPENSIVE_RENDERING"), (active "CAMERA_STREAMING_MID"), (active "VR_MODE"); done.
Qed.

(** The VR mode of the interface has no hint in the configuration: it counts as
    unsupported, and its request moves no node. *)
Lemma vr_has_no_action (p : Power hint_log) name :
  hl_supported (hints p) = supported_hints -> name VR = "VR" ->
  Power_isModeSupported name VR p = (status_ok, false) /\
  forall req n, node_value (fun h => (h =? "VR")%string || req h) n = node_value req n.
Proof.
  intros Hs Hv. split.
  - unfold Power_isModeSupported. cbn. by rewrite Hs, Hv.
  - reflexivity.
Qed.

(** The camera's hint is put into the property first: while it is requested, neither
    performance mode survives a restart. *)
Lemma camera_stream_hides_modes env req : reflects env req -> req "CAMERA_STREAMING_MID" = true ->
  initial_modes env = (false, false).
Proof. intros Hr Hc. unfold initial_modes. rewrite (read_state env req Hr). unfold main_state. by rewrite Hc. Qed.

(** *** Witness *)

(** Properties as libperfmgr keeps them, over some others. *)
Definition properties_after (env : property_source) (req : string -> bool) : property_source := {|
  GetProperty name value :=
    match List.find (fun n => bool_decide (NodeType n = PropertyNode) && (Path n =? name)%string) hint_nodes with
    | Some n => if (node_value req n =? "")%string then value else node_value req n
    | None => GetProperty env name value
    end;
  GetBoolProperty := GetBoolProperty env;
  GetIntProperty := GetIntProperty env;
  GetUintProperty := GetUintProperty env;
  ParseDouble := ParseDouble env;
  to_string_double := to_string_double env
|}.

Lemma properties_after_reflects env req : reflects (properties_after env req) req.
Proof.
  intros n value Hn Ht. unfold hint_nodes in Hn.
  repeat (apply elem_of_cons in Hn as [->|Hn]; [try discriminate Ht; reflexivity|]).
  by apply elem_of_nil in Hn.
Qed.

(** The device's hints, without ADPF; both modes and the audio hint are set, and the
    service is started again. *)
Definition device_main (env : property_source) : main_result msg_queue :=
  service_main env
    (fun path => if (path =? "/vendor/etc/powerhint.json")%string then Some supported_hints else None)
    0 0 (fun _ => 7) 8 0 0 (Timespec 0 0) ([] : msg_queue).

Definition device_service : service msg_queue :=
  match device_main unset_properties with
  | MainServing s => s
  | MainAborted => Build_service demo_power SessionManager.demo_start
  end.

Definition device_labels : list service_label :=
  [SStart; SPower (PSetMode VR true); SPower (PSetMode SUSTAINED_PERFORMANCE true);
   SPower (PExtSetMode "AUDIO_STREAMING_LOW_LATENCY" true)].

Definition device_run : service msg_queue :=
  default device_service
    (service_run ih_default default_tunables demo_mode_name demo_boost_name device_labels device_service).

Definition device_after : property_source :=
  properties_after unset_properties (requested (hints (sv_power device_run))).

Definition device_restarted : service msg_queue :=
  match device_main device_after with MainServing s => s | MainAborted => device_service end.

Lemma restart_restores_modes_witness :
  mSustainedPerfModeOn (sv_power device_restarted) = true /\ mVRModeOn (sv_power device_restarted) = true /\
  requested (hints (sv_power device_restarted)) "AUDIO_STREAMING_LOW_LATENCY" = true /\
  requested (hints (sv_power device_restarted)) "EXPENSIVE_RENDERING" = false.
Proof.
  destruct (restart_restores_modes ih_default default_tunables demo_mode_name demo_boost_name unset_properties
    (fun path => if (path =? "/vendor/etc/powerhint.json")%string then Some supported_hints else None)
    0 0 (fun _ => 7) 8 0 0 (Timespec 0 0) ([] : msg_queue) device_service device_labels device_run
    (requested (hints (sv_power device_run))) device_after
    (fun path => if (path =? "/vendor/etc/powerhint.json")%string then Some supported_hints else None)
    0 0 (fun _ => 7) 8 0 0 (Timespec 0 0) ([] : msg_queue) device_restarted) as (E1 & E2 & E3 & E4).
  - exact demo_names_ok.
  - vm_compute. reflexivity.
  - repeat constructor; done.
  - vm_compute. reflexivity.
  - intros h. by split.
  - apply properties_after_reflects.
  - vm_compute. reflexivity.
  - rewrite E1, E2, E3, E4. vm_compute. repeat split.
Defined.
