(* ===== verification/Texts.v ===== *)
(** Numbers as text: the formats of [operator<<] and of the printf conversions the
    sources use, the digits strtoul reads, and what tells two texts apart. *)
From S2P Require Import Prelude.
From Stdlib Require Export Ascii.
From stdpp Require Export pretty.
Global Open Scope Z_scope.

(** ** Formats *)

(** [operator<<] and [%d] *)
Definition dec (z : Z) : string := pretty z.

Definition hex_digit (d : Z) : string :=
  nth (Z.to_nat d) ["0"; "1"; "2"; "3"; "4"; "5"; "6"; "7"; "8"; "9"; "a"; "b"; "c"; "d"; "e"; "f"] "?".

Fixpoint hex_digits (n : nat) (z : Z) : string :=
  match n with
  | O => ""
  | S n => (hex_digits n (z / 16) ++ hex_digit (z mod 16))%string
  end.

(** [%08x] of an [unsigned int] *)
Definition hex08 (z : Z) : string := hex_digits 8 z.

(** [%x] *)
Fixpoint hex_go (fuel : nat) (z : Z) (acc : string) : string :=
  match fuel with
  | O => acc
  | S fuel =>
      let acc := (hex_digit (z mod 16) +:+ acc) in
      if z / 16 =? 0 then acc else hex_go fuel (z / 16) acc
  end.

Definition hex (z : Z) : string := hex_go 8 z "".

(** ** Digits *)

Definition byte_of (c : ascii) : Z := Z.of_nat (nat_of_ascii c).

(** The value of a digit in a base up to 36. *)
Definition digit_value (base : Z) (c : ascii) : option Z :=
  let n := byte_of c in
  let d := if (48 <=? n) && (n <=? 57) then n - 48
           else if (97 <=? n) && (n <=? 122) then n - 87
           else if (65 <=? n) && (n <=? 90) then n - 55
           else base in
  if d <? base then Some d else None.

Fixpoint strtoul_digits (base : Z) (s : string) (acc : Z) : Z :=
  match s with
  | String c rest =>
      match digit_value base c with
      | Some d => strtoul_digits base rest (base * acc + d)
      | None => acc
      end
  | EmptyString => acc
  end.

(** ** Characters *)

Fixpoint all_chars (P : ascii -> Prop) (s : string) : Prop :=
  match s with
  | EmptyString => True
  | String c s => P c /\ all_chars P s
  end.

(** The characters of a decimal number. *)
Definition dec_char (c : ascii) : Prop := c <> "-"%char /\ c <> "."%char.

(** ** Lemmas *)

Lemma all_chars_app P s t : all_chars P (s +:+ t) <-> all_chars P s /\ all_chars P t.
Proof. induction s as [|c s IH]; simpl; tauto. Qed.

Lemma string_length_app s t : String.length (s +:+ t) = (String.length s + String.length t)%nat.
Proof. induction s as [|c s IH]; simpl; [done|]. by rewrite IH. Qed.

Lemma string_app_assoc s t u : (s +:+ t) +:+ u = s +:+ t +:+ u.
Proof. induction s as [|c s IH]; [done|]. exact (f_equal (String c) IH). Qed.

Lemma pretty_N_char_dec x : dec_char (pretty_N_char x).
Proof. split; unfold pretty_N_char; repeat case_match; done. Qed.

Lemma pretty_N_go_chars x s : all_chars dec_char s -> all_chars dec_char (pretty_N_go x s).
Proof.
  revert s. induction (N.lt_wf_0 x) as [x _ IH]. intros s Hs.
  destruct (decide (0 < x)%N) as [Hx|Hx].
  - rewrite pretty_N_go_step by done. apply IH; [apply N.div_lt; lia|]. split; [apply pretty_N_char_dec|done].
  - replace x with 0%N by lia. by rewrite pretty_N_go_0.
Qed.

Lemma pretty_N_go_length k : forall x s, (x < 10 ^ N.of_nat k)%N ->
  (String.length (pretty_N_go x s) <= k + String.length s)%nat.
Proof.
  induction k as [|k IH]; intros x s Hx.
  { replace x with 0%N by (simpl in Hx; lia). by rewrite pretty_N_go_0. }
  destruct (decide (0 < x)%N) as [Hx0|Hx0].
  - rewrite pretty_N_go_step by done. etransitivity; [apply IH|simpl; lia].
    apply N.Div0.div_lt_upper_bound. by rewrite Nat2N.inj_succ, N.pow_succ_r' in Hx.
  - replace x with 0%N by lia. rewrite pretty_N_go_0. lia.
Qed.

Lemma dec_nonneg z : 0 <= z -> dec z = if decide (z = 0) then "0" else pretty_N_go (Z.to_N z) "".
Proof. intros Hz. unfold dec, pretty, pretty_Z. destruct z; [done|done|lia]. Qed.

Lemma dec_chars z : 0 <= z -> all_chars dec_char (dec z).
Proof. intros Hz. rewrite dec_nonneg by done. case_decide; [done|]. by apply pretty_N_go_chars. Qed.

Lemma dec_length z : 0 <= z < 2 ^ 32 -> (String.length (dec z) <= 10)%nat.
Proof.
  intros Hz. rewrite dec_nonneg by lia. case_decide; [simpl; lia|].
  etransitivity; [apply (pretty_N_go_length 10)|done]. change (10 ^ N.of_nat 10)%N with 10000000000%N. lia.
Qed.

(** A text up to a separator that does not occur in it. *)
Lemma split_at_sep (P : ascii -> Prop) a b c x y : all_chars P a -> all_chars P b -> ~ P c ->
  a +:+ String c x = b +:+ String c y -> a = b /\ x = y.
Proof.
  intros Ha Hb Hc. revert b Hb. induction a as [|d a IH]; intros [|e b] Hb E.
  - by injection E.
  - injection E as <- _. by destruct Hc, Hb.
  - injection E as -> _. by destruct Hc, Ha.
  - injection E as -> E. destruct (IH (proj2 Ha) b (proj2 Hb) E) as [-> ->]. done.
Qed.

(** *** Hexadecimal numbers *)

Lemma hex_digit_value d : 0 <= d < 16 -> exists c, hex_digit d = String c "" /\ digit_value 16 c = Some d.
Proof.
  intros Hd. assert (d = 0 \/ d = 1 \/ d = 2 \/ d = 3 \/ d = 4 \/ d = 5 \/ d = 6 \/ d = 7 \/ d = 8 \/ d = 9 \/
    d = 10 \/ d = 11 \/ d = 12 \/ d = 13 \/ d = 14 \/ d = 15) as Hc by lia.
  destruct_or! Hc; subst d; (eexists; split; reflexivity).
Qed.

(** The digits [%x] prints are read back. *)
Lemma hex_go_read fuel : forall z acc, 0 <= z < 16 ^ Z.of_nat fuel ->
  strtoul_digits 16 (hex_go fuel z acc) 0 = strtoul_digits 16 acc z.
Proof.
  induction fuel as [|fuel IH]; intros z acc Hz; [by replace z with 0 by (simpl in Hz; lia)|].
  cbn [hex_go]. destruct (hex_digit_value (z mod 16)) as (c & -> & Hv); [by apply Z.mod_pos_bound|].
  change (String c "" +:+ acc)%string with (String c acc). case_match eqn:Hq.
  - cbn [strtoul_digits]. rewrite Hv. f_equal. pose proof (Z.div_mod z 16). lia.
  - rewrite IH.
    + cbn [strtoul_digits]. rewrite Hv. f_equal. pose proof (Z.div_mod z 16). lia.
    + rewrite Nat2Z.inj_succ, Z.pow_succ_r in Hz by lia. split; [by apply Z.div_pos; lia|].
      by apply Z.div_lt_upper_bound; lia.
Qed.

Lemma hex_inj x y : 0 <= x < 2 ^ 32 -> 0 <= y < 2 ^ 32 -> hex x = hex y -> x = y.
Proof.
  intros Hx Hy E. change (2 ^ 32) with (16 ^ Z.of_nat 8) in *.
  pose proof (hex_go_read 8 x "" Hx) as H1. pose proof (hex_go_read 8 y "" Hy) as H2.
  unfold hex in E. rewrite E in H1. cbn [strtoul_digits] in *. congruence.
Qed.

Lemma hex_go_chars fuel : forall z acc, 0 <= z -> all_chars dec_char acc -> all_chars dec_char (hex_go fuel z acc).
Proof.
  induction fuel as [|fuel IH]; intros z acc Hz Ha; [done|]. cbn [hex_go].
  destruct (hex_digit_value (z mod 16)) as (c & -> & Hv); [by apply Z.mod_pos_bound|].
  assert (all_chars dec_char (String c "" +:+ acc)) as Hc.
  { split; [|done]. split; intros ->; vm_compute in Hv; discriminate Hv. }
  case_match; [done|]. apply IH; [by apply Z.div_pos|done].
Qed.

Lemma dash_no_dec_char : ~ dec_char "-"%char.
Proof. by intros []. Qed.
