(* ===== verification/SessionTrace.v ===== *)
(** What a power hint session says of itself
    (src/aidl/power-libperfmgr/PowerHintSession.cpp): its description
    (AppHintDesc::toString), its name in traces (getIdString) and the counters its
    methods write while tracing is enabled.

    A counter is a name and a value; [record] is what ATRACE_INT keeps of a value (the
    macro is the platform's).  Each method has the counters it writes as a function of
    the state it is called in, in the order of the calls.  Session gives the state
    after the call. *)
From S2P Require Import Prelude Doubles Session Texts.

(** ** Texts *)

(** [this]: the address of the object. *)
Definition getIdString (this : Z) (d : AppHintDesc) : string :=
  dec (tgid d) +:+ "-" +:+ dec (uid d) +:+ "-" +:+ hex (Z.land this 0xffff).

Definition newline : string := String "010" EmptyString.

Fixpoint join_tids (first : bool) (tids : list Z) : string :=
  match tids with
  | [] => ""
  | tid :: tids => (if first then "" else ", ") +:+ dec tid +:+ join_tids false tids
  end.

(** AppHintDesc::toString; [this] is the address of the descriptor. *)
Definition toString (this : Z) (d : AppHintDesc) : string :=
  "session " +:+ hex (Z.land this 0xffff) +:+ newline +:+
  "  duration: " +:+ dec (duration d) +:+ " ns" +:+ newline +:+
  "  uclamp.min: " +:+ dec (current_min d) +:+ " " +:+ newline +:+
  "  uid: " +:+ dec (uid d) +:+ ", tgid: " +:+ dec (tgid d) +:+ newline +:+
  "  threadIds: [" +:+ join_tids true (threadIds d) +:+ "]" +:+ newline.

Definition isActive (s : PowerHintSession) : bool := is_active (mDescriptor s).

Definition getTidList (s : PowerHintSession) : list Z := threadIds (mDescriptor s).

(** ** Counters *)

Section trace.
Context (t : tunables) (record : Z -> Z) (this : Z).

(** [StringPrintf("adpf.%s-...", idstr)] and ATRACE_INT, for each of [counters]. *)
Definition traced (s : PowerHintSession) (counters : list (string * Z)) : list (string * Z) :=
  map (fun '(suffix, v) => ("adpf." +:+ getIdString this (mDescriptor s) +:+ suffix, record v)) counters.

Definition setUclamp_counters (min max : Z) : list (string * Z) :=
  [("-min", Z.min (Z.max 0 min) max)].

(** [now]: the clock when isStale is asked. *)
Definition new_counters (now : Z) (s : PowerHintSession) : list (string * Z) :=
  [("-target", duration (mDescriptor s)); ("-active", Z.b2z (isActive s)); ("-stale", Z.b2z (isStale t now s))] ++
  setUclamp_counters (sUclampMinHighLimit t) kMaxUclampValue.

Definition pause_counters (s : PowerHintSession) : list (string * Z) :=
  if isActive s then setUclamp_counters 0 kMaxUclampValue ++ [("-active", 0)] else [].

Definition resume_counters (s : PowerHintSession) : list (string * Z) :=
  if isActive s then [] else setUclamp_counters (sUclampMinHighLimit t) kMaxUclampValue ++ [("-active", 1)].

Definition close_counters (s : PowerHintSession) : list (string * Z) :=
  if mSessionClosed s then [] else setUclamp_counters 0 kMaxUclampValue.

Definition destructor_counters (s : PowerHintSession) : list (string * Z) :=
  close_counters s ++ [("-target", 0); ("-actl_last", 0); ("-active", 0)].

Definition updateTarget_counters (targetDurationNanos : Z) : list (string * Z) :=
  if targetDurationNanos <=? 0 then [] else [("-target", targetDurationNanos)].

Definition setStale_counters : list (string * Z) :=
  ("-stale", 1) :: setUclamp_counters 0 kMaxUclampValue.

Definition handleStale_counters (now : Z) (s : PowerHintSession) : list (string * Z) :=
  if getStaleTime t s <? now then setStale_counters else [].

Definition updateStaleTimer_counters (running : bool) : list (string * Z) :=
  if running then [("-stale", 0)] else [].

Definition apply_output_counters (output : Z) (s : PowerHintSession) : list (string * Z) :=
  if output =? 0 then []
  else
    let next_min := next_uclamp_min t output in
    if sUclampMinGranularity t <? u32 (Z.abs (current_min (mDescriptor s) - next_min))
    then setUclamp_counters next_min kMaxUclampValue else [].

Definition wakeup_counters (integral : Z) : list (string * Z) := [("-wakeup", integral); ("-wakeup", 0)].

(** A report that is accepted; [now3] is read by the isStale of the trace.  The
    quotients and the three terms are those pid_control computes. *)
Definition report_counters (running : bool) (now1 now3 : Z) (ds : list Z) (s : PowerHintSession) :
    option (list (string * Z)) :=
  let stale := running && isStale t now1 s in
  let integral := if stale then Z.max (sPidIInit t) (integral_error (mDescriptor s)) else integral_error (mDescriptor s) in
  let target := duration (mDescriptor s) in
  let length := Z.of_nat (length ds) in
  let dt := ns_to_100us target in
  let np := length - window_start (sPSamplingWindow t) length in
  let nd := length - window_start (sDSamplingWindow t) length in
  '(a, output) ← pid_control t true target ds integral (previous_error (mDescriptor s));
  p ← pOut t a np;
  i ← iOut t a;
  d ← dOut t a dt nd;
  Some (((if stale then wakeup_counters integral else []) ++
        [("-err", Z.quot (err_sum a) np); ("-integral", pid_integral a);
         ("-derivative", Z.quot (Z.quot (derivative_sum a) dt) nd);
         ("-actl_last", default 0 (last ds)); ("-target", target); ("-sample_size", length);
         ("-pid.count", update_count (mDescriptor s)); ("-pid.pOut", p); ("-pid.iOut", i); ("-pid.dOut", d);
         ("-pid.output", output); ("-stale", Z.b2z (isStale t now3 s)); ("-pid.overtime", Z.b2z (0 <? err_sum a))] ++
        updateStaleTimer_counters running) ++ apply_output_counters output s).

Definition reportActualWorkDuration_counters (running : bool) (now1 now3 : Z) (ds : list Z)
    (s : PowerHintSession) : option (list (string * Z)) :=
  if (duration (mDescriptor s) =? 0) || bool_decide (ds = []) || negb (isActive s) then Some []
  else report_counters running now1 now3 ds s.

(** The counters of a call on the session [s].  [now3] is the clock of the isStale that
    only tracing asks for. *)
Definition session_counters (running : bool) (now3 : Z) (c : session_call) (s : PowerHintSession) :
    option (list (string * Z)) :=
  match c with
  | CallPause => Some (pause_counters s)
  | CallResume => Some (resume_counters s)
  | CallClose => Some (close_counters s)
  | CallUpdateTarget ns => Some (updateTarget_counters ns)
  | CallReport _ now1 _ ds => reportActualWorkDuration_counters running now1 now3 ds s
  | CallStaleMessage now => Some (handleStale_counters now s)
  end.

(** A run of a session with tracing enabled: the calls with the clock readings of the
    trace, the session and all that was traced. *)
Fixpoint traced_run (running : bool) (calls : list (session_call * Z)) (s : PowerHintSession) :
    option (PowerHintSession * list (string * Z)) :=
  match calls with
  | [] => Some (s, [])
  | (c, now3) :: calls =>
      cs ← session_counters running now3 c s;
      '(_, s', _) ← session_exec t running c s;
      '(s'', rest) ← traced_run running calls s';
      Some (s'', traced s cs ++ rest)
  end.

(** From the constructor on. *)
Definition traced_session (running : bool) (tg u : Z) (tids : list Z) (durationNanos adpfRate now now' : Z)
    (calls : list (session_call * Z)) : option (PowerHintSession * list (string * Z)) :=
  let s := (PowerHintSession_new t tg u tids durationNanos adpfRate now).1 in
  '(s', rest) ← traced_run running calls s;
  Some (s', traced s (new_counters now' s) ++ rest).

End trace.

(** ** Specification *)

(** The value a counter has at the end of a trace. *)
Definition counter (name : string) (trace : list (string * Z)) : option Z :=
  snd <$> last (filter (fun e => e.1 = name) trace).

Definition counter_name (this : Z) (d : AppHintDesc) (suffix : string) : string :=
  "adpf." +:+ getIdString this d +:+ suffix.

(** Reports whose tracing was enabled. *)
Definition traced_call (c : session_call) : bool :=
  match c with CallReport atrace _ _ _ => atrace | _ => true end.

(** The counters [cs] of a call take the session from [d] to [d']. *)
Record accounts (cs : list (string * Z)) (d d' : AppHintDesc) : Prop := {
  ac_min : default (current_min d) (counter "-min" cs) = current_min d';
  ac_active : default (Z.b2z (is_active d)) (counter "-active" cs) = Z.b2z (is_active d');
  ac_target : default (duration d) (counter "-target" cs) = duration d';
  ac_id : tgid d' = tgid d /\ uid d' = uid d
}.

(** ** Lemmas *)

Lemma counter_app name l l' :
  counter name (l ++ l') = match counter name l' with Some v => Some v | None => counter name l end.
Proof.
  unfold counter. rewrite filter_app, last_app. by destruct (last (filter _ l')).
Qed.

Lemma counter_name_inj this d sfx sfx' : counter_name this d sfx = counter_name this d sfx' -> sfx = sfx'.
Proof. unfold counter_name. by intros E%(inj (String.append _))%(inj (String.append _)). Qed.

(** The counters of two sessions are the same only for one process, user and low half
    of the address. *)
Lemma counter_names_apart this this' d d' x x' :
  0 <= tgid d -> 0 <= uid d -> 0 <= tgid d' -> 0 <= uid d' -> 0 <= this -> 0 <= this' ->
  counter_name this d (String "-" x) = counter_name this' d' (String "-" x') ->
  tgid d = tgid d' /\ uid d = uid d' /\ Z.land this 0xffff = Z.land this' 0xffff /\ x = x'.
Proof.
  intros ? ? ? ? ? ? E. unfold counter_name, getIdString in E. rewrite !string_app_assoc in E.
  apply (inj (String.append "adpf.")) in E.
  assert (forall a, 0 <= a -> 0 <= Z.land a 0xffff < 2 ^ 32) as Hl.
  { intros a Ha. change 0xffff with (Z.ones 16). rewrite Z.land_ones by lia.
    pose proof (Z.mod_pos_bound a (2 ^ 16)). lia. }
  apply (split_at_sep dec_char (dec _) (dec _) "-") in E as [E1 E]; [|by apply dec_chars..|apply dash_no_dec_char].
  apply (split_at_sep dec_char (dec _) (dec _) "-") in E as [E2 E]; [|by apply dec_chars..|apply dash_no_dec_char].
  apply (split_at_sep dec_char (hex _) (hex _) "-") in E as [E3 E];
    [|by apply hex_go_chars; [apply Hl|]..|apply dash_no_dec_char].
  apply (inj pretty) in E1, E2. apply hex_inj in E3; [|by apply Hl..]. done.
Qed.

Lemma counter_traced record this s sfx cs :
  counter (counter_name this (mDescriptor s) sfx) (traced record this s cs) = record <$> counter sfx cs.
Proof.
  induction cs as [|[x v] cs IH] using rev_ind; [done|].
  unfold traced in *. rewrite map_app, !counter_app, IH. cbn [map].
  unfold counter. rewrite !filter_cons, !filter_nil. cbn [fst].
  change ("adpf." +:+ getIdString this (mDescriptor s) +:+ x) with (counter_name this (mDescriptor s) x).
  destruct (decide (x = sfx)) as [->|Hne].
  - by rewrite decide_True.
  - rewrite decide_False; [done|]. by intros E%counter_name_inj.
Qed.

Lemma getIdString_same this d d' : tgid d' = tgid d /\ uid d' = uid d -> getIdString this d' = getIdString this d.
Proof. unfold getIdString. by intros [-> ->]. Qed.

Lemma accounts_refl d : accounts [] d d.
Proof. by split. Qed.

(** A call that writes the clamp through setUclamp. *)
Lemma accounts_setUclamp t lo s :
  accounts (setUclamp_counters lo kMaxUclampValue) (mDescriptor s) (mDescriptor (setUclamp t lo kMaxUclampValue s).1).
Proof. by split. Qed.

Lemma accounts_app cs cs' d d' d'' : accounts cs d d' -> accounts cs' d' d'' -> accounts (cs ++ cs') d d''.
Proof.
  intros [H1 H2 H3 [H4 H5]] [G1 G2 G3 [G4 G5]]. split; rewrite ?counter_app.
  - by destruct (counter "-min" cs'); [|rewrite <- G1].
  - by destruct (counter "-active" cs'); [|rewrite <- G2].
  - by destruct (counter "-target" cs'); [|rewrite <- G3].
  - split; congruence.
Qed.

(** What a method does to the fields the counters do not tell. *)
Record same_told (d d' : AppHintDesc) : Prop := {
  st_min : current_min d' = current_min d;
  st_active : is_active d' = is_active d;
  st_target : duration d' = duration d;
  st_id : tgid d' = tgid d /\ uid d' = uid d
}.

Lemma accounts_told cs d d1 d2 : accounts cs d d1 -> same_told d1 d2 -> accounts cs d d2.
Proof. intros [H1 H2 H3 [H4 H5]] [G1 G2 G3 [G4 G5]]. split; try split; congruence. Qed.

Lemma told_accounts cs d d1 d2 : same_told d d1 -> accounts cs d1 d2 -> accounts cs d d2.
Proof. intros [G1 G2 G3 [G4 G5]] [H1 H2 H3 [H4 H5]]. split; try split; congruence. Qed.

Lemma accounts_quiet d d' : same_told d d' -> accounts [] d d'.
Proof. apply accounts_told, accounts_refl. Qed.

Lemma updateStaleTimer_told t running now s :
  same_told (mDescriptor s) (mDescriptor (updateStaleTimer t running now s).1).
Proof. unfold updateStaleTimer. by destruct running, (mIsMonitoringStale (mStaleHandler s)). Qed.

Lemma apply_output_accounts t output s s' eff : apply_output t output s = Some (s', eff) ->
  accounts (apply_output_counters t output s) (mDescriptor s) (mDescriptor s').
Proof.
  unfold apply_output, apply_output_counters. destruct (output =? 0); [intros [= <- <-]; apply accounts_refl|].
  intros H. destruct (ck32 _) as [delta|] eqn:Ed; [|done]. cbn [mbind option_bind] in H.
  assert (delta = current_min (mDescriptor s) - next_uclamp_min t output) as ->.
  { revert Ed. unfold ck_s. repeat case_match; congruence. }
  destruct (_ <? u32 _); injection H as <- <-; [apply (accounts_setUclamp t)|apply accounts_refl].
Qed.

Lemma apply_output_counters_min t output s s1 : current_min (mDescriptor s1) = current_min (mDescriptor s) ->
  apply_output_counters t output s1 = apply_output_counters t output s.
Proof. unfold apply_output_counters. by intros ->. Qed.

(** The counters of a report that are not about the clamp. *)
Lemma report_head_accounts (wk : list (string * Z)) e i dr al n uc p io d o st ov running dsc :
  counter "-min" wk = None -> counter "-active" wk = None -> counter "-target" wk = None ->
  accounts (wk ++ [("-err", e); ("-integral", i); ("-derivative", dr); ("-actl_last", al);
    ("-target", duration dsc); ("-sample_size", n); ("-pid.count", uc); ("-pid.pOut", p); ("-pid.iOut", io);
    ("-pid.dOut", d); ("-pid.output", o); ("-stale", st); ("-pid.overtime", ov)] ++
    updateStaleTimer_counters running) dsc dsc.
Proof. intros H1 H2 H3. split; [| | |done]; rewrite !counter_app, ?H1, ?H2, ?H3; by destruct running. Qed.

Lemma report_accounts t running now1 now2 now3 ds s st s' eff cs :
  reportActualWorkDuration t running true now1 now2 ds s = Some (st, s', eff) ->
  reportActualWorkDuration_counters t running now1 now3 ds s = Some cs ->
  accounts cs (mDescriptor s) (mDescriptor s').
Proof.
  unfold reportActualWorkDuration, reportActualWorkDuration_counters, isActive. intros Hr Hc.
  destruct (duration (mDescriptor s) =? 0); [simplify_eq/=; apply accounts_refl|].
  case_bool_decide; [simplify_eq/=; apply accounts_refl|].
  destruct (negb (is_active (mDescriptor s))); [simplify_eq/=; apply accounts_refl|]. cbn [orb] in Hc.
  unfold report_counters in Hc. set (stale := running && isStale t now1 s) in *.
  set (s0 := if stale then _ else s) in Hr. 
  set (i0 := if stale then Z.max (sPidIInit t) (integral_error (mDescriptor s)) else integral_error (mDescriptor s)) in *.
  assert (mDescriptor s0 = if stale then set_integral i0 (mDescriptor s) else mDescriptor s) as E0 by (by destruct stale).
  assert (same_told (mDescriptor s) (mDescriptor s0)) as Ht0 by (rewrite E0; by destruct stale).
  assert (integral_error (mDescriptor s0) = i0 /\ previous_error (mDescriptor s0) = previous_error (mDescriptor s) /\
    duration (mDescriptor s0) = duration (mDescriptor s)) as (Ei & Ep & Edu) by (rewrite E0; by destruct stale).
  rewrite Ei, Ep, Edu in Hr. apply bind_Some in Hr as ([a output] & Ha & Hr). rewrite Ha in Hc. cbn [mbind option_bind] in Hc.
  apply bind_Some in Hc as (p & _ & Hc). apply bind_Some in Hc as (io & _ & Hc). apply bind_Some in Hc as (d & _ & Hc).
  destruct (updateStaleTimer _ _ _ _) as [s1 eff1] eqn:Eu. apply bind_Some in Hr as ([s2 eff2] & Ho & Hr).
  injection Hr as _ <- _. injection Hc as <-.
  assert (same_told (mDescriptor s) (mDescriptor s1)) as Ht1.
  { pose proof (updateStaleTimer_told t running now2 (with_desc (set_pid (pid_integral a) (pid_previous a)) s0)) as Hu.
    rewrite Eu in Hu. destruct Ht0 as [? ? ? []], Hu as [? ? ? []]. split; try split; cbn in *; congruence. }
  apply apply_output_accounts in Ho.
  rewrite (apply_output_counters_min t output s s1) in Ho by apply Ht1.
  eapply accounts_app; [|eapply told_accounts; [exact Ht1|exact Ho]]. apply report_head_accounts; by destruct stale.
Qed.

Lemma call_accounts t running now3 c s st s' eff cs : traced_call c = true ->
  session_exec t running c s = Some (st, s', eff) -> session_counters t running now3 c s = Some cs ->
  accounts cs (mDescriptor s) (mDescriptor s').
Proof.
  intros Ht He Hc. destruct c; cbn in Ht, He, Hc.
  - injection Hc as <-. unfold pause, pause_counters, isActive in *. destruct (is_active _); simplify_eq/=; [by split|apply accounts_refl].
  - injection Hc as <-. unfold resume, resume_counters, isActive in *. destruct (is_active _); simplify_eq/=; [apply accounts_refl|by split].
  - injection Hc as <-. unfold close, close_counters in *. destruct (mSessionClosed s); simplify_eq/=; [apply accounts_refl|by split].
  - injection Hc as <-. unfold updateTargetWorkDuration, updateTarget_counters in *.
    destruct (ns <=? 0); [simplify_eq/=; apply accounts_refl|].
    apply bind_Some in He as ([? ?] & He & [= -> -> _]). apply bind_Some in He as (q & _ & He).
    apply bind_Some in He as (sc & _ & [= _ <-]). by split.
  - subst. by eapply report_accounts.
  - injection Hc as <-. unfold handleStaleMessage, handleStale_counters in *. destruct (_ <? now); simplify_eq/=; [by split|apply accounts_refl].
Qed.

Lemma call_id t running now3 c s st s' eff cs : traced_call c = true ->
  session_exec t running c s = Some (st, s', eff) -> session_counters t running now3 c s = Some cs ->
  tgid (mDescriptor s') = tgid (mDescriptor s) /\ uid (mDescriptor s') = uid (mDescriptor s).
Proof. intros. by eapply ac_id, call_accounts. Qed.

(** What a trace tells of a descriptor. *)
Record mirrors (record : Z -> Z) (this : Z) (trace : list (string * Z)) (d : AppHintDesc) : Prop := {
  mi_min : counter (counter_name this d "-min") trace = Some (record (current_min d));
  mi_active : counter (counter_name this d "-active") trace = Some (record (Z.b2z (is_active d)));
  mi_target : counter (counter_name this d "-target") trace = Some (record (duration d))
}.

Lemma mirrors_traced record this trace s cs d' : mirrors record this trace (mDescriptor s) ->
  accounts cs (mDescriptor s) d' -> mirrors record this (trace ++ traced record this s cs) d'.
Proof.
  intros [M1 M2 M3] [H1 H2 H3 Hid]. pose proof (getIdString_same this _ _ Hid) as Es.
  assert (forall sfx, counter_name this d' sfx = counter_name this (mDescriptor s) sfx) as En.
  { intros sfx. unfold counter_name. by rewrite Es. }
  split; rewrite En, counter_app, counter_traced.
  - rewrite <- H1. by destruct (counter "-min" cs).
  - rewrite <- H2. by destruct (counter "-active" cs).
  - rewrite <- H3. by destruct (counter "-target" cs).
Qed.

Lemma traced_run_mirrors t record this running calls : forall trace s s' rest,
  Forall (fun c => traced_call c.1 = true) calls -> mirrors record this trace (mDescriptor s) ->
  traced_run t record this running calls s = Some (s', rest) -> mirrors record this (trace ++ rest) (mDescriptor s').
Proof.
  induction calls as [|[c now3] calls IH]; intros trace s s' rest Hc Hm Hr; cbn in Hr.
  { injection Hr as <- <-. by rewrite app_nil_r. }
  apply Forall_cons in Hc as [Hc Hcs]. apply bind_Some in Hr as (cs & Ecs & Hr).
  apply bind_Some in Hr as ([[st s1] eff] & Ee & Hr). apply bind_Some in Hr as ([s2 rest'] & Er & [= <- <-]).
  rewrite (assoc_L (++)). eapply IH; [done| |exact Er]. eapply mirrors_traced; [exact Hm|]. by eapply call_accounts.
Qed.

Lemma new_mirrors t record this tg u tids dur rate now now' :
  let s := (PowerHintSession_new t tg u tids dur rate now).1 in
  mirrors record this (traced record this s (new_counters t now' s)) (mDescriptor s).
Proof. cbv zeta. split; by rewrite counter_traced. Qed.

(** ** Properties *)

(** C8: With tracing enabled, after any calls the last values traced for a session are
    those of its state: the -min counter is the clamp it has recorded, -active whether
    it is active, -target its target; and once it is destroyed its target and activity
    read 0. *)
Theorem trace_mirrors_session t record this running tg u tids dur rate now now' calls s trace :
  Forall (fun c => traced_call c.1 = true) calls ->
  traced_session t record this running tg u tids dur rate now now' calls = Some (s, trace) ->
  let d := mDescriptor s in
  counter (counter_name this d "-min") trace = Some (record (current_min d)) /\
  counter (counter_name this d "-active") trace = Some (record (Z.b2z (is_active d))) /\
  counter (counter_name this d "-target") trace = Some (record (duration d)) /\
  let destroyed := trace ++ traced record this s (destructor_counters s) in
  counter (counter_name this d "-active") destroyed = Some (record 0) /\
  counter (counter_name this d "-target") destroyed = Some (record 0).
Proof.
  intros Hc Hr. unfold traced_session in Hr. cbv zeta in Hr.
  apply bind_Some in Hr as ([s1 rest] & Er & [= <- <-]).
  destruct (traced_run_mirrors _ _ _ _ _ _ _ _ _ Hc (new_mirrors t record this tg u tids dur rate now now') Er) as [M1 M2 M3].
  cbv zeta. split_and!; [done..| |]; rewrite counter_app, counter_traced; unfold destructor_counters, close_counters;
    by destruct (mSessionClosed s1).
Qed.

(** *** Witness *)

(** A report of an overrun, a pause, a rejected report, a resume with a new target and
    the stale message. *)
Definition demo_calls : list (session_call * Z) :=
  [(CallReport true 1000 2000 [20000000], 1500); (CallPause, 0); (CallReport true 3000 3000 [1], 3000);
   (CallResume, 0); (CallUpdateTarget 8000000, 0); (CallStaleMessage 10000000000, 0)].

Definition demo_session : option (PowerHintSession * list (string * Z)) :=
  traced_session default_tunables (wrap_s 32) 0x1234abcd true 1000 10005 [31; 32] 16000000 16666666 0 0 demo_calls.

Definition demo_end : PowerHintSession * list (string * Z) :=
  default ((PowerHintSession_new default_tunables 0 0 [] 0 0 0).1, []) demo_session.

Lemma demo_session_runs :
  traced_session default_tunables (wrap_s 32) 0x1234abcd true 1000 10005 [31; 32] 16000000 16666666 0 0 demo_calls =
    Some (demo_end.1, demo_end.2).
Proof. vm_compute. reflexivity. Qed.

Lemma demo_session_values :
  counter "adpf.1000-10005-abcd-min" demo_end.2 = Some 0 /\
  counter "adpf.1000-10005-abcd-active" demo_end.2 = Some 1 /\
  counter "adpf.1000-10005-abcd-target" demo_end.2 = Some 8000000.
Proof. vm_compute. auto. Qed.

Lemma trace_mirrors_session_witness :
  let d := mDescriptor demo_end.1 in
  counter (counter_name 0x1234abcd d "-min") demo_end.2 = Some (i32 (current_min d)) /\
  counter (counter_name 0x1234abcd d "-active") demo_end.2 = Some (i32 (Z.b2z (is_active d))) /\
  counter (counter_name 0x1234abcd d "-target") demo_end.2 = Some (i32 (duration d)).
Proof.
  destruct (trace_mirrors_session default_tunables (wrap_s 32) 0x1234abcd true 1000 10005 [31; 32] 16000000 16666666 0 0
    demo_calls demo_end.1 demo_end.2) as (H1 & H2 & H3 & _).
  - repeat constructor.
  - exact demo_session_runs.
  - exact (conj H1 (conj H2 H3)).
Defined.
