(* ===== verification/Sysfs.v ===== *)
(** Sysfs nodes as the HALs use them: one line of text per path, written through
    an output stream that may fail to open or to write.

    [nodes] is the text last written to each path; [node_env] says which paths can
    be opened for writing and which accept a write. *)
From S2P Require Import Prelude Texts.

Abbreviation nodes := (gmap string string).

Record node_env := {
  node_opens : string -> bool;
  node_writes : string -> bool
}.

(** ** Reading numbers *)

(** The digits at the front of [s], after [acc]. *)
Fixpoint strtol_digits (s : string) (acc : Z) : Z :=
  match s with
  | String c s =>
      let d := Z.of_nat (Ascii.nat_of_ascii c) - 48 in
      if (0 <=? d) && (d <=? 9) then strtol_digits s (10 * acc + d) else acc
  | EmptyString => acc
  end.

(** [isspace] of the C locale *)
Fixpoint skip_space (s : string) : string :=
  match s with
  | String c rest =>
      let n := Ascii.nat_of_ascii c in
      if (n =? 32)%nat || ((9 <=? n) && (n <=? 13))%nat then skip_space rest else s
  | EmptyString => s
  end.

(** ** Writing *)

(** The template [writeNode]: the value as text, or an error. *)
Definition writeNode (env : node_env) (path value : string) (fs : nodes) : ScopedAStatus * nodes :=
  if negb (node_opens env path) then (fromStatus_UNKNOWN_ERROR, fs)
  else if negb (node_writes env path) then (fromStatus_UNKNOWN_ERROR, fs)
  else (status_ok, <[path := value]> fs).

(** The same write with its errors ignored. *)
Definition set_node (env : node_env) (path value : string) (fs : nodes) : nodes :=
  snd (writeNode env path value fs).

Definition all_nodes : node_env := {| node_opens _ := true; node_writes _ := true |}.

Lemma set_node_ok env path value fs :
  node_opens env path = true -> node_writes env path = true ->
  set_node env path value fs = <[path := value]> fs.
Proof. intros Ho Hw. unfold set_node, writeNode. by rewrite Ho, Hw. Qed.

Lemma set_node_other env path value fs path' :
  path <> path' -> set_node env path value fs !! path' = fs !! path'.
Proof.
  intros. unfold set_node, writeNode. repeat case_match; simpl; [done..|].
  by rewrite lookup_insert_ne.
Qed.

Lemma writeNode_status env path value fs :
  fst (writeNode env path value fs) = status_ok <->
  node_opens env path = true /\ node_writes env path = true.
Proof. unfold writeNode. destruct (node_opens env path), (node_writes env path); naive_solver. Qed.

Lemma set_node_self env path value fs :
  set_node env path value fs !! path = fs !! path \/ set_node env path value fs !! path = Some value.
Proof.
  unfold set_node, writeNode. repeat case_match; simpl; auto. right. by rewrite lookup_insert_eq.
Qed.
