(* ===== verification/VibratorHal.v ===== *)
(** Model of the vibrator HAL (src/aidl/vibrator/Vibrator.{h,cpp}).

    The object is its fields; the three timed-output nodes are [nodes] under a
    [node_env].  A method returns its status, the nodes it leaves and, where it
    starts a thread for the callback, the microseconds that thread sleeps
    ([CbUndefined] when computing them overflows an [int]).  Amplitudes are IEEE
    single-precision values. *)
From S2P Require Import Prelude Doubles Texts Sysfs.

(** ** Data *)

Inductive Effect :=
  | CLICK | DOUBLE_CLICK | TICK | THUD | POP | HEAVY_CLICK
  | RINGTONE_1 | RINGTONE_2 | RINGTONE_3 | RINGTONE_4 | RINGTONE_5 | RINGTONE_6 | RINGTONE_7
  | RINGTONE_8 | RINGTONE_9 | RINGTONE_10 | RINGTONE_11 | RINGTONE_12 | RINGTONE_13
  | RINGTONE_14 | RINGTONE_15 | TEXTURE_TICK | EffectOther (value : Z).

Inductive EffectStrength := LIGHT | MEDIUM | STRONG | StrengthOther (value : Z).

#[export] Instance Effect_eq_dec : EqDecision Effect.
Proof. solve_decision. Defined.

Definition INTENSITY_MAX : Z := 10000.
Definition VIBRATOR_TIMEOUT_PATH : string := "/sys/class/timed_output/vibrator/enable".
Definition VIBRATOR_INTENSITY_PATH : string := "/sys/class/timed_output/vibrator/intensity".
Definition VIBRATOR_CP_TRIGGER_PATH : string := "/sys/class/timed_output/vibrator/cp_trigger_index".

(** The capability bits of the AIDL interface that the code combines. *)
Record vibrator_caps := {
  CAP_ON_CALLBACK : Z;
  CAP_PERFORM_CALLBACK : Z;
  CAP_AMPLITUDE_CONTROL : Z;
  CAP_EXTERNAL_CONTROL : Z;
  CAP_EXTERNAL_AMPLITUDE_CONTROL : Z
}.

Record Vibrator := {
  mEnabled : bool;
  mExternalControl : bool;
  mIsTimedOutVibrator : bool;
  mHasTimedOutIntensity : bool;
  mHasTimedOutEffect : bool
}.

Definition CP_TRIGGER_EFFECTS (e : Effect) : option Z :=
  match e with
  | CLICK => Some 10
  | DOUBLE_CLICK => Some 14
  | HEAVY_CLICK => Some 23
  | TEXTURE_TICK => Some 50
  | TICK => Some 50
  | _ => None
  end.

(** The thread started for a callback. *)
Inductive callback_thread :=
  | CbNone
  | CbAfter (us : Z)
  | CbUndefined.

(** ** Operations *)

Section vibrator.
Context (env : node_env).

Definition nodeExists (path : string) : bool := node_opens env path.

Definition Vibrator_new : Vibrator := {|
  mEnabled := false;
  mExternalControl := false;
  mIsTimedOutVibrator := nodeExists VIBRATOR_TIMEOUT_PATH;
  mHasTimedOutIntensity := nodeExists VIBRATOR_INTENSITY_PATH;
  mHasTimedOutEffect := nodeExists VIBRATOR_CP_TRIGGER_PATH
|}.

Definition getCapabilities (c : vibrator_caps) (v : Vibrator) : ScopedAStatus * Z :=
  let r := Z.lor (Z.lor (CAP_ON_CALLBACK c) (CAP_PERFORM_CALLBACK c)) (CAP_EXTERNAL_CONTROL c) in
  (status_ok,
   if mHasTimedOutIntensity v
   then Z.lor (Z.lor r (CAP_AMPLITUDE_CONTROL c)) (CAP_EXTERNAL_AMPLITUDE_CONTROL c) else r).

Definition activate (timeoutMs : Z) (v : Vibrator) (fs : nodes) : ScopedAStatus * nodes :=
  if negb (mIsTimedOutVibrator v) then (fromExceptionCode EX_UNSUPPORTED_OPERATION, fs)
  else writeNode env VIBRATOR_TIMEOUT_PATH (dec timeoutMs) fs.

Definition off (v : Vibrator) (fs : nodes) : ScopedAStatus * nodes := activate 0 v fs.

(** [timeoutMs] is passed on as [uint32_t]; the callback thread multiplies the
    [int32_t]. *)
Definition on (timeoutMs : Z) (callback : bool) (v : Vibrator) (fs : nodes) :
    ScopedAStatus * nodes * callback_thread :=
  let fs := if mHasTimedOutEffect v then set_node env VIBRATOR_CP_TRIGGER_PATH (dec 0) fs else fs in
  let '(status, fs) := activate (u32 timeoutMs) v fs in
  (status, fs,
   if callback
   then match ck32 (timeoutMs * 1000) with Some us => CbAfter (u32 us) | None => CbUndefined end
   else CbNone).

Definition strengthToAmplitude (strength : EffectStrength) : Z * ScopedAStatus :=
  match strength with
  | LIGHT => (64, status_ok)
  | MEDIUM => (128, status_ok)
  | STRONG => (255, status_ok)
  | StrengthOther _ => (0, fromExceptionCode EX_UNSUPPORTED_OPERATION)
  end.

Definition effectToMs (effect : Effect) : Z * ScopedAStatus :=
  match effect with
  | CLICK => (10, status_ok)
  | DOUBLE_CLICK => (15, status_ok)
  | TICK | TEXTURE_TICK | THUD | POP => (5, status_ok)
  | HEAVY_CLICK => (10, status_ok)
  | RINGTONE_1 | RINGTONE_2 | RINGTONE_3 | RINGTONE_4 | RINGTONE_5 | RINGTONE_6 | RINGTONE_7
  | RINGTONE_8 | RINGTONE_9 | RINGTONE_10 | RINGTONE_11 | RINGTONE_12 | RINGTONE_13
  | RINGTONE_14 | RINGTONE_15 => (30000, status_ok)
  | EffectOther _ => (0, fromExceptionCode EX_UNSUPPORTED_OPERATION)
  end.

(** [lround] of a [double] computed from [float]s, stored in a [uint32_t];
    [None] when the rounded value does not fit a [long]. *)
Definition raw_intensity (amplitude : float) : option Z :=
  let x := ddiv (d_of_float (fmul (fsub amplitude (f_of_Z 1)) (f_of_Z INTENSITY_MAX))) (d_of_Z 254) in
  z ← lround x; Some (u32 z).

(** The debug line that converts the amplitude to [uint32_t] is not modelled. *)
Definition setAmplitude (amplitude : float) (v : Vibrator) (fs : nodes) :
    option (ScopedAStatus * nodes) :=
  if feq amplitude (f_of_Z 0) then Some (fromExceptionCode EX_ILLEGAL_ARGUMENT, fs)
  else
    raw ← raw_intensity amplitude;
    let intensity := if INTENSITY_MAX <? raw then INTENSITY_MAX else raw in
    Some (if intensity =? 0 then (fromExceptionCode EX_ILLEGAL_ARGUMENT, fs)
          else if mHasTimedOutIntensity v
          then writeNode env VIBRATOR_INTENSITY_PATH (dec intensity) fs
          else (status_ok, fs)).

(** [None] only if [setAmplitude] is undefined; [ms] is the value returned. *)
Definition perform (effect : Effect) (strength : EffectStrength) (callback : bool) (v : Vibrator)
    (fs : nodes) : option (ScopedAStatus * nodes * option Z * callback_thread) :=
  let '(amplitude, status) := strengthToAmplitude strength in
  if negb (isOk status) then Some (status, fs, None, CbNone)
  else
    let fs := snd (activate 0 v fs) in
    '(_, fs) ← setAmplitude (f_of_Z amplitude) v fs;
    let finish ms fs :=
      let '(status, fs) := activate ms v fs in
      Some (status, fs, Some ms, if callback then CbAfter (u32 (ms * 1000)) else CbNone) in
    match (if mHasTimedOutEffect v then CP_TRIGGER_EFFECTS effect else None) with
    | Some index => finish 1000 (set_node env VIBRATOR_CP_TRIGGER_PATH (dec index) fs)
    | None =>
        let fs := if mHasTimedOutEffect v
                  then set_node env VIBRATOR_CP_TRIGGER_PATH (dec 0) fs else fs in
        let '(ms, status) := effectToMs effect in
        if negb (isOk status) then Some (status, fs, None, CbNone) else finish ms fs
    end.

Definition getSupportedEffects : ScopedAStatus * list Effect :=
  (status_ok,
   [CLICK; DOUBLE_CLICK; HEAVY_CLICK; TICK; TEXTURE_TICK; THUD; POP; RINGTONE_1; RINGTONE_2;
    RINGTONE_3; RINGTONE_4; RINGTONE_5; RINGTONE_6; RINGTONE_7; RINGTONE_7; RINGTONE_8; RINGTONE_9;
    RINGTONE_10; RINGTONE_11; RINGTONE_12; RINGTONE_13; RINGTONE_14; RINGTONE_15]).

Definition setExternalControl (enabled : bool) (v : Vibrator) : ScopedAStatus * Vibrator :=
  if mEnabled v then (fromExceptionCode EX_UNSUPPORTED_OPERATION, v)
  else (status_ok, {| mEnabled := mEnabled v; mExternalControl := enabled;
                      mIsTimedOutVibrator := mIsTimedOutVibrator v;
                      mHasTimedOutIntensity := mHasTimedOutIntensity v;
                      mHasTimedOutEffect := mHasTimedOutEffect v |}).

(** Compositions, always-on effects, resonance and PWLE, all with the same body. *)
Inductive unsupported_call :=
  | getCompositionDelayMax | getCompositionSizeMax | getSupportedPrimitives | getPrimitiveDuration
  | compose | getSupportedAlwaysOnEffects | alwaysOnEnable | alwaysOnDisable
  | getResonantFrequency | getQFactor | getFrequencyResolution | getFrequencyMinimum
  | getBandwidthAmplitudeMap | getPwlePrimitiveDurationMax | getPwleCompositionSizeMax
  | getSupportedBraking | composePwle.

Definition vibrator_unsupported (c : unsupported_call) : ScopedAStatus :=
  fromExceptionCode EX_UNSUPPORTED_OPERATION.

(** main: [None] when the process aborts before it serves. *)
Definition vibrator_main (addService : Z) : option Vibrator :=
  let vibrator := Vibrator_new in if addService =? 0 then Some vibrator else None.

End vibrator.

(** ** Specification *)

(** The calls that change the object or the nodes. *)
Inductive vib_call :=
  | VOff
  | VOn (timeoutMs : Z) (callback : bool)
  | VPerform (effect : Effect) (strength : EffectStrength) (callback : bool)
  | VSetAmplitude (amplitude : float)
  | VSetExternalControl (enabled : bool).

Definition vib_exec (env : node_env) (c : vib_call) (v : Vibrator) (fs : nodes) :
    option (ScopedAStatus * Vibrator * nodes) :=
  match c with
  | VOff => let '(st, fs) := off env v fs in Some (st, v, fs)
  | VOn ms cb => let '(st, fs, _) := on env ms cb v fs in Some (st, v, fs)
  | VPerform e s cb => '(st, fs, _, _) ← perform env e s cb v fs; Some (st, v, fs)
  | VSetAmplitude a => '(st, fs) ← setAmplitude env a v fs; Some (st, v, fs)
  | VSetExternalControl b => let '(st, v) := setExternalControl b v in Some (st, v, fs)
  end.

Fixpoint vib_run (env : node_env) (cs : list vib_call) (v : Vibrator) (fs : nodes) :
    option (Vibrator * nodes) :=
  match cs with
  | [] => Some (v, fs)
  | c :: cs => '(_, v, fs) ← vib_exec env c v fs; vib_run env cs v fs
  end.

(** Nearest integer to [(a - 1) * 10000 / 254], halves up. *)
Definition scaled_intensity (a : Z) : Z := ((a - 1) * INTENSITY_MAX * 2 + 254) / (2 * 254).

(** What the three nodes and the result should be after [perform] on a device
    with all three nodes. *)
Definition perform_ms (e : Effect) : Z :=
  match CP_TRIGGER_EFFECTS e with Some _ => 1000 | None => fst (effectToMs e) end.

Definition perform_trigger (e : Effect) : Z := default 0 (CP_TRIGGER_EFFECTS e).

Definition strength_intensity (s : EffectStrength) : Z :=
  match s with LIGHT => 2480 | MEDIUM => 5000 | STRONG => 10000 | StrengthOther _ => 0 end.

(** ** Lemmas *)

Definition integer_amplitudes : list Z := seqZ 1 255.

Definition amplitude_agrees (a : Z) : bool :=
  match raw_intensity (f_of_Z a) with Some r => r =? scaled_intensity a | None => false end.

Lemma integer_amplitudes_agree : forallb amplitude_agrees integer_amplitudes = true.
Proof. vm_compute. reflexivity. Qed.

Lemma raw_intensity_integer a : 1 <= a <= 255 -> raw_intensity (f_of_Z a) = Some (scaled_intensity a).
Proof.
  intros Ha. pose proof integer_amplitudes_agree as Hf. rewrite forallb_forall in Hf.
  specialize (Hf a). unfold amplitude_agrees in Hf.
  destruct (raw_intensity (f_of_Z a)); [f_equal; apply Z.eqb_eq, Hf|apply False_rect];
    try (apply list_elem_of_In, elem_of_seqZ; lia).
  apply diff_false_true, Hf, list_elem_of_In, elem_of_seqZ. lia.
Qed.

Lemma scaled_intensity_range a : 2 <= a <= 255 -> 1 <= scaled_intensity a <= INTENSITY_MAX.
Proof. intros. unfold scaled_intensity, INTENSITY_MAX. Z.div_mod_to_equations. lia. Qed.

Lemma setAmplitude_integer env a v fs :
  2 <= a <= 255 ->
  setAmplitude env (f_of_Z a) v fs =
    Some (if mHasTimedOutIntensity v
          then writeNode env VIBRATOR_INTENSITY_PATH (dec (scaled_intensity a)) fs
          else (status_ok, fs)).
Proof.
  intros Ha. pose proof (scaled_intensity_range a Ha). unfold setAmplitude.
  assert (feq (f_of_Z a) (f_of_Z 0) = false) as ->.
  { assert (forallb (fun x => negb (feq (f_of_Z x) (f_of_Z 0))) integer_amplitudes = true) as Hf
      by (vm_compute; reflexivity).
    rewrite forallb_forall in Hf. apply negb_true_iff, Hf, list_elem_of_In, elem_of_seqZ. lia. }
  rewrite raw_intensity_integer by lia. cbn [mbind option_bind].
  by rewrite (proj2 (Z.ltb_ge _ _)), (proj2 (Z.eqb_neq _ _)) by lia.
Qed.

Lemma strength_amplitude s :
  isOk (snd (strengthToAmplitude s)) = true ->
  2 <= fst (strengthToAmplitude s) <= 255 /\
  scaled_intensity (fst (strengthToAmplitude s)) = strength_intensity s.
Proof. destruct s; intros Hok; done || (split; [simpl; lia|reflexivity]). Qed.

(** [perform] as one case analysis on effect and strength, on a device with the
    three nodes. *)
Definition perform_spec (e : Effect) (s : EffectStrength) (callback : bool) (fs : nodes) :
    option (ScopedAStatus * nodes * option Z * callback_thread) :=
  if negb (isOk (snd (strengthToAmplitude s)))
  then Some (fromExceptionCode EX_UNSUPPORTED_OPERATION, fs, None, CbNone)
  else
    let fs := <[VIBRATOR_CP_TRIGGER_PATH := dec (perform_trigger e)]>
                (<[VIBRATOR_INTENSITY_PATH := dec (strength_intensity s)]>
                   (<[VIBRATOR_TIMEOUT_PATH := dec 0]> fs)) in
    if bool_decide (e ∈ snd getSupportedEffects)
    then Some (status_ok, <[VIBRATOR_TIMEOUT_PATH := dec (perform_ms e)]> fs, Some (perform_ms e),
               if callback then CbAfter (perform_ms e * 1000) else CbNone)
    else Some (fromExceptionCode EX_UNSUPPORTED_OPERATION, fs, None, CbNone).

(** Calls change no flag but the one [setExternalControl] stores. *)
Definition with_external (b : bool) (v : Vibrator) : Vibrator := {|
  mEnabled := mEnabled v; mExternalControl := b; mIsTimedOutVibrator := mIsTimedOutVibrator v;
  mHasTimedOutIntensity := mHasTimedOutIntensity v; mHasTimedOutEffect := mHasTimedOutEffect v
|}.

Lemma vib_exec_flags env c v fs st v' fs' :
  vib_exec env c v fs = Some (st, v', fs') -> exists b, v' = with_external b v.
Proof.
  intros Hs. assert (v' = v \/ exists b, c = VSetExternalControl b) as [->|[b ->]].
  { destruct c; simpl in Hs; [..|by eauto]; left.
    - by destruct (off _ _ _); simplify_eq.
    - by destruct (on _ _ _ _ _) as [[]]; simplify_eq.
    - apply bind_Some in Hs as ([[[] ?] ?] & _ & ?). by simplify_eq.
    - apply bind_Some in Hs as ([] & _ & ?). by simplify_eq. }
  - exists (mExternalControl v). by destruct v.
  - simpl in Hs. unfold setExternalControl in Hs. destruct (mEnabled v) eqn:He; injection Hs as <- <- <-.
    + exists (mExternalControl v). by destruct v.
    + exists b. unfold with_external. by rewrite He.
Qed.

Lemma vib_run_flags env cs : forall v fs v' fs',
  vib_run env cs v fs = Some (v', fs') -> exists b, v' = with_external b v.
Proof.
  induction cs as [|c cs IH]; intros v fs v' fs' Hr; simpl in Hr.
  - simplify_eq. exists (mExternalControl v'). by destruct v'.
  - apply bind_Some in Hr as ([[st v1] fs1] & [b ->]%vib_exec_flags & Hr).
    apply IH in Hr as [b' ->]. by exists b'.
Qed.

(** ** Properties *)

(** C20: on a device with the three nodes, [perform] succeeds exactly for the
    strengths the interface defines and the effects [getSupportedEffects] lists; it
    leaves the strength's intensity, the effect's trigger index (0 if it has none)
    and the effect's duration in the three nodes, returns that duration and calls
    back after it; otherwise it reports an unsupported operation and does not start
    the motor. This holds in every state the service can reach from its main. *)
Theorem perform_matches_supported_effects addService v0 cs fs0 v fs e s callback :
  vibrator_main all_nodes addService = Some v0 -> vib_run all_nodes cs v0 fs0 = Some (v, fs) ->
  perform all_nodes e s callback v fs = perform_spec e s callback fs.
Proof.
  unfold vibrator_main. intros Hm [b ->]%vib_run_flags. case_match; [|done]. injection Hm as <-.
  unfold perform, perform_spec. destruct (strengthToAmplitude s) as [a st] eqn:Hs.
  change st with (snd (a, st)). rewrite <- Hs. destruct (isOk _) eqn:Hok; cbn [negb];
    [|by destruct s].
  destruct (strength_amplitude s Hok) as [Ha Hi]. rewrite Hs in Ha, Hi. cbn [fst] in Ha, Hi.
  rewrite setAmplitude_integer, Hi by done. unfold activate, perform_trigger, perform_ms.
  destruct e; try reflexivity.
Qed.

(** amplitudes on the scale 1..255 the formula is written for: for every
    integer amplitude from 2 to 255, the single-precision computation yields exactly
    the nearest integer to (amplitude - 1) * 10000 / 254, between 1 and 10000, and
    that is what is written to the intensity node. *)
Lemma amplitude_255_scale env a v fs :
  2 <= a <= 255 -> mHasTimedOutIntensity v = true ->
  setAmplitude env (f_of_Z a) v fs =
    Some (writeNode env VIBRATOR_INTENSITY_PATH (dec (scaled_intensity a)) fs) /\
  1 <= scaled_intensity a <= INTENSITY_MAX.
Proof.
  intros Ha Hv. rewrite setAmplitude_integer, Hv by done. split; [done|].
  by apply scaled_intensity_range.
Qed.

(** An amplitude of [k] hundredths. *)
Definition hundredths (k : Z) : float := fdiv (f_of_Z k) (f_of_Z 100).

(** on the scale of the AIDL interface, where an amplitude is between 0 and
    1, the same formula goes negative, the rounded value wraps to a large
    [uint32_t], and every amplitude from 0.01 to 0.98 sets the maximum intensity;
    the full amplitude 1.0 is rejected as an illegal argument. *)
Lemma amplitude_unit_scale_saturates env v fs :
  (forall k, 1 <= k <= 98 -> mHasTimedOutIntensity v = true ->
     setAmplitude env (hundredths k) v fs =
       Some (writeNode env VIBRATOR_INTENSITY_PATH (dec INTENSITY_MAX) fs)) /\
  setAmplitude env (hundredths 100) v fs = Some (fromExceptionCode EX_ILLEGAL_ARGUMENT, fs).
Proof.
  split; [|reflexivity]. intros k Hk Hv.
  assert (forallb (fun k => negb (feq (hundredths k) (f_of_Z 0)) &&
    match raw_intensity (hundredths k) with Some r => INTENSITY_MAX <? r | None => false end)
    (seqZ 1 98) = true) as Hf by (vm_compute; reflexivity).
  rewrite forallb_forall in Hf. specialize (Hf k). unfold setAmplitude.
  apply andb_true_iff in Hf as [He Hr]; [|apply list_elem_of_In, elem_of_seqZ; lia].
  apply negb_true_iff in He. rewrite He. destruct (raw_intensity (hundredths k)); [|done].
  cbn [mbind option_bind]. rewrite Hr, Hv. done.
Qed.

(** no call ever sets [mEnabled], so in every reachable state
    [setExternalControl] accepts the request: its guard against an active vibrator
    never fires. *)
Lemma external_control_never_refused env cs v fs enabled :
  vib_run env cs (Vibrator_new env) ∅ = Some (v, fs) ->
  fst (setExternalControl enabled v) = status_ok.
Proof. by intros [b ->]%vib_run_flags. Qed.

(** *** Witnesses *)

Lemma amplitude_255_scale_witness :
  setAmplitude all_nodes (f_of_Z 128) (Vibrator_new all_nodes) ∅ =
    Some (writeNode all_nodes VIBRATOR_INTENSITY_PATH (dec 5000) ∅) /\
  1 <= scaled_intensity 128 <= INTENSITY_MAX.
Proof. apply (amplitude_255_scale all_nodes 128 (Vibrator_new all_nodes) ∅); [lia|reflexivity]. Defined.

(** A click after external control was taken. *)
Lemma perform_matches_supported_effects_witness :
  match vib_run all_nodes [VSetExternalControl true] (Vibrator_new all_nodes) ∅ with
  | Some (v, fs) => mExternalControl v = true /\
      perform all_nodes CLICK MEDIUM true v fs = perform_spec CLICK MEDIUM true fs
  | None => False
  end.
Proof.
  destruct (vib_run _ _ _ _) as [[v fs]|] eqn:Hr; [split|].
  - injection Hr as <- _. reflexivity.
  - exact (perform_matches_supported_effects 0 (Vibrator_new all_nodes) [VSetExternalControl true] ∅ v fs
      CLICK MEDIUM true eq_refl Hr).
  - discriminate Hr.
Defined.

Lemma external_control_never_refused_witness :
  fst (setExternalControl true (Vibrator_new all_nodes)) = status_ok.
Proof.
  apply (external_control_never_refused all_nodes [VOff] (Vibrator_new all_nodes)
    {[VIBRATOR_TIMEOUT_PATH := "0"]}). vm_compute. reflexivity.
Defined.
