(* ===== verification/LightsHal.v ===== *)
(** Model of the light HAL (src/aidl/light/Lights.{h,cpp} with the nodes of
    src/aidl/light/include/samsung_lights.h): the backlight, the buttons and the
    notification LED that battery, notifications and attention share.

    Colours are 32-bit values, the nodes are [nodes] under a [node_env], and the
    number read from max_brightness is an argument ([None] when the read fails).
    The numeric values of [LightType] come from the AIDL interface and are a
    parameter. *)
From S2P Require Import Prelude Doubles Texts Sysfs.

(** ** Data *)

Definition COLOR_MASK : Z := 0x00ffffff.
Definition MAX_INPUT_BRIGHTNESS : Z := 255.
Definition PANEL_BRIGHTNESS_NODE : string := "/sys/class/backlight/panel/brightness".
Definition PANEL_MAX_BRIGHTNESS_NODE : string := "/sys/class/backlight/panel/max_brightness".
Definition BUTTON_BRIGHTNESS_NODE : string := "/sys/class/sec/sec_touchkey/brightness".
Definition LED_BLINK_NODE : string := "/sys/class/sec/led/led_blink".
Definition LED_BLN_NODE : string := "/sys/class/misc/backlightnotification/notification_led".
Definition LED_ADJUSTMENT_R : double := d_of_Z 1.
Definition LED_ADJUSTMENT_G : double := d_of_Z 1.
Definition LED_ADJUSTMENT_B : double := d_of_Z 1.
Definition LED_BRIGHTNESS_BATTERY : Z := 255.
Definition LED_BRIGHTNESS_NOTIFICATION : Z := 255.
Definition LED_BRIGHTNESS_ATTENTION : Z := 255.

Inductive FlashMode := FLASH_NONE | FLASH_HARDWARE | FlashOther (value : Z).

#[export] Instance FlashMode_eq_dec : EqDecision FlashMode.
Proof. solve_decision. Defined.

Record HwLightState := {
  color : Z;
  flashMode : FlashMode;
  flashOnMs : Z;
  flashOffMs : Z
}.

Definition HwLightState_default : HwLightState :=
  {| color := 0; flashMode := FLASH_NONE; flashOnMs := 0; flashOffMs := 0 |}.

(** The lights the constructor registers. *)
Inductive LightType := BACKLIGHT | BUTTONS | BATTERY | NOTIFICATIONS | ATTENTION.

#[export] Instance LightType_eq_dec : EqDecision LightType.
Proof. solve_decision. Defined.

Definition mLights : list LightType := [BACKLIGHT; BUTTONS; BATTERY; NOTIFICATIONS; ATTENTION].

Record Lights := {
  mAttentionState : HwLightState;
  mBatteryState : HwLightState;
  mNotificationState : HwLightState
}.

Definition Lights_new : Lights :=
  {| mAttentionState := HwLightState_default; mBatteryState := HwLightState_default;
     mNotificationState := HwLightState_default |}.

Definition with_color (c : Z) (s : HwLightState) : HwLightState :=
  {| color := c; flashMode := flashMode s; flashOnMs := flashOnMs s; flashOffMs := flashOffMs s |}.

Definition with_flashMode (m : FlashMode) (s : HwLightState) : HwLightState :=
  {| color := color s; flashMode := m; flashOnMs := flashOnMs s; flashOffMs := flashOffMs s |}.

Definition without_flash (s : HwLightState) : HwLightState :=
  {| color := color s; flashMode := flashMode s; flashOnMs := 0; flashOffMs := 0 |}.

(** ** Operations *)

(** [state.color & COLOR_MASK] as a condition. *)
Definition lit (s : HwLightState) : bool := negb (Z.land (color s) COLOR_MASK =? 0).

Definition rgbToBrightness (s : HwLightState) : Z :=
  let color := Z.land (color s) COLOR_MASK in
  Z.shiftr (u32 (77 * Z.land (Z.shiftr color 16) 0xff + 150 * Z.land (Z.shiftr color 8) 0xff +
                 29 * Z.land color 0xff)) 8.

(** A channel times its [double] adjustment factor, back to [uint32_t]. *)
Definition adjust (channel : Z) (factor : double) : Z :=
  default 0 (trunc (dmul (d_of_Z channel) factor)).

Definition calibrateColor (color brightness : Z) : Z :=
  let red := adjust (Z.land (Z.shiftr color 16) 0xFF) LED_ADJUSTMENT_R in
  let green := adjust (Z.land (Z.shiftr color 8) 0xFF) LED_ADJUSTMENT_G in
  let blue := adjust (Z.land color 0xFF) LED_ADJUSTMENT_B in
  u32 (u32 (Z.shiftl (u32 (red * u32 brightness) / 255) 16) +
       u32 (Z.shiftl (u32 (green * u32 brightness) / 255) 8) + u32 (blue * u32 brightness) / 255).

(** [extracted]: what [operator>>] reads from the node, if it can be read. *)
Definition get (extracted : option Z) (def : Z) : Z := default def extracted.

Section lights.
Context (env : node_env).

Definition handleBacklight (max_node : option Z) (s : HwLightState) (fs : nodes) : nodes :=
  let max_brightness := u32 (get max_node MAX_INPUT_BRIGHTNESS) in
  let brightness := rgbToBrightness s in
  let brightness :=
    if max_brightness =? MAX_INPUT_BRIGHTNESS then brightness
    else u32 (brightness * max_brightness) / MAX_INPUT_BRIGHTNESS in
  set_node env PANEL_BRIGHTNESS_NODE (dec brightness) fs.

(** VAR_BUTTON_BRIGHTNESS is not defined. *)
Definition handleButtons (s : HwLightState) (fs : nodes) : nodes :=
  set_node env BUTTON_BRIGHTNESS_NODE (dec (if lit s then 1 else 0)) fs.

(** The state the LED shows, the brightness factor and whether it is a
    notification: the first of notification, attention and battery that is lit. *)
Definition led_source (l : Lights) : option (HwLightState * Z * bool) :=
  if lit (mNotificationState l) then
    Some (mNotificationState l, LED_BRIGHTNESS_NOTIFICATION, true)
  else if lit (mAttentionState l) then
    let s := mAttentionState l in
    let s :=
      if decide (flashMode s = FLASH_HARDWARE) then
        let s := if (0 <? flashOnMs s) && (flashOffMs s =? 0) then with_flashMode FLASH_NONE s else s in
        with_color 0x000000ff s
      else s in
    let s := if decide (flashMode s = FLASH_NONE) then with_color 0 s else s in
    Some (s, LED_BRIGHTNESS_ATTENTION, false)
  else if lit (mBatteryState l) then Some (mBatteryState l, LED_BRIGHTNESS_BATTERY, false)
  else None.

Definition led_text (color on_ms off_ms : Z) : string :=
  ("0x" ++ hex08 color ++ " " ++ dec on_ms ++ " " ++ dec off_ms)%string.

Definition setNotificationLED (l : Lights) (fs : nodes) : nodes :=
  match led_source l with
  | None => set_node env LED_BLINK_NODE "0x00000000 0 0" fs
  | Some (s, brightness, bln) =>
      let s := if decide (flashMode s = FLASH_NONE) then without_flash s else s in
      let c := i32 (calibrateColor (u32 (Z.land (color s) COLOR_MASK)) brightness) in
      let fs := set_node env LED_BLINK_NODE
                  (led_text (u32 c) (flashOnMs s) (flashOffMs s)) fs in
      if bln
      then set_node env LED_BLN_NODE (dec (if Z.land c COLOR_MASK =? 0 then 0 else 1)) fs
      else fs
  end.

Definition handleBattery (s : HwLightState) (l : Lights) (fs : nodes) : Lights * nodes :=
  let l := {| mAttentionState := mAttentionState l; mBatteryState := s;
              mNotificationState := mNotificationState l |} in
  (l, setNotificationLED l fs).

Definition handleNotifications (s : HwLightState) (l : Lights) (fs : nodes) : Lights * nodes :=
  let l := {| mAttentionState := mAttentionState l; mBatteryState := mBatteryState l;
              mNotificationState := s |} in
  (l, setNotificationLED l fs).

Definition handleAttention (s : HwLightState) (l : Lights) (fs : nodes) : Lights * nodes :=
  let l := {| mAttentionState := s; mBatteryState := mBatteryState l;
              mNotificationState := mNotificationState l |} in
  (l, setNotificationLED l fs).

Context (LightType_id : LightType -> Z).

Definition setLightState (max_node : option Z) (id : Z) (s : HwLightState) (l : Lights) (fs : nodes) :
    ScopedAStatus * Lights * nodes :=
  match List.find (fun t => LightType_id t =? id) mLights with
  | None => (fromExceptionCode EX_UNSUPPORTED_OPERATION, l, fs)
  | Some BACKLIGHT => (status_ok, l, handleBacklight max_node s fs)
  | Some BUTTONS => (status_ok, l, handleButtons s fs)
  | Some BATTERY => let '(l, fs) := handleBattery s l fs in (status_ok, l, fs)
  | Some NOTIFICATIONS => let '(l, fs) := handleNotifications s l fs in (status_ok, l, fs)
  | Some ATTENTION => let '(l, fs) := handleAttention s l fs in (status_ok, l, fs)
  end.

(** The [id] of every registered light ([type] and [ordinal] repeat it and 0). *)
Definition getLights : list Z := map LightType_id mLights.

(** A sequence of calls; each carries what max_brightness reads as. *)
Definition lights_exec (lf : Lights * nodes) (c : option Z * Z * HwLightState) : Lights * nodes :=
  let '(max_node, id, s) := c in
  let '(_, l, fs) := setLightState max_node id s (fst lf) (snd lf) in (l, fs).

Definition lights_run (cs : list (option Z * Z * HwLightState)) (lf : Lights * nodes) :
    Lights * nodes := foldl lights_exec lf cs.

End lights.

(** main: [None] when the process aborts before it serves. *)
Definition light_main (addService : Z) : option Lights :=
  let lights := Lights_new in if addService =? 0 then Some lights else None.

(** ** Specification *)

(** A grey with all three channels [c], with any alpha. *)
Definition is_color (alpha r g b : Z) (s : HwLightState) : Prop :=
  0 <= r < 256 /\ 0 <= g < 256 /\ 0 <= b < 256 /\
  color s = i32 (u32 (alpha * 2 ^ 24 + r * 2 ^ 16 + g * 2 ^ 8 + b)).

(** ** Lemmas *)

Lemma land_mask z : Z.land z COLOR_MASK = z mod 2 ^ 24.
Proof. change COLOR_MASK with (Z.ones 24). by rewrite Z.land_ones. Qed.

Lemma land_byte z : Z.land z 0xff = z mod 256.
Proof. change 0xff with (Z.ones 8). by rewrite Z.land_ones. Qed.

(** The three channels of a masked colour. *)
Lemma channels z :
  0 <= z < 2 ^ 24 ->
  Z.land (Z.shiftr z 16) 0xff = z / 65536 /\
  Z.land (Z.shiftr z 8) 0xff = (z / 256) mod 256 /\ Z.land z 0xff = z mod 256 /\
  z = (z / 65536) * 65536 + (z / 256) mod 256 * 256 + z mod 256 /\ 0 <= z / 65536 < 256.
Proof.
  intros Hz. rewrite !land_byte, !Z.shiftr_div_pow2 by lia.
  change (2 ^ 16) with 65536. change (2 ^ 8) with 256. change (2 ^ 24) with 16777216 in Hz.
  assert (z / 65536 = z / 256 / 256) as -> by (by rewrite Z.div_div).
  pose proof (Z.div_mod z 256 ltac:(lia)). pose proof (Z.div_mod (z / 256) 256 ltac:(lia)).
  pose proof (Z.div_pos z 256 ltac:(lia) ltac:(lia)).
  pose proof (Z.div_lt_upper_bound z 256 65536 ltac:(lia) ltac:(lia)).
  split_and!; try done.
  - apply Z.mod_small. split; [by apply Z.div_pos|by apply Z.div_lt_upper_bound].
  - lia.
  - by apply Z.div_pos.
  - by apply Z.div_lt_upper_bound.
Qed.

Lemma adjust_one c : 0 <= c < 256 -> adjust c (d_of_Z 1) = c.
Proof.
  intros Hc. assert (forallb (fun c => adjust c (d_of_Z 1) =? c) (seqZ 0 256) = true) as Hf
    by (vm_compute; reflexivity).
  rewrite forallb_forall in Hf. apply Z.eqb_eq, Hf, list_elem_of_In, elem_of_seqZ. lia.
Qed.

(** With the factors of this board calibration is the identity. *)
Lemma calibrateColor_identity z : 0 <= z < 2 ^ 24 -> calibrateColor z 255 = z.
Proof.
  intros Hz. destruct (channels z Hz) as (Hr & Hg & Hb & Hsum & Hrr).
  assert (0 <= (z / 256) mod 256 < 256 /\ 0 <= z mod 256 < 256) as [? ?]
    by (split; apply Z.mod_pos_bound; lia).
  unfold calibrateColor. rewrite Hr, Hg, Hb.
  unfold LED_ADJUSTMENT_R, LED_ADJUSTMENT_G, LED_ADJUSTMENT_B.
  rewrite !adjust_one by lia. change (u32 255) with 255. rewrite !Z.shiftl_mul_pow2 by lia.
  change (2 ^ 16) with 65536. change (2 ^ 8) with 256.
  rewrite !(wrap_u_id 32 (_ * 255)) by (width_simpl; lia). rewrite !Z.div_mul by lia.
  rewrite (wrap_u_id 32 (_ * 65536)), (wrap_u_id 32 (_ * 256)) by (width_simpl; lia).
  rewrite wrap_u_id by (width_simpl; lia). lia.
Qed.

Lemma is_color_mask alpha r g b s :
  is_color alpha r g b s -> Z.land (color s) COLOR_MASK = r * 65536 + g * 256 + b.
Proof.
  intros (? & ? & ? & ->). rewrite land_mask. clia.
Qed.

Lemma rgbToBrightness_value s :
  let c := Z.land (color s) COLOR_MASK in
  rgbToBrightness s = (77 * (c / 65536) + 150 * ((c / 256) mod 256) + 29 * (c mod 256)) / 256.
Proof.
  cbv zeta. unfold rgbToBrightness. rewrite land_mask.
  destruct (channels (color s mod 2 ^ 24)) as (-> & -> & -> & _ & Hr); [apply Z.mod_pos_bound; lia|].
  rewrite Z.shiftr_div_pow2 by lia. rewrite wrap_u_id; [done|].
  pose proof (Z.mod_pos_bound (color s mod 2 ^ 24 / 256) 256 ltac:(lia)).
  pose proof (Z.mod_pos_bound (color s mod 2 ^ 24) 256 ltac:(lia)). width_simpl. lia.
Qed.

Lemma rgbToBrightness_range s : 0 <= rgbToBrightness s <= 255.
Proof.
  rewrite rgbToBrightness_value, land_mask.
  pose proof (Z.mod_pos_bound (color s) (2 ^ 24) ltac:(lia)) as Hm.
  set (c := color s mod 2 ^ 24) in *. change (2 ^ 24) with 16777216 in Hm.
  Z.div_mod_to_equations. lia.
Qed.

(** What the LED shows for three light states: colour, on and off times. *)
Definition flash_times (s : HwLightState) : Z * Z :=
  if decide (flashMode s = FLASH_NONE) then (0, 0) else (flashOnMs s, flashOffMs s).

Definition led_shown (notification attention battery : HwLightState) : Z * (Z * Z) :=
  if lit notification then (Z.land (color notification) COLOR_MASK, flash_times notification)
  else if lit attention then
    match flashMode attention with
    | FLASH_NONE => (0, (0, 0))
    | FLASH_HARDWARE =>
        if (0 <? flashOnMs attention) && (flashOffMs attention =? 0) then (0, (0, 0))
        else (0xff, (flashOnMs attention, flashOffMs attention))
    | FlashOther _ =>
        (Z.land (color attention) COLOR_MASK, (flashOnMs attention, flashOffMs attention))
    end
  else if lit battery then (Z.land (color battery) COLOR_MASK, flash_times battery)
  else (0, (0, 0)).

Definition shown_text (x : Z * (Z * Z)) : string := led_text (fst x) (fst (snd x)) (snd (snd x)).

(** The state last requested for a light. *)
Definition last_state (id : Z) (cs : list (option Z * Z * HwLightState)) : HwLightState :=
  foldl (fun acc c => if snd (fst c) =? id then snd c else acc) HwLightState_default cs.

Definition led_light (t : LightType) : bool :=
  match t with BATTERY | NOTIFICATIONS | ATTENTION => true | _ => false end.

Lemma calibrated z :
  let c := i32 (calibrateColor (u32 (Z.land z COLOR_MASK)) 255) in
  u32 c = Z.land z COLOR_MASK /\ Z.land c COLOR_MASK = Z.land z COLOR_MASK.
Proof.
  cbv zeta. rewrite (land_mask z). pose proof (Z.mod_pos_bound z (2 ^ 24) ltac:(lia)) as Hm.
  assert (z mod 2 ^ 24 < 2 ^ 31) by lia.
  rewrite (wrap_u_id 32 (z mod 2 ^ 24)) by (width_simpl; lia).
  rewrite calibrateColor_identity by done.
  rewrite wrap_s_id by (width_simpl; lia). rewrite wrap_u_id by (width_simpl; lia).
  split; [done|]. rewrite land_mask. by apply Z.mod_small.
Qed.

(** What one LED update writes. *)
Lemma setNotificationLED_spec env l fs :
  node_opens env LED_BLINK_NODE = true -> node_writes env LED_BLINK_NODE = true ->
  setNotificationLED env l fs !! LED_BLINK_NODE =
    Some (shown_text (led_shown (mNotificationState l) (mAttentionState l) (mBatteryState l))).
Proof.
  intros Ho Hw. unfold setNotificationLED, led_source, led_shown, flash_times, shown_text,
    LED_BRIGHTNESS_NOTIFICATION, LED_BRIGHTNESS_ATTENTION, LED_BRIGHTNESS_BATTERY.
  destruct (lit (mNotificationState l)).
  { rewrite set_node_other by done. rewrite set_node_ok, lookup_insert_eq by done.
    case_decide; simpl; by rewrite (proj1 (calibrated _)). }
  destruct (lit (mAttentionState l)).
  { rewrite set_node_ok, lookup_insert_eq by done. rewrite (proj1 (calibrated _)).
    destruct (mAttentionState l) as [c [] on_ms off_ms]; simpl; try done.
    by destruct (_ && _). }
  destruct (lit (mBatteryState l)).
  { rewrite set_node_ok, lookup_insert_eq by done. rewrite (proj1 (calibrated _)).
    by case_decide. }
  by rewrite set_node_ok, lookup_insert_eq.
Qed.

(** The notification node only ever receives a 1. *)
Lemma setNotificationLED_bln env l fs :
  setNotificationLED env l fs !! LED_BLN_NODE = fs !! LED_BLN_NODE \/
  setNotificationLED env l fs !! LED_BLN_NODE = Some "1".
Proof.
  unfold setNotificationLED, led_source.
  destruct (lit (mNotificationState l)) eqn:Hl.
  - unfold LED_BRIGHTNESS_NOTIFICATION.
    assert (forall s', color s' = color (mNotificationState l) ->
      (Z.land (i32 (calibrateColor (u32 (Z.land (color s') COLOR_MASK)) 255)) COLOR_MASK =? 0) = false)
      as Hc.
    { intros s' Hs'. rewrite (proj2 (calibrated _)), Hs'. by apply negb_true_iff in Hl. }
    rewrite Hc by (by case_decide).
    match goal with |- context [set_node env LED_BLN_NODE ?v ?fs1] =>
      destruct (set_node_self env LED_BLN_NODE v fs1) as [Hs|Hs] end; rewrite Hs; [left|by right].
    by rewrite set_node_other.
  - repeat case_match; simplify_eq; left; by rewrite set_node_other.
Qed.

(** A call stores its state and refreshes the nodes of its light. *)
Lemma lights_exec_states env ids l fs c :
  (forall t t', ids t = ids t' -> t = t') ->
  let l' := fst (lights_exec env ids (l, fs) c) in
  let upd t old := if snd (fst c) =? ids t then snd c else old in
  mNotificationState l' = upd NOTIFICATIONS (mNotificationState l) /\
  mAttentionState l' = upd ATTENTION (mAttentionState l) /\
  mBatteryState l' = upd BATTERY (mBatteryState l).
Proof.
  intros Hinj. destruct c as [[m id] s]. simpl. unfold setLightState, mLights. simpl.
  repeat match goal with |- context [ids ?t =? id] => destruct (Z.eqb_spec (ids t) id) end;
    subst; simpl; repeat match goal with |- context [ids ?a =? ids ?b] =>
      destruct (Z.eqb_spec (ids a) (ids b)) as [?%Hinj|] end; try done;
    rewrite ?Z.eqb_refl; repeat case_match; try done; try lia.
Qed.

Lemma lights_run_states env ids cs :
  (forall t t', ids t = ids t' -> t = t') ->
  let l := fst (lights_run env ids cs (Lights_new, ∅)) in
  mNotificationState l = last_state (ids NOTIFICATIONS) cs /\
  mAttentionState l = last_state (ids ATTENTION) cs /\
  mBatteryState l = last_state (ids BATTERY) cs.
Proof.
  intros Hinj. cbv zeta. unfold lights_run, last_state.
  induction cs as [|c cs IH] using rev_ind; [done|]. rewrite !foldl_app. cbn [foldl].
  destruct (foldl _ (Lights_new, ∅) cs) as [l fs]. simpl in IH. destruct IH as (<- & <- & <-).
  by apply lights_exec_states.
Qed.

Lemma lights_exec_led env ids t l fs m s :
  (forall t t', ids t = ids t' -> t = t') -> led_light t = true ->
  snd (lights_exec env ids (l, fs) (m, ids t, s)) =
    setNotificationLED env (fst (lights_exec env ids (l, fs) (m, ids t, s))) fs.
Proof.
  intros Hinj Ht. simpl. unfold setLightState, mLights. simpl.
  repeat match goal with |- context [ids ?a =? ids t] =>
    destruct (Z.eqb_spec (ids a) (ids t)) as [<-%Hinj|]; [done|] end.
  by destruct t.
Qed.

Lemma lights_exec_bln env ids l fs c :
  snd (lights_exec env ids (l, fs) c) !! LED_BLN_NODE = fs !! LED_BLN_NODE \/
  snd (lights_exec env ids (l, fs) c) !! LED_BLN_NODE = Some "1".
Proof.
  destruct c as [[m id] s]. simpl. unfold setLightState.
  destruct (List.find _ _) as [[]|]; simpl; try apply setNotificationLED_bln; left; try done;
    unfold handleBacklight, handleButtons; by rewrite set_node_other.
Qed.

(** ** Properties *)

(** C21: after any sequence of calls that ends with one for the battery, the
    notifications or the attention light, the LED node shows the states last
    requested for the three: a lit notification wins over a lit attention, which
    wins over a lit battery, with the flash times of the winner (0 without
    flashing); attention shows blue when it flashes in hardware, and nothing when it
    does not flash. *)
Theorem led_shows_highest_priority addService l env ids cs t m s :
  light_main addService = Some l ->
  (forall t t', ids t = ids t' -> t = t') -> led_light t = true ->
  node_opens env LED_BLINK_NODE = true -> node_writes env LED_BLINK_NODE = true ->
  let cs' := cs ++ [(m, ids t, s)] in
  snd (lights_run env ids cs' (l, ∅)) !! LED_BLINK_NODE =
    Some (shown_text (led_shown (last_state (ids NOTIFICATIONS) cs')
                        (last_state (ids ATTENTION) cs') (last_state (ids BATTERY) cs'))).
Proof.
  unfold light_main. intros Hm Hinj Ht Ho Hw. case_match; [|done]. injection Hm as <-. cbv zeta.
  destruct (lights_run_states env ids (cs ++ [(m, ids t, s)]) Hinj) as (<- & <- & <-).
  unfold lights_run. rewrite foldl_app. cbn [foldl].
  destruct (foldl _ (Lights_new, ∅) cs) as [l' fs]. rewrite lights_exec_led by done.
  by apply setNotificationLED_spec.
Qed.

(** the backlight node receives the luminance scaled to the panel: for any
    colour a value between 0 and max_brightness, namely brightness * max / 255
    rounded down, where a grey of level c has brightness c whatever its alpha; so
    white gives the maximum and black gives 0. *)
Lemma backlight_scaled env max s fs :
  node_opens env PANEL_BRIGHTNESS_NODE = true -> node_writes env PANEL_BRIGHTNESS_NODE = true ->
  0 <= max <= 2 ^ 24 ->
  handleBacklight env (Some max) s fs !! PANEL_BRIGHTNESS_NODE =
    Some (dec (rgbToBrightness s * max / 255)) /\
  0 <= rgbToBrightness s * max / 255 <= max /\
  (forall alpha c, is_color alpha c c c s -> rgbToBrightness s = c).
Proof.
  intros Ho Hw Hm. pose proof (rgbToBrightness_range s) as Hb. split_and!.
  - unfold handleBacklight, MAX_INPUT_BRIGHTNESS.
    change (get (Some max) 255) with max. cbv zeta. rewrite (wrap_u_id 32 max) by (width_simpl; lia).
    rewrite set_node_ok, lookup_insert_eq by done. do 2 f_equal.
    destruct (Z.eqb_spec max 255) as [->|]; [by rewrite Z.div_mul|].
    rewrite wrap_u_id; [done|]. width_simpl. nia.
  - apply Z.div_pos; nia.
  - apply Z.div_le_upper_bound; nia.
  - intros alpha c Hc. pose proof Hc as (Hc' & _). apply is_color_mask in Hc.
    rewrite rgbToBrightness_value, Hc. Z.div_mod_to_equations. nia.
Qed.

(** the backlight-notification node is switched on by the first notification
    and never switched off: whatever calls follow, what it last received is a 1. *)
Lemma bln_node_never_cleared env ids cs :
  snd (lights_run env ids cs (Lights_new, ∅)) !! LED_BLN_NODE = None \/
  snd (lights_run env ids cs (Lights_new, ∅)) !! LED_BLN_NODE = Some "1".
Proof.
  unfold lights_run. induction cs as [|c cs IH] using rev_ind; [by left|].
  rewrite foldl_app. cbn [foldl]. destruct (foldl _ (Lights_new, ∅) cs) as [l fs]. simpl in IH.
  destruct (lights_exec_bln env ids l fs c) as [Hb|Hb]; rewrite Hb; [done|by right].
Qed.

(** *** Witnesses *)

Definition demo_ids (t : LightType) : Z :=
  match t with BACKLIGHT => 0 | BUTTONS => 2 | BATTERY => 3 | NOTIFICATIONS => 4 | ATTENTION => 5 end.

Definition demo_battery : HwLightState :=
  {| color := 0xff00; flashMode := FLASH_NONE; flashOnMs := 7; flashOffMs := 9 |}.

Definition demo_notification : HwLightState :=
  {| color := 0x123456; flashMode := FlashOther 1; flashOnMs := 500; flashOffMs := 1000 |}.

Lemma led_shows_highest_priority_witness :
  snd (lights_run all_nodes demo_ids [(None, 4, demo_notification); (None, 3, demo_battery)]
    (Lights_new, ∅)) !! LED_BLINK_NODE = Some "0x00123456 500 1000".
Proof.
  refine (led_shows_highest_priority 0 Lights_new all_nodes demo_ids [(None, 4, demo_notification)] BATTERY
    None demo_battery eq_refl _ eq_refl eq_refl eq_refl).
  intros [] []; done.
Defined.

Lemma backlight_scaled_witness :
  handleBacklight all_nodes (Some 1023) demo_battery ∅ !! PANEL_BRIGHTNESS_NODE =
    Some (dec (rgbToBrightness demo_battery * 1023 / 255)) /\
  0 <= rgbToBrightness demo_battery * 1023 / 255 <= 1023 /\
  (forall alpha c, is_color alpha c c c demo_battery -> rgbToBrightness demo_battery = c).
Proof. apply (backlight_scaled all_nodes 1023 demo_battery ∅); [reflexivity..|lia]. Defined.
