(* ===== verification/UsbHal.v ===== *)
(** Model of the USB HAL (src/aidl/usb/Usb.{h,cpp}): port status and contaminant
    queries, role switching, the uevent listener and the callback registration.

    Files under /sys are read through an environment ([usb_env]); what is written
    goes to [nodes], what the callback is told to a log, oldest first.  The unions
    and enumerations of the AIDL interface are inductive types.  [None] is a
    process abort: reading a union through the wrong tag, or [stoi] throwing.
    [Trim] and the property reads are libbase's and belong to the environment. *)
From S2P Require Import Prelude Texts Sysfs.
From Stdlib Require Import Ascii.
Local Open Scope Z_scope.

(** ** Data *)

Definition kTypecPath : string := "/sys/class/typec/".
Definition kDataRoleNode : string := "/data_role".
Definition kPowerRoleNode : string := "/power_role".
Definition USB_DATA_PATH : string := "/sys/devices/virtual/usb_notify/usb_control/usb_data_enabled".
Definition CONTAMINANT_DETECTION_PATH : string := "/sys/devices/virtual/sec/ccic/water".
Definition DISABLE_CONTAMINANT_DETECTION : string := "vendor.usb.contaminantdisable".
Definition UEVENT_MSG_LEN : Z := 2048.

Inductive PortPowerRole := Power_NONE | SOURCE | SINK.
Inductive PortDataRole := Data_NONE | HOST | DEVICE.
Inductive PortMode := Mode_NONE | UFP | DFP | DRP | AUDIO_ACCESSORY | DEBUG_ACCESSORY.

Inductive PortRole :=
  | powerRole (r : PortPowerRole)
  | dataRole (r : PortDataRole)
  | mode (m : PortMode)
  | PortRoleOther (tag : Z).

#[export] Instance PortPowerRole_eq_dec : EqDecision PortPowerRole.
Proof. solve_decision. Defined.

#[export] Instance PortDataRole_eq_dec : EqDecision PortDataRole.
Proof. solve_decision. Defined.

#[export] Instance PortMode_eq_dec : EqDecision PortMode.
Proof. solve_decision. Defined.

#[export] Instance PortRole_eq_dec : EqDecision PortRole.
Proof. solve_decision. Defined.

Inductive Status := SUCCESS | ERROR | NOT_SUPPORTED | UNRECOGNIZED_ROLE.

Inductive ContaminantDetectionStatus := Detection_DISABLED | NOT_DETECTED | DETECTED.
Inductive ContaminantProtectionStatus := Protection_NONE | FORCE_SINK.
Inductive ContaminantProtectionMode := ProtectionMode_NONE.
Inductive UsbDataStatus := DISABLED_FORCE | ENABLED.

Record PortStatus := {
  portName : string;
  currentPowerRole : PortPowerRole;
  currentDataRole : PortDataRole;
  currentMode : PortMode;
  canChangeMode : bool;
  canChangeDataRole : bool;
  canChangePowerRole : bool;
  supportedModes : list PortMode;
  usbDataStatus : list UsbDataStatus;
  supportedContaminantProtectionModes : list ContaminantProtectionMode;
  contaminantProtectionStatus : ContaminantProtectionStatus;
  contaminantDetectionStatus : ContaminantDetectionStatus;
  supportsEnableContaminantPresenceDetection : bool;
  supportsEnableContaminantPresenceProtection : bool
}.

(** An element [resize] adds to the vector. *)
Definition PortStatus_default : PortStatus := {|
  portName := ""; currentPowerRole := Power_NONE; currentDataRole := Data_NONE;
  currentMode := Mode_NONE; canChangeMode := false; canChangeDataRole := false;
  canChangePowerRole := false; supportedModes := []; usbDataStatus := [];
  supportedContaminantProtectionModes := []; contaminantProtectionStatus := Protection_NONE;
  contaminantDetectionStatus := Detection_DISABLED;
  supportsEnableContaminantPresenceDetection := false;
  supportsEnableContaminantPresenceProtection := false
|}.

Inductive notification :=
  | notifyEnableUsbDataStatus (port : string) (enable : bool) (st : Status) (tid : Z)
  | notifyEnableUsbDataWhileDockedStatus (port : string) (st : Status) (tid : Z)
  | notifyResetUsbPortStatus (port : string) (st : Status) (tid : Z)
  | notifyRoleSwitchStatus (port : string) (role : PortRole) (st : Status) (tid : Z)
  | notifyLimitPowerTransferStatus (port : string) (limit : bool) (st : Status) (tid : Z)
  | notifyPortStatusChange (ports : list PortStatus) (st : Status)
  | notifyQueryPortStatus (port : string) (st : Status) (tid : Z)
  | notifyContaminantEnabledStatus (port : string) (enable : bool) (st : Status) (tid : Z).

(** Entries of /sys/class/typec: name and whether it is a symbolic link. *)
Record usb_env := {
  read_text : string -> option string;        (* the whole contents of a file *)
  open_write : string -> bool;                (* fopen(..., "w") *)
  put_text : string -> bool;                  (* fputs did not fail *)
  typec_dir : option (list (string * bool));  (* opendir and readdir of kTypecPath *)
  has_dir : string -> bool;                   (* opendir of a partner directory *)
  usb_property : string -> string;
  Trim : string -> string
}.

Record Usb := {
  mCallback : bool;
  mPartnerUp : bool;
  usb_nodes : nodes;
  usb_log : list notification
}.

Definition notify (n : notification) (u : Usb) : Usb :=
  if mCallback u
  then {| mCallback := mCallback u; mPartnerUp := mPartnerUp u; usb_nodes := usb_nodes u;
          usb_log := usb_log u ++ [n] |}
  else u.

Definition set_partner (b : bool) (u : Usb) : Usb :=
  {| mCallback := mCallback u; mPartnerUp := b; usb_nodes := usb_nodes u; usb_log := usb_log u |}.

Definition put_node (path text : string) (u : Usb) : Usb :=
  {| mCallback := mCallback u; mPartnerUp := mPartnerUp u;
     usb_nodes := <[path := text]> (usb_nodes u); usb_log := usb_log u |}.

(** ** Strings *)

Fixpoint find_char (c : Ascii.ascii) (s : string) : option nat :=
  match s with
  | EmptyString => None
  | String c' s => if Ascii.eqb c c' then Some O else option_map S (find_char c s)
  end.

(** [substr(first + 1, last - first - 1)]: the count wraps around, and so reaches
    the end of the string, when the brackets are in the wrong order. *)
Definition extractRole (roleName : string) : string :=
  match find_char "["%char roleName, find_char "]"%char roleName with
  | Some first, Some last =>
      if (last <? first)%nat then String.substring (S first) (String.length roleName) roleName
      else String.substring (S first) (last - first - 1) roleName
  | _, _ => roleName
  end.

(** The line [getline] returns, without its newline. *)
Fixpoint first_line (s : string) : string :=
  match s with
  | EmptyString => EmptyString
  | String c s => if Ascii.eqb c "010"%char then EmptyString else String c (first_line s)
  end.

(** [readFile]: the old contents stay when [getline] has nothing to read. *)
Definition readFile (env : usb_env) (filename contents : string) : bool * string :=
  match read_text env filename with
  | None => (false, contents)
  | Some EmptyString => (true, contents)
  | Some text => (true, first_line text)
  end.

Definition digit (c : Ascii.ascii) : option Z :=
  let n := Z.of_nat (Ascii.nat_of_ascii c) - 48 in
  if (0 <=? n) && (n <=? 9) then Some n else None.

Fixpoint digits (s : string) (acc : Z) : Z :=
  match s with
  | String c s => match digit c with Some d => digits s (10 * acc + d) | None => acc end
  | EmptyString => acc
  end.

(** [std::stoi] of a trimmed string: an exception without a leading digit or
    outside [int]. *)
Definition stoi (s : string) : option Z :=
  let '(sign, s) :=
    match s with
    | String "-"%char s => (-1, s)
    | String "+"%char s => (1, s)
    | _ => (1, s)
    end in
  match s with
  | String c _ => match digit c with Some _ => ck32 (sign * digits s 0) | None => None end
  | EmptyString => None
  end.

(** [strtok(name, "-")] *)
Fixpoint strtok_rest (s : string) : string :=
  match s with
  | EmptyString => EmptyString
  | String c s => if Ascii.eqb c "-"%char then EmptyString else String c (strtok_rest s)
  end.

Fixpoint strtok_dash (s : string) : string :=
  match s with
  | EmptyString => EmptyString
  | String c s' => if Ascii.eqb c "-"%char then strtok_dash s' else strtok_rest s
  end.

(** ** Roles *)

Definition appendRoleNodeHelper (port : string) (role : PortRole) : string :=
  let node := (kTypecPath ++ port)%string in
  match role with
  | dataRole _ => node ++ kDataRoleNode
  | powerRole _ => node ++ kPowerRoleNode
  | mode _ => node ++ "/port_type"
  | PortRoleOther _ => ""
  end%string.

Definition convertRoletoString (role : PortRole) : string :=
  match role with
  | powerRole SOURCE => "source"
  | powerRole SINK => "sink"
  | dataRole HOST => "host"
  | dataRole DEVICE => "device"
  | mode UFP => "sink"
  | mode DFP => "source"
  | _ => "none"
  end.

Section usb.
Context (env : usb_env).

(** Opens a role node and writes; [None] when it cannot be opened, otherwise
    whether the write succeeded. *)
Definition write_role (path text : string) (u : Usb) : option bool * Usb :=
  if open_write env path
  then (Some (put_text env path), if put_text env path then put_node path text u else u)
  else (None, u).

Definition switchToDrp (port : string) (u : Usb) : Usb :=
  let filename := appendRoleNodeHelper port (mode Mode_NONE) in
  snd (write_role filename "dual" u).

(** The waits on [mPartnerCV]: whether each times out, and the value of [mPartnerUp]
    it leaves; the result is the outcome with that value, [None] while no wait has
    decided. *)
Fixpoint wait_partner (waits : list (bool * bool)) : option (bool * bool) :=
  match waits with
  | [] => None
  | (true, up) :: _ => Some (false, up)
  | (false, false) :: waits => wait_partner waits
  | (false, true) :: _ => Some (true, true)
  end.

Definition switchMode (waits : list (bool * bool)) (port : string) (role : PortRole) (u : Usb) :
    option (bool * Usb) :=
  let filename := appendRoleNodeHelper port role in
  if (filename =? "")%string then Some (false, u)
  else if open_write env filename then
    let u := set_partner false u in
    if put_text env filename then
      let u := put_node filename (convertRoletoString role) u in
      '(roleSwitch, up) ← wait_partner waits;
      let u := set_partner up u in
      Some (if roleSwitch : bool then (true, u) else (false, switchToDrp port u))
    else Some (false, switchToDrp port u)
  else Some (false, switchToDrp port u).

(** A role other than the mode: write it and read it back. *)
Definition switch_other (readback : option string) (port : string) (role : PortRole) (u : Usb) :
    bool * Usb :=
  let filename := appendRoleNodeHelper port role in
  let '(ret, u) := write_role filename (convertRoletoString role) u in
  match ret, readback with
  | Some true, Some written =>
      ((extractRole (Trim env written) =? convertRoletoString role)%string, u)
  | _, _ => (false, u)
  end.

(** [readback] is what the node reads as after the write. *)
Definition switchRole (waits : list (bool * bool)) (readback : option string) (port : string)
    (role : PortRole) (tid : Z) (u : Usb) : option Usb :=
  if (appendRoleNodeHelper port role =? "")%string then Some u
  else
    let switched : option (bool * Usb) :=
      match role with
      | mode _ => switchMode waits port role u
      | _ => Some (switch_other readback port role u)
      end in
    '(roleSwitch, u) ← switched;
    Some (notify (notifyRoleSwitchStatus port role (if roleSwitch : bool then SUCCESS else ERROR) tid) u).

(** ** Port status *)

Definition getAccessoryConnected (port : string) : option string :=
  text ← read_text env (kTypecPath ++ port ++ "-partner/accessory_mode")%string;
  Some (Trim env text).

(** The role read from [filename] into the union, which keeps its old value for
    "none". *)
Definition parse_role (current : PortRole) (roleName : string) : Status * PortRole :=
  if (roleName =? "source")%string then (SUCCESS, powerRole SOURCE)
  else if (roleName =? "sink")%string then (SUCCESS, powerRole SINK)
  else if (roleName =? "host")%string then
    (SUCCESS, match current with dataRole _ => dataRole HOST | _ => mode DFP end)
  else if (roleName =? "device")%string then
    (SUCCESS, match current with dataRole _ => dataRole DEVICE | _ => mode UFP end)
  else if (roleName =? "none")%string then (SUCCESS, current)
  else (UNRECOGNIZED_ROLE, current).

Definition getCurrentRoleHelper (port : string) (connected : bool) (current : PortRole) :
    Status * PortRole :=
  let read filename current :=
    match read_text env filename with
    | None => (ERROR, current)
    | Some text => parse_role current (extractRole (Trim env text))
    end in
  match current with
  | powerRole _ =>
      if connected then read ((kTypecPath ++ port) ++ kPowerRoleNode)%string (powerRole Power_NONE)
      else (SUCCESS, powerRole Power_NONE)
  | dataRole _ =>
      if connected then read ((kTypecPath ++ port) ++ kDataRoleNode)%string (dataRole Data_NONE)
      else (SUCCESS, dataRole Data_NONE)
  | mode _ =>
      if connected then
        match getAccessoryConnected port with
        | None => (ERROR, mode Mode_NONE)
        | Some accessory =>
            if (accessory =? "analog_audio")%string then (SUCCESS, mode AUDIO_ACCESSORY)
            else if (accessory =? "debug")%string then (SUCCESS, mode DEBUG_ACCESSORY)
            else read ((kTypecPath ++ port) ++ kDataRoleNode)%string (mode Mode_NONE)
        end
      else (SUCCESS, mode Mode_NONE)
  | PortRoleOther _ => (ERROR, current)
  end.

(** One directory entry; ports are collected with whether a partner exists. *)
Definition port_entry (names : gmap string bool) (entry : string * bool) : gmap string bool :=
  let '(name, is_link) := entry in
  if negb is_link then names
  else
    match String.index 0 "-partner" name with
    | None => match names !! name with None => <[name := false]> names | Some _ => names end
    | Some _ => <[strtok_dash name := true]> names
    end.

Definition getTypeCPortNamesHelper : option (gmap string bool) :=
  entries ← typec_dir env; Some (foldl port_entry ∅ entries).

Definition canSwitchRoleHelper (port : string) : bool :=
  match read_text env (kTypecPath ++ port ++ "-partner/supports_usb_power_delivery")%string with
  | Some text => (Trim env text =? "yes")%string
  | None => false
  end.

(** The data-enabled file; [None] when [stoi] throws. *)
Definition data_status : option UsbDataStatus :=
  match read_text env USB_DATA_PATH with
  | None => Some ENABLED
  | Some text => n ← stoi (Trim env text); Some (if n =? 0 then DISABLED_FORCE else ENABLED)
  end.

(** One iteration of the loop: the status of a port, or [inr] with what was
    filled in before a role could not be read.  The outer [None] is an abort. *)
Definition port_status (port : string) (connected : bool) : option (PortStatus + PortStatus) :=
  let fill p d m := {|
    portName := port; currentPowerRole := p; currentDataRole := d; currentMode := m;
    canChangeMode := false; canChangeDataRole := false; canChangePowerRole := false;
    supportedModes := []; usbDataStatus := []; supportedContaminantProtectionModes := [];
    contaminantProtectionStatus := Protection_NONE; contaminantDetectionStatus := Detection_DISABLED;
    supportsEnableContaminantPresenceDetection := false;
    supportsEnableContaminantPresenceProtection := false |} in
  match getCurrentRoleHelper port connected (powerRole Power_NONE) with
  | (SUCCESS, powerRole p) =>
      match getCurrentRoleHelper port connected (dataRole Data_NONE) with
      | (SUCCESS, dataRole d) =>
          match getCurrentRoleHelper port connected (mode Mode_NONE) with
          | (SUCCESS, mode m) =>
              data ← data_status;
              Some (inl {|
                portName := port; currentPowerRole := p; currentDataRole := d; currentMode := m;
                canChangeMode := true;
                canChangeDataRole := if connected then canSwitchRoleHelper port else false;
                canChangePowerRole := if connected then canSwitchRoleHelper port else false;
                supportedModes := [DRP]; usbDataStatus := [data];
                supportedContaminantProtectionModes := [];
                contaminantProtectionStatus := Protection_NONE;
                contaminantDetectionStatus := Detection_DISABLED;
                supportsEnableContaminantPresenceDetection := false;
                supportsEnableContaminantPresenceProtection := false |})
          | (SUCCESS, _) => None
          | _ => Some (inr (fill p d Mode_NONE))
          end
      | (SUCCESS, _) => None
      | _ => Some (inr (fill p Data_NONE Mode_NONE))
      end
  | (SUCCESS, _) => None
  | _ => Some (inr (fill Power_NONE Data_NONE Mode_NONE))
  end.

(** The loop over the collected ports: entries after a failure keep their default
    value. *)
Fixpoint port_statuses (ports : list (string * bool)) : option (Status * list PortStatus) :=
  match ports with
  | [] => Some (SUCCESS, [])
  | (port, connected) :: ports =>
      r ← port_status port connected;
      match r with
      | inl s => '(st, ss) ← port_statuses ports; Some (st, s :: ss)
      | inr s => Some (ERROR, s :: map (fun _ => PortStatus_default) ports)
      end
  end.

Definition getPortStatusHelper : option (Status * list PortStatus) :=
  match getTypeCPortNamesHelper with
  | Some names => port_statuses (map_to_list names)
  | None => Some (ERROR, [])
  end.

Definition with_contaminant (p : ContaminantProtectionStatus) (d : ContaminantDetectionStatus)
    (s : PortStatus) : PortStatus := {|
  portName := portName s; currentPowerRole := currentPowerRole s;
  currentDataRole := currentDataRole s; currentMode := currentMode s;
  canChangeMode := canChangeMode s; canChangeDataRole := canChangeDataRole s;
  canChangePowerRole := canChangePowerRole s; supportedModes := supportedModes s;
  usbDataStatus := usbDataStatus s;
  supportedContaminantProtectionModes :=
    supportedContaminantProtectionModes s ++ [ProtectionMode_NONE];
  contaminantProtectionStatus := p; contaminantDetectionStatus := d;
  supportsEnableContaminantPresenceDetection := true;
  supportsEnableContaminantPresenceProtection := false |}.

(** The loop over the ports; [status] carries the text read last.  A failed read
    stops after the fields of that port were reset. *)
Fixpoint moisture_loop (status : string) (ports : list PortStatus) : Status * list PortStatus :=
  match ports with
  | [] => (SUCCESS, [])
  | s :: ports =>
      if (usb_property env DISABLE_CONTAMINANT_DETECTION =? "true")%string then
        let '(st, ports) := moisture_loop status ports in
        (st, with_contaminant Protection_NONE Detection_DISABLED s :: ports)
      else
        let '(ok, status) := readFile env CONTAMINANT_DETECTION_PATH status in
        if negb ok then (ERROR, with_contaminant Protection_NONE Detection_DISABLED s :: ports)
        else
          let '(st, ports) := moisture_loop status ports in
          (st, (if (status =? "1")%string then with_contaminant FORCE_SINK DETECTED s
                else with_contaminant Protection_NONE NOT_DETECTED s) :: ports)
  end.

Definition queryMoistureDetectionStatus (ports : list PortStatus) : Status * list PortStatus :=
  moisture_loop "" ports.

Definition queryVersionHelper (u : Usb) : option (list PortStatus * Usb) :=
  '(status, ports) ← getPortStatusHelper;
  let ports := snd (queryMoistureDetectionStatus ports) in
  Some (ports, notify (notifyPortStatusChange ports status) u).

(** ** Binder calls *)

Definition enableUsbData (port : string) (enable : bool) (tid : Z) (u : Usb) : option Usb :=
  let result := open_write env USB_DATA_PATH && put_text env USB_DATA_PATH in
  let u := if result then put_node USB_DATA_PATH (if enable then "1" else "0") u else u in
  let u := notify (notifyEnableUsbDataStatus port enable (if result then SUCCESS else ERROR) tid) u in
  '(_, u) ← queryVersionHelper u; Some u.

Definition enableUsbDataWhileDocked (port : string) (tid : Z) (u : Usb) : Usb :=
  notify (notifyEnableUsbDataWhileDockedStatus port NOT_SUPPORTED tid) u.

Definition resetUsbPort (port : string) (tid : Z) (u : Usb) : Usb :=
  notify (notifyResetUsbPortStatus port NOT_SUPPORTED tid) u.

Definition limitPowerTransfer (port : string) (tid : Z) (u : Usb) : Usb :=
  if 0 <=? tid then notify (notifyLimitPowerTransferStatus port false NOT_SUPPORTED tid) u else u.

Definition queryPortStatus (tid : Z) (u : Usb) : option Usb :=
  '(_, u) ← queryVersionHelper u; Some (notify (notifyQueryPortStatus "all" SUCCESS tid) u).

Definition enableContaminantPresenceDetection (port : string) (tid : Z) (u : Usb) : option Usb :=
  let u := notify (notifyContaminantEnabledStatus port true SUCCESS tid) u in
  '(_, u) ← queryVersionHelper u; Some u.

End usb.

(** ** The uevent listener *)

Definition NUL : ascii := "000"%char.

(** The C string at the start of a buffer and what follows its terminator;
    [None] when there is no terminator. *)
Fixpoint c_str (buf : list ascii) : option (string * list ascii) :=
  match buf with
  | [] => None
  | c :: buf =>
      if Ascii.eqb c NUL then Some (EmptyString, buf)
      else '(s, rest) ← c_str buf; Some (String c s, rest)
  end.

(** [.] of an ECMAScript regular expression *)
Fixpoint regex_dots (s : string) : bool :=
  match s with
  | EmptyString => true
  | String c s => negb (Ascii.eqb c "010"%char) && negb (Ascii.eqb c "013"%char) && regex_dots s
  end.

(** The regular expression of [uevent_event]: the whole record is add, any
    characters, -partner. *)
Definition partner_added (s : string) : bool :=
  let n := (String.length s - 11)%nat in
  (11 <=? String.length s)%nat && (String.substring 0 3 s =? "add")%string &&
  regex_dots (String.substring 3 n s) && (String.substring (3 + n) 8 s =? "-partner")%string.

Definition status_event (s : string) : bool :=
  String.prefix "DEVTYPE=typec_" s || String.prefix "CCIC=WATER" s || String.prefix "CCIC=DRY" s.

Inductive uevent_result :=
  | UevDone (u : Usb)
  | UevAbort          (* the process aborts in queryVersionHelper *)
  | UevOverrun.       (* a byte outside the filled buffer is read *)

Section uevents.
Context (env : usb_env).

(** Ports without a partner go back to dual role, if the role-switch lock is free. *)
Definition restore_drp (trylock : bool) (ports : list PortStatus) (u : Usb) : Usb :=
  if trylock then
    foldl (fun u s => if has_dir env (kTypecPath ++ portName s ++ "-partner")%string then u
                      else switchToDrp env (portName s) u) u ports
  else u.

(** The loop over the records, from [cp]; every turn consumes at least one byte. *)
Fixpoint uevent_loop (fuel : nat) (trylock : bool) (cp : list ascii) (u : Usb) : uevent_result :=
  match fuel, cp with
  | O, _ | _, [] => UevOverrun
  | S fuel, c :: _ =>
      if Ascii.eqb c NUL then UevDone u
      else
        match c_str cp with
        | None => UevOverrun
        | Some (s, rest) =>
            if partner_added s then uevent_loop fuel trylock rest (set_partner true u)
            else if status_event s then
              match queryVersionHelper env u with
              | Some (ports, u) => UevDone (restore_drp trylock ports u)
              | None => UevAbort
              end
            else uevent_loop fuel trylock rest u
        end
  end.

(** [n] is what recv returned, [msg] the bytes it delivered. *)
Definition uevent_event (trylock : bool) (n : Z) (msg : list ascii) (u : Usb) : uevent_result :=
  if n <=? 0 then UevDone u
  else if UEVENT_MSG_LEN <=? n then UevDone u
  else uevent_loop (S (length msg)) trylock (msg ++ [NUL; NUL]) u.

End uevents.

(** ** Callback registration and its thread

    [mLock] is held by at most one of the binder thread in [setCallback] and the
    listener in [queryVersionHelper]. *)

Inductive worker_phase :=
  | WNone                    (* no thread *)
  | WTesting                 (* before the test of destroyThread *)
  | WEntering                (* it was false; epoll_wait comes next *)
  | WWaiting                 (* in epoll_wait *)
  | WLocking                 (* handling a port event, about to take mLock *)
  | WQuerying                (* holding mLock *)
  | WExited.

Inductive binder_phase :=
  | BIdle
  | BJoining.                (* in pthread_join, holding mLock *)

Record usb_threads := {
  ut_callback : bool;
  ut_destroy : bool;         (* destroyThread *)
  ut_worker : worker_phase;
  ut_binder : binder_phase
}.

Definition mLock_free (t : usb_threads) : bool :=
  match ut_binder t, ut_worker t with
  | BJoining, _ | _, WQuerying => false
  | _, _ => true
  end.

Inductive usb_label :=
  | LSetCallback (callback create_ok kill_ok : bool)
  | LJoined                  (* pthread_join returns *)
  | LWorkerTest
  | LWorkerWait
  | LEvent                   (* epoll_wait returns with an event that queries the ports *)
  | LOtherEvent              (* ... with one that does not *)
  | LWorkerLock
  | LWorkerUnlock
  | LWorkerFail.             (* a socket or epoll call fails *)

(** pthread_kill finds the thread as long as it runs. *)
Definition worker_runs (p : worker_phase) : bool :=
  match p with WNone | WExited => false | _ => true end.

Definition with_worker (p : worker_phase) (t : usb_threads) : usb_threads :=
  {| ut_callback := ut_callback t; ut_destroy := ut_destroy t; ut_worker := p;
     ut_binder := ut_binder t |}.

(** [setCallback] up to its return or to the join.  The signal sets destroyThread and
    ends an epoll_wait with EINTR; in other places the thread just goes on. *)
Definition setCallback (callback create_ok kill_ok : bool) (t : usb_threads) : usb_threads :=
  if Bool.eqb (ut_callback t) callback then t
  else if callback then
    {| ut_callback := create_ok; ut_destroy := false;
       ut_worker := if create_ok then WTesting else ut_worker t; ut_binder := BIdle |}
  else if kill_ok then
    {| ut_callback := false; ut_destroy := true;
       ut_worker := match ut_worker t with WWaiting => WTesting | p => p end; ut_binder := BJoining |}
  else
    {| ut_callback := false; ut_destroy := ut_destroy t; ut_worker := ut_worker t; ut_binder := BIdle |}.

Definition usb_exec (l : usb_label) (t : usb_threads) : option usb_threads :=
  match l, ut_worker t with
  | LSetCallback cb create_ok kill_ok, p =>
      match ut_binder t with
      | BIdle => if mLock_free t && (kill_ok || negb (worker_runs p))
                 then Some (setCallback cb create_ok kill_ok t) else None
      | BJoining => None
      end
  | LJoined, WExited =>
      match ut_binder t with
      | BJoining => Some {| ut_callback := ut_callback t; ut_destroy := ut_destroy t; ut_worker := WNone;
                            ut_binder := BIdle |}
      | BIdle => None
      end
  | LWorkerTest, WTesting => Some (with_worker (if ut_destroy t then WExited else WEntering) t)
  | LWorkerWait, WEntering => Some (with_worker WWaiting t)
  | LEvent, WWaiting => Some (with_worker WLocking t)
  | LOtherEvent, WWaiting => Some (with_worker WTesting t)
  | LWorkerLock, WLocking => if mLock_free t then Some (with_worker WQuerying t) else None
  | LWorkerUnlock, WQuerying => Some (with_worker WTesting t)
  | LWorkerFail, WTesting | LWorkerFail, WWaiting => Some (with_worker WExited t)
  | _, _ => None
  end.

Definition usb_threads_init : usb_threads :=
  {| ut_callback := false; ut_destroy := false; ut_worker := WNone; ut_binder := BIdle |}.

(** The constructor; the arguments are the results of the four pthread calls.
    [None]: abort. *)
Definition Usb_new (attr_init attr_setclock cond_init attr_destroy : Z) : option usb_threads :=
  if negb (attr_init =? 0) then None
  else if negb (attr_setclock =? 0) then None
  else if negb (cond_init =? 0) then None
  else if negb (attr_destroy =? 0) then None
  else Some usb_threads_init.

(** main: [None] when the process aborts before it serves. *)
Definition usb_main (attr_init attr_setclock cond_init attr_destroy addService : Z) : option usb_threads :=
  usb ← Usb_new attr_init attr_setclock cond_init attr_destroy;
  if addService =? 0 then Some usb else None.

(** *** The descriptors of the worker thread *)

Inductive fd_op :=
  | FdOpen (fd : Z)
  | FdUse (fd : Z)           (* any call on the descriptor *)
  | FdClose (fd : Z).

(** What [epoll_wait] answers: -1 with EINTR or another error, or [nevents] events,
    each of which runs [uevent_event] on the socket. *)
Inductive epoll_answer :=
  | EpollError (eintr : bool)
  | EpollEvents (nevents : nat).

(** The loop, with what each test of [destroyThread] reads and the answers; the
    result tells whether the loop has ended within them. *)
Fixpoint work_loop (epoll_fd uevent_fd : Z) (turns : list (bool * epoll_answer)) : list fd_op * bool :=
  match turns with
  | [] => ([], false)
  | (destroyThread, answer) :: turns =>
      if destroyThread then ([], true)
      else
        let '(ops, ended) :=
          match answer with
          | EpollError true => work_loop epoll_fd uevent_fd turns
          | EpollError false => ([], true)
          | EpollEvents nevents =>
              let '(ops, ended) := work_loop epoll_fd uevent_fd turns in
              (replicate nevents (FdUse uevent_fd) ++ ops, ended)
          end in
        (FdUse epoll_fd :: ops, ended)
  end.

(** [work]: [uevent_fd], [epoll_fd] and [ctl] are the results of
    uevent_open_socket, epoll_create and epoll_ctl. *)
Definition work (uevent_fd epoll_fd ctl : Z) (turns : list (bool * epoll_answer)) : list fd_op * bool :=
  if uevent_fd <? 0 then ([], true)
  else
    let error := FdClose uevent_fd :: (if 0 <=? epoll_fd then [FdClose epoll_fd] else []) in
    let start := [FdOpen uevent_fd; FdUse uevent_fd] in
    if epoll_fd =? -1 then (start ++ error, true)
    else
      let start := start ++ [FdOpen epoll_fd; FdUse epoll_fd] in
      if ctl =? -1 then (start ++ error, true)
      else
        let '(ops, ended) := work_loop epoll_fd uevent_fd turns in
        (start ++ ops ++ (if ended then error else []), ended).

(** Replay of a trace on the set of open descriptors; [None]: a descriptor is used
    or closed while it is not open. *)
Definition fd_step (fds : gset Z) (o : fd_op) : option (gset Z) :=
  match o with
  | FdOpen fd => Some ({[fd]} ∪ fds)
  | FdUse fd => if decide (fd ∈ fds) then Some fds else None
  | FdClose fd => if decide (fd ∈ fds) then Some (fds ∖ {[fd]}) else None
  end.

Fixpoint fd_replay (fds : gset Z) (ops : list fd_op) : option (gset Z) :=
  match ops with
  | [] => Some fds
  | o :: ops => fds ← fd_step fds o; fd_replay fds ops
  end.

Fixpoint usb_run (ls : list usb_label) (t : usb_threads) : option usb_threads :=
  match ls with
  | [] => Some t
  | l :: ls => t ← usb_exec l t; usb_run ls t
  end.

(** ** Lemmas *)

Lemma fd_replay_app ops1 ops2 : forall fds,
  fd_replay fds (ops1 ++ ops2) = fds ← fd_replay fds ops1; fd_replay fds ops2.
Proof.
  induction ops1 as [|o ops1 IH]; intros fds; simpl; [done|]. destruct (fd_step fds o); simpl; auto.
Qed.

Lemma fd_replay_uses fds fd n : fd ∈ fds -> fd_replay fds (replicate n (FdUse fd)) = Some fds.
Proof. intros Hf. induction n; simpl; [done|]. by rewrite decide_True. Qed.

(** The loop keeps both descriptors open. *)
Lemma work_loop_replay fds epoll_fd uevent_fd turns :
  epoll_fd ∈ fds -> uevent_fd ∈ fds ->
  fd_replay fds (fst (work_loop epoll_fd uevent_fd turns)) = Some fds.
Proof.
  intros He Hu. induction turns as [|[[] [[]|n]] turns IH]; try done; simpl.
  - destruct (work_loop _ _ _) as [ops b]. simpl in *. by rewrite decide_True.
  - by rewrite decide_True.
  - destruct (work_loop _ _ _) as [ops b]. simpl in *. rewrite decide_True by done. simpl.
    by rewrite fd_replay_app, fd_replay_uses.
Qed.

(** On every path the worker uses open descriptors only, and once it has returned it
    has closed what it opened: for any answers of the kernel that hand out two
    distinct descriptors. *)
Lemma work_closes_descriptors uevent_fd epoll_fd ctl turns :
  epoll_fd <> uevent_fd -> -1 <= epoll_fd ->
  exists fds, fd_replay ∅ (fst (work uevent_fd epoll_fd ctl turns)) = Some fds /\
    (snd (work uevent_fd epoll_fd ctl turns) = true -> fds = ∅).
Proof.
  intros Hne He. unfold work. destruct (uevent_fd <? 0) eqn:Hu; [by exists ∅|].
  destruct (epoll_fd =? -1) eqn:H1; simpl.
  { rewrite (proj2 (Z.leb_gt 0 epoll_fd)) by lia. simpl. rewrite !decide_True by set_solver. simpl.
    rewrite !decide_True by set_solver. eexists. split; [done|]. intros _. set_solver. }
  rewrite (proj2 (Z.leb_le 0 epoll_fd)) by lia.
  assert (forall fds, fds = {[epoll_fd]} ∪ ({[uevent_fd]} ∪ ∅) ->
    fd_replay fds [FdClose uevent_fd; FdClose epoll_fd] = Some ∅) as Hclose.
  { intros fds ->. simpl. rewrite decide_True by set_solver. simpl. rewrite decide_True by set_solver.
    simpl. f_equal. set_solver. }
  destruct (ctl =? -1); simpl.
  { rewrite !decide_True by set_solver. simpl. rewrite !decide_True by set_solver. simpl.
    exists ∅. split; [|done]. by apply Hclose. }
  pose proof (work_loop_replay ({[epoll_fd]} ∪ ({[uevent_fd]} ∪ ∅)) epoll_fd uevent_fd turns) as Hl.
  destruct (work_loop _ _ _) as [ops ended]. simpl in *.
  rewrite !decide_True by set_solver. simpl. rewrite !decide_True by set_solver. simpl.
  rewrite fd_replay_app, Hl by set_solver. simpl. destruct ended; [|by eexists].
  exists ∅. split; [|done]. by apply Hclose.
Qed.

Lemma c_str_app_nul buf rest :
  exists s rest', c_str (buf ++ NUL :: rest) = Some (s, rest') /\
    (rest' = rest \/ exists buf', (length buf' < length buf)%nat /\ rest' = buf' ++ NUL :: rest).
Proof.
  induction buf as [|c buf IH]; simpl; [exists "", rest; auto|].
  destruct (Ascii.eqb c NUL).
  { exists "", (buf ++ NUL :: rest). split; [done|]. right. exists buf. auto. }
  destruct IH as (s & rest' & -> & Hr). simpl. exists (String c s), rest'. split; [done|].
  destruct Hr as [->|(buf' & ? & ->)]; [by left|right; exists buf'; split; [lia|done]].
Qed.

Lemma uevent_loop_in_bounds env trylock : forall fuel msg u,
  (length msg < fuel)%nat -> uevent_loop env fuel trylock (msg ++ [NUL; NUL]) u <> UevOverrun.
Proof.
  induction fuel as [|fuel IH]; intros msg u Hf; [lia|]. destruct msg as [|c msg]; [done|].
  destruct (c_str_app_nul (c :: msg) [NUL]) as (s & rest & Hc & Hr). simpl in *. rewrite Hc.
  destruct (Ascii.eqb c NUL) eqn:Hn; [done|].
  assert (forall u, uevent_loop env fuel trylock rest u <> UevOverrun) as Hrest.
  { intros u'. destruct Hr as [->|(buf' & ? & ->)]; [destruct fuel; [lia|done]|].
    apply IH. lia. }
  repeat case_match; done || apply Hrest.
Qed.

#[local] Arguments String.append !_ _ / : simpl nomatch.

Lemma find_char_app_none c s1 s2 :
  find_char c s1 = None ->
  find_char c (s1 ++ s2)%string = option_map (fun n => (String.length s1 + n)%nat) (find_char c s2).
Proof.
  induction s1 as [|c' s1 IH]; simpl; intros Hn; [by destruct (find_char c s2)|].
  destruct (Ascii.eqb c c'); [done|]. destruct (find_char c s1); [done|].
  rewrite IH by done. by destruct (find_char c s2).
Qed.

Lemma substring_skip s1 s2 n m :
  String.substring (String.length s1 + n) m (s1 ++ s2)%string = String.substring n m s2.
Proof. induction s1 as [|c s1 IH]; [done|]. simpl. apply IH. Qed.

Lemma substring_prefix s1 s2 : String.substring 0 (String.length s1) (s1 ++ s2)%string = s1.
Proof. induction s1 as [|c s1 IH]; simpl; [by destruct s2|]. by rewrite IH. Qed.

(** The bracketed choice of a node such as "host [device]". *)
Lemma extractRole_selected pre r post :
  find_char "["%char pre = None -> find_char "]"%char pre = None -> find_char "]"%char r = None ->
  extractRole (pre ++ "[" ++ r ++ "]" ++ post)%string = r.
Proof.
  intros Hp1 Hp2 Hr. unfold extractRole.
  rewrite find_char_app_none by done. simpl find_char at 1. cbn [option_map].
  rewrite (find_char_app_none "]"%char pre) by done.
  assert (find_char "]"%char ("[" ++ r ++ "]" ++ post)%string = Some (S (String.length r))) as ->.
  { simpl. rewrite find_char_app_none by done. simpl. by rewrite Nat.add_0_r. }
  cbn [option_map]. rewrite (proj2 (Nat.ltb_ge _ _)) by lia.
  replace (S (String.length pre + 0)) with (String.length pre + 1)%nat by lia.
  rewrite substring_skip. replace (_ - _ - 1)%nat with (String.length r) by lia.
  simpl. apply substring_prefix.
Qed.

(** ** Properties *)

(** The roles a node can select, grouped by the node they live in. *)
Definition same_node_roles (role r : PortRole) : bool :=
  match role, r with
  | powerRole (SOURCE | SINK), powerRole (SOURCE | SINK) => true
  | dataRole (HOST | DEVICE), dataRole (HOST | DEVICE) => true
  | _, _ => false
  end.

(** C22: role nodes round trip.  When a power or data role node reads, after
    trimming, as some text with the role r in brackets, [switchRole] for a role of
    that node leaves the requested name in the node and notifies exactly once, with
    success exactly if r is the requested role; and [getCurrentRoleHelper] reads r
    back from the same text. *)
Theorem selected_role_roundtrip env port role r pre post text waits tid u :
  same_node_roles role r = true ->
  find_char "["%char pre = None -> find_char "]"%char pre = None ->
  Trim env text = (pre ++ "[" ++ convertRoletoString r ++ "]" ++ post)%string ->
  mCallback u = true -> open_write env (appendRoleNodeHelper port role) = true ->
  put_text env (appendRoleNodeHelper port role) = true ->
  (exists u', switchRole env waits (Some text) port role tid u = Some u' /\
     usb_nodes u' !! appendRoleNodeHelper port role = Some (convertRoletoString role) /\
     usb_log u' = usb_log u ++ [notifyRoleSwitchStatus port role
                                  (if decide (r = role) then SUCCESS else ERROR) tid]) /\
  (read_text env (appendRoleNodeHelper port role) = Some text ->
     getCurrentRoleHelper env port true role = (SUCCESS, r)).
Proof.
  intros Hs Hp1 Hp2 Ht Hcb Ho Hw.
  assert (extractRole (Trim env text) = convertRoletoString r) as Hx.
  { rewrite Ht. apply extractRole_selected; try done. by destruct role as [[]|[]| |], r as [[]|[]| |]. }
  split.
  - assert ((convertRoletoString r =? convertRoletoString role)%string = bool_decide (r = role)) as Heq
      by (by destruct role as [[]|[]| |], r as [[]|[]| |]).
    unfold switchRole, switch_other, write_role, notify. rewrite Ho, Hw, Hx, Heq.
    assert ((appendRoleNodeHelper port role =? "")%string = false) as ->
      by (by destruct role as [[]|[]| |]).
    destruct role as [[]|[]| |]; try done; simpl; rewrite Hcb; eexists; (split; [done|]); simpl;
      rewrite lookup_insert_eq; by repeat case_bool_decide; case_decide.
  - intros Hr. destruct role as [[]|[]| |]; try done; simpl in Hr |- *;
      rewrite Hr, Hx; by destruct r as [[]|[]| |].
Qed.

(** What the names in a directory say about ports: the name of a partner contains
    "-partner", and its port is the first part of it between dashes. *)
Definition no_dash (p : string) : Prop := find_char "-"%char p = None.

Fixpoint all_dashes (s : string) : Prop :=
  match s with EmptyString => True | String c s => c = "-"%char /\ all_dashes s end.

Definition first_part (name p : string) : Prop :=
  exists dashes rest, name = (dashes ++ p ++ rest)%string /\ all_dashes dashes /\ no_dash p /\ p <> "" /\
    (rest = "" \/ exists r, rest = String "-" r).

Definition contains (sub s : string) : Prop := exists a b, s = (a ++ sub ++ b)%string.

Lemma no_dash_cons c p : no_dash (String c p) <-> Ascii.eqb c "-"%char = false /\ no_dash p.
Proof.
  unfold no_dash. cbn [find_char]. rewrite (Ascii.eqb_sym "-" c).
  destruct (Ascii.eqb c "-"); [naive_solver|]. destruct (find_char _ p); naive_solver.
Qed.

Lemma strtok_rest_split s : exists rest, s = (strtok_rest s ++ rest)%string /\ no_dash (strtok_rest s) /\
  (rest = "" \/ exists r, rest = String "-" r).
Proof.
  induction s as [|c s IH]; [exists ""; by split_and!; [..|left]|]. cbn [strtok_rest].
  destruct (Ascii.eqb_spec c "-") as [->|Hc]; [exists (String "-" s); by split_and!; [..|right; exists s]|].
  destruct IH as (rest & E & Hn & Hr). exists rest. split; [by simpl; rewrite <- E|]. split; [|done].
  apply no_dash_cons. split; [by apply Ascii.eqb_neq|done].
Qed.

(** [strtok] returns the first part, if the string has one. *)
Lemma strtok_first_part s : strtok_dash s <> "" -> first_part s (strtok_dash s).
Proof.
  induction s as [|c s IH]; [done|]. cbn [strtok_dash]. intros Hne.
  destruct (Ascii.eqb_spec c "-") as [->|Hc].
  - destruct (IH Hne) as (d & rest & E & Hd & H). exists (String "-" d), rest.
    split; [by simpl; rewrite <- E|]. split; [by split|done].
  - destruct (strtok_rest_split (String c s)) as (rest & E & Hn & Hr). by exists "", rest.
Qed.

Lemma strtok_rest_first p rest : no_dash p -> rest = "" \/ (exists r, rest = String "-" r) ->
  strtok_rest (p ++ rest) = p.
Proof.
  intros Hp Hr. induction p as [|c p IH]; [by destruct Hr as [->|[r ->]]|].
  apply no_dash_cons in Hp as [Hc Hp]. simpl. rewrite Hc. f_equal. by apply IH.
Qed.

Lemma first_part_strtok s p : first_part s p -> strtok_dash s = p.
Proof.
  intros (d & rest & -> & Hd & Hp & Hne & Hr). induction d as [|c d IH].
  - destruct p as [|c p]; [done|]. pose proof (proj1 (no_dash_cons _ _) Hp) as [Hc _]. cbn [String.append strtok_dash].
    rewrite Hc. by apply (strtok_rest_first (String c p)).
  - destruct Hd as [-> Hd]. by apply IH.
Qed.

Lemma prefix_spec sub s : String.prefix sub s = true <-> exists b, s = (sub ++ b)%string.
Proof.
  revert s. induction sub as [|c sub IH]; intros s; [split; [by exists s|by destruct s]|].
  destruct s as [|c' s]; cbn; [split; [done|by intros [? ?]]|].
  destruct (ascii_dec c c') as [->|Hc]; [rewrite IH|]; naive_solver.
Qed.

Lemma index_contains sub s : sub <> "" -> is_Some (String.index 0 sub s) <-> contains sub s.
Proof.
  intros Hs. induction s as [|c s IH].
  - destruct sub; [done|]. split; [by intros [? ?]|]. by intros ([] & b & ?).
  - cbn [String.index]. destruct (String.prefix sub (String c s)) eqn:Hp.
    + apply prefix_spec in Hp as [b Hb]. split; [intros _; by exists "", b|by eauto].
    + transitivity (is_Some (String.index 0 sub s)); [by destruct (String.index 0 sub s); split; intros [? ?]; eauto|].
      rewrite IH. split; [intros (a & b & ->); by exists (String c a), b|].
      intros ([|c' a] & b & E); [|by simplify_eq/=; exists a, b].
      rewrite (proj2 (prefix_spec sub (String c s))) in Hp by (by exists b). done.
Qed.

(** A partner's name has a first part. *)
Lemma partner_strtok name : contains "-partner" name -> strtok_dash name <> "".
Proof.
  intros (a & b & ->). induction a as [|c a IH]; [done|]. cbn [String.append strtok_dash].
  destruct (Ascii.eqb c "-") eqn:Hc; [done|]. cbn [strtok_rest]. by rewrite Hc.
Qed.

(** The ports collected from a directory. *)
Lemma port_entries_spec entries p :
  let names := foldl port_entry ∅ entries in
  let partner := exists name, (name, true) ∈ entries /\ contains "-partner" name /\ first_part name p in
  (names !! p = Some true <-> partner) /\
  (is_Some (names !! p) <-> partner \/ ((p, true) ∈ entries /\ ~ contains "-partner" p)).
Proof.
  cbv zeta. induction entries as [|[q is_link] entries IH] using rev_ind.
  { simpl. rewrite lookup_empty, is_Some_alt. set_solver. }
  rewrite foldl_app. cbn [foldl]. unfold port_entry at 1 3. set (names := foldl port_entry ∅ _) in *.
  clearbody names. setoid_rewrite elem_of_app. setoid_rewrite list_elem_of_singleton.
  destruct is_link; cbn [negb]; [|naive_solver].
  pose proof (index_contains "-partner" q ltac:(done)) as Hi.
  destruct (String.index 0 "-partner" q) as [n|].
  - assert (contains "-partner" q) as Hq by (apply Hi; eauto).
    pose proof (strtok_first_part q (partner_strtok q Hq)) as Hf.
    destruct (decide (p = strtok_dash q)) as [->|Hne]; [rewrite lookup_insert_eq; naive_solver|].
    rewrite lookup_insert_ne by done.
    assert (~ first_part q p) by (intros Hp; by apply first_part_strtok in Hp). naive_solver.
  - assert (~ contains "-partner" q) as Hq by (intros Hc; by apply Hi in Hc as [? ?]).
    destruct (decide (p = q)) as [->|Hne].
    + destruct (names !! q) as [b|] eqn:Hn; [rewrite Hn; naive_solver|].
      rewrite lookup_insert_eq. naive_solver.
    + assert (match names !! q with None => <[q:=false]> names | Some _ => names end !! p = names !! p)
        as -> by (case_match; rewrite ?lookup_insert_ne by done; done).
      naive_solver.
Qed.

(** C23: whatever /sys/class/typec lists, in whatever order, the ports found are those
    with a symbolic link of their name (without "-partner") and those with a link of a
    partner, a name that contains "-partner" and has the port as its first part between
    dashes; a port is connected exactly if it has a partner's link.  Entries that are not
    links (. and .. among them) do not count, and without the directory there is no
    result. *)
Theorem ports_connected_iff_partner env :
  match typec_dir env with
  | None => getTypeCPortNamesHelper env = None
  | Some entries =>
      exists names, getTypeCPortNamesHelper env = Some names /\ forall p,
        let partner := exists name, (name, true) ∈ entries /\ contains "-partner" name /\ first_part name p in
        (names !! p = Some true <-> partner) /\
        (is_Some (names !! p) <-> partner \/ ((p, true) ∈ entries /\ ~ contains "-partner" p))
  end.
Proof.
  unfold getTypeCPortNamesHelper. destruct (typec_dir env) as [entries|]; [|done].
  eexists. split; [done|]. intros p. apply port_entries_spec.
Qed.

(** C24: whatever bytes the kernel delivers, terminated or not, the loop over the
    records of a uevent ends and never reads past the two terminators written after
    the message. *)
Theorem uevent_stays_in_buffer env trylock n msg u :
  Z.of_nat (length msg) = n -> uevent_event env trylock n msg u <> UevOverrun.
Proof.
  intros Hn. unfold uevent_event. repeat case_match; try done. apply uevent_loop_in_bounds. lia.
Qed.

(** clearing the callback can deadlock: [setCallback] joins the listener
    while it holds [mLock], and a listener that has received an event waits for
    [mLock] in [queryVersionHelper].  The state is reached by a registration, an
    event and the clearing call, and no thread has a step from it. *)
Lemma clearing_callback_can_deadlock :
  exists t, usb_run [LSetCallback true true true; LWorkerTest; LWorkerWait; LEvent;
                     LSetCallback false true true] usb_threads_init = Some t /\
    ut_binder t = BJoining /\ forall l, usb_exec l t = None.
Proof. eexists. split; [reflexivity|]. split; [done|]. by intros []. Qed.

(** A signal that comes between the test of destroyThread and epoll_wait is lost: the
    thread waits although it should end, the binder thread waits for it, and nothing
    but an event or a failure moves either of them. *)
Lemma clearing_callback_can_lose_signal :
  exists t, usb_run [LSetCallback true true true; LWorkerTest; LSetCallback false true true; LWorkerWait]
      usb_threads_init = Some t /\
    ut_destroy t = true /\ ut_binder t = BJoining /\
    forall l t', usb_exec l t = Some t' -> l ∈ [LEvent; LOtherEvent; LWorkerFail].
Proof.
  eexists. split; [reflexivity|]. split; [done|]. split; [done|].
  intros [] t'; cbn; try discriminate; intros _; repeat constructor.
Qed.

(** A thread that is in epoll_wait, with no event on its way, ends at once and the call
    returns. *)
Lemma clearing_callback_while_waiting t t1 :
  ut_callback t = true -> ut_worker t = WWaiting -> usb_exec (LSetCallback false true true) t = Some t1 ->
  (forall l t2, usb_exec l t1 = Some t2 -> l ∈ [LWorkerTest; LWorkerFail] /\ ut_worker t2 = WExited) /\
  exists t3, usb_run [LWorkerTest; LJoined] t1 = Some t3 /\ ut_worker t3 = WNone /\ ut_binder t3 = BIdle /\
    ut_callback t3 = false.
Proof.
  destruct t as [cb d w b]. cbn. intros -> -> H1. destruct b; [|done]. injection H1 as <-. split.
  - intros [] t2; cbn; try discriminate; intros [= <-]; (split; [set_solver|done]).
  - eexists. split; [reflexivity|]. done.
Qed.

(** *** Witnesses *)

Definition demo_usb : Usb :=
  {| mCallback := true; mPartnerUp := false; usb_nodes := ∅; usb_log := [] |}.

Definition demo_usb_env : usb_env := {|
  read_text _ := Some "host [device]";
  open_write _ := true;
  put_text _ := true;
  typec_dir := Some [("port0-partner", true); ("port0", true); ("port1", true)];
  has_dir _ := false;
  usb_property _ := "";
  Trim s := s
|}.

Lemma selected_role_roundtrip_witness :
  (exists u', switchRole demo_usb_env [] (Some "host [device]") "port0" (dataRole DEVICE) 7 demo_usb =
     Some u' /\
     usb_nodes u' !! "/sys/class/typec/port0/data_role" = Some "device" /\
     usb_log u' = [notifyRoleSwitchStatus "port0" (dataRole DEVICE) SUCCESS 7]) /\
  getCurrentRoleHelper demo_usb_env "port0" true (dataRole DEVICE) = (SUCCESS, dataRole DEVICE).
Proof.
  destruct (selected_role_roundtrip demo_usb_env "port0" (dataRole DEVICE) (dataRole DEVICE) "host "
    "" "host [device]" [] 7 demo_usb eq_refl eq_refl eq_refl eq_refl eq_refl eq_refl eq_refl)
    as [H1 H2].
  exact (conj H1 (H2 eq_refl)).
Defined.

(** A listing as the kernel gives it, with a cable in the first port: the cable's link
    is taken for a port. *)
Example ports_listed :
  foldl port_entry ∅ [(".", false); ("..", false); ("port0-partner", true); ("port0", true);
                      ("port0-cable", true); ("port1", true); ("port2", false)] =
    {["port0" := true; "port0-cable" := false; "port1" := false]}.
Proof. reflexivity. Qed.

Lemma uevent_stays_in_buffer_witness :
  uevent_event demo_usb_env true 3 ["a"%char; "d"%char; "d"%char] demo_usb <> UevOverrun.
Proof. apply (uevent_stays_in_buffer demo_usb_env true 3); reflexivity. Defined.
