(* ===== verification/Bytes.v ===== *)
(** Memory as the image tools and the sensor events use it: a list of bytes (as
    numbers), 32-bit words in it least significant byte first, fields read and
    written at byte offsets. *)
From S2P Require Import Prelude.
Local Open Scope Z_scope.

(** An [unsigned] in memory. *)
Definition le32 (z : Z) : list Z :=
  [z mod 256; (z / 256) mod 256; (z / 65536) mod 256; (z / 16777216) mod 256].

Definition of_le32 (l : list Z) : Z :=
  match l with
  | [a; b; c; d] => a + 256 * b + 65536 * c + 16777216 * d
  | _ => 0
  end.

(** Storing the bytes [d] at offset [off], and loading [n] bytes from there. *)
Definition put (off : nat) (d buf : list Z) : list Z :=
  take off buf ++ d ++ drop (off + length d) buf.

Definition get (off n : nat) (buf : list Z) : list Z := take n (drop off buf).

Definition get32 (off : nat) (buf : list Z) : Z := of_le32 (get off 4 buf).

(** An array of words. *)
Definition le32s (ws : list Z) : list Z := concat (map le32 ws).

Fixpoint of_le32s (l : list Z) : list Z :=
  match l with
  | a :: b :: c :: d :: l => of_le32 [a; b; c; d] :: of_le32s l
  | _ => []
  end.

Definition word (z : Z) : Prop := 0 <= z < 2 ^ 32.

Lemma le32_length z : length (le32 z) = 4%nat.
Proof. done. Qed.

Lemma of_le32_wrap z : of_le32 (le32 z) = u32 z.
Proof. unfold of_le32, le32. clia. Qed.

Lemma of_le32_le32 z : 0 <= z < 2 ^ 32 -> of_le32 (le32 z) = z.
Proof. intros Hz. rewrite of_le32_wrap. by apply wrap_u_id. Qed.

Lemma le32s_length ws : length (le32s ws) = (4 * length ws)%nat.
Proof.
  unfold le32s. induction ws as [|w ws IH]; cbn [map concat]; [done|].
  rewrite length_app, IH, le32_length. simpl. lia.
Qed.

Lemma of_le32s_le32s ws : Forall word ws -> of_le32s (le32s ws) = ws.
Proof.
  induction 1 as [|w ws Hw _ IH]; [done|]. unfold le32s in *. cbn [map concat].
  change (of_le32 (le32 w) :: of_le32s (concat (map le32 ws)) = w :: ws).
  by rewrite IH, of_le32_le32.
Qed.

Section memory.
Context (buf : list Z).

Lemma put_length off d : (off + length d <= length buf)%nat -> length (put off d buf) = length buf.
Proof. intros. unfold put. rewrite !length_app, length_take, length_drop. lia. Qed.

Lemma get_put off d :
  (off + length d <= length buf)%nat -> get off (length d) (put off d buf) = d.
Proof.
  intros. unfold get, put. rewrite drop_app_length' by (rewrite length_take; lia).
  by rewrite take_app_length.
Qed.

(** A store leaves the fields beside it alone. *)
Lemma get_put_before off d o n :
  (o + n <= off)%nat -> (off <= length buf)%nat -> get o n (put off d buf) = get o n buf.
Proof.
  intros. unfold get, put. rewrite drop_app_le by (rewrite length_take; lia).
  rewrite take_app_le by (rewrite length_drop, length_take; lia).
  by rewrite !take_drop_commute, take_take, Nat.min_l by lia.
Qed.

Lemma get_put_after off d o n :
  (off + length d <= o)%nat -> (off <= length buf)%nat -> get o n (put off d buf) = get o n buf.
Proof.
  intros. unfold get, put. rewrite drop_app_ge by (rewrite length_take; lia).
  rewrite drop_app_ge by (rewrite length_take; lia). rewrite drop_drop. do 2 f_equal.
  rewrite length_take. lia.
Qed.

Lemma get_length off n : (off + n <= length buf)%nat -> length (get off n buf) = n.
Proof. intros. unfold get. rewrite length_take, length_drop. lia. Qed.

End memory.
