(* ===== verification/BootImage.v ===== *)
(** Model of the boot image tools: mkbootimg (src/dtbhtool/mkbootimg.c) writes an
    Android boot image with a device-tree section and a signature, unpackbootimg
    (src/dtbhtool/unpackbootimg.c) takes it apart; the header is that of
    src/dtbhtool/bootimg.h.

    Files are lists of bytes ([Z] in 0..255).  The model starts after the command
    line has been parsed: [mk_options] are the variables of main; the option loops and
    the files the tools leave behind are in ImageTools.  SHA-1 and the DTBH block
    builder are parameters.  [MkUndefined] is a read outside the signature buffer or
    undefined behaviour of the builder.  unpackbootimg reads its input as a stream of remaining
    bytes; a read that comes up short leaves uninitialised memory in the buffer
    ([UnpackShort]).  Every output is recorded with the stream it is written to
    and whether that stream is still open. *)
From S2P Require Import Prelude Texts Sysfs Bytes.

(** ** Data *)

Definition BOOT_MAGIC : list Z := [65; 78; 68; 82; 79; 73; 68; 33].
Definition BOOT_MAGIC_SIZE : nat := 8.
Definition BOOT_NAME_SIZE : nat := 16.
Definition BOOT_ARGS_SIZE : nat := 512.
Definition SHA_DIGEST_LENGTH : nat := 20.

Record boot_img_hdr := {
  kernel_size : Z;
  kernel_addr : Z;
  ramdisk_size : Z;
  ramdisk_addr : Z;
  second_size : Z;
  second_addr : Z;
  tags_addr : Z;
  page_size : Z;
  dt_size : Z;
  unused : Z;
  name : list Z;
  hdr_cmdline : list Z;
  id : list Z
}.

Definition pad_to (n : nat) (l : list Z) : list Z := l ++ replicate (n - length l) 0.

(** The bytes of a header with [magic] in place. *)
Definition hdr_bytes (h : boot_img_hdr) : list Z :=
  BOOT_MAGIC ++ le32 (kernel_size h) ++ le32 (kernel_addr h) ++ le32 (ramdisk_size h) ++
  le32 (ramdisk_addr h) ++ le32 (second_size h) ++ le32 (second_addr h) ++ le32 (tags_addr h) ++
  le32 (page_size h) ++ le32 (dt_size h) ++ le32 (unused h) ++
  pad_to BOOT_NAME_SIZE (name h) ++ pad_to BOOT_ARGS_SIZE (hdr_cmdline h) ++ pad_to 32 (id h).

Definition sizeof_hdr : Z := 608.

(** ** mkbootimg *)

(** A file of the host system: [load_file] keeps its size in an [int]. *)
Definition load_file (content : option (list Z)) : option (list Z) :=
  match content with
  | None => None
  | Some data =>
      let sz := i32 (Z.of_nat (length data)) in
      if sz <? 0 then None else Some (take (Z.to_nat sz) data)
  end.

(** The variables of main after the option loop; the files are given by name. *)
Record mk_options := {
  o_kernel : option string;
  o_ramdisk : option string;
  o_second : option string;
  o_cmdline : list Z;
  o_output : option string;
  o_board : list Z;
  o_dt_dir : option string;
  o_dt : option string;
  o_signature : option string;
  o_pagesize : Z;
  o_base : Z;
  o_kernel_offset : Z;
  o_ramdisk_offset : Z;
  o_second_offset : Z;
  o_tags_offset : Z
}.

Definition supported_pagesize (p : Z) : bool :=
  bool_decide (p ∈ [2048; 4096; 8192; 16384; 32768; 65536; 131072]).

Inductive mk_result :=
  | MkUsage
  | MkError                  (* an error message and exit status 1 *)
  | MkUndefined              (* undefined behaviour *)
  | MkImage (bytes : list Z).

Definition write_padding (pagesize itemsize : Z) : list Z :=
  let pagemask := pagesize - 1 in
  if Z.land itemsize pagemask =? 0 then []
  else replicate (Z.to_nat (pagesize - Z.land itemsize pagemask)) 0.

(** Loading a section: a value, an error, or undefined behaviour on the way. *)
Inductive loaded (A : Type) :=
  | LoadCrash
  | LoadFailed
  | Loaded (a : A).
#[global] Arguments LoadCrash {A}.
#[global] Arguments LoadFailed {A}.
#[global] Arguments Loaded {A} a.

Definition load_result {A} (o : option A) : loaded A :=
  match o with Some a => Loaded a | None => LoadFailed end.

Section mk.
Context (files : string -> option (list Z)).
Context (load_dtbh_block : string -> Z -> loaded (list Z)).
Context (SHA1 : list Z -> list Z).

Definition size_of (data : option (list Z)) : Z := Z.of_nat (length (default [] data)).

(** What is hashed into the header. *)
Definition sha_input (kernel ramdisk second : list Z) (dt : option (list Z)) : list Z :=
  kernel ++ le32 (Z.of_nat (length kernel)) ++ ramdisk ++ le32 (Z.of_nat (length ramdisk)) ++
  second ++ le32 (Z.of_nat (length second)) ++
  match dt with Some d => d ++ le32 (Z.of_nat (length d)) | None => [] end.

Definition mk_header (o : mk_options) (kernel ramdisk : list Z) (second dt : option (list Z)) :
    boot_img_hdr := {|
  kernel_size := Z.of_nat (length kernel);
  kernel_addr := u32 (o_base o + o_kernel_offset o);
  ramdisk_size := Z.of_nat (length ramdisk);
  ramdisk_addr := u32 (o_base o + o_ramdisk_offset o);
  second_size := size_of second;
  second_addr := u32 (o_base o + o_second_offset o);
  tags_addr := u32 (o_base o + o_tags_offset o);
  page_size := o_pagesize o;
  dt_size := size_of dt;
  unused := 0;
  name := o_board o;
  hdr_cmdline := o_cmdline o;
  id := take SHA_DIGEST_LENGTH (SHA1 (sha_input kernel ramdisk (default [] second) dt))
|}.

(** The writes, in order.  The padding after the second stage is computed from
    [hdr.ramdisk_size]. *)
Definition image_bytes (h : boot_img_hdr) (kernel ramdisk : list Z)
    (second dt signature : option (list Z)) : list Z :=
  let p := page_size h in
  hdr_bytes h ++ write_padding p sizeof_hdr ++
  kernel ++ write_padding p (kernel_size h) ++
  ramdisk ++ write_padding p (ramdisk_size h) ++
  match second with Some s => s ++ write_padding p (ramdisk_size h) | None => [] end ++
  match dt with Some d => d ++ write_padding p (dt_size h) | None => [] end ++
  match signature with Some s => take 256 s | None => [] end.

(** A file that may be absent from the command line: [None] on a load error. *)
Definition load_optional (fn : option string) : option (option (list Z)) :=
  match fn with
  | None => Some None
  | Some f => match load_file (files f) with Some d => Some (Some d) | None => None end
  end.

Definition load_dt (o : mk_options) : loaded (option (list Z)) :=
  match o_dt_dir o with
  | Some dir =>
      match load_dtbh_block dir (o_pagesize o) with
      | Loaded d => Loaded (Some d)
      | LoadFailed => LoadFailed
      | LoadCrash => LoadCrash
      end
  | None => load_result (load_optional (o_dt o))
  end.

Definition is_given {A} (o : option A) : bool := match o with Some _ => true | None => false end.

Definition mkbootimg (o : mk_options) : mk_result :=
  match o_output o, o_kernel o, o_ramdisk o with
  | Some _, Some kernel_fn, Some ramdisk_fn =>
      if is_given (o_dt_dir o) && is_given (o_dt o) then MkUsage
      else if (BOOT_NAME_SIZE <=? length (o_board o))%nat then MkUsage
      else if (BOOT_ARGS_SIZE - 1 <? length (o_cmdline o))%nat then MkError
      else
        let ramdisk :=
          if (ramdisk_fn =? "NONE")%string then Some [] else load_file (files ramdisk_fn) in
        match load_file (files kernel_fn), ramdisk, load_optional (o_second o) with
        | Some kernel, Some ramdisk, Some second =>
            match load_dt o, load_optional (o_signature o) with
            | LoadCrash, _ => MkUndefined
            | Loaded dt, Some signature =>
                if match signature with Some s => (length s <? 256)%nat | None => false end
                then MkUndefined
                else MkImage (image_bytes (mk_header o kernel ramdisk second dt) kernel ramdisk
                                second dt signature)
            | _, _ => MkError
            end
        | _, _, _ => MkError
        end
  | _, _, _ => MkUsage
  end.

End mk.

(** ** unpackbootimg *)

Record unpacked := {
  u_cmdline : list Z;
  u_base : Z;
  u_ramdisk_offset : Z;
  u_second_offset : Z;
  u_tags_offset : Z;
  u_pagesize : Z;
  u_kernel : list Z;
  u_ramdisk : list Z;
  u_second : list Z;
  u_dt : list Z;
  u_signature : list Z;
  (* fwrite calls: file behind the stream, whether it is still open, data *)
  u_writes : list (string * bool * list Z)
}.

Inductive unpack_result :=
  | UnpackNoMagic
  | UnpackShort
  | Unpacked (u : unpacked).

(** One [fread] of an item of [n] bytes. *)
Definition fread (n : Z) (f : list Z) : option (list Z * list Z) :=
  if Z.of_nat (length f) <? n then None else Some (take (Z.to_nat n) f, drop (Z.to_nat n) f).

Definition read_padding (itemsize pagesize : Z) (f : list Z) : list Z :=
  let pagemask := pagesize - 1 in
  if Z.land itemsize pagemask =? 0 then f
  else drop (Z.to_nat (pagesize - Z.land itemsize pagemask)) f.

(** The search for the magic at offsets [i .. 512]; [tmp] keeps what earlier
    reads left where the current one is short. *)
Fixpoint find_magic (fuel : nat) (i : nat) (tmp file : list Z) : option nat :=
  match fuel with
  | O => None
  | S fuel =>
      let d := take BOOT_MAGIC_SIZE (drop i file) in
      let tmp := d ++ drop (length d) tmp in
      if bool_decide (take BOOT_MAGIC_SIZE tmp = BOOT_MAGIC) then Some i else find_magic fuel (S i) tmp file
  end.

Definition field (off : nat) (h : list Z) : Z := of_le32 (take 4 (drop off h)).

(** The string at the start of a buffer. *)
Fixpoint until_nul (l : list Z) : list Z :=
  match l with
  | [] => []
  | c :: l => if c =? 0 then [] else c :: until_nul l
  end.

Definition hdr_of_bytes (b : list Z) : boot_img_hdr := {|
  kernel_size := field 8 b; kernel_addr := field 12 b; ramdisk_size := field 16 b;
  ramdisk_addr := field 20 b; second_size := field 24 b; second_addr := field 28 b;
  tags_addr := field 32 b; page_size := field 36 b; dt_size := field 40 b; unused := field 44 b;
  name := take BOOT_NAME_SIZE (drop 48 b); hdr_cmdline := take BOOT_ARGS_SIZE (drop 64 b);
  id := drop 576 b
|}.

(** [-ramdisk.lz4] for the lz4 magic; [None] when the test reads past the buffer. *)
Definition ramdisk_suffix (r : list Z) : option string :=
  match r with
  | [] => None
  | a :: r =>
      if a =? 2 then
        match r with
        | [] => None
        | b :: _ => Some (if b =? 0x21 then "-ramdisk.lz4" else "-ramdisk.gz")
        end
      else Some "-ramdisk.gz"
  end.

(** [pagesize_opt] is 0 unless -p was given. *)
Definition unpackbootimg (pagesize_opt : Z) (junk file : list Z) : unpack_result :=
  match find_magic 513 0 junk file with
  | None => UnpackNoMagic
  | Some i =>
      let result :=
        '(hb, f) ← fread sizeof_hdr (drop i file);
        let h := hdr_of_bytes hb in
        let pagesize := if pagesize_opt =? 0 then i32 (page_size h) else pagesize_opt in
        let f := read_padding sizeof_hdr pagesize f in
        '(kernel, f) ← fread (kernel_size h) f;
        let f := read_padding (kernel_size h) pagesize f in
        '(ramdisk, f) ← fread (ramdisk_size h) f;
        suffix ← ramdisk_suffix ramdisk;
        let f := read_padding (ramdisk_size h) pagesize f in
        '(second, f) ← fread (second_size h) f;
        let f := read_padding (second_size h) pagesize f in
        '(dt, f) ← fread (dt_size h) f;
        let f := read_padding (dt_size h) pagesize f in
        '(sig, f) ← fread 256 f;
        Some {|
          u_cmdline := until_nul (hdr_cmdline h);
          u_base := u32 (kernel_addr h - 0x8000);
          u_ramdisk_offset := u32 (ramdisk_addr h - kernel_addr h + 0x8000);
          u_second_offset := u32 (second_addr h - kernel_addr h + 0x8000);
          u_tags_offset := u32 (tags_addr h - kernel_addr h + 0x8000);
          u_pagesize := page_size h;
          u_kernel := kernel; u_ramdisk := ramdisk; u_second := second; u_dt := dt;
          u_signature := sig;
          u_writes := [("-zImage", true, kernel); (suffix, true, ramdisk);
                       (suffix, false, second); (suffix, false, dt); (suffix, false, sig)]
        |} in
      match result with Some u => Unpacked u | None => UnpackShort end
  end.

(** ** Lemmas *)

Lemma pad_to_length n l : (length l <= n)%nat -> length (pad_to n l) = n.
Proof. intros. unfold pad_to. rewrite length_app, length_replicate. lia. Qed.

Lemma fread_app n a b : n = Z.of_nat (length a) -> fread n (a ++ b) = Some (a, b).
Proof.
  intros ->. unfold fread. rewrite (proj2 (Z.ltb_ge _ _)) by (rewrite length_app; lia).
  by rewrite Nat2Z.id, take_app_length, drop_app_length.
Qed.

Lemma read_padding_written pagesize itemsize f :
  read_padding itemsize pagesize (write_padding pagesize itemsize ++ f) = f.
Proof.
  unfold read_padding, write_padding. case_match; [done|].
  by rewrite drop_app_length' by (by rewrite length_replicate).
Qed.

Lemma until_nul_pad l n : Forall (fun c => c <> 0) l -> until_nul (l ++ 0 :: n) = l.
Proof.
  induction 1 as [|c l Hc _ IH]; simpl; [done|]. rewrite (proj2 (Z.eqb_neq _ _)) by done.
  by rewrite IH.
Qed.

(** Field [off] of a buffer whose first [off] bytes are [pre]. *)
Lemma field_at off pre z post :
  length pre = off -> 0 <= z < 2 ^ 32 -> field off (pre ++ le32 z ++ post) = z.
Proof.
  intros <- Hz. unfold field. rewrite drop_app_length, (take_app_length' (le32 z)) by done.
  by apply of_le32_le32.
Qed.

Lemma size_range data : load_file data <> None -> 0 <= size_of (load_file data) < 2 ^ 31.
Proof.
  unfold load_file, size_of. destruct data as [l|]; [|done]. case_match; [done|]. intros _. simpl.
  rewrite length_take. pose proof (wrap_s_range 32 ltac:(lia) (Z.of_nat (length l))). width_simpl. lia.
Qed.

(** Header fields that fit their types. *)
Definition hdr_ok (h : boot_img_hdr) : Prop :=
  Forall (fun z => 0 <= z < 2 ^ 32)
    [kernel_size h; kernel_addr h; ramdisk_size h; ramdisk_addr h; second_size h; second_addr h;
     tags_addr h; page_size h; dt_size h; unused h] /\
  (length (name h) < BOOT_NAME_SIZE)%nat /\ (length (hdr_cmdline h) < BOOT_ARGS_SIZE)%nat /\
  (length (id h) <= 32)%nat.

(** The numeric prefix and the arrays of the header bytes. *)
Lemma hdr_bytes_length h : hdr_ok h -> length (hdr_bytes h) = 608%nat.
Proof.
  intros (_ & Hn & Hc & Hi). unfold hdr_bytes.
  rewrite !length_app, !le32_length, !pad_to_length by (unfold BOOT_NAME_SIZE, BOOT_ARGS_SIZE in *; lia).
  done.
Qed.

Lemma hdr_bytes_cmdline h :
  hdr_ok h -> take BOOT_ARGS_SIZE (drop 64 (hdr_bytes h)) = pad_to BOOT_ARGS_SIZE (hdr_cmdline h).
Proof.
  intros (_ & Hn & Hc & _). unfold BOOT_NAME_SIZE, BOOT_ARGS_SIZE in *.
  change (drop 64 (hdr_bytes h)) with
    (drop 16 (pad_to 16 (name h) ++ pad_to 512 (hdr_cmdline h) ++ pad_to 32 (id h))).
  rewrite drop_app_length' by (rewrite pad_to_length; lia).
  rewrite take_app_length' by (rewrite pad_to_length; lia). done.
Qed.

Lemma hdr_bytes_fields h :
  hdr_ok h ->
  let h' := hdr_of_bytes (hdr_bytes h) in
  kernel_size h' = kernel_size h /\ kernel_addr h' = kernel_addr h /\
  ramdisk_size h' = ramdisk_size h /\ ramdisk_addr h' = ramdisk_addr h /\
  second_size h' = second_size h /\ second_addr h' = second_addr h /\
  tags_addr h' = tags_addr h /\ page_size h' = page_size h /\ dt_size h' = dt_size h.
Proof.
  intros (Hf & _). rewrite !Forall_cons in Hf. destruct_and!. cbv zeta.
  split_and!; (etransitivity; [|by apply of_le32_le32]); reflexivity.
Qed.

Lemma until_nul_cmdline l :
  Forall (fun c => c <> 0) l -> (length l < BOOT_ARGS_SIZE)%nat ->
  until_nul (pad_to BOOT_ARGS_SIZE l) = l.
Proof.
  intros Hl Hn. unfold pad_to. destruct (BOOT_ARGS_SIZE - length l)%nat as [|k] eqn:Hk; [lia|].
  by apply until_nul_pad.
Qed.

Lemma find_magic_start junk rest : find_magic 513 0 junk (BOOT_MAGIC ++ rest) = Some O.
Proof. reflexivity. Qed.

Lemma pagesize_cases p : supported_pagesize p = true -> 2048 <= p <= 131072 /\ i32 p = p.
Proof.
  unfold supported_pagesize. intros Hp. case_bool_decide as Hin; [|done].
  repeat (apply elem_of_cons in Hin as [->|Hin]; [split; [lia|reflexivity]|]). set_solver.
Qed.

(** ** Specification *)

(** Inputs mkbootimg accepts: what the files hold, within the limits of the
    header; the second stage, if any, ends at the same offset in its page as the
    ramdisk. *)
Record mk_inputs (files : string -> option (list Z)) (dtbh : string -> Z -> loaded (list Z))
    (o : mk_options) (kernel ramdisk : list Z) (second dt : option (list Z)) (signature : list Z) :
    Prop := {
  in_output : is_given (o_output o) = true;
  in_kernel : exists fn, o_kernel o = Some fn /\ load_file (files fn) = Some kernel;
  in_ramdisk : exists fn, o_ramdisk o = Some fn /\ fn <> "NONE" /\ load_file (files fn) = Some ramdisk;
  in_second : load_optional files (o_second o) = Some second;
  in_dt : load_dt files dtbh o = Loaded dt;
  in_one_dt : is_given (o_dt_dir o) && is_given (o_dt o) = false;
  in_dt_size : size_of dt < 2 ^ 31;
  in_signature : load_optional files (o_signature o) = Some (Some signature);
  in_signature_size : (256 <= length signature)%nat;
  in_board : (length (o_board o) < BOOT_NAME_SIZE)%nat;
  in_cmdline : (length (o_cmdline o) < BOOT_ARGS_SIZE)%nat;
  in_cmdline_text : Forall (fun c => c <> 0) (o_cmdline o);
  in_pagesize : supported_pagesize (o_pagesize o) = true;
  in_ramdisk_size : (2 <= length ramdisk)%nat;
  in_second_page : match second with
                   | Some s => Z.land (Z.of_nat (length s)) (o_pagesize o - 1) =
                               Z.land (Z.of_nat (length ramdisk)) (o_pagesize o - 1)
                   | None => True
                   end
}.

Lemma mk_header_ok files dtbh SHA1 o kernel ramdisk second dt signature :
  mk_inputs files dtbh o kernel ramdisk second dt signature ->
  hdr_ok (mk_header SHA1 o kernel ramdisk second dt).
Proof.
  intros [? (kf & _ & Hk) (rf & _ & _ & Hr) Hs Hd ? Hds ? ? Hb Hc ? Hp ? ?].
  apply pagesize_cases in Hp as [Hp _].
  pose proof (size_range (files kf) ltac:(by rewrite Hk)) as Hks. rewrite Hk in Hks.
  pose proof (size_range (files rf) ltac:(by rewrite Hr)) as Hrs. rewrite Hr in Hrs.
  assert (0 <= size_of second < 2 ^ 31) as Hss.
  { unfold load_optional in Hs. destruct (o_second o) as [sf|]; [|by simplify_eq].
    destruct (load_file (files sf)) eqn:Hl; [|done]. simplify_eq. rewrite <- Hl.
    apply size_range. by rewrite Hl. }
  unfold size_of in *. simpl in Hks, Hrs.
  split; [|split_and!; try done; simpl; rewrite length_take; unfold SHA_DIGEST_LENGTH; lia].
  repeat (apply Forall_cons_2); try apply Forall_nil_2; simpl;
    try (apply wrap_u_range; lia); unfold size_of; lia.
Qed.

Lemma mkbootimg_defined files dtbh SHA1 o kernel ramdisk second dt signature :
  mk_inputs files dtbh o kernel ramdisk second dt signature ->
  mkbootimg files dtbh SHA1 o =
    MkImage (image_bytes (mk_header SHA1 o kernel ramdisk second dt) kernel ramdisk second dt
      (Some signature)).
Proof.
  intros [Ho (kf & Hkf & Hk) (rf & Hrf & Hne & Hr) Hs Hd H1 ? Hsig Hss Hb Hc ? ? ? ?].
  unfold mkbootimg. destruct (o_output o); [|done]. rewrite Hkf, Hrf, H1.
  rewrite (proj2 (Nat.leb_gt _ _)) by done.
  rewrite (proj2 (Nat.ltb_ge _ _)) by (unfold BOOT_ARGS_SIZE in *; lia).
  rewrite (proj2 (String.eqb_neq _ _)) by done. cbv zeta.
  rewrite Hk, Hr, Hs, Hd, Hsig. by rewrite (proj2 (Nat.ltb_ge _ _)).
Qed.

(** Reading an optional section back, whatever length its padding was computed
    from as long as it leaves the same remainder. *)
Lemma read_optional p data padsize rest :
  match data with
  | Some s => Z.land (Z.of_nat (length s)) (p - 1) = Z.land padsize (p - 1)
  | None => True
  end ->
  let written := match data with Some s => s ++ write_padding p padsize | None => [] end in
  exists mid, fread (size_of data) (written ++ rest) = Some (default [] data, mid) /\
    read_padding (size_of data) p mid = rest.
Proof.
  intros Hp. cbv zeta. destruct data as [s|]; simpl.
  - exists (write_padding p padsize ++ rest). rewrite <- app_assoc. split; [by apply fread_app|].
    assert (write_padding p padsize = write_padding p (size_of (Some s))) as ->
      by (unfold write_padding, size_of; simpl; by rewrite Hp).
    apply read_padding_written.
  - exists rest. split; [by apply (fread_app 0 [])|done].
Qed.

Lemma ramdisk_suffix_some r : (2 <= length r)%nat -> exists s, ramdisk_suffix r = Some s.
Proof.
  destruct r as [|a [|b r]]; simpl; try lia. intros _. case_match; eauto.
Qed.

(** What unpackbootimg reads out of an image with these parts. *)
Lemma unpack_image h kernel ramdisk second dt signature junk :
  hdr_ok h -> supported_pagesize (page_size h) = true ->
  kernel_size h = Z.of_nat (length kernel) -> ramdisk_size h = Z.of_nat (length ramdisk) ->
  second_size h = size_of second -> dt_size h = size_of dt ->
  (2 <= length ramdisk)%nat -> (256 <= length signature)%nat ->
  match second with
  | Some s => Z.land (Z.of_nat (length s)) (page_size h - 1) = Z.land (ramdisk_size h) (page_size h - 1)
  | None => True
  end ->
  exists u, unpackbootimg 0 junk (image_bytes h kernel ramdisk second dt (Some signature)) = Unpacked u /\
    u_kernel u = kernel /\ u_ramdisk u = ramdisk /\ u_second u = default [] second /\
    u_dt u = default [] dt /\ u_signature u = take 256 signature /\
    u_cmdline u = until_nul (pad_to BOOT_ARGS_SIZE (hdr_cmdline h)) /\
    u_pagesize u = page_size h /\ u_base u = u32 (kernel_addr h - 0x8000) /\
    u_ramdisk_offset u = u32 (ramdisk_addr h - kernel_addr h + 0x8000) /\
    u_second_offset u = u32 (second_addr h - kernel_addr h + 0x8000) /\
    u_tags_offset u = u32 (tags_addr h - kernel_addr h + 0x8000).
Proof.
  intros Hok Hp Hk Hr Hs Hd Hr2 Hsig Hpad.
  destruct (hdr_bytes_fields h Hok) as (F1 & F2 & F3 & F4 & F5 & F6 & F7 & F8 & F9).
  destruct (read_optional (page_size h) second (ramdisk_size h)
    (match dt with Some d => d ++ write_padding (page_size h) (dt_size h) | None => [] end ++
     take 256 signature) Hpad) as (mid1 & Hm1 & Hm1').
  destruct (read_optional (page_size h) dt (dt_size h) (take 256 signature)) as (mid2 & Hm2 & Hm2').
  { rewrite Hd. by destruct dt. }
  destruct (ramdisk_suffix_some ramdisk Hr2) as [suffix Hsuf].
  unfold unpackbootimg.
  assert (find_magic 513 0 junk (image_bytes h kernel ramdisk second dt (Some signature)) = Some O) as ->
    by (unfold image_bytes, hdr_bytes; rewrite <- app_assoc; apply find_magic_start).
  rewrite drop_0. unfold image_bytes at 1.
  rewrite fread_app by (rewrite hdr_bytes_length by done; done). cbn [mbind option_bind].
  rewrite F1, F2, F3, F4, F5, F6, F7, F8, F9. cbn [Z.eqb].
  rewrite (proj2 (pagesize_cases _ Hp)), read_padding_written.
  rewrite (fread_app (kernel_size h)) by done. cbn [mbind option_bind]. rewrite read_padding_written.
  rewrite (fread_app (ramdisk_size h)) by done. cbn [mbind option_bind]. rewrite Hsuf. cbn [mbind option_bind].
  rewrite read_padding_written, Hs, Hm1. cbn [mbind option_bind]. rewrite Hm1'.
  rewrite <- Hd in Hm2, Hm2'. rewrite Hm2. cbn [mbind option_bind]. rewrite Hm2'.
  rewrite <- (app_nil_r (take 256 signature)), fread_app by (rewrite length_take; lia).
  cbn [mbind option_bind]. eexists. split; [done|].
  unfold u_kernel, u_ramdisk, u_second, u_dt, u_signature, u_cmdline, u_pagesize, u_base,
    u_ramdisk_offset, u_second_offset, u_tags_offset.
  rewrite app_nil_r. split_and!; try done. f_equal. by apply hdr_bytes_cmdline.
Qed.

(** *** Alignment *)

Lemma land_pagemask p z : supported_pagesize p = true -> 0 <= z -> Z.land z (p - 1) = z mod p.
Proof.
  unfold supported_pagesize. intros Hp Hz. case_bool_decide as Hin; [|done].
  repeat (apply elem_of_cons in Hin as [->|Hin];
    [match goal with |- Z.land z (?q - 1) = _ =>
       change (q - 1) with (Z.ones (Z.log2 q)); change q with (2 ^ Z.log2 q) at 2;
       by rewrite Z.land_ones end|]).
  set_solver.
Qed.

Lemma write_padding_length p z :
  supported_pagesize p = true -> 0 <= z -> (Z.of_nat (length (write_padding p z)) + z) mod p = 0.
Proof.
  intros Hp Hz. pose proof (pagesize_cases p Hp) as [? _]. unfold write_padding.
  rewrite land_pagemask by done. pose proof (Z.mod_pos_bound z p ltac:(lia)).
  destruct (Z.eqb_spec (z mod p) 0) as [He|He]; simpl; [done|].
  rewrite length_replicate, Z2Nat.id by lia.
  replace (p - z mod p + z) with (p * (1 + z / p)) by (pose proof (Z.div_mod z p ltac:(lia)); lia).
  rewrite Z.mul_comm. apply Z.mod_mul. lia.
Qed.

(** Offset in the image at which the device tree is written. *)
Definition dt_offset (h : boot_img_hdr) (kernel ramdisk second : list Z) : Z :=
  Z.of_nat (length (image_bytes h kernel ramdisk (Some second) None None)).

(** ** Properties *)

(** an image mkbootimg accepts can be unpacked: unpackbootimg finds the
    header and reads into its buffers exactly the kernel, the ramdisk, the second stage, the
    device tree, the 256 signature bytes, the command line and the page size, and
    its base and offsets give the same load addresses. *)
Lemma bootimg_roundtrip files dtbh SHA1 o kernel ramdisk second dt signature junk :
  mk_inputs files dtbh o kernel ramdisk second dt signature ->
  exists img u,
    mkbootimg files dtbh SHA1 o = MkImage img /\ unpackbootimg 0 junk img = Unpacked u /\
    u_kernel u = kernel /\ u_ramdisk u = ramdisk /\ u_second u = default [] second /\
    u_dt u = default [] dt /\ u_signature u = take 256 signature /\ u_cmdline u = o_cmdline o /\
    u_pagesize u = o_pagesize o /\
    u32 (u_base u + 0x8000) = u32 (o_base o + o_kernel_offset o) /\
    u32 (u_base u + u_ramdisk_offset u) = u32 (o_base o + o_ramdisk_offset o) /\
    u32 (u_base u + u_second_offset u) = u32 (o_base o + o_second_offset o) /\
    u32 (u_base u + u_tags_offset u) = u32 (o_base o + o_tags_offset o).
Proof.
  intros Hin. pose proof (mk_header_ok _ _ SHA1 _ _ _ _ _ _ Hin) as Hok.
  destruct (unpack_image (mk_header SHA1 o kernel ramdisk second dt) kernel ramdisk second dt
    signature junk) as (u & Hu & E1 & E2 & E3 & E4 & E5 & E6 & E7 & E8 & E9 & E10 & E11);
    try apply Hin; try done.
  exists (image_bytes (mk_header SHA1 o kernel ramdisk second dt) kernel ramdisk second dt
    (Some signature)), u.
  rewrite (mkbootimg_defined _ _ _ _ _ _ _ _ _ Hin). simpl in E6, E7, E8, E9, E10, E11.
  rewrite until_nul_cmdline in E6 by apply Hin.
  rewrite E8, E9, E10, E11. split_and!; try done; clear; clia.
Qed.

(** the layout of bootimg.h puts every section on a page boundary, but the
    padding after the second stage is computed from the ramdisk's size: the device
    tree starts on a page boundary exactly if the second stage and the ramdisk have
    the same size modulo the page. *)
Lemma dt_aligned_iff_sizes_congruent h kernel ramdisk second :
  hdr_ok h -> supported_pagesize (page_size h) = true ->
  kernel_size h = Z.of_nat (length kernel) -> ramdisk_size h = Z.of_nat (length ramdisk) ->
  (dt_offset h kernel ramdisk second mod page_size h = 0 <->
   Z.of_nat (length second) mod page_size h = Z.of_nat (length ramdisk) mod page_size h).
Proof.
  intros Hok Hp Hk Hr. pose proof (pagesize_cases _ Hp) as [Hpp _].
  unfold dt_offset, image_bytes. rewrite !length_app, hdr_bytes_length, Hk, Hr by done.
  pose proof (write_padding_length (page_size h) sizeof_hdr Hp ltac:(done)) as P0.
  pose proof (write_padding_length (page_size h) (Z.of_nat (length kernel)) Hp ltac:(lia)) as P1.
  pose proof (write_padding_length (page_size h) (Z.of_nat (length ramdisk)) Hp ltac:(lia)) as P2.
  change sizeof_hdr with 608 in *. cbn [length].
  set (p := page_size h) in *. clearbody p.
  apply Z.mod_divide in P0 as [a0 P0]; [|lia]. apply Z.mod_divide in P1 as [a1 P1]; [|lia].
  apply Z.mod_divide in P2 as [a2 P2]; [|lia].
  match goal with |- Z.of_nat ?n mod p = 0 <-> _ =>
    assert (Z.of_nat n = Z.of_nat (length second) - Z.of_nat (length ramdisk) +
      (a0 + a1 + 2 * a2) * p) as -> by lia end.
  rewrite Z.mod_add by lia. split; intros He.
  - apply Z.mod_divide in He as [b He]; [|lia].
    replace (Z.of_nat (length second)) with (Z.of_nat (length ramdisk) + b * p) by lia.
    apply Z.mod_add. lia.
  - rewrite Zminus_mod, He, Z.sub_diag. by apply Z.mod_0_l; lia.
Qed.

(** *** Witnesses *)

Definition demo_files (fn : string) : option (list Z) :=
  if (fn =? "zImage")%string then Some [1; 2; 3]
  else if (fn =? "ramdisk")%string then Some [31; 139; 8]
  else if (fn =? "dt.img")%string then Some [68; 84; 66; 72]
  else if (fn =? "sig")%string then Some (replicate 256 85)
  else None.

Definition demo_options : mk_options := {|
  o_kernel := Some "zImage"; o_ramdisk := Some "ramdisk"; o_second := None;
  o_cmdline := [113; 117; 105; 101; 116]; o_output := Some "boot.img"; o_board := [];
  o_dt_dir := None; o_dt := Some "dt.img"; o_signature := Some "sig"; o_pagesize := 2048;
  o_base := 0x10000000; o_kernel_offset := 0x8000; o_ramdisk_offset := 0x1000000;
  o_second_offset := 0xf00000; o_tags_offset := 0x100
|}.

Definition demo_sha (l : list Z) : list Z := replicate 20 (Z.of_nat (length l) mod 256).

Lemma demo_inputs :
  mk_inputs demo_files (fun _ _ => LoadFailed) demo_options [1; 2; 3] [31; 139; 8] None
    (Some [68; 84; 66; 72]) (replicate 256 85).
Proof.
  constructor; [reflexivity| | |reflexivity| |reflexivity| |vm_compute; reflexivity
    |vm_compute; lia|vm_compute; lia|vm_compute; lia|repeat constructor; discriminate
    |vm_compute; reflexivity|vm_compute; lia|exact I].
  - exists "zImage". split; vm_compute; reflexivity.
  - exists "ramdisk". split; [reflexivity|]. split; [discriminate|vm_compute; reflexivity].
  - vm_compute. reflexivity.
  - vm_compute. reflexivity.
Qed.

Lemma bootimg_roundtrip_witness :
  exists img u,
    mkbootimg demo_files (fun _ _ => LoadFailed) demo_sha demo_options = MkImage img /\
    unpackbootimg 0 [] img = Unpacked u /\
    u_kernel u = [1; 2; 3] /\ u_ramdisk u = [31; 139; 8] /\ u_second u = [] /\
    u_dt u = [68; 84; 66; 72] /\ u_signature u = take 256 (replicate 256 85) /\
    u_cmdline u = [113; 117; 105; 101; 116] /\ u_pagesize u = 2048 /\
    u32 (u_base u + 0x8000) = u32 (0x10000000 + 0x8000) /\
    u32 (u_base u + u_ramdisk_offset u) = u32 (0x10000000 + 0x1000000) /\
    u32 (u_base u + u_second_offset u) = u32 (0x10000000 + 0xf00000) /\
    u32 (u_base u + u_tags_offset u) = u32 (0x10000000 + 0x100).
Proof.
  exact (bootimg_roundtrip demo_files (fun _ _ => LoadFailed) demo_sha demo_options [1; 2; 3]
    [31; 139; 8] None (Some [68; 84; 66; 72]) (replicate 256 85) [] demo_inputs).
Defined.

Definition demo_header : boot_img_hdr :=
  mk_header demo_sha demo_options [1; 2; 3] [31; 139; 8] (Some [7]) (Some [68; 84; 66; 72]).

Lemma dt_aligned_iff_sizes_congruent_witness :
  dt_offset demo_header [1; 2; 3] [31; 139; 8] [7] mod 2048 = 0 <-> 1 mod 2048 = 3 mod 2048.
Proof.
  apply (dt_aligned_iff_sizes_congruent demo_header [1; 2; 3] [31; 139; 8] [7]);
    [|reflexivity..].
  split; [repeat constructor; vm_compute; congruence|vm_compute; lia].
Defined.
