(* ===== verification/DtbhImage.v ===== *)
(** Model of the DTBH device-tree image tools: the block builder
    load_dtbh_block (src/dtbhtool/dtbimg.c, with the constants of
    src/include/samsung_dtbh.h) behind mkdtbimg and mkbootimg, mkdtbimg with its
    option loop (src/dtbhtool/mkdtbimg.c), and unpackdtbhimg after its own
    (src/dtbhtool/unpackdtbhimg.c).

    Sizes and offsets are 32-bit unsigned values.  The block is built the way the
    code builds it, by copying into a zeroed buffer; a copy that does not fit is a
    heap overflow.  libfdt is the parameter [fdt] (what fdt_check_header and
    fdt_getprop answer for a blob), the C library's sort is [qsort].  [trees] says,
    without the code, which trees of a directory are for which boards; the theorems about
    the tools (ImageTools) are stated with it. *)
From S2P Require Import Prelude Texts Sysfs Bytes BootImage.

(** ** Data *)

Definition DTBH_MAGIC : list Z := [68; 84; 66; 72].
Definition DTBH_VERSION : Z := 2.
Definition DTBH_PLATFORM : list Z := [97; 110; 100; 114; 111; 105; 100].
Definition DTBH_SUBTYPE : list Z := [115; 97; 109; 115; 117; 110; 103].
Definition DTBH_PLATFORM_CODE : Z := 0x000050a6.
Definition DTBH_SUBTYPE_CODE : Z := 0x217584da.
Definition DT_HEADER_PHYS_SIZE : Z := 12.
Definition DT_ENTRY_PHYS_SIZE : Z := 32.

(** What libfdt says about a blob: a valid header, and the bytes of a property of
    the root node ([None]: not found). *)
Record fdt_view := {
  fdt_check_header : bool;
  fdt_getprop : string -> option (list Z)
}.

(** [entry_blob] is the position of the blob in the list the entry points into. *)
Record dt_entry := {
  chip : Z;
  platform : Z;
  subtype : Z;
  hw_rev : Z;
  hw_rev_end : Z;
  offset : Z;
  size : Z;
  space : Z;
  entry_blob : nat
}.

(** The first eight fields as they lie in memory. *)
Definition entry_bytes (e : dt_entry) : list Z :=
  le32 (chip e) ++ le32 (platform e) ++ le32 (subtype e) ++ le32 (hw_rev e) ++
  le32 (hw_rev_end e) ++ le32 (offset e) ++ le32 (size e) ++ le32 (space e).

Inductive dtbh_result :=
  | DtbhExit                 (* err(1, ...) *)
  | DtbhUndefined            (* a null or too short property is read *)
  | DtbhNone                 (* no usable dtb: NULL *)
  | DtbhOverflow             (* a copy outside the allocated block *)
  | DtbhBlock (block : list Z).

(** ** Reading the directory *)

(** [strcmp(&d_name[namlen - 4], ".dtb")] *)
Definition is_dtb (name : string) : bool :=
  (4 <=? String.length name)%nat &&
  (String.substring (String.length name - 4) 4 name =? ".dtb")%string.

(** [ntohl(prop[0])] *)
Definition prop_word (l : list Z) : option Z :=
  match l with
  | a :: b :: c :: d :: _ => Some (a * 2 ^ 24 + b * 2 ^ 16 + c * 2 ^ 8 + d)
  | _ => None
  end.

(** A missing property has the length -FDT_ERR_NOTFOUND, which is not a multiple
    of 4 as a [size_t]. *)
Definition word_prop_ok (p : option (list Z)) : bool :=
  match p with Some l => (Z.of_nat (length l) mod 4 =? 0) | None => false end.

Inductive candidate :=
  | Skip
  | Undefined
  | Usable (chip hw_rev hw_rev_end : Z).

(** Whether [strcmp] finds a property equal to a literal without zero bytes; [None]: a
    null pointer, or the property ends before they differ, and what follows it in the
    blob decides. *)
Fixpoint strcmp_bytes (prop lit : list Z) : option bool :=
  match prop, lit with
  | [], _ => None
  | b :: _, [] => Some (b =? 0)
  | b :: prop, c :: lit => if b =? c then strcmp_bytes prop lit else Some false
  end.

Definition strcmp_prop (p : option (list Z)) (lit : list Z) : option bool := p ≫= fun l => strcmp_bytes l lit.

Definition examine (v : fdt_view) : candidate :=
  let prop := fdt_getprop v in
  if negb (fdt_check_header v) then Skip
  else if negb (word_prop_ok (prop "model_info-chip")) then Skip
  else
    match strcmp_prop (prop "model_info-platform") DTBH_PLATFORM with
    | None => Undefined
    | Some false => Skip
    | Some true =>
        match strcmp_prop (prop "model_info-subtype") DTBH_SUBTYPE with
        | None => Undefined
        | Some false => Skip
        | Some true =>
            if negb (word_prop_ok (prop "model_info-hw_rev")) then Skip
            else if negb (word_prop_ok (prop "model_info-hw_rev_end")) then Skip
            else
              match prop "model_info-chip" ≫= prop_word, prop "model_info-hw_rev" ≫= prop_word,
                    prop "model_info-hw_rev_end" ≫= prop_word with
              | Some c, Some r, Some e => Usable c r e
              | _, _, _ => Undefined
              end
        end
    end.

(** The variables of the loop. *)
Record dtbh_acc := {
  blobs : list (list Z);
  entries : list dt_entry;
  entry_count : Z;
  hdr_sz : Z;
  blob_sz : Z
}.

Section dtbh.
Context (pagesize : Z).

(** [(x + pagemask) & ~pagemask] *)
Definition page_round (x : Z) : Z :=
  let pagemask := u32 (pagesize - 1) in
  Z.land (u32 (x + pagemask)) (u32 (Z.lnot pagemask)).

(** The loop adds [entry_count * DT_ENTRY_PHYS_SIZE] for every dtb it takes. *)
Definition add_dtb (payload : list Z) (c r e : Z) (a : dtbh_acc) : dtbh_acc :=
  let count := u32 (entry_count a + 1) in
  {| blobs := blobs a ++ [payload];
     entries := entries a ++ [{| chip := c; platform := DTBH_PLATFORM_CODE;
       subtype := DTBH_SUBTYPE_CODE; hw_rev := r; hw_rev_end := e; offset := 0; size := 0;
       space := 0x20; entry_blob := length (blobs a) |}];
     entry_count := count;
     hdr_sz := u32 (hdr_sz a + count * DT_ENTRY_PHYS_SIZE);
     blob_sz := u32 (blob_sz a + page_round (Z.of_nat (length payload))) |}.

Context (fdt : list Z -> fdt_view).

(** This file's own copy of [load_file]. *)
Definition dtb_load_file (content : option (list Z)) : option (list Z) := load_file content.

Fixpoint read_dir (dir : list (string * option (list Z))) (a : dtbh_acc) : dtbh_acc + dtbh_result :=
  match dir with
  | [] => inl a
  | (name, content) :: dir =>
      if negb (is_dtb name) then read_dir dir a
      else
        match dtb_load_file content with
        | None => inr DtbhExit
        | Some payload =>
            match examine (fdt payload) with
            | Skip => read_dir dir a
            | Undefined => inr DtbhUndefined
            | Usable c r e => read_dir dir (add_dtb payload c r e a)
            end
        end
  end.

Definition acc_init : dtbh_acc :=
  {| blobs := []; entries := []; entry_count := 0; hdr_sz := DT_HEADER_PHYS_SIZE; blob_sz := 0 |}.

(** ** Building the block *)

(** [blob->offset] of every blob. *)
Fixpoint blob_offsets (off : Z) (bs : list (list Z)) : list Z :=
  match bs with
  | [] => []
  | b :: bs => off :: blob_offsets (u32 (off + page_round (Z.of_nat (length b)))) bs
  end.

Definition place_entry (bs : list (list Z)) (offs : list Z) (e : dt_entry) : dt_entry :=
  {| chip := chip e; platform := platform e; subtype := subtype e; hw_rev := hw_rev e;
     hw_rev_end := hw_rev_end e;
     offset := default 0 (offs !! entry_blob e);
     size := page_round (Z.of_nat (length (default [] (bs !! entry_blob e))));
     space := space e; entry_blob := entry_blob e |}.

(** [memcpy(dtbh + off, data, ...)] *)
Definition memcpy (off : Z) (data buf : list Z) : option (list Z) :=
  let o := Z.to_nat off in
  if (length buf <? o + length data)%nat then None
  else Some (take o buf ++ data ++ drop (o + length data) buf).

Fixpoint write_entries (off : Z) (es : list dt_entry) (buf : list Z) : option (Z * list Z) :=
  match es with
  | [] => Some (off, buf)
  | e :: es => buf ← memcpy off (entry_bytes e) buf;
               write_entries (u32 (off + DT_ENTRY_PHYS_SIZE)) es buf
  end.

Fixpoint write_blobs (off : Z) (bs : list (list Z)) (buf : list Z) : option (list Z) :=
  match bs with
  | [] => Some buf
  | b :: bs => buf ← memcpy off b buf;
               write_blobs (u32 (off + page_round (Z.of_nat (length b)))) bs buf
  end.

Definition build_block (hdr blobs_sz count : Z) (es : list dt_entry) (bs : list (list Z)) :
    option (list Z) :=
  let buf := replicate (Z.to_nat (u32 (hdr + blobs_sz))) 0 in
  buf ← memcpy 0 DTBH_MAGIC buf;
  buf ← memcpy 4 (le32 DTBH_VERSION) buf;
  buf ← memcpy 8 (le32 count) buf;
  '(off, buf) ← write_entries DT_HEADER_PHYS_SIZE es buf;
  let off := u32 (off + (pagesize - Z.land off (u32 (pagesize - 1)))) in
  write_blobs off bs buf.

Context (qsort : list dt_entry -> list dt_entry).

Definition load_dtbh_block (dir : option (list (string * option (list Z)))) : dtbh_result :=
  match dir with
  | None => DtbhExit
  | Some dir =>
      match read_dir dir acc_init with
      | inr r => r
      | inl a =>
          if entry_count a =? 0 then DtbhNone
          else
            let hdr := page_round (u32 (hdr_sz a + 4)) in
            let es := map (place_entry (blobs a) (blob_offsets hdr (blobs a))) (qsort (entries a)) in
            match build_block hdr (blob_sz a) (entry_count a) es (blobs a) with
            | Some block => DtbhBlock block
            | None => DtbhOverflow
            end
      end
  end.

End dtbh.

(** [dt_entry_cmp]: the differences of unsigned fields as an [int]. *)
Definition dt_entry_cmp (a b : dt_entry) : Z :=
  if chip a =? chip b then i32 (u32 (hw_rev a - hw_rev b)) else i32 (u32 (chip a - chip b)).

(** ** mkdtbimg *)

(** After the option loop; [pagesize] is 0 unless -s was given. *)
Inductive mkdtb_result :=
  | MkdtbUsage
  | MkdtbError
  | MkdtbCrash               (* undefined behaviour in the builder *)
  | MkdtbImage (bytes : list Z).

Definition mkdtbimg (fdt : list Z -> fdt_view) (qsort : list dt_entry -> list dt_entry)
    (dirs : string -> option (list (string * option (list Z)))) (output dt_dir : option string)
    (pagesize : Z) : mkdtb_result :=
  match output, dt_dir with
  | Some _, Some dir =>
      match load_dtbh_block pagesize fdt qsort (dirs dir) with
      | DtbhBlock b => MkdtbImage b
      | DtbhNone | DtbhExit => MkdtbError
      | DtbhUndefined | DtbhOverflow => MkdtbCrash
      end
  | _, _ => MkdtbUsage
  end.

(** [strtol(val, NULL, 10)] *)
Definition strtol10 (s : string) : Z :=
  let clip z := Z.max (- 2 ^ 63) (Z.min (2 ^ 63 - 1) z) in
  match skip_space s with
  | String c rest =>
      let n := Ascii.nat_of_ascii c in
      if (n =? 45)%nat then clip (- strtol_digits rest 0)          (* '-' *)
      else if (n =? 43)%nat then clip (strtol_digits rest 0)       (* '+' *)
      else clip (strtol_digits (String c rest) 0)
  | EmptyString => 0
  end.

(** The variables the option loop sets. *)
Record mkdtb_options := {
  dtimg : option string;
  dt_dir : option string;
  opt_pagesize : Z
}.

Definition mkdtb_defaults : mkdtb_options :=
  {| dtimg := None; dt_dir := None; opt_pagesize := 0 |}.

Definition set_dt_dir (v : option string) (o : mkdtb_options) : mkdtb_options :=
  {| dtimg := dtimg o; dt_dir := v; opt_pagesize := opt_pagesize o |}.

(** One turn of the loop: [val] is the next argument, the null that ends argv if
    there is none. *)
Definition mkdtb_option (is_dir : string -> bool) (arg : string) (val : option string)
    (o : mkdtb_options) : mkdtb_options + mkdtb_result :=
  if (arg =? "--output")%string || (arg =? "-o")%string then
    inl {| dtimg := val; dt_dir := dt_dir o; opt_pagesize := opt_pagesize o |}
  else if (arg =? "--dt_dir")%string then inl (set_dt_dir val o)
  else if (arg =? "-p")%string then inl o
  else if (arg =? "-s")%string then
    match val with
    | None => inr MkdtbCrash
    | Some v =>
        let p := u32 (strtol10 v) in
        inl {| dtimg := dtimg o; dt_dir := dt_dir o; opt_pagesize := if p =? 0 then 2048 else p |}
    end
  else if is_dir arg then inl (set_dt_dir (Some arg) o)
  else inr MkdtbUsage.

(** The loop takes two arguments at a time, whatever the first one is. *)
Fixpoint mkdtb_args (is_dir : string -> bool) (args : list string) (o : mkdtb_options) :
    mkdtb_options + mkdtb_result :=
  match args with
  | [] => inl o
  | [arg] => mkdtb_option is_dir arg None o
  | arg :: val :: args =>
      match mkdtb_option is_dir arg (Some val) o with
      | inl o => mkdtb_args is_dir args o
      | inr r => inr r
      end
  end.

(** [dirs] are the directories that exist; the options after the program name. *)
Definition mkdtbimg_main (fdt : list Z -> fdt_view) (qsort : list dt_entry -> list dt_entry)
    (dirs : string -> option (list (string * option (list Z)))) (args : list string) : mkdtb_result :=
  match mkdtb_args (fun d => bool_decide (is_Some (dirs d))) args mkdtb_defaults with
  | inr r => r
  | inl o => mkdtbimg fdt qsort dirs (dtimg o) (dt_dir o) (opt_pagesize o)
  end.

(** ** unpackdtbhimg *)

(** The entry at index [i] of the header page; [None] when it lies outside the
    page that was read. *)
Definition header_entry (page : list Z) (i : nat) : option dt_entry :=
  let off := (12 + 32 * i)%nat in
  if (length page <? off + 32)%nat then None
  else
    let f k := field (off + 4 * k) page in
    Some {| chip := f 0%nat; platform := f 1%nat; subtype := f 2%nat; hw_rev := f 3%nat;
            hw_rev_end := f 4%nat; offset := f 5%nat; size := f 6%nat; space := f 7%nat;
            entry_blob := i |}.

(** A blob read at its recorded offset; [None] when the file is too short (the
    buffer then holds uninitialised memory). *)
Definition read_blob (file : list Z) (e : dt_entry) : option (list Z) :=
  if Z.of_nat (length file) <? offset e + size e then None
  else Some (take (Z.to_nat (size e)) (drop (Z.to_nat (offset e)) file)).

Definition unpack_entry (file page : list Z) (i : nat) : option (dt_entry * list Z) :=
  e ← header_entry page i; b ← read_blob file e; Some (e, b).

(** [None]: the header page could not be read or an entry is out of bounds. *)
Definition unpackdtbhimg (page_size : Z) (file : list Z) : option (list (dt_entry * list Z)) :=
  '(page, _) ← fread page_size file;
  mapM (unpack_entry file page) (seq 0 (Z.to_nat (field 8 page))).

(** ** Lemmas *)

(** A tree without the platform property takes the tool down: [strcmp] gets the null
    pointer that fdt_getprop returns. *)
Example missing_platform_crashes v l :
  fdt_check_header v = true -> fdt_getprop v "model_info-chip" = Some l -> length l = 4%nat ->
  fdt_getprop v "model_info-platform" = None -> examine v = Undefined.
Proof. intros Hh Hc Hl Hp. unfold examine. by rewrite Hh, Hc, Hp; cbn; rewrite Hl. Qed.

(** *** Building into a zeroed buffer *)

Lemma memcpy_zeros off data pre k :
  (length pre <= Z.to_nat off)%nat -> (Z.to_nat off + length data <= length pre + k)%nat ->
  memcpy off data (pre ++ replicate k 0) =
    Some ((pre ++ replicate (Z.to_nat off - length pre) 0 ++ data) ++
          replicate (length pre + k - Z.to_nat off - length data) 0).
Proof.
  intros Ho Hk. unfold memcpy. rewrite (proj2 (Nat.ltb_ge _ _)) by
    (rewrite length_app, length_replicate; lia).
  f_equal. rewrite <- !app_assoc. rewrite take_app_ge by done. rewrite <- app_assoc. f_equal.
  rewrite take_replicate, Nat.min_l by lia. f_equal. f_equal.
  rewrite drop_app_ge by lia. rewrite drop_replicate. f_equal. lia.
Qed.

(** Appending at the end of what was written so far. *)
Lemma memcpy_append off data pre k :
  Z.to_nat off = length pre -> (length data <= k)%nat ->
  memcpy off data (pre ++ replicate k 0) = Some ((pre ++ data) ++ replicate (k - length data) 0).
Proof.
  intros Ho Hk. rewrite memcpy_zeros by lia. f_equal. rewrite Ho, Nat.sub_diag. simpl.
  do 2 f_equal. lia.
Qed.

Lemma entry_bytes_length e : length (entry_bytes e) = 32%nat.
Proof. done. Qed.

Lemma write_entries_append es : forall off pre k,
  0 <= off -> Z.to_nat off = length pre -> off + 32 * Z.of_nat (length es) < 2 ^ 32 ->
  (32 * length es <= k)%nat ->
  write_entries off es (pre ++ replicate k 0) =
    Some (off + 32 * Z.of_nat (length es),
          (pre ++ concat (map entry_bytes es)) ++ replicate (k - 32 * length es) 0).
Proof.
  induction es as [|e es IH]; intros off pre k H0 Ho Hlt Hk;
    cbn [write_entries concat map length] in *.
  { rewrite app_nil_r, Nat.sub_0_r, Z.add_0_r. done. }
  rewrite memcpy_append by (rewrite ?entry_bytes_length; lia). cbn [mbind option_bind].
  unfold DT_ENTRY_PHYS_SIZE. rewrite wrap_u_id by (width_simpl; lia).
  rewrite entry_bytes_length, IH by (rewrite ?length_app, ?entry_bytes_length; lia).
  rewrite <- !app_assoc. do 2 f_equal; [lia|]. do 4 f_equal. lia.
Qed.

(** *** Page arithmetic *)

Definition round_up (p x : Z) : Z := (x + p - 1) / p * p.

Lemma supported_pow2 p : supported_pagesize p = true -> exists k, 0 <= k /\ p = 2 ^ k.
Proof.
  unfold supported_pagesize. intros Hp. case_bool_decide as Hin; [|done].
  repeat (apply elem_of_cons in Hin as [->|Hin];
    [match goal with |- exists k, _ /\ ?q = _ => exists (Z.log2 q); split; [apply Z.log2_nonneg|done] end|]).
  set_solver.
Qed.

Lemma page_round_spec p x :
  supported_pagesize p = true -> 0 <= x -> x + p <= 2 ^ 32 -> page_round p x = round_up p x.
Proof.
  intros Hp Hx Hlt. pose proof (pagesize_cases p Hp) as [Hpp _].
  destruct (supported_pow2 p Hp) as (k & Hk & ->). unfold page_round, round_up.
  rewrite (wrap_u_id 32 (2 ^ k - 1)) by lia. rewrite (wrap_u_id 32) by lia.
  rewrite land_align_down by lia. do 2 f_equal. lia.
Qed.

Lemma round_up_bounds p x : 0 < p -> 0 <= x -> x <= round_up p x < x + p.
Proof.
  intros Hp Hx. unfold round_up. pose proof (Z.div_mod (x + p - 1) p ltac:(lia)).
  pose proof (Z.mod_pos_bound (x + p - 1) p ltac:(lia)). lia.
Qed.

Lemma round_up_one p x : 0 < x <= p -> round_up p x = p.
Proof.
  intros Hx. unfold round_up. replace ((x + p - 1) / p) with 1; [lia|].
  apply (Z.div_unique _ _ _ (x - 1)); lia.
Qed.

(** *** Blobs *)

(** A blob with its padding, as it lies in the block. *)
Definition padded (p : Z) (b : list Z) : list Z :=
  b ++ replicate (Z.to_nat (round_up p (Z.of_nat (length b))) - length b) 0.

Definition total (p : Z) (bs : list (list Z)) : Z :=
  foldr (fun b acc => round_up p (Z.of_nat (length b)) + acc) 0 bs.

Lemma total_nonneg p bs : 0 < p -> 0 <= total p bs.
Proof.
  intros Hp. induction bs as [|b bs IH]; simpl; [done|].
  pose proof (round_up_bounds p (Z.of_nat (length b)) Hp ltac:(lia)). lia.
Qed.

Lemma padded_length p b :
  0 < p -> Z.of_nat (length (padded p b)) = round_up p (Z.of_nat (length b)).
Proof.
  intros Hp. pose proof (round_up_bounds p (Z.of_nat (length b)) Hp ltac:(lia)).
  unfold padded. rewrite length_app, length_replicate. lia.
Qed.

Lemma total_app p bs b :
  total p (bs ++ [b]) = total p bs + round_up p (Z.of_nat (length b)).
Proof. induction bs as [|b' bs IH]; simpl; [lia|]. rewrite IH. lia. Qed.

Lemma concat_padded_length p bs :
  0 < p -> Z.of_nat (length (concat (map (padded p) bs))) = total p bs.
Proof.
  intros Hp. induction bs as [|b bs IH]; simpl; [done|].
  rewrite length_app, Nat2Z.inj_add, padded_length by done. lia.
Qed.

Lemma write_blobs_append p bs : supported_pagesize p = true -> forall off pre k,
  0 <= off -> Z.to_nat off = length pre -> off + total p bs + p <= 2 ^ 32 ->
  total p bs <= Z.of_nat k ->
  write_blobs p off bs (pre ++ replicate k 0) =
    Some ((pre ++ concat (map (padded p) bs)) ++ replicate (k - Z.to_nat (total p bs)) 0).
Proof.
  intros Hp. pose proof (pagesize_cases p Hp) as [Hpp _].
  induction bs as [|b bs IH]; intros off pre k H0 Ho Hlt Hk;
    cbn [write_blobs concat map total foldr] in *.
  { by rewrite app_nil_r, Nat.sub_0_r. }
  fold (total p bs) in *. pose proof (total_nonneg p bs ltac:(lia)).
  pose proof (round_up_bounds p (Z.of_nat (length b)) ltac:(lia) ltac:(lia)) as Hr.
  rewrite memcpy_append by lia. cbn [mbind option_bind].
  rewrite page_round_spec, wrap_u_id by (done || lia).
  set (r := round_up p (Z.of_nat (length b))) in *.
  replace (k - length b)%nat with ((Z.to_nat r - length b) + (k - Z.to_nat r))%nat by lia.
  rewrite replicate_add, app_assoc, <- (app_assoc pre b).
  change (b ++ replicate (Z.to_nat r - length b) 0) with (padded p b).
  pose proof (padded_length p b ltac:(lia)) as Hl. fold r in Hl.
  rewrite IH by (rewrite ?length_app; lia). rewrite <- !app_assoc. do 5 f_equal. lia.
Qed.

(** *** The block *)

(** The layout when header and entries fit the first page. *)
Definition block_layout (p count : Z) (es : list dt_entry) (bs : list (list Z)) : list Z :=
  let head := (DTBH_MAGIC ++ le32 DTBH_VERSION ++ le32 count) ++ concat (map entry_bytes es) in
  head ++ replicate (Z.to_nat p - length head) 0 ++ concat (map (padded p) bs).

Lemma entries_length es : length (concat (map entry_bytes es)) = (32 * length es)%nat.
Proof.
  induction es as [|e es IH]; cbn [concat map length]; [done|].
  rewrite length_app, IH, entry_bytes_length. lia.
Qed.

Lemma build_block_layout p hdr count es bs :
  supported_pagesize p = true -> 12 + 32 * Z.of_nat (length es) < p -> p <= hdr ->
  p + hdr + total p bs <= 2 ^ 32 ->
  build_block p hdr (total p bs) count es bs =
    Some (block_layout p count es bs ++ replicate (Z.to_nat (hdr - p)) 0).
Proof.
  intros Hp Hes Hh0 Hlt. pose proof (pagesize_cases p Hp) as [Hpp _].
  pose proof (total_nonneg p bs ltac:(lia)) as Ht. unfold build_block.
  rewrite (wrap_u_id 32 (hdr + total p bs)) by lia.
  set (n := Z.to_nat (hdr + total p bs)).
  change (replicate n 0) with ([] ++ replicate n 0).
  rewrite memcpy_append by (simpl; lia). cbn [mbind option_bind app].
  rewrite (memcpy_append 4 _ DTBH_MAGIC) by (simpl; lia). cbn [mbind option_bind].
  rewrite (memcpy_append 8 _ (DTBH_MAGIC ++ le32 DTBH_VERSION)) by (rewrite ?le32_length; simpl; lia).
  cbn [mbind option_bind].
  rewrite write_entries_append by (rewrite ?length_app, ?le32_length; unfold DT_HEADER_PHYS_SIZE; simpl; lia).
  cbn [mbind option_bind]. unfold DT_HEADER_PHYS_SIZE.
  set (o := 12 + 32 * Z.of_nat (length es)) in *.
  rewrite (wrap_u_id 32 (p - 1)), land_pagemask, Z.mod_small by (done || lia).
  replace (o + (p - o)) with p by lia. rewrite (wrap_u_id 32 p) by lia.
  unfold block_layout. rewrite <- (app_assoc DTBH_MAGIC).
  set (head := (DTBH_MAGIC ++ le32 DTBH_VERSION ++ le32 count) ++ concat (map entry_bytes es)).
  assert (Z.of_nat (length head) = o) as Hh.
  { subst head. rewrite !length_app, !le32_length, entries_length. simpl. lia. }
  rewrite !le32_length. change (length DTBH_MAGIC) with 4%nat.
  replace (n - 4 - 4 - 4 - 32 * length es)%nat
    with ((Z.to_nat p - length head) + Z.to_nat (hdr - p + total p bs))%nat by lia.
  rewrite replicate_add, app_assoc, write_blobs_append
    by (try done; rewrite ?length_app, ?length_replicate; lia).
  rewrite <- !app_assoc. do 5 f_equal. lia.
Qed.

(** *** What a directory of device trees says

    Stated without the code: the properties a tree must have to be taken, and the trees
    of a directory with the board they name. *)

(** The identification of a board: chip, first and last hardware revision. *)
Definition board : Type := Z * Z * Z.

(** A property that is a text with its terminating zero, whatever follows. *)
Definition text_prop (p : option (list Z)) (text : list Z) : Prop :=
  (0 ∉ text) /\ exists rest, p = Some (text ++ 0 :: rest).

(** A property made of 32-bit cells, the first of which has the bytes of [z] in
    big-endian order. *)
Definition cell_prop (p : option (list Z)) (z : Z) : Prop :=
  exists b3 b2 b1 b0 rest, p = Some (b3 :: b2 :: b1 :: b0 :: rest) /\
    Forall (fun b => 0 <= b < 256) [b3; b2; b1; b0] /\ (length rest mod 4 = 0)%nat /\
    z = b0 + 256 * (b1 + 256 * (b2 + 256 * b3)).

(** A device tree of this platform for the boards [id]. *)
Definition model_info (v : fdt_view) (id : board) : Prop :=
  fdt_check_header v = true /\
  text_prop (fdt_getprop v "model_info-platform") DTBH_PLATFORM /\
  text_prop (fdt_getprop v "model_info-subtype") DTBH_SUBTYPE /\
  cell_prop (fdt_getprop v "model_info-chip") id.1.1 /\
  cell_prop (fdt_getprop v "model_info-hw_rev") id.1.2 /\
  cell_prop (fdt_getprop v "model_info-hw_rev_end") id.2.

(** A property that is not a number: it is missing, or does not consist of cells. *)
Definition no_cells (p : option (list Z)) : Prop :=
  match p with None => True | Some l => (length l mod 4 <> 0)%nat end.

(** A tree for something else, told apart without reading past a property: the blob is
    not a device tree, a number is missing, or a text is another one.  The platform
    and the subtype are compared only in a tree with a chip. *)
Inductive foreign (v : fdt_view) : Prop :=
  | foreign_header : fdt_check_header v = false -> foreign v
  | foreign_chip : no_cells (fdt_getprop v "model_info-chip") -> foreign v
  | foreign_platform t : text_prop (fdt_getprop v "model_info-platform") t -> t <> DTBH_PLATFORM -> foreign v
  | foreign_subtype t : text_prop (fdt_getprop v "model_info-platform") DTBH_PLATFORM ->
      text_prop (fdt_getprop v "model_info-subtype") t -> t <> DTBH_SUBTYPE -> foreign v
  | foreign_rev k : text_prop (fdt_getprop v "model_info-platform") DTBH_PLATFORM ->
      text_prop (fdt_getprop v "model_info-subtype") DTBH_SUBTYPE ->
      k ∈ ["model_info-hw_rev"; "model_info-hw_rev_end"]%string -> no_cells (fdt_getprop v k) -> foreign v.

(** The trees of a directory, in its order: the files whose name ends in .dtb, each
    readable (less than 2 GiB), without the foreign ones. *)
Inductive trees (fdt : list Z -> fdt_view) : list (string * option (list Z)) -> list (list Z * board) -> Prop :=
  | trees_end : trees fdt [] []
  | trees_other name content dir ts : (forall stem, name <> (stem +:+ ".dtb")%string) ->
      trees fdt dir ts -> trees fdt ((name, content) :: dir) ts
  | trees_foreign stem tree dir ts : Z.of_nat (length tree) < 2 ^ 31 -> foreign (fdt tree) ->
      trees fdt dir ts -> trees fdt ((stem +:+ ".dtb", Some tree) :: dir)%string ts
  | trees_board stem tree id dir ts : Z.of_nat (length tree) < 2 ^ 31 -> model_info (fdt tree) id ->
      trees fdt dir ts -> trees fdt ((stem +:+ ".dtb", Some tree) :: dir)%string ((tree, id) :: ts).

Lemma strcmp_text l text rest lit : l = text ++ 0 :: rest -> 0 ∉ text -> 0 ∉ lit ->
  strcmp_bytes l lit = Some (bool_decide (text = lit)).
Proof.
  intros ->. revert lit. induction text as [|b text IH]; intros [|c lit] Ht Hl; try done;
    rewrite ?not_elem_of_cons in *; cbn [app strcmp_bytes].
  - by rewrite (proj2 (Z.eqb_neq 0 c)) by tauto.
  - by rewrite (proj2 (Z.eqb_neq b 0)) by (destruct Ht; congruence).
  - destruct (Z.eqb_spec b c) as [->|Hn].
    + rewrite IH by tauto. f_equal. apply bool_decide_ext. split; [by intros ->|by intros [=]].
    + symmetry. f_equal. apply bool_decide_eq_false_2. by intros [=].
Qed.

Lemma strcmp_text_prop p text lit : text_prop p text -> 0 ∉ lit ->
  strcmp_prop p lit = Some (bool_decide (text = lit)).
Proof. intros (Ht & rest & ->) Hl. cbn. by eapply strcmp_text. Qed.

Lemma cell_prop_word p z : cell_prop p z -> word_prop_ok p = true /\ p ≫= prop_word = Some z.
Proof.
  intros (b3 & b2 & b1 & b0 & rest & -> & _ & Hl & ->).
  split; [|cbn [mbind option_bind prop_word]; apply f_equal; lia]. cbn -[Nat.modulo Z.modulo length Z.of_nat].
  apply Z.eqb_eq. rewrite <- (Nat2Z.inj_mod _ 4). cbn [length].
  replace (S (S (S (S (length rest))))) with (length rest + 1 * 4)%nat by lia.
  by rewrite Nat.Div0.mod_add, Hl.
Qed.

Lemma no_cells_word p : no_cells p -> word_prop_ok p = false.
Proof.
  destruct p as [l|]; [|done]. cbn -[Nat.modulo]. intros Hl. apply Z.eqb_neq. intros E. apply Hl.
  rewrite <- (Nat2Z.inj_mod _ 4) in E. lia.
Qed.

Lemma literals_zero_free : (0 ∉ DTBH_PLATFORM) /\ 0 ∉ DTBH_SUBTYPE.
Proof. split; by apply (bool_decide_unpack _). Qed.

Lemma examine_board v id : model_info v id -> examine v = Usable id.1.1 id.1.2 id.2.
Proof.
  intros (Hh & Hp & Hs & [Hc1 Hc2]%cell_prop_word & [Hr1 Hr2]%cell_prop_word & [He1 He2]%cell_prop_word).
  destruct literals_zero_free as [Zp Zs]. unfold examine.
  rewrite Hh, Hc1, Hc2, Hr1, Hr2, He1, He2, (strcmp_text_prop _ _ _ Hp Zp), (strcmp_text_prop _ _ _ Hs Zs).
  by rewrite !bool_decide_eq_true_2.
Qed.

Lemma examine_foreign v : foreign v -> examine v = Skip.
Proof.
  destruct literals_zero_free as [Zp Zs]. unfold examine.
  destruct (fdt_check_header v) eqn:Hh; [|done]. cbn [negb].
  destruct (word_prop_ok (fdt_getprop v "model_info-chip")) eqn:Hc; [|done]. cbn [negb].
  intros [?|E%no_cells_word|t Ht Hn|t Ht Hs Hn|k Ht Hs Hk E%no_cells_word]; [congruence..| | |].
  - by rewrite (strcmp_text_prop _ _ _ Ht Zp), bool_decide_eq_false_2.
  - by rewrite (strcmp_text_prop _ _ _ Ht Zp), (strcmp_text_prop _ _ _ Hs Zs), bool_decide_eq_true_2,
      bool_decide_eq_false_2.
  - rewrite (strcmp_text_prop _ _ _ Ht Zp), (strcmp_text_prop _ _ _ Hs Zs), !bool_decide_eq_true_2 by done.
    apply elem_of_cons in Hk as [->|Hk%list_elem_of_singleton]; [by rewrite E|]. subst k. rewrite E.
    destruct (word_prop_ok (fdt_getprop v "model_info-hw_rev")); reflexivity.
Qed.

Lemma is_dtb_suffix stem : is_dtb (stem +:+ ".dtb")%string = true.
Proof.
  unfold is_dtb. rewrite string_length_app. cbn [String.length].
  rewrite (proj2 (Nat.leb_le _ _)) by lia. cbn [andb].
  replace (String.length stem + 4 - 4)%nat with (String.length stem) by lia.
  apply String.eqb_eq. induction stem as [|c stem IH]; [done|]. exact IH.
Qed.

Lemma is_dtb_stem name : is_dtb name = true -> exists stem, name = (stem +:+ ".dtb")%string.
Proof.
  unfold is_dtb. intros [Hl%Nat.leb_le E%String.eqb_eq]%andb_true_iff.
  exists (String.substring 0 (String.length name - 4) name). rewrite <- E.
  clear E. remember (String.length name - 4)%nat as k eqn:Hk.
  assert (String.length name = k + 4)%nat as Hn by lia. clear Hl Hk.
  revert name Hn. induction k as [|k IH]; intros name Hn.
  - destruct name as [|c1 [|c2 [|c3 [|c4 [|c5 name]]]]]; done.
  - destruct name as [|c name]; [done|]. simpl in Hn.
    change (String c name = String c (String.substring 0 k name +:+ String.substring k 4 name)%string).
    f_equal. apply IH. lia.
Qed.

(** The entry the code makes of tree [i] before the blobs are placed. *)
Definition new_entry (i : nat) (id : board) : dt_entry :=
  {| chip := id.1.1; platform := DTBH_PLATFORM_CODE; subtype := DTBH_SUBTYPE_CODE; hw_rev := id.1.2;
     hw_rev_end := id.2; offset := 0; size := 0; space := 0x20; entry_blob := i |}.

(** The scan takes exactly the trees of the directory. *)
Lemma read_dir_trees p fdt dir ts : trees fdt dir ts -> forall a, length (entries a) = length (blobs a) ->
  exists a', read_dir p fdt dir a = inl a' /\ blobs a' = blobs a ++ map fst ts /\
    entries a' = entries a ++ imap (fun i t => new_entry (length (blobs a) + i) t.2) ts.
Proof.
  assert (forall tree, Z.of_nat (length tree) < 2 ^ 31 -> dtb_load_file (Some tree) = Some tree) as Hload.
  { intros tree Hl. unfold dtb_load_file, load_file. cbv zeta. rewrite wrap_s_id by lia.
    rewrite (proj2 (Z.ltb_ge _ _)), Nat2Z.id, firstn_all by lia. done. }
  induction 1 as [|name content dir ts Hn _ IH|stem tree dir ts Hl Hf _ IH|stem tree id dir ts Hl Hm _ IH];
    intros a Ha; cbn [read_dir].
  - exists a. cbn. by rewrite !app_nil_r.
  - destruct (is_dtb name) eqn:E; [|by apply IH]. apply is_dtb_stem in E as [stem ->]. by destruct (Hn stem).
  - rewrite is_dtb_suffix, Hload by done. cbn [negb]. rewrite examine_foreign by done. by apply IH.
  - rewrite is_dtb_suffix, Hload by done. cbn [negb]. rewrite (examine_board _ _ Hm).
    destruct (IH (add_dtb p tree id.1.1 id.1.2 id.2 a)) as (a' & Hr & Hb & He).
    { cbn. rewrite !length_app. cbn. lia. }
    exists a'. split; [done|]. rewrite Hb, He. cbn [add_dtb blobs entries map imap]. rewrite <- !app_assoc.
    split; [done|]. do 2 f_equal. cbn [app]. f_equal; [by unfold new_entry; rewrite Nat.add_0_r|].
    apply imap_ext. intros i t _. cbn. rewrite length_app. cbn. f_equal. lia.
Qed.

(** *** What the directory scan leaves *)

(** The counters after taking the dtbs of [a], in the arithmetic of [unsigned]. *)
Definition acc_ok (p : Z) (a : dtbh_acc) : Prop :=
  let n := Z.of_nat (length (blobs a)) in
  length (entries a) = length (blobs a) /\ entry_count a = u32 n /\
  hdr_sz a = u32 (12 + 16 * n * (n + 1)) /\
  (p + total p (blobs a) <= 2 ^ 32 -> blob_sz a = total p (blobs a)) /\
  Forall (fun e => (entry_blob e < length (blobs a))%nat) (entries a).

Lemma u32_add_l x y : u32 (u32 x + y) = u32 (x + y).
Proof. unfold wrap_u. apply Zplus_mod_idemp_l. Qed.

Lemma add_dtb_ok p payload c r e a :
  supported_pagesize p = true -> acc_ok p a -> acc_ok p (add_dtb p payload c r e a).
Proof.
  intros Hp (Hl & Hc & Hh & Hb & He). pose proof (pagesize_cases p Hp) as [Hpp _].
  unfold acc_ok, add_dtb. cbn [blobs entries entry_count hdr_sz blob_sz].
  rewrite !length_app. cbn [length]. split_and!.
  - lia.
  - rewrite Hc, u32_add_l. f_equal. lia.
  - rewrite Hh, Hc, !u32_add_l. unfold DT_ENTRY_PHYS_SIZE, wrap_u.
    rewrite Zplus_mod, Zmult_mod_idemp_l, <- Zplus_mod. f_equal. lia.
  - intros Ht. rewrite total_app in *.
    pose proof (round_up_bounds p (Z.of_nat (length payload)) ltac:(lia) ltac:(lia)).
    pose proof (total_nonneg p (blobs a) ltac:(lia)).
    rewrite Hb, page_round_spec, wrap_u_id by (done || lia). done.
  - apply Forall_app. split; [eapply Forall_impl; [exact He|]; simpl; lia|].
    apply Forall_singleton. simpl. lia.
Qed.

Lemma read_dir_ok p fdt dir : forall a a',
  supported_pagesize p = true -> read_dir p fdt dir a = inl a' -> acc_ok p a -> acc_ok p a'.
Proof.
  induction dir as [|[name content] dir IH]; intros a a' Hp Hr Ha; simpl in Hr; [by simplify_eq|].
  repeat case_match; simplify_eq; eauto using add_dtb_ok.
Qed.

Lemma acc_init_ok p : acc_ok p acc_init.
Proof. unfold acc_ok. simpl. split_and!; done || constructor. Qed.

(** *** Reading a block back *)

Lemma drop_entries es i e rest :
  es !! i = Some e ->
  exists rest', drop (32 * i) (concat (map entry_bytes es) ++ rest) = entry_bytes e ++ rest'.
Proof.
  revert i. induction es as [|e' es IH]; intros [|i] Hi; try done; cbn [concat map].
  - simplify_eq/=. exists (concat (map entry_bytes es) ++ rest). done.
  - destruct (IH i Hi) as [rest' Hr]. exists rest'. rewrite <- Hr, <- app_assoc.
    replace (32 * S i)%nat with (32 + 32 * i)%nat by lia.
    by rewrite <- drop_drop, (drop_app_length' (entry_bytes e')) by done.
Qed.

(** Blob [j] of the padded blobs starts at the sum of the sizes before it. *)
Lemma drop_blobs p bs j b :
  0 < p -> bs !! j = Some b ->
  exists rest, drop (Z.to_nat (total p (take j bs))) (concat (map (padded p) bs)) = padded p b ++ rest.
Proof.
  intros Hp. revert j. induction bs as [|b' bs IH]; intros [|j] Hj; try done; cbn [concat map].
  - simplify_eq/=. by eexists.
  - destruct (IH j Hj) as [rest Hr]. exists rest. rewrite <- Hr. cbn [take total foldr].
    fold (total p (take j bs)).
    pose proof (round_up_bounds p (Z.of_nat (length b')) Hp ltac:(lia)).
    pose proof (total_nonneg p (take j bs) Hp). pose proof (padded_length p b' Hp).
    rewrite Z2Nat.inj_add by lia. rewrite <- drop_drop, drop_app_length' by lia. done.
Qed.

Lemma blob_offsets_lookup p bs : supported_pagesize p = true -> forall off j,
  0 <= off -> off + total p bs + p <= 2 ^ 32 -> (j < length bs)%nat ->
  blob_offsets p off bs !! j = Some (off + total p (take j bs)).
Proof.
  intros Hp. pose proof (pagesize_cases p Hp) as [Hpp _].
  induction bs as [|b bs IH]; intros off j H0 Hlt Hj; simpl in Hj; [lia|].
  cbn [total foldr] in Hlt. fold (total p bs) in Hlt. pose proof (total_nonneg p bs ltac:(lia)).
  pose proof (round_up_bounds p (Z.of_nat (length b)) ltac:(lia) ltac:(lia)).
  destruct j as [|j]; cbn [blob_offsets]; [simpl; f_equal; lia|].
  rewrite page_round_spec, wrap_u_id by (done || lia).
  cbn [lookup list_lookup]. rewrite IH by lia. cbn [take total foldr]. f_equal. fold (total p (take j bs)). lia.
Qed.

(** What unpackdtbhimg should make of entry [e], at position [i] of the header:
    the fields as stored, and the padded blob. *)
Definition unpacked_entry (p : Z) (bs : list (list Z)) (i : nat) (e : dt_entry) : dt_entry * list Z :=
  ({| chip := u32 (chip e); platform := u32 (platform e); subtype := u32 (subtype e);
      hw_rev := u32 (hw_rev e); hw_rev_end := u32 (hw_rev_end e); offset := u32 (offset e);
      size := u32 (size e); space := u32 (space e); entry_blob := i |},
   padded p (default [] (bs !! entry_blob e))).

Lemma header_entry_at pre e post i :
  length pre = (12 + 32 * i)%nat ->
  header_entry (pre ++ entry_bytes e ++ post) i =
    Some {| chip := u32 (chip e); platform := u32 (platform e); subtype := u32 (subtype e);
            hw_rev := u32 (hw_rev e); hw_rev_end := u32 (hw_rev_end e); offset := u32 (offset e);
            size := u32 (size e); space := u32 (space e); entry_blob := i |}.
Proof.
  intros Hl. unfold header_entry. rewrite (proj2 (Nat.ltb_ge _ _)) by
    (rewrite !length_app, entry_bytes_length; lia).
  cbv zeta. unfold field. rewrite <- Hl. setoid_rewrite <- drop_drop.
  rewrite !drop_app_length. rewrite <- !of_le32_wrap. reflexivity.
Qed.

(** Entries that point at their blobs in the layout. *)
Definition entry_placed (p : Z) (bs : list (list Z)) (e : dt_entry) : Prop :=
  exists b, bs !! entry_blob e = Some b /\
    offset e = p + total p (take (entry_blob e) bs) /\ size e = round_up p (Z.of_nat (length b)).

Lemma layout_head_length count es :
  length ((DTBH_MAGIC ++ le32 DTBH_VERSION ++ le32 count) ++ concat (map entry_bytes es)) =
    (12 + 32 * length es)%nat.
Proof. rewrite !length_app, !le32_length, entries_length. simpl. lia. Qed.

Lemma total_take_le p bs j b :
  0 < p -> bs !! j = Some b -> total p (take j bs) + round_up p (Z.of_nat (length b)) <= total p bs.
Proof.
  intros Hp. revert j. induction bs as [|b' bs IH]; intros [|j] Hj; try done.
  - simplify_eq/=. fold (total p bs). pose proof (total_nonneg p bs Hp). lia.
  - specialize (IH j Hj). cbn [take total foldr]. fold (total p bs) (total p (take j bs)). lia.
Qed.

Lemma layout_blob p count es bs e b :
  supported_pagesize p = true -> 12 + 32 * Z.of_nat (length es) < p -> p + total p bs < 2 ^ 32 ->
  bs !! entry_blob e = Some b -> offset e = p + total p (take (entry_blob e) bs) ->
  size e = round_up p (Z.of_nat (length b)) ->
  read_blob (block_layout p count es bs) e = Some (padded p b).
Proof.
  intros Hp Hes Hlt Hb Ho Hs. pose proof (pagesize_cases p Hp) as [Hpp _].
  pose proof (total_take_le p bs (entry_blob e) b ltac:(lia) Hb).
  pose proof (total_nonneg p (take (entry_blob e) bs) ltac:(lia)).
  pose proof (padded_length p b ltac:(lia)).
  unfold read_blob, block_layout. cbv zeta. pose proof (layout_head_length count es) as Hh.
  set (head := _ ++ concat (map entry_bytes es)) in *.
  rewrite (proj2 (Z.ltb_ge _ _)).
  2:{ rewrite !length_app, !Nat2Z.inj_add, length_replicate, concat_padded_length by lia.
      rewrite Ho, Hs. lia. }
  f_equal. rewrite Ho, Z2Nat.inj_add, <- drop_drop by lia. rewrite app_assoc.
  rewrite drop_app_length' by (rewrite length_app, length_replicate; lia).
  destruct (drop_blobs p bs (entry_blob e) b ltac:(lia) Hb) as [rest ->].
  rewrite take_app_length' by lia. done.
Qed.

Lemma unpack_layout p es bs :
  supported_pagesize p = true -> 12 + 32 * Z.of_nat (length es) < p -> p + total p bs < 2 ^ 32 ->
  Forall (entry_placed p bs) es ->
  unpackdtbhimg p (block_layout p (Z.of_nat (length es)) es bs) =
    Some (imap (unpacked_entry p bs) es).
Proof.
  intros Hp Hes Hlt Hpl. pose proof (pagesize_cases p Hp) as [Hpp _].
  pose proof (layout_head_length (Z.of_nat (length es)) es) as Hh.
  unfold unpackdtbhimg. unfold block_layout at 2. cbv zeta. rewrite app_assoc.
  rewrite fread_app by (rewrite length_app, length_replicate, Hh; lia). cbn [mbind option_bind].
  assert (forall x, field 8 (((DTBH_MAGIC ++ le32 DTBH_VERSION ++ le32 (Z.of_nat (length es))) ++
    concat (map entry_bytes es)) ++ x) = Z.of_nat (length es)) as Hc.
  { intros x. etransitivity; [|apply (of_le32_le32 (Z.of_nat (length es))); lia]. reflexivity. }
  rewrite Hc, Nat2Z.id. apply mapM_Some_2, Forall2_same_length_lookup.
  split; [by rewrite length_seq, length_imap|]. intros i x y Hx Hy.
  apply lookup_seq in Hx as [-> Hi]. rewrite Nat.add_0_l in *. rewrite list_lookup_imap in Hy.
  apply fmap_Some in Hy as (e & He & ->).
  destruct (drop_entries es i e (replicate (Z.to_nat p - (12 + 32 * length es)) 0) He) as [rest Hr].
  pose proof (Forall_lookup_1 _ _ _ _ Hpl He) as (b & Hb & Ho & Hs).
  unfold unpack_entry. rewrite Hh, <- app_assoc.
  rewrite <- (take_drop (32 * i) (concat (map entry_bytes es) ++ _)), Hr, app_assoc.
  rewrite header_entry_at.
  2:{ rewrite length_app, length_take, !length_app, !le32_length, entries_length. simpl. lia. }
  cbn [mbind option_bind].
  pose proof (total_take_le p bs (entry_blob e) b ltac:(lia) Hb).
  pose proof (total_nonneg p (take (entry_blob e) bs) ltac:(lia)).
  pose proof (round_up_bounds p (Z.of_nat (length b)) ltac:(lia) ltac:(lia)).
  unfold unpacked_entry. rewrite Hb.
  rewrite (wrap_u_id 32 (offset e)), (wrap_u_id 32 (size e)) by lia.
  pose proof (layout_blob p (Z.of_nat (length es)) es bs e b Hp Hes Hlt Hb Ho Hs) as Hrb.
  unfold read_blob in *. cbn [offset size]. rewrite Hrb. done.
Qed.

(** *** The whole builder *)

(** The header size the code computes for [n] dtbs, in whole pages. *)
Definition recorded_header (p n : Z) : Z := round_up p (16 + 16 * n * (n + 1)).

Lemma recorded_header_ge p n : 0 < p -> 0 <= n -> p <= recorded_header p n.
Proof.
  intros Hp Hn. unfold recorded_header, round_up.
  assert (1 <= (16 + 16 * n * (n + 1) + p - 1) / p); [apply Z.div_le_lower_bound; nia|nia].
Qed.

Definition placed_entries (p hdr : Z) (qsort : list dt_entry -> list dt_entry) (a : dtbh_acc) :
    list dt_entry :=
  map (place_entry p (blobs a) (blob_offsets p hdr (blobs a))) (qsort (entries a)).

(** A successful scan of the directory, small enough for one header page. *)
Record scanned (p : Z) (fdt : list Z -> fdt_view) (qsort : list dt_entry -> list dt_entry)
    (dir : list (string * option (list Z))) (a : dtbh_acc) : Prop := {
  sc_page : supported_pagesize p = true;
  sc_read : read_dir p fdt dir acc_init = inl a;
  sc_some : blobs a <> [];
  sc_sort : qsort (entries a) ≡ₚ entries a;
  sc_head : 12 + 32 * Z.of_nat (length (blobs a)) < p;
  sc_size : p + recorded_header p (Z.of_nat (length (blobs a))) + total p (blobs a) <= 2 ^ 32
}.

Section scanned.
Context {p fdt qsort dir a} (S : scanned p fdt qsort dir a).
Let n := Z.of_nat (length (blobs a)).
Let hdr := recorded_header p n.

Lemma scanned_ok : acc_ok p a.
Proof. eapply read_dir_ok; [apply S|apply S|apply acc_init_ok]. Qed.

Lemma scanned_placed_length : Z.of_nat (length (placed_entries p hdr qsort a)) = n.
Proof.
  unfold placed_entries. rewrite length_map, (sc_sort _ _ _ _ _ S).
  destruct scanned_ok as [-> _]. done.
Qed.

Lemma scanned_load :
  load_dtbh_block p fdt qsort (Some dir) =
    DtbhBlock (block_layout p n (placed_entries p hdr qsort a) (blobs a) ++
               replicate (Z.to_nat (hdr - p)) 0).
Proof.
  pose proof scanned_placed_length as Hlen.
  destruct S as [Hp Hr Hb Hq Hh Hs]. fold n in Hh, Hs. fold hdr in Hs.
  pose proof (pagesize_cases p Hp) as [Hpp _].
  destruct (read_dir_ok _ _ _ _ _ Hp Hr (acc_init_ok p)) as (Hl & Hc & Hz & Hbs & _).
  fold n in Hc, Hz. pose proof (total_nonneg p (blobs a) ltac:(lia)).
  assert (0 < n) by (subst n; destruct (blobs a); simpl in *; [done|lia]).
  pose proof (recorded_header_ge p n ltac:(lia) ltac:(lia)) as Hge. fold hdr in Hge.
  unfold load_dtbh_block. rewrite Hr, Hc, wrap_u_id by lia.
  rewrite (proj2 (Z.eqb_neq _ _)) by lia.
  assert (page_round p (u32 (hdr_sz a + 4)) = hdr) as ->.
  { rewrite Hz, u32_add_l. replace (12 + 16 * n * (n + 1) + 4) with (16 + 16 * n * (n + 1)) by lia.
    rewrite wrap_u_id, page_round_spec by (done || nia). done. }
  rewrite Hbs by lia. fold (placed_entries p hdr qsort a).
  rewrite build_block_layout by (done || lia). done.
Qed.

(** Blob [j] is recorded [hdr - p] bytes after its place in the block. *)
Lemma scanned_recorded e :
  e ∈ placed_entries p hdr qsort a ->
  exists b, blobs a !! entry_blob e = Some b /\
    offset e = hdr + total p (take (entry_blob e) (blobs a)) /\
    size e = round_up p (Z.of_nat (length b)).
Proof.
  destruct S as [Hp Hr Hb Hq Hh Hs]. fold n in Hh, Hs. fold hdr in Hs.
  pose proof (pagesize_cases p Hp) as [Hpp _].
  pose proof (recorded_header_ge p n ltac:(lia) ltac:(lia)) as Hge. fold hdr in Hge.
  destruct (read_dir_ok _ _ _ _ _ Hp Hr (acc_init_ok p)) as (_ & _ & _ & _ & He).
  intros Hin. apply list_elem_of_fmap in Hin as (e0 & -> & Hin). rewrite Hq in Hin.
  pose proof (proj1 (Forall_forall _ _) He e0 Hin) as Hlt. simpl in Hlt.
  destruct (lookup_lt_is_Some_2 _ _ Hlt) as [b Hlb]. exists b. simpl.
  rewrite blob_offsets_lookup by (done || lia). rewrite Hlb. simpl.
  pose proof (total_take_le p _ _ _ ltac:(lia) Hlb).
  pose proof (total_nonneg p (take (entry_blob e0) (blobs a)) ltac:(lia)).
  pose proof (round_up_bounds p (Z.of_nat (length b)) ltac:(lia) ltac:(lia)).
  by rewrite page_round_spec by (done || lia).
Qed.

End scanned.

(** With the page size 0 every size rounds to 0. *)
Lemma page_round_0 x : page_round 0 x = 0.
Proof. unfold page_round. change (u32 (Z.lnot (u32 (0 - 1)))) with 0. apply Z.land_0_r. Qed.

Lemma scan_blob_sz_0 fdt dir : forall a a',
  read_dir 0 fdt dir a = inl a' -> blob_sz a = 0 -> blob_sz a' = 0.
Proof.
  induction dir as [|[name content] dir IH]; intros a a' Hr Hz; simpl in Hr; [by simplify_eq|].
  repeat case_match; simplify_eq; eauto. eapply IH; [done|]. simpl. by rewrite page_round_0, Hz.
Qed.

(** ** Theorems *)

(** The image mkdtbimg writes is read back by unpackdtbhimg: when the header
    (at the size the code computes for it) fits one page, unpacking yields every
    entry with its identification fields, its page-padded blob, its offset and its
    size, in the order the sort left the entries in. *)
Lemma dtbh_roundtrip p fdt qsort dirs out d dir a :
  scanned p fdt qsort dir a -> dirs d = Some dir ->
  16 + 16 * Z.of_nat (length (blobs a)) * (Z.of_nat (length (blobs a)) + 1) <= p ->
  exists block,
    mkdtbimg fdt qsort dirs (Some out) (Some d) p = MkdtbImage block /\
    unpackdtbhimg p block = Some (imap (unpacked_entry p (blobs a)) (placed_entries p p qsort a)).
Proof.
  intros S Hd Hfit. pose proof (pagesize_cases p (sc_page _ _ _ _ _ S)) as [Hpp _].
  pose proof (scanned_placed_length S) as Hlen. pose proof (scanned_recorded S) as Hrec.
  pose proof (sc_size _ _ _ _ _ S) as Hs. pose proof (sc_head _ _ _ _ _ S) as Hh.
  unfold mkdtbimg. rewrite Hd, (scanned_load S).
  assert (recorded_header p (Z.of_nat (length (blobs a))) = p) as Hhdr
    by (apply round_up_one; nia).
  rewrite Hhdr in *. rewrite Z.sub_diag, app_nil_r. eexists. split; [done|]. rewrite <- Hlen.
  apply unpack_layout; [apply S|lia|lia|]. apply Forall_forall. exact Hrec.
Qed.

Lemma map_imap_const {A B C} (f : B -> C) (g : nat -> A -> B) (k : A -> C) l :
  (forall i x, x ∈ l -> f (g i x) = k x) -> map f (imap g l) = map k l.
Proof.
  revert g. induction l as [|x l IH]; intros g H; [done|]. cbn [imap map]. f_equal; [apply H; left|].
  apply IH. intros i y Hy. apply H. by right.
Qed.

(** A directory whose trees fit one header page, as the code computes its size, and
    whose image fits an [unsigned]; the sort only moves the entries. *)
Record dtb_directory (p : Z) (fdt : list Z -> fdt_view) (qsort : list dt_entry -> list dt_entry)
    (dir : list (string * option (list Z))) (ts : list (list Z * board)) : Prop := {
  dd_page : supported_pagesize p = true;
  dd_trees : trees fdt dir ts;
  dd_some : ts <> [];
  dd_sort : forall es, qsort es ≡ₚ es;
  dd_header : 16 + 16 * Z.of_nat (length ts) * (Z.of_nat (length ts) + 1) <= p;
  dd_size : 2 * p + total p (map fst ts) <= 2 ^ 32
}.

Lemma directory_scanned p fdt qsort dir ts : dtb_directory p fdt qsort dir ts ->
  exists a, scanned p fdt qsort dir a /\ blobs a = map fst ts /\
    entries a = imap (fun i t => new_entry i t.2) ts.
Proof.
  intros [Hp Ht Hs Hq Hh Hz]. pose proof (pagesize_cases p Hp) as [Hpp _].
  destruct (read_dir_trees p fdt dir ts Ht acc_init eq_refl) as (a & Hr & Hb & He).
  cbn [acc_init blobs entries app] in *. exists a. split; [|done].
  assert (0 < Z.of_nat (length ts)) by (destruct ts; [done|cbn; lia]).
  assert (recorded_header p (Z.of_nat (length ts)) = p) as Hhdr by (apply round_up_one; nia).
  split; rewrite ?Hb, ?length_map, ?Hhdr; [done|done|by destruct ts|apply Hq|nia|lia].
Qed.

Definition entry_board (e : dt_entry) : board := (chip e, hw_rev e, hw_rev_end e).

Definition board_ok (id : board) : Prop := Forall (fun z => 0 <= z < 2 ^ 32) [id.1.1; id.1.2; id.2].

(** An entry as mkdtbimg writes it. *)
Definition stored (e : dt_entry) : Prop :=
  platform e = DTBH_PLATFORM_CODE /\ subtype e = DTBH_SUBTYPE_CODE /\ board_ok (entry_board e).

Lemma cell_prop_range p z : cell_prop p z -> 0 <= z < 2 ^ 32.
Proof. intros (b3 & b2 & b1 & b0 & rest & _ & Hb & _ & ->). rewrite !Forall_cons in Hb. lia. Qed.

Lemma trees_boards fdt dir ts : trees fdt dir ts -> Forall (fun t => board_ok t.2) ts.
Proof.
  induction 1 as [| | |stem tree id dir ts _ (_ & _ & _ & Hc & Hr & He)]; try done.
  constructor; [|done]. repeat (apply Forall_cons_2; [by eapply cell_prop_range|]). apply Forall_nil_2.
Qed.

(** The image gives back the trees with their boards. *)
Lemma directory_roundtrip p fdt qsort dirs out d dir ts :
  dtb_directory p fdt qsort dir ts -> dirs d = Some dir ->
  exists block es,
    mkdtbimg fdt qsort dirs (Some out) (Some d) p = MkdtbImage block /\
    unpackdtbhimg p block = Some es /\ Forall (fun eb => stored eb.1) es /\
    map (fun eb => (entry_board eb.1, eb.2)) es ≡ₚ map (fun t => (t.2, padded p t.1)) ts.
Proof.
  intros D Hd. destruct (directory_scanned _ _ _ _ _ D) as (a & S & Hb & He).
  pose proof (trees_boards _ _ _ (dd_trees _ _ _ _ _ D)) as Hok. rewrite Forall_forall in Hok.
  destruct (dtbh_roundtrip p fdt qsort dirs out d dir a S Hd) as (block & Hm & Hu).
  { rewrite Hb, length_map. apply D. }
  exists block. eexists. split; [exact Hm|]. split; [exact Hu|].
  assert (forall e, e ∈ placed_entries p p qsort a ->
    exists t, t ∈ ts /\ blobs a !! entry_blob e = Some t.1 /\ entry_board e = t.2 /\ stored e) as Hpl.
  { intros e (e0 & -> & Hin)%list_elem_of_fmap. rewrite (sc_sort _ _ _ _ _ S), He in Hin.
    apply list_elem_of_lookup in Hin as [i Hi]. rewrite list_lookup_imap in Hi.
    apply fmap_Some in Hi as (t & Ht & ->). exists t. pose proof (list_elem_of_lookup_2 _ _ _ Ht) as Hin.
    specialize (Hok t Hin). destruct t as [tree [[c r] re]].
    split_and!; [done|by rewrite Hb; cbn; rewrite list_lookup_fmap, Ht|done|done..]. }
  split.
  - apply Forall_forall. intros eb Hin. apply list_elem_of_lookup in Hin as [i Hi].
    rewrite list_lookup_imap in Hi. apply fmap_Some in Hi as (e & Hi & ->).
    destruct (Hpl e (list_elem_of_lookup_2 _ _ _ Hi)) as (_ & _ & _ & _ & H1 & H2 & _). cbn.
    split_and!; [cbn; by rewrite H1|cbn; by rewrite H2|].
    repeat (apply Forall_cons_2; [apply wrap_u_range; lia|]). apply Forall_nil_2.
  - rewrite (map_imap_const _ _ (fun e => (entry_board e, padded p (default [] (blobs a !! entry_blob e))))).
    2:{ intros i e Hin. destruct (Hpl e Hin) as (_ & _ & _ & _ & _ & _ & Hr). unfold board_ok in Hr.
        rewrite !Forall_cons in Hr. destruct Hr as (H1 & H2 & H3 & _).
        unfold entry_board, unpacked_entry in *. cbn in *. by rewrite !wrap_u_id by lia. }
    unfold placed_entries. rewrite map_map, (dd_sort _ _ _ _ _ D), He.
    match goal with |- ?x ≡ₚ ?y => enough (x = y) as -> by done end.
    apply list_eq. intros i. rewrite !list_lookup_fmap, list_lookup_imap.
    destruct (ts !! i) as [[tree [[c r] re]]|] eqn:Ht; [|done]. cbn. do 2 f_equal.
    by rewrite Hb, list_lookup_fmap, Ht.
Qed.

(** From eleven dtbs on a 2048-byte page (in general, as soon as
    16 + 16n(n+1) exceeds the page) the header size counted by the loop is more than
    the one page the blobs are written after: every blob lies whole pages before the
    offset its entry records. *)
Lemma dtbh_offsets_displaced p fdt qsort dir a :
  scanned p fdt qsort dir a ->
  p < 16 + 16 * Z.of_nat (length (blobs a)) * (Z.of_nat (length (blobs a)) + 1) ->
  let hdr := recorded_header p (Z.of_nat (length (blobs a))) in
  2 * p <= hdr /\
  exists block, load_dtbh_block p fdt qsort (Some dir) = DtbhBlock block /\
    forall e, e ∈ placed_entries p hdr qsort a ->
      exists b, blobs a !! entry_blob e = Some b /\ hdr <= offset e /\
        take (length (padded p b)) (drop (Z.to_nat (offset e - (hdr - p))) block) = padded p b.
Proof.
  intros S Hbig hdr. pose proof (pagesize_cases p (sc_page _ _ _ _ _ S)) as [Hpp _].
  pose proof (scanned_recorded S) as Hrec. pose proof (scanned_placed_length S) as Hlen.
  pose proof (sc_head _ _ _ _ _ S) as Hh. split.
  { unfold hdr, recorded_header, round_up.
    assert (2 <= (16 + 16 * Z.of_nat (length (blobs a)) * (Z.of_nat (length (blobs a)) + 1) + p - 1) / p);
      [apply Z.div_le_lower_bound; lia|nia]. }
  eexists. split; [apply (scanned_load S)|]. intros e He. fold hdr in Hrec, Hlen |- *.
  destruct (Hrec e He) as (b & Hb & Ho & Hz). exists b.
  pose proof (total_nonneg p (take (entry_blob e) (blobs a)) ltac:(lia)).
  split_and!; [done|lia|]. rewrite Ho.
  replace (hdr + total p (take (entry_blob e) (blobs a)) - (hdr - p))
    with (p + total p (take (entry_blob e) (blobs a))) by lia.
  unfold block_layout. cbv zeta. rewrite Z2Nat.inj_add, <- drop_drop by lia.
  rewrite (app_assoc _ (replicate (Z.to_nat p - _) 0)), <- (app_assoc _ (concat _)).
  rewrite drop_app_length'.
  2:{ rewrite length_app, length_replicate, layout_head_length. lia. }
  destruct (drop_blobs p (blobs a) (entry_blob e) b ltac:(lia) Hb) as [rest Hr].
  rewrite drop_app_le, Hr, <- app_assoc by
    (pose proof (concat_padded_length p (blobs a) ltac:(lia));
     pose proof (total_take_le p _ _ _ ltac:(lia) Hb);
     pose proof (round_up_bounds p (Z.of_nat (length b)) ltac:(lia) ltac:(lia)); lia).
  by rewrite take_app_length.
Qed.

(** The usage line's own command, without -s, keeps the page size 0: every size
    rounds to 0, the block is allocated with no room and the first copy overruns it,
    for every directory with at least one usable dtb. *)
Lemma mkdtbimg_default_pagesize fdt qsort dirs out d dir a :
  dirs d = Some dir -> read_dir 0 fdt dir acc_init = inl a -> entry_count a <> 0 ->
  mkdtbimg_main fdt qsort dirs ["--dt_dir"; d; "-o"; out] = MkdtbCrash.
Proof.
  intros Hd Hr Hc. unfold mkdtbimg_main. cbn -[mkdtbimg]. unfold mkdtbimg, load_dtbh_block.
  rewrite Hd, Hr, (proj2 (Z.eqb_neq _ _)), (scan_blob_sz_0 _ _ _ _ Hr), page_round_0 by done.
  done.
Qed.

(** [dt_entry_cmp] compares unsigned fields by the sign of their difference, which
    is not transitive. *)
Lemma dt_entry_cmp_cycle :
  let e c := {| chip := c; platform := 0; subtype := 0; hw_rev := 0; hw_rev_end := 0; offset := 0;
                size := 0; space := 0; entry_blob := 0 |} in
  dt_entry_cmp (e 0) (e 0x60000000) < 0 /\ dt_entry_cmp (e 0x60000000) (e 0xC0000000) < 0 /\
  dt_entry_cmp (e 0xC0000000) (e 0) < 0.
Proof. split_and!; vm_compute; reflexivity. Qed.

(** ** Witnesses *)

(** One board's dtb of three bytes; the libfdt view answers as for a valid tree. *)
Definition demo_view : fdt_view :=
  {| fdt_check_header := true;
     fdt_getprop k :=
       if (k =? "model_info-platform")%string then Some (DTBH_PLATFORM ++ [0])
       else if (k =? "model_info-subtype")%string then Some (DTBH_SUBTYPE ++ [0])
       else if (k =? "model_info-chip")%string then Some [0; 0; 38; 82]
       else Some [0; 0; 0; 26] |}.

(** Any sort that permutes will do. *)
Definition no_sort (l : list dt_entry) : list dt_entry := l.

Definition demo_fdt (b : list Z) : fdt_view := demo_view.

Definition demo_dtbs (n : nat) : list (string * option (list Z)) :=
  ("README"%string, Some [1]) :: replicate n ("a.dtb"%string, Some [208; 13; 254]).

Definition demo_dirs (n : nat) (d : string) : option (list (string * option (list Z))) :=
  if (d =? "dtbs")%string then Some (demo_dtbs n) else None.

Definition demo_acc (p : Z) (n : nat) : dtbh_acc :=
  match read_dir p demo_fdt (demo_dtbs n) acc_init with inl a => a | inr _ => acc_init end.

Lemma demo_scanned_2 : scanned 2048 demo_fdt no_sort (demo_dtbs 2) (demo_acc 2048 2).
Proof. split; [done|done|done|done|vm_compute; done|vm_compute; discriminate]. Defined.

Lemma demo_scanned_11 : scanned 2048 demo_fdt no_sort (demo_dtbs 11) (demo_acc 2048 11).
Proof. split; [done|done|done|done|vm_compute; done|vm_compute; discriminate]. Defined.

Lemma dtbh_roundtrip_witness :
  exists block,
    mkdtbimg demo_fdt no_sort (demo_dirs 2) (Some "dt.img"%string) (Some "dtbs"%string) 2048 = MkdtbImage block /\
    unpackdtbhimg 2048 block =
      Some (imap (unpacked_entry 2048 (blobs (demo_acc 2048 2)))
             (placed_entries 2048 2048 no_sort (demo_acc 2048 2))).
Proof.
  apply (dtbh_roundtrip 2048 demo_fdt no_sort (demo_dirs 2) "dt.img" "dtbs" (demo_dtbs 2) (demo_acc 2048 2));
    [exact demo_scanned_2|done|vm_compute; discriminate].
Defined.

Lemma dtbh_offsets_displaced_witness :
  recorded_header 2048 11 = 4096 /\
  exists block, load_dtbh_block 2048 demo_fdt no_sort (Some (demo_dtbs 11)) = DtbhBlock block.
Proof.
  split; [done|].
  destruct (dtbh_offsets_displaced 2048 demo_fdt no_sort (demo_dtbs 11) (demo_acc 2048 11)
    demo_scanned_11 ltac:(vm_compute; done)) as (_ & block & Hb & _).
  exists block. exact Hb.
Defined.

Lemma mkdtbimg_default_pagesize_witness :
  mkdtbimg_main demo_fdt no_sort (demo_dirs 1) ["--dt_dir"; "dtbs"; "-o"; "dt.img"]%string = MkdtbCrash.
Proof.
  apply (mkdtbimg_default_pagesize demo_fdt no_sort (demo_dirs 1) "dt.img" "dtbs" (demo_dtbs 1)
    (demo_acc 0 1)); [done|done|vm_compute; discriminate].
Defined.

(** The image can be made when the page size is given. *)
Example mkdtbimg_with_pagesize :
  match mkdtbimg_main demo_fdt no_sort (demo_dirs 1) ["-s"; "2048"; "dtbs"; "-p"; "-o"; "dt.img"]%string with
  | MkdtbImage b => length b = 4096%nat
  | _ => False
  end.
Proof. vm_compute. reflexivity. Qed.
