(* ===== verification/ImageTools.v ===== *)
(** Model of the command lines of the image tools and of the files they leave behind:
    main of mkbootimg (src/dtbhtool/mkbootimg.c), unpackbootimg
    (src/dtbhtool/unpackbootimg.c) and unpackdtbhimg (src/dtbhtool/unpackdtbhimg.c),
    around the operations of BootImage and DtbhImage, on a host with a 64-bit
    [unsigned long].

    The files of the host are a finite map from path to contents.  A run ends with an
    exit status, in undefined behaviour, or, for unpackbootimg, at the first write to
    the stream it has closed already; in the last case the files are those on disk at
    that point.  Arguments are strings without a zero byte. *)
From S2P Require Import Prelude Texts Sysfs Bytes BootImage DtbhImage.
From Stdlib Require Import Ascii.
Local Open Scope string_scope.
Local Open Scope Z_scope.

(** ** Text *)

(** The bytes of a C string. *)
Fixpoint bytes_of (s : string) : list Z :=
  match s with
  | EmptyString => []
  | String c s => byte_of c :: bytes_of s
  end.

(** An optional [0x], which counts only in front of a digit. *)
Definition skip_0x (s : string) : string :=
  match s with
  | String z (String x (String c rest)) =>
      if bool_decide (z = "0"%char) && (bool_decide (x = "x"%char) || bool_decide (x = "X"%char)) &&
         is_given (digit_value 16 c)
      then String c rest else s
  | _ => s
  end.

(** [strtoul(val, 0, base)] *)
Definition strtoul (base : Z) (val : string) : Z :=
  let s := skip_space val in
  let '(neg, s) :=
    match s with
    | String c rest =>
        if bool_decide (c = "-"%char) then (true, rest)
        else if bool_decide (c = "+"%char) then (false, rest) else (false, s)
    | EmptyString => (false, s)
    end in
  let v := strtoul_digits base (if base =? 16 then skip_0x s else s) 0 in
  if 2 ^ 64 <=? v then 2 ^ 64 - 1 else if neg then u64 (- v) else v.

(** [basename] of libgen.h: without trailing slashes, after the last slash that is
    left. *)
Fixpoint drop_slashes (s : list ascii) : list ascii :=
  match s with
  | c :: t => if bool_decide (c = "/"%char) then drop_slashes t else s
  | [] => []
  end.

Fixpoint until_slash (s : list ascii) : list ascii :=
  match s with
  | c :: t => if bool_decide (c = "/"%char) then [] else c :: until_slash t
  | [] => []
  end.

Definition basename (path : string) : string :=
  match drop_slashes (rev (String.list_ascii_of_string path)) with
  | [] => if bool_decide (path = "") then "." else "/"
  | r => String.string_of_list_ascii (rev (until_slash r))
  end.

(** ** Runs *)

Abbreviation disk := (gmap string (list Z)).

Inductive tool_result :=
  | Exit (status : Z) (fs : disk)
  | Undefined_behaviour
  | Closed_stream (fs : disk).

(** What the host answers: whether a path can be created, and whether all the writes
    of a run complete. *)
Record host := {
  can_create : string -> bool;
  writes_complete : bool
}.

(** ** mkbootimg *)

Definition mk_defaults : mk_options := {|
  o_kernel := None; o_ramdisk := None; o_second := None; o_cmdline := []; o_output := None;
  o_board := []; o_dt_dir := None; o_dt := None; o_signature := None; o_pagesize := 2048;
  o_base := 0x10000000; o_kernel_offset := 0x00008000; o_ramdisk_offset := 0x01000000;
  o_second_offset := 0x00f00000; o_tags_offset := 0x00000100
|}.

(** One turn of the option loop; on the right the exit status. *)
Definition mk_option (arg val : string) (o : mk_options) : mk_options + Z :=
  let '(Build_mk_options k r s c out b dd dt sg ps ba ko ro so to) := o in
  if (arg =? "--output")%string || (arg =? "-o")%string then
    inl (Build_mk_options k r s c (Some val) b dd dt sg ps ba ko ro so to)
  else if (arg =? "--kernel")%string then
    inl (Build_mk_options (Some val) r s c out b dd dt sg ps ba ko ro so to)
  else if (arg =? "--ramdisk")%string then
    inl (Build_mk_options k (Some val) s c out b dd dt sg ps ba ko ro so to)
  else if (arg =? "--second")%string then
    inl (Build_mk_options k r (Some val) c out b dd dt sg ps ba ko ro so to)
  else if (arg =? "--cmdline")%string then
    inl (Build_mk_options k r s (bytes_of val) out b dd dt sg ps ba ko ro so to)
  else if (arg =? "--base")%string then
    inl (Build_mk_options k r s c out b dd dt sg ps (u32 (strtoul 16 val)) ko ro so to)
  else if (arg =? "--kernel_offset")%string then
    inl (Build_mk_options k r s c out b dd dt sg ps ba (u32 (strtoul 16 val)) ro so to)
  else if (arg =? "--ramdisk_offset")%string then
    inl (Build_mk_options k r s c out b dd dt sg ps ba ko (u32 (strtoul 16 val)) so to)
  else if (arg =? "--second_offset")%string then
    inl (Build_mk_options k r s c out b dd dt sg ps ba ko ro (u32 (strtoul 16 val)) to)
  else if (arg =? "--tags_offset")%string then
    inl (Build_mk_options k r s c out b dd dt sg ps ba ko ro so (u32 (strtoul 16 val)))
  else if (arg =? "--board")%string then
    inl (Build_mk_options k r s c out (bytes_of val) dd dt sg ps ba ko ro so to)
  else if (arg =? "--pagesize")%string then
    let p := u32 (strtoul 10 val) in
    if supported_pagesize p then inl (Build_mk_options k r s c out b dd dt sg p ba ko ro so to)
    else inr 255
  else if (arg =? "--dt_dir")%string then
    inl (Build_mk_options k r s c out b (Some val) dt sg ps ba ko ro so to)
  else if (arg =? "--dt")%string then
    inl (Build_mk_options k r s c out b dd (Some val) sg ps ba ko ro so to)
  else if (arg =? "--signature")%string then
    inl (Build_mk_options k r s c out b dd dt (Some val) ps ba ko ro so to)
  else inr 1.

Fixpoint mk_args (args : list string) (o : mk_options) : mk_options + Z :=
  match args with
  | [] => inl o
  | [_] => inr 1
  | arg :: val :: args =>
      match mk_option arg val o with
      | inl o => mk_args args o
      | inr status => inr status
      end
  end.

Section tools.
Context (fdt : list Z -> fdt_view) (qsort : list dt_entry -> list dt_entry).
Context (dirs : string -> option (list (string * option (list Z)))).
Context (SHA1 : list Z -> list Z).

(** The builder as mkbootimg calls it: a directory it cannot read ends the process
    with status 1, as an error does. *)
Definition dtbh_loader (dir : string) (pagesize : Z) : loaded (list Z) :=
  match load_dtbh_block pagesize fdt qsort (dirs dir) with
  | DtbhBlock b => Loaded b
  | DtbhNone | DtbhExit => LoadFailed
  | DtbhUndefined | DtbhOverflow => LoadCrash
  end.

(** From the point where the image is complete in memory: the output is created, and
    removed again when a write fails. *)
Definition write_image (h : host) (out : string) (img : list Z) (fs : disk) : tool_result :=
  if negb (can_create h out) then Exit 1 fs
  else if writes_complete h then Exit 0 (<[out := img]> fs)
  else Exit 1 (delete out fs).

Definition mkbootimg_main (h : host) (fs : disk) (args : list string) : tool_result :=
  match mk_args args mk_defaults with
  | inr status => Exit status fs
  | inl o =>
      match mkbootimg (fun fn => fs !! fn) dtbh_loader SHA1 o with
      | MkUsage | MkError => Exit 1 fs
      | MkUndefined => Undefined_behaviour
      | MkImage img => write_image h (default "" (o_output o)) img fs
      end
  end.

(** ** unpackbootimg *)

Record unpack_options := {
  un_filename : option string;
  un_directory : option string;
  un_pagesize : Z
}.

Definition unpack_defaults : unpack_options :=
  {| un_filename := None; un_directory := Some "./"; un_pagesize := 0 |}.

(** [val] is null behind the last argument. *)
Definition unpack_option (arg : string) (val : option string) (o : unpack_options) :
    unpack_options + tool_result :=
  if (arg =? "--input")%string || (arg =? "-i")%string then
    inl {| un_filename := val; un_directory := un_directory o; un_pagesize := un_pagesize o |}
  else if (arg =? "--output")%string || (arg =? "-o")%string then
    inl {| un_filename := un_filename o; un_directory := val; un_pagesize := un_pagesize o |}
  else if (arg =? "--pagesize")%string || (arg =? "-p")%string then
    match val with
    | None => inr Undefined_behaviour
    | Some v => inl {| un_filename := un_filename o; un_directory := un_directory o;
                       un_pagesize := i32 (strtoul 16 v) |}
    end
  else inr (Exit 0 ∅).

Fixpoint unpack_args (args : list string) (o : unpack_options) : unpack_options + tool_result :=
  match args with
  | [] => inl o
  | [arg] => unpack_option arg None o
  | arg :: val :: args =>
      match unpack_option arg (Some val) o with
      | inl o => unpack_args args o
      | inr r => inr r
      end
  end.

Definition path_max : nat := 4096.

(** [write_string_to_file] *)
Definition write_string_to_file (file : string) (text : list Z) (fs : disk) : disk :=
  <[file := (text ++ [10])%list]> fs.

(** The files up to the ramdisk, in the order they are written, and the empty file of
    the second stage. *)
Definition write_outputs (path : string) (u : unpacked) (fs : disk) : disk :=
  let fs := write_string_to_file (path +:+ "-cmdline") (u_cmdline u) fs in
  let fs := write_string_to_file (path +:+ "-base") (bytes_of (hex08 (u_base u))) fs in
  let fs := write_string_to_file (path +:+ "-ramdisk_offset") (bytes_of (hex08 (u_ramdisk_offset u))) fs in
  let fs := write_string_to_file (path +:+ "-second_offset") (bytes_of (hex08 (u_second_offset u))) fs in
  let fs := write_string_to_file (path +:+ "-tags_offset") (bytes_of (hex08 (u_tags_offset u))) fs in
  let fs := write_string_to_file (path +:+ "-pagesize") (bytes_of (dec (i32 (u_pagesize u)))) fs in
  let fs := <[path +:+ "-zImage" := u_kernel u]> fs in
  let fs := <[path +:+ default "-ramdisk.gz" (ramdisk_suffix (u_ramdisk u)) := u_ramdisk u]> fs in
  <[path +:+ "-second" := []]> fs.

Definition output_suffixes : list string :=
  ["-cmdline"; "-base"; "-ramdisk_offset"; "-second_offset"; "-tags_offset"; "-pagesize"; "-zImage";
   "-ramdisk.gz"; "-ramdisk.lz4"; "-second"].

(** A stream that cannot be opened is null, and its use undefined; the results of the
    writes are ignored, and they are taken to complete.  [tmp] is the uninitialised
    buffer the magic is searched with. *)
Definition unpackbootimg_main (h : host) (tmp : list Z) (fs : disk) (args : list string) : tool_result :=
  match unpack_args args unpack_defaults with
  | inr (Exit status _) => Exit status fs
  | inr r => r
  | inl o =>
      match un_filename o with
      | None => Exit 0 fs
      | Some filename =>
          match fs !! filename with
          | None => Undefined_behaviour
          | Some file =>
              match unpackbootimg (un_pagesize o) tmp file, un_directory o with
              | UnpackNoMagic, _ => Exit 1 fs
              | Unpacked u, Some directory =>
                  let path := directory +:+ "/" +:+ basename filename in
                  if (String.length path + 15 <? path_max)%nat &&
                     forallb (fun s => can_create h (path +:+ s)) output_suffixes
                  then Closed_stream (write_outputs path u fs)
                  else Undefined_behaviour
              | _, _ => Undefined_behaviour
              end
          end
      end
  end.

(** ** mkdtbimg *)

Definition mkdtbimg_tool (h : host) (fs : disk) (args : list string) : tool_result :=
  match mkdtb_args (fun d => bool_decide (is_Some (dirs d))) args mkdtb_defaults with
  | inr MkdtbCrash => Undefined_behaviour
  | inr _ => Exit 1 fs
  | inl o =>
      match mkdtbimg fdt qsort dirs (dtimg o) (dt_dir o) (opt_pagesize o) with
      | MkdtbUsage | MkdtbError => Exit 1 fs
      | MkdtbCrash => Undefined_behaviour
      | MkdtbImage img => write_image h (default "" (dtimg o)) img fs
      end
  end.

End tools.

(** ** unpackdtbhimg *)

Definition DEFAULT_PAGE_SIZE : Z := 2048.
Definition DT_NAME_LEN : nat := 64.

Record undtb_options := {
  dtbhimg : option string;
  output_dir : option string;
  undtb_page_size : Z
}.

Definition undtb_defaults : undtb_options :=
  {| dtbhimg := None; output_dir := None; undtb_page_size := DEFAULT_PAGE_SIZE |}.

(** Unknown options are skipped with their value; [None]: [atoi] of a null pointer. *)
Definition undtb_option (arg : string) (val : option string) (o : undtb_options) : option undtb_options :=
  if (arg =? "--input")%string || (arg =? "-i")%string then
    Some {| dtbhimg := val; output_dir := output_dir o; undtb_page_size := undtb_page_size o |}
  else if (arg =? "--output")%string || (arg =? "-o")%string then
    Some {| dtbhimg := dtbhimg o; output_dir := val; undtb_page_size := undtb_page_size o |}
  else if (arg =? "--pagesize")%string || (arg =? "-p")%string then
    v ← val; Some {| dtbhimg := dtbhimg o; output_dir := output_dir o; undtb_page_size := i32 (strtol10 v) |}
  else Some o.

Fixpoint undtb_args (args : list string) (o : undtb_options) : option undtb_options :=
  match args with
  | [] => Some o
  | [arg] => undtb_option arg None o
  | arg :: val :: args => o ← undtb_option arg (Some val) o; undtb_args args o
  end.

(** What the format gives, without the bound of the buffer. *)
Definition dest_name (output_dir : string) (e : dt_entry) : string :=
  output_dir +:+ "/chip" +:+ dec (chip e) +:+ "-0x" +:+ hex (platform e) +:+ "-0x" +:+ hex (subtype e) +:+
  "_rev" +:+ dec (hw_rev e) +:+ "-" +:+ dec (hw_rev_end e) +:+ ".dtb".

(** [snprintf] keeps one byte of the buffer for the terminator. *)
Definition dest_file (output_dir : string) (e : dt_entry) : string :=
  String.substring 0 (DT_NAME_LEN + String.length output_dir - 1) (dest_name output_dir e).

(** A file that cannot be created is reported and skipped. *)
Definition dump_dtb (h : host) (dest : string) (blob : list Z) (fs : disk) : disk :=
  if can_create h dest then <[dest := blob]> fs else fs.

(** The image is not one of the outputs.  The header needs its first 12 bytes; a page size below 1 fails in calloc or
    fread. *)
Definition unpackdtbhimg_main (h : host) (fs : disk) (args : list string) : tool_result :=
  match undtb_args args undtb_defaults with
  | None => Undefined_behaviour
  | Some o =>
      match dtbhimg o, output_dir o with
      | Some img, Some dir =>
          match fs !! img with
          | None => Exit 1 fs
          | Some file =>
              let p := undtb_page_size o in
              if (p <=? 0) || (Z.of_nat (length file) <? p) then Exit 1 fs
              else if p <? 12 then Undefined_behaviour
              else match unpackdtbhimg p file with
                   | None => Undefined_behaviour
                   | Some es => Exit 0 (foldl (fun fs eb => dump_dtb h (dest_file dir eb.1) eb.2 fs) fs es)
                   end
          end
      | _, _ => Exit 1 fs
      end
  end.

(** ** Lemmas *)

(** *** Numbers as text *)

(** A lower-case hexadecimal digit. *)
Definition hex_char (c : ascii) : Prop :=
  is_given (digit_value 16 c) = true /\ c <> "-"%char /\ c <> "+"%char /\ c <> "x"%char /\ c <> "X"%char /\
  (forall r, skip_space (String c r) = String c r).

Lemma hex_digit_char d : 0 <= d < 16 ->
  exists c, hex_digit d = String c "" /\ hex_char c /\ digit_value 16 c = Some d.
Proof.
  intros Hd. assert (d = 0 \/ d = 1 \/ d = 2 \/ d = 3 \/ d = 4 \/ d = 5 \/ d = 6 \/ d = 7 \/ d = 8 \/ d = 9 \/
    d = 10 \/ d = 11 \/ d = 12 \/ d = 13 \/ d = 14 \/ d = 15) as Hc by lia.
  destruct_or! Hc; subst d; (eexists; split; [reflexivity|]); (split; [|reflexivity]); by repeat split.
Qed.

Lemma hex_digits_chars n z : all_chars hex_char (hex_digits n z) /\ String.length (hex_digits n z) = n.
Proof.
  revert z. induction n as [|n IH]; intros z; [done|]. cbn [hex_digits].
  destruct (hex_digit_char (z mod 16)) as (c & -> & Hc & _); [by apply Z.mod_pos_bound|].
  destruct (IH (z / 16)) as [H1 H2]. rewrite all_chars_app, string_length_app, H2. simpl. split; [tauto|lia].
Qed.

Lemma strtoul_hex_digits n z rest acc : 0 <= z ->
  strtoul_digits 16 (hex_digits n z +:+ rest) acc = strtoul_digits 16 rest (16 ^ Z.of_nat n * acc + z mod 16 ^ Z.of_nat n).
Proof.
  revert z rest. induction n as [|n IH]; intros z rest Hz.
  { cbn [hex_digits]. rewrite Z.mod_1_r. simpl. f_equal. lia. }
  cbn [hex_digits]. rewrite string_app_assoc, IH by (apply Z.div_pos; lia).
  destruct (hex_digit_char (z mod 16)) as (c & -> & _ & Hv); [by apply Z.mod_pos_bound|].
  change (String c "" +:+ rest) with (String c rest). cbn [strtoul_digits]. rewrite Hv. f_equal.
  rewrite Nat2Z.inj_succ, Z.pow_succ_r, (Z.mul_comm 16 (16 ^ _)), (Z.mul_comm (16 ^ _) 16) by lia.
  rewrite Z.rem_mul_r by lia. lia.
Qed.

(** What %08x prints is read back by strtoul in base 16. *)
Lemma strtoul_hex08 z : 0 <= z < 2 ^ 32 -> strtoul 16 (hex08 z) = z.
Proof.
  intros Hz. pose proof (strtoul_hex_digits 8 z "" 0 ltac:(lia)) as Hd.
  destruct (hex_digits_chars 8 z) as [Hc Hl]. unfold strtoul, hex08.
  assert (hex_digits 8 z +:+ "" = hex_digits 8 z) as E.
  { generalize (hex_digits 8 z). intros s. induction s as [|c s IH]; [done|]. exact (f_equal (String c) IH). }
  rewrite E in Hd. cbn [strtoul_digits] in Hd. rewrite Z.mul_0_r, Z.add_0_l in Hd.
  rewrite Z.mod_small in Hd by (cbn; lia).
  destruct (hex_digits 8 z) as [|c0 [|c1 r]]; [done|done|]. destruct Hc as [H0 [H1 _]].
  destruct H0 as (_ & Hm & Hp & _ & _ & ->). destruct H1 as (_ & _ & _ & Hx & HX & _).
  rewrite !bool_decide_false by done. change (16 =? 16) with true. cbv iota.
  assert (skip_0x (String c0 (String c1 r)) = String c0 (String c1 r)) as ->.
  { unfold skip_0x. destruct r; [done|]. by rewrite (bool_decide_false (c1 = "x"%char)), (bool_decide_false (c1 = "X"%char)),
      andb_false_r by done. }
  rewrite Hd. rewrite (proj2 (Z.leb_gt _ _)) by lia. done.
Qed.

Lemma strtoul_pagesize p : supported_pagesize p = true -> u32 (strtoul 10 (dec (i32 p))) = p.
Proof.
  unfold supported_pagesize. intros Hp. case_bool_decide as Hin; [|done].
  repeat (apply elem_of_cons in Hin as [->|Hin]; [vm_compute; reflexivity|]). set_solver.
Qed.

(** *** Files *)

Lemma load_file_again content d : load_file content = Some d -> load_file (Some d) = Some d.
Proof.
  unfold load_file. destruct content as [l|]; [|done]. case_match; [done|]. intros [= <-].
  pose proof (wrap_s_range 32 ltac:(lia) (Z.of_nat (length l))) as Hr. revert Hr H. width_simpl.
  intros Hr H. rewrite length_take.
  assert (i32 (Z.of_nat (Z.to_nat (i32 (Z.of_nat (length l))) `min` length l)) =
    Z.of_nat (Z.to_nat (i32 (Z.of_nat (length l))) `min` length l)) as -> by (apply wrap_s_id; lia).
  rewrite (proj2 (Z.ltb_ge _ _)) by lia. f_equal. apply take_ge. rewrite length_take. lia.
Qed.

Lemma slash_not_NONE dir rest : dir +:+ "/" +:+ rest <> "NONE".
Proof.
  assert (forall s t, s +:+ t = "NONE" -> all_chars (fun c => c <> "/"%char) t) as H.
  { intros s t E. assert (all_chars (fun c => c <> "/"%char) (s +:+ t)) as Hc by (by rewrite E).
    apply all_chars_app in Hc as [_ Hc]. exact Hc. }
  intros E%H. by destruct E.
Qed.

(** Paths the outputs of unpackbootimg go to. *)
Definition outputs (path : string) : list string := map (String.append path) output_suffixes.

Ltac other_file := rewrite lookup_insert_ne by (intros E%(inj (String.append _)); discriminate).

Lemma ramdisk_suffix_cases r : let s := default "-ramdisk.gz" (ramdisk_suffix r) in
  s = "-ramdisk.gz" \/ s = "-ramdisk.lz4".
Proof.
  unfold ramdisk_suffix. destruct r as [|a r]; simpl; [auto|]. case_match; [|auto].
  destruct r; simpl; [auto|]. case_match; auto.
Qed.

(** The files after the run, where each output is read back. *)
Lemma write_outputs_lookup path u fs :
  let fs' := write_outputs path u fs in
  fs' !! (path +:+ "-cmdline") = Some (u_cmdline u ++ [10])%list /\
  fs' !! (path +:+ "-base") = Some (bytes_of (hex08 (u_base u)) ++ [10])%list /\
  fs' !! (path +:+ "-ramdisk_offset") = Some (bytes_of (hex08 (u_ramdisk_offset u)) ++ [10])%list /\
  fs' !! (path +:+ "-second_offset") = Some (bytes_of (hex08 (u_second_offset u)) ++ [10])%list /\
  fs' !! (path +:+ "-tags_offset") = Some (bytes_of (hex08 (u_tags_offset u)) ++ [10])%list /\
  fs' !! (path +:+ "-pagesize") = Some (bytes_of (dec (i32 (u_pagesize u))) ++ [10])%list /\
  fs' !! (path +:+ "-zImage") = Some (u_kernel u) /\
  fs' !! (path +:+ default "-ramdisk.gz" (ramdisk_suffix (u_ramdisk u))) = Some (u_ramdisk u).
Proof.
  unfold write_outputs, write_string_to_file. cbv zeta.
  destruct (ramdisk_suffix_cases (u_ramdisk u)) as [-> | ->];
    (split_and!; repeat (rewrite lookup_insert_eq || other_file); done).
Qed.

Lemma write_outputs_other path u fs fn : fn ∉ outputs path -> write_outputs path u fs !! fn = fs !! fn.
Proof.
  unfold outputs, output_suffixes. cbn [map]. intros Hn. rewrite !not_elem_of_cons in Hn. destruct_and! Hn.
  unfold write_outputs, write_string_to_file. cbv zeta.
  destruct (ramdisk_suffix_cases (u_ramdisk u)) as [-> | ->]; by rewrite !lookup_insert_ne by done.
Qed.

(** *** Repacking *)

Definition opt_arg (name : string) (val : option string) : list string :=
  match val with Some v => [name; v] | None => [] end.

(** The command line a user makes from the unpacked files and from the sections that
    unpackbootimg does not write. *)
Definition repack_args (kernel ramdisk cmdline base ramdisk_offset second_offset tags_offset pagesize out : string)
    (o : mk_options) : list string :=
  (["--kernel"; kernel; "--ramdisk"; ramdisk; "--cmdline"; cmdline; "--base"; base;
    "--ramdisk_offset"; ramdisk_offset; "--second_offset"; second_offset; "--tags_offset"; tags_offset;
    "--pagesize"; pagesize; "-o"; out] ++
   opt_arg "--second" (o_second o) ++ opt_arg "--dt_dir" (o_dt_dir o) ++ opt_arg "--dt" (o_dt o) ++
   opt_arg "--signature" (o_signature o))%list.

Lemma mk_args_repack kernel ramdisk cmdline base ro so to p out o :
  Forall (fun z => 0 <= z < 2 ^ 32) [base; ro; so; to] -> supported_pagesize p = true ->
  mk_args (repack_args kernel ramdisk cmdline (hex08 base) (hex08 ro) (hex08 so) (hex08 to)
             (dec (i32 p)) out o) mk_defaults =
  inl {| o_kernel := Some kernel; o_ramdisk := Some ramdisk; o_second := o_second o;
         o_cmdline := bytes_of cmdline; o_output := Some out; o_board := []; o_dt_dir := o_dt_dir o;
         o_dt := o_dt o; o_signature := o_signature o; o_pagesize := p; o_base := base;
         o_kernel_offset := 0x8000; o_ramdisk_offset := ro; o_second_offset := so; o_tags_offset := to |}.
Proof.
  intros Hz Hp. rewrite !Forall_cons in Hz. destruct Hz as (H1 & H2 & H3 & H4 & _).
  unfold repack_args. cbn -[strtoul hex08 dec bytes_of supported_pagesize wrap_u wrap_s opt_arg].
  rewrite !strtoul_hex08, strtoul_pagesize, Hp, !wrap_u_id by done.
  by destruct (o_second o), (o_dt_dir o), (o_dt o), (o_signature o).
Qed.

(** A host on which everything can be written. *)
Definition host_ok (h : host) : Prop := (forall path, can_create h path = true) /\ writes_complete h = true.

Definition image_path (dir image : string) : string := dir +:+ "/" +:+ basename image.

Lemma unpackbootimg_run h tmp (fs : disk) image dir img u :
  fs !! image = Some img -> unpackbootimg 0 tmp img = Unpacked u -> host_ok h ->
  (String.length (image_path dir image) + 15 < path_max)%nat ->
  unpackbootimg_main h tmp fs ["-i"; image; "-o"; dir] = Closed_stream (write_outputs (image_path dir image) u fs).
Proof.
  intros Hf Hu [Hc _] Hl. unfold unpackbootimg_main.
  change (unpack_args ["-i"; image; "-o"; dir] unpack_defaults) with
    (inl (B := tool_result) {| un_filename := Some image; un_directory := Some dir; un_pagesize := 0 |}).
  cbn [un_filename un_directory un_pagesize]. cbv iota. rewrite Hf, Hu.
  fold (image_path dir image). rewrite (proj2 (Nat.ltb_lt _ _)) by done.
  assert (forallb (fun s => can_create h (image_path dir image +:+ s)) output_suffixes = true) as ->; [|done].
  apply forallb_forall. intros s _. apply Hc.
Qed.

Lemma load_optional_ext (f1 f2 : string -> option (list Z)) v :
  (forall fn, v = Some fn -> f1 fn = f2 fn) -> load_optional f1 v = load_optional f2 v.
Proof. intros H. unfold load_optional. destruct v as [fn|]; [|done]. by rewrite H. Qed.

Lemma unpacked_ranges p tmp img u : unpackbootimg p tmp img = Unpacked u ->
  Forall (fun z => 0 <= z < 2 ^ 32) [u_base u; u_ramdisk_offset u; u_second_offset u; u_tags_offset u].
Proof.
  unfold unpackbootimg. destruct (find_magic _ _ _ _); [|done].
  intros H. cbv zeta in H. unfold mbind, option_bind in H. repeat case_match; simplify_eq.
  all: cbn; repeat (apply Forall_cons_2; [apply wrap_u_range; lia|]); apply Forall_nil_2.
Qed.

(** The header depends on the options through the addresses, the page size and the
    two texts. *)
Lemma mk_header_same SHA1 o o' kernel ramdisk second dt :
  u32 (o_base o' + o_kernel_offset o') = u32 (o_base o + o_kernel_offset o) ->
  u32 (o_base o' + o_ramdisk_offset o') = u32 (o_base o + o_ramdisk_offset o) ->
  u32 (o_base o' + o_second_offset o') = u32 (o_base o + o_second_offset o) ->
  u32 (o_base o' + o_tags_offset o') = u32 (o_base o + o_tags_offset o) ->
  o_pagesize o' = o_pagesize o -> o_board o' = o_board o -> o_cmdline o' = o_cmdline o ->
  mk_header SHA1 o' kernel ramdisk second dt = mk_header SHA1 o kernel ramdisk second dt.
Proof. intros. unfold mk_header. congruence. Qed.

Section repack.
Context (fdt : list Z -> fdt_view) (qsort : list dt_entry -> list dt_entry).
Context (dirs : string -> option (list (string * option (list Z)))).

Lemma mkbootimg_run SHA1 h (fs : disk) args o kernel ramdisk second dt signature out :
  mk_args args mk_defaults = inl o -> o_output o = Some out -> host_ok h ->
  mk_inputs (fun fn => fs !! fn) (dtbh_loader fdt qsort dirs) o kernel ramdisk second dt signature ->
  mkbootimg_main fdt qsort dirs SHA1 h fs args =
    Exit 0 (<[out := image_bytes (mk_header SHA1 o kernel ramdisk second dt) kernel ramdisk second dt
                       (Some signature)]> fs).
Proof.
  intros Ha Ho [Hc Hw] Hin. unfold mkbootimg_main. rewrite Ha, (mkbootimg_defined _ _ _ _ _ _ _ _ _ Hin), Ho.
  unfold write_image. simpl. by rewrite Hc, Hw.
Qed.

(** The sections that come from the files of the first run are loaded again, the
    kernel and the ramdisk from the unpacked files. *)
Lemma repack_inputs (fs fs' : disk) o o' kernel ramdisk second dt signature kernel_fn ramdisk_fn :
  mk_inputs (fun fn => fs !! fn) (dtbh_loader fdt qsort dirs) o kernel ramdisk second dt signature ->
  (forall fn, Some fn ∈ [o_second o; o_dt o; o_signature o] -> fs' !! fn = fs !! fn) ->
  fs' !! kernel_fn = Some kernel -> fs' !! ramdisk_fn = Some ramdisk -> ramdisk_fn <> "NONE" ->
  o_kernel o' = Some kernel_fn -> o_ramdisk o' = Some ramdisk_fn -> is_given (o_output o') = true ->
  o_second o' = o_second o -> o_cmdline o' = o_cmdline o -> o_board o' = [] -> o_dt_dir o' = o_dt_dir o ->
  o_dt o' = o_dt o -> o_signature o' = o_signature o -> o_pagesize o' = o_pagesize o ->
  mk_inputs (fun fn => fs' !! fn) (dtbh_loader fdt qsort dirs) o' kernel ramdisk second dt signature.
Proof.
  intros Hin Hfs Hk Hr Hnone Ek Er Eo Es Ec Eb Ed Et Eg Ep.
  assert (forall v, v ∈ [o_second o; o_dt o; o_signature o] ->
    load_optional (fun fn => fs' !! fn) v = load_optional (fun fn => fs !! fn) v) as Hl.
  { intros v Hv. apply load_optional_ext. intros fn ->. by apply Hfs. }
  destruct Hin as [_ (kf & _ & Hkl) (rf & _ & _ & Hrl) Hs Hd H1 H2 Hg ? _ ? ? ? ? ?].
  split; rewrite ?Ec, ?Eb, ?Ed, ?Et, ?Ep; try done.
  - exists kernel_fn. rewrite Ek, Hk. split; [done|]. by eapply load_file_again.
  - exists ramdisk_fn. rewrite Er, Hr. split_and!; [done|done|]. by eapply load_file_again.
  - rewrite Es, Hl by set_solver. done.
  - revert Hd. unfold load_dt. rewrite Ed, Et, Ep, Hl by set_solver. done.
  - rewrite Eg, Hl by set_solver. done.
  - unfold BOOT_NAME_SIZE. simpl. lia.
Qed.

End repack.

(** *** Names of the extracted device trees *)

(** The file of a device tree of an image this tool chain writes. *)
Definition dtb_file (output_dir : string) (id : Z * Z * Z) : string :=
  let '(c, r, re) := id in
  output_dir +:+ "/chip" +:+ dec c +:+ "-0x50a6-0x217584da_rev" +:+ dec r +:+ "-" +:+ dec re +:+ ".dtb".

Lemma dtb_file_inj dir c r re c' r' re' :
  0 <= c -> 0 <= r -> 0 <= re -> 0 <= c' -> 0 <= r' -> 0 <= re' ->
  dtb_file dir (c, r, re) = dtb_file dir (c', r', re') -> (c, r, re) = (c', r', re').
Proof.
  intros. unfold dtb_file in *.
  assert (~ dec_char "-"%char /\ ~ dec_char "."%char) as [Hd Hp] by (split; intros []; done).
  match goal with E : _ = _ |- _ => rename E into E0 end.
  apply (inj (String.append dir)), (inj (String.append "/chip")) in E0.
  apply (split_at_sep dec_char (dec c) (dec c') "-" ("0x50a6-0x217584da_rev" +:+ _)
    ("0x50a6-0x217584da_rev" +:+ _)) in E0 as [E1 E0]; [|by apply dec_chars..|done].
  apply (inj (String.append _)) in E0.
  apply (split_at_sep dec_char (dec r) (dec r') "-") in E0 as [E2 E0]; [|by apply dec_chars..|done].
  apply (split_at_sep dec_char (dec re) (dec re') ".") in E0 as [E3 _]; [|by apply dec_chars..|done].
  by rewrite (inj pretty _ _ E1), (inj pretty _ _ E2), (inj pretty _ _ E3).
Qed.

(** The name fits the buffer: nothing is cut off. *)
Lemma substring_fits n s : (String.length s <= n)%nat -> String.substring 0 n s = s.
Proof.
  revert n. induction s as [|c s IH]; intros [|n] Hn; simpl in *; try done; [lia|]. rewrite IH by lia. done.
Qed.

Lemma dest_file_name dir e :
  platform e = DTBH_PLATFORM_CODE -> subtype e = DTBH_SUBTYPE_CODE ->
  Forall (fun z => 0 <= z < 2 ^ 32) [chip e; hw_rev e; hw_rev_end e] ->
  dest_file dir e = dtb_file dir (chip e, hw_rev e, hw_rev_end e).
Proof.
  intros Hp Hs Hr. rewrite !Forall_cons in Hr. destruct Hr as (H1 & H2 & H3 & _).
  pose proof (dec_length _ H1). pose proof (dec_length _ H2). pose proof (dec_length _ H3).
  assert (dest_name dir e = dtb_file dir (chip e, hw_rev e, hw_rev_end e)) as E.
  { unfold dest_name, dtb_file. rewrite Hp, Hs. reflexivity. }
  unfold dest_file. rewrite E. apply substring_fits. unfold dtb_file. rewrite !string_length_app.
  cbn [String.length]. unfold DT_NAME_LEN. lia.
Qed.

(** Files written one after the other under different names are all there. *)
Lemma foldl_insert_lookup (l : list (string * list Z)) (m : disk) k v :
  NoDup (map fst l) -> (k, v) ∈ l -> foldl (fun m kv => <[kv.1 := kv.2]> m) m l !! k = Some v.
Proof.
  revert m. induction l as [|[k' v'] l IH]; intros m Hnd Hin; [by apply elem_of_nil in Hin|].
  simpl in *. apply NoDup_cons in Hnd as [Hn Hnd]. apply elem_of_cons in Hin as [[= <- <-]|Hin]; [|by apply IH].
  clear IH Hnd. assert (forall m : disk, m !! k = Some v -> foldl (fun m kv => <[kv.1 := kv.2]> m) m l !! k = Some v) as H.
  { induction l as [|[k1 v1] l IH]; intros m' Hm; [done|]. simpl in *. rewrite not_elem_of_cons in Hn.
    apply IH; [tauto|]. rewrite lookup_insert_ne by (intros ->; tauto). done. }
  apply H, lookup_insert_eq.
Qed.

(** Extracting entries of mkdtbimg writes one file per entry, named after its board. *)
Lemma dump_all h out l : host_ok h -> Forall (fun eb => stored eb.1) l -> forall fs,
  foldl (fun fs eb => dump_dtb h (dest_file out eb.1) eb.2 fs) fs l =
  foldl (fun (m : disk) kv => <[kv.1 := kv.2]> m) fs (map (fun eb => (dtb_file out (entry_board eb.1), eb.2)) l).
Proof.
  intros [Hh _]. induction 1 as [|[e b] l (Hp & Hs & Hr) _ IH]; intros fs; [done|].
  cbn [foldl map fst snd] in *. rewrite IH, dest_file_name by done. unfold dump_dtb. by rewrite Hh.
Qed.

Lemma dtb_file_board dir id id' : board_ok id -> board_ok id' -> dtb_file dir id = dtb_file dir id' -> id = id'.
Proof.
  destruct id as [[c r] re], id' as [[c' r'] re']. unfold board_ok. rewrite !Forall_cons. cbn [fst snd].
  intros H H'. apply dtb_file_inj; lia.
Qed.

Lemma foldl_insert_other (l : list (string * list Z)) (m : disk) k :
  k ∉ map fst l -> foldl (fun m kv => <[kv.1 := kv.2]> m) m l !! k = m !! k.
Proof.
  revert m. induction l as [|[k' v'] l IH]; intros m Hn; [done|]. cbn in *. rewrite not_elem_of_cons in Hn.
  rewrite IH by tauto. apply lookup_insert_ne. intros ->. tauto.
Qed.

Lemma strtol_pagesize p : supported_pagesize p = true ->
  u32 (strtol10 (dec p)) = p /\ i32 (strtol10 (dec p)) = p.
Proof.
  unfold supported_pagesize. intros Hp. case_bool_decide as Hin; [|done].
  repeat (apply elem_of_cons in Hin as [->|Hin]; [split; vm_compute; reflexivity|]). set_solver.
Qed.

Lemma mkdtbimg_run fdt qsort dirs h fs p d img block : supported_pagesize p = true -> host_ok h ->
  mkdtbimg fdt qsort dirs (Some img) (Some d) p = MkdtbImage block ->
  mkdtbimg_tool fdt qsort dirs h fs ["--dt_dir"; d; "-s"; dec p; "-o"; img] = Exit 0 (<[img := block]> fs).
Proof.
  intros Hp [Hc Hw] Hm. destruct (strtol_pagesize p Hp) as [Hp1 _]. pose proof (pagesize_cases p Hp) as [Hpp _].
  unfold mkdtbimg_tool. cbn -[strtol10 dec wrap_u mkdtbimg write_image].
  rewrite Hp1, (proj2 (Z.eqb_neq p 0)), Hm by lia. unfold write_image. by rewrite Hc, Hw.
Qed.

Lemma unpackdtbhimg_run h (fs : disk) p img out file es : supported_pagesize p = true ->
  fs !! img = Some file -> unpackdtbhimg p file = Some es ->
  unpackdtbhimg_main h fs ["-i"; img; "-o"; out; "-p"; dec p] =
    Exit 0 (foldl (fun fs eb => dump_dtb h (dest_file out eb.1) eb.2 fs) fs es).
Proof.
  intros Hp Hf Hu. destruct (strtol_pagesize p Hp) as [_ Hp2]. pose proof (pagesize_cases p Hp) as [Hpp _].
  assert ((Z.of_nat (length file) <? p) = false) as Hl.
  { unfold unpackdtbhimg, fread in Hu. by destruct (Z.of_nat (length file) <? p). }
  unfold unpackdtbhimg_main. cbn -[strtol10 dec wrap_s unpackdtbhimg].
  rewrite Hp2, Hf, Hl, (proj2 (Z.leb_gt p 0)), (proj2 (Z.ltb_ge p 12)) by lia. cbn [orb]. by rewrite Hu.
Qed.

(** ** Properties *)

(** C25: Packing an image again gives the same image, byte for byte.  mkbootimg is
    run with a command line it accepts: no board name (unpackbootimg does not keep it),
    at most one source of device trees, a supported page size, a ramdisk of at least two
    bytes, a signature of at least 256 bytes, and a second stage, if any, as long as the
    ramdisk modulo the page (the padding after it is computed from the ramdisk).  It
    writes an image; unpackbootimg leaves the kernel, the ramdisk and the parameters as
    text in files under [dir], where their paths fit its buffer.  mkbootimg, given
    those files and texts and the original files of the second stage, of the device
    trees and of the signature, writes the identical image.  The originals are needed
    since unpackbootimg leaves the files of these three empty; the image and the
    unpacked files must not overwrite them.  What is written to its closed stream is
    taken to reach no file. *)
Theorem repack_identical fdt qsort dirs SHA1 h (fs : disk) args o kernel ramdisk second dt signature
    out out2 dir cmdline tmp :
  mk_args args mk_defaults = inl o -> o_output o = Some out -> o_board o = [] ->
  o_cmdline o = bytes_of cmdline -> host_ok h ->
  mk_inputs (fun fn => fs !! fn) (dtbh_loader fdt qsort dirs) o kernel ramdisk second dt signature ->
  let path := image_path dir out in
  (String.length path + 15 < path_max)%nat ->
  (forall fn, Some fn ∈ [o_second o; o_dt o; o_signature o] -> fn ∉ out :: outputs path) ->
  exists img fs1 fs2 rd base ro so to p,
    mkbootimg_main fdt qsort dirs SHA1 h fs args = Exit 0 fs1 /\ fs1 !! out = Some img /\
    unpackbootimg_main h tmp fs1 ["-i"; out; "-o"; dir] = Closed_stream fs2 /\
    fs2 !! (path +:+ "-zImage") = Some kernel /\ fs2 !! rd = Some ramdisk /\
    Forall2 (fun suffix text => fs2 !! (path +:+ suffix) = Some (bytes_of text ++ [10])%list)
      ["-cmdline"; "-base"; "-ramdisk_offset"; "-second_offset"; "-tags_offset"; "-pagesize"]
      [cmdline; base; ro; so; to; p] /\
    mkbootimg_main fdt qsort dirs SHA1 h fs2
      (repack_args (path +:+ "-zImage") rd cmdline base ro so to p out2 o) = Exit 0 (<[out2 := img]> fs2).
Proof.
  intros Ha Ho Hb Hc Hh Hin path Hp Hfs.
  destruct (bootimg_roundtrip _ _ SHA1 _ _ _ _ _ _ tmp Hin)
    as (img & u & Hm & Hu & E1 & E2 & E3 & E4 & E5 & E6 & E7 & E8 & E9 & E10 & E11).
  rewrite (mkbootimg_defined _ _ _ _ _ _ _ _ _ Hin) in Hm. injection Hm as <-.
  set (img := image_bytes _ _ _ _ _ _) in *. set (fs1 := <[out := img]> fs).
  assert (fs1 !! out = Some img) as Hout by apply lookup_insert_eq.
  set (rd := path +:+ default "-ramdisk.gz" (ramdisk_suffix (u_ramdisk u))).
  destruct (write_outputs_lookup path u fs1) as (L1 & L2 & L3 & L4 & L5 & L6 & L7 & L8).
  exists img, fs1, (write_outputs path u fs1), rd, (hex08 (u_base u)), (hex08 (u_ramdisk_offset u)),
    (hex08 (u_second_offset u)), (hex08 (u_tags_offset u)), (dec (i32 (u_pagesize u))).
  split; [by apply mkbootimg_run|]. split; [done|]. split; [by apply unpackbootimg_run with img|].
  rewrite L7, E1. split; [done|]. split; [unfold rd; by rewrite L8, E2|]. split.
  { rewrite E6, Hc in L1. by repeat constructor. }
  pose proof (unpacked_ranges _ _ _ _ Hu) as Hz. rewrite E7.
  pose proof (mk_args_repack (path +:+ "-zImage") rd cmdline _ _ _ _ (o_pagesize o) out2 o Hz
    (in_pagesize _ _ _ _ _ _ _ _ Hin)) as Ha2.
  rewrite (mkbootimg_run _ _ _ SHA1 h _ _ _ kernel ramdisk second dt signature out2 Ha2 eq_refl Hh).
  - rewrite (mk_header_same SHA1 o); simpl; try congruence. done.
  - eapply repack_inputs with (fs := fs); [exact Hin| |rewrite L7; by f_equal| | |done..].
    + intros fn Hfn. specialize (Hfs fn Hfn). apply not_elem_of_cons in Hfs as [Hn1 Hn2].
      rewrite write_outputs_other by done. by apply lookup_insert_ne.
    + unfold rd. by rewrite L8, E2.
    + unfold rd, path, image_path. rewrite !string_app_assoc. apply slash_not_NONE.
Qed.

(** C26: mkdtbimg and unpackdtbhimg together.  For a directory whose .dtb files are
    device trees of this platform, for boards that differ pairwise, or foreign trees
    told apart without reading past a property: mkdtbimg writes an image from which
    unpackdtbhimg extracts the page-padded tree of every board into a file named after
    its chip and its first and last revision, and nothing else.  The header must fit a
    page as the code computes its size (at most 10 trees on a page of 2048 bytes), the
    image must fit an [unsigned], the sort may only move entries, and all writes
    complete. *)
Theorem dtbs_extracted fdt qsort dirs h (fs : disk) p d dir ts img out :
  dtb_directory p fdt qsort dir ts -> dirs d = Some dir -> NoDup (map snd ts) -> host_ok h ->
  exists fs1 fs2,
    mkdtbimg_tool fdt qsort dirs h fs ["--dt_dir"; d; "-s"; dec p; "-o"; img] = Exit 0 fs1 /\
    unpackdtbhimg_main h fs1 ["-i"; img; "-o"; out; "-p"; dec p] = Exit 0 fs2 /\
    (forall tree id, (tree, id) ∈ ts -> fs2 !! dtb_file out id = Some (padded p tree)) /\
    (forall fn, fn ∉ map (fun t => dtb_file out t.2) ts -> fs2 !! fn = fs1 !! fn) /\
    (forall fn, fn <> img -> fs1 !! fn = fs !! fn).
Proof.
  intros D Hd Hnd Hh. destruct (directory_roundtrip p fdt qsort dirs img d dir ts D Hd) as (block & es & Hm & Hu & Hc & Hes).
  pose proof (dd_page _ _ _ _ _ D) as Hp.
  pose proof (trees_boards _ _ _ (dd_trees _ _ _ _ _ D)) as Hok. rewrite Forall_forall in Hok.
  set (files := map (fun eb => (dtb_file out (entry_board eb.1), eb.2)) es).
  assert (files ≡ₚ map (fun t => (dtb_file out t.2, padded p t.1)) ts) as Hf.
  { apply (Permutation_map (fun ib : board * list Z => (dtb_file out ib.1, ib.2))) in Hes.
    rewrite !map_map in Hes. exact Hes. }
  exists (<[img := block]> fs). eexists. split; [by apply mkdtbimg_run|].
  split; [apply unpackdtbhimg_run with block; [done|apply lookup_insert_eq|exact Hu]|].
  rewrite (dump_all h out es Hh Hc). fold files. split_and!.
  - intros tree id Hin. apply foldl_insert_lookup.
    + rewrite Hf, map_map. cbn [fst]. rewrite <- (map_map snd (dtb_file out)).
      apply NoDup_fmap_2_strong; [|done]. intros x y (tx & -> & Hx)%list_elem_of_fmap (ty & -> & Hy)%list_elem_of_fmap.
      by apply dtb_file_board; apply Hok.
    + rewrite Hf. apply list_elem_of_fmap. by exists (tree, id).
  - intros fn Hfn. apply foldl_insert_other. by rewrite Hf, map_map.
  - intros fn Hfn. by apply lookup_insert_ne.
Qed.

(** C27: The image tools compose: mkbootimg with --dt_dir, run on a directory as in
    [dtbs_extracted] (the boards may repeat) and on inputs it accepts (as in
    [repack_identical], with a block of less than 2 GiB), builds the device-tree section
    itself; unpackbootimg reads that section back into its buffer, and unpackdtbhimg finds
    in it the trees of the directory and no others, page-padded, each with its own chip
    and its own first and last revision. *)
Theorem boot_image_carries_dtbs fdt qsort dirs SHA1 (fs : disk) o kernel ramdisk second signature junk dir ts d :
  dtb_directory (o_pagesize o) fdt qsort dir ts -> o_dt_dir o = Some d -> dirs d = Some dir ->
  (forall block, load_dtbh_block (o_pagesize o) fdt qsort (Some dir) = DtbhBlock block ->
     mk_inputs (fun fn => fs !! fn) (dtbh_loader fdt qsort dirs) o kernel ramdisk second (Some block) signature) ->
  exists img u es,
    mkbootimg (fun fn => fs !! fn) (dtbh_loader fdt qsort dirs) SHA1 o = MkImage img /\
    unpackbootimg 0 junk img = Unpacked u /\ unpackdtbhimg (o_pagesize o) (u_dt u) = Some es /\
    map (fun eb => (entry_board eb.1, eb.2)) es ≡ₚ map (fun t => (t.2, padded (o_pagesize o) t.1)) ts.
Proof.
  intros D Hd Hdir Hin.
  destruct (directory_roundtrip _ _ _ dirs "" d dir ts D Hdir) as (block & es & Hm & Hu & _ & Hes).
  unfold mkdtbimg in Hm. rewrite Hdir in Hm.
  destruct (load_dtbh_block (o_pagesize o) fdt qsort (Some dir)) eqn:El; simplify_eq.
  destruct (bootimg_roundtrip _ _ SHA1 _ _ _ _ _ _ junk (Hin _ eq_refl)) as (img & u & H1 & H2 & _ & _ & _ & E4 & _).
  exists img, u, es. split_and!; [done|done|by rewrite E4|done].
Qed.

(** *** Witnesses *)

Definition demo_disk : disk :=
  list_to_map [("zImage", [1; 2; 3]); ("ramdisk", [31; 139; 8]); ("dt.img", [68; 84; 66; 72]);
               ("sig", replicate 256 85)].

Definition demo_args : list string :=
  ["--kernel"; "zImage"; "--ramdisk"; "ramdisk"; "--cmdline"; "quiet"; "--base"; "0x80000000";
   "--kernel_offset"; "80000"; "--pagesize"; "4096"; "--dt"; "dt.img"; "--signature"; "sig"; "--output"; "boot.img"].

Definition demo_host : host := {| can_create _ := true; writes_complete := true |}.

Definition demo_parsed : mk_options :=
  match mk_args demo_args mk_defaults with inl o => o | inr _ => mk_defaults end.

Lemma demo_parsed_inputs fdt qsort dirs :
  mk_inputs (fun fn => demo_disk !! fn) (dtbh_loader fdt qsort dirs) demo_parsed [1; 2; 3] [31; 139; 8] None
    (Some [68; 84; 66; 72]) (replicate 256 85).
Proof.
  constructor; [reflexivity| | |reflexivity| |reflexivity| |vm_compute; reflexivity
    |vm_compute; lia|vm_compute; lia|vm_compute; lia|repeat constructor; discriminate
    |vm_compute; reflexivity|vm_compute; lia|exact I].
  - exists "zImage". split; vm_compute; reflexivity.
  - exists "ramdisk". split; [reflexivity|]. split; [discriminate|vm_compute; reflexivity].
  - vm_compute. reflexivity.
  - vm_compute. reflexivity.
Qed.

Lemma repack_identical_witness :
  let fdt := demo_fdt in let qsort := no_sort in let dirs := demo_dirs 1 in
  exists img fs1 fs2 rd base ro so to p,
    mkbootimg_main fdt qsort dirs demo_sha demo_host demo_disk demo_args = Exit 0 fs1 /\
    fs1 !! "boot.img" = Some img /\
    unpackbootimg_main demo_host [] fs1 ["-i"; "boot.img"; "-o"; "out"] = Closed_stream fs2 /\
    fs2 !! "out/boot.img-zImage" = Some [1; 2; 3] /\ fs2 !! rd = Some [31; 139; 8] /\
    Forall2 (fun suffix text => fs2 !! ("out/boot.img" +:+ suffix) = Some (bytes_of text ++ [10])%list)
      ["-cmdline"; "-base"; "-ramdisk_offset"; "-second_offset"; "-tags_offset"; "-pagesize"]
      ["quiet"; base; ro; so; to; p] /\
    mkbootimg_main fdt qsort dirs demo_sha demo_host fs2
      (repack_args "out/boot.img-zImage" rd "quiet" base ro so to p "new.img" demo_parsed) =
      Exit 0 (<["new.img" := img]> fs2).
Proof.
  apply (repack_identical demo_fdt no_sort (demo_dirs 1) demo_sha demo_host demo_disk demo_args demo_parsed
    [1; 2; 3] [31; 139; 8] None (Some [68; 84; 66; 72]) (replicate 256 85) "boot.img" "new.img" "out" "quiet" []).
  - reflexivity.
  - reflexivity.
  - reflexivity.
  - reflexivity.
  - split; reflexivity.
  - apply demo_parsed_inputs.
  - vm_compute. lia.
  - intros fn Hfn. apply (bool_decide_unpack _). vm_compute in Hfn.
    repeat (apply elem_of_cons in Hfn as [Hfn|Hfn]; [try discriminate Hfn; injection Hfn as ->; exact I|]).
    by apply elem_of_nil in Hfn.
Defined.

(** Two boards that differ in their revision; an empty file is not a device tree. *)
Definition two_fdt (b : list Z) : fdt_view :=
  {| fdt_check_header := negb (length b =? 0)%nat;
     fdt_getprop k :=
       if (k =? "model_info-hw_rev")%string then Some [0; 0; 0; Z.of_nat (length b)]
       else fdt_getprop demo_view k |}.

Definition two_dtbs : list (string * option (list Z)) :=
  [("README", None); ("a.dtb", Some [208; 13; 254]); ("empty.dtb", Some []); ("b.dtb", Some [208; 13; 254; 237])].

Definition two_dirs (d : string) : option (list (string * option (list Z))) :=
  if (d =? "dtbs")%string then Some two_dtbs else None.

Definition two_boards : list (list Z * board) :=
  [([208; 13; 254], (9810, 3, 26)); ([208; 13; 254; 237], (9810, 4, 26))].

Lemma two_model_info b : length b ∈ [3; 4]%nat -> model_info (two_fdt b) (9810, Z.of_nat (length b), 26).
Proof.
  intros Hl. assert (0 < Z.of_nat (length b) < 256 /\ length b <> 0%nat) as [Hr H0].
  { repeat (apply elem_of_cons in Hl as [->|Hl]; [lia|]). by apply elem_of_nil in Hl. }
  destruct literals_zero_free as [Zp Zs]. unfold model_info. split_and!.
  - cbn. by rewrite (proj2 (Nat.eqb_neq _ _)) by done.
  - split; [done|]. by exists [].
  - split; [done|]. by exists [].
  - exists 0, 0, 38, 82, []. split_and!; [done| |done|done]. repeat constructor; lia.
  - exists 0, 0, 0, (Z.of_nat (length b)), []. split_and!; [done| |done|cbn; lia]. repeat constructor; lia.
  - exists 0, 0, 0, 26, []. split_and!; [done| |done|done]. repeat constructor; lia.
Qed.

Lemma two_directory : dtb_directory 2048 two_fdt no_sort two_dtbs two_boards.
Proof.
  split; [done| |done|done|vm_compute; discriminate|vm_compute; discriminate].
  apply trees_other.
  { intros stem E. assert (is_dtb "README" = true) as H; [rewrite E; apply is_dtb_suffix|discriminate H]. }
  apply (trees_board two_fdt "a"); [cbn; lia|apply two_model_info; by left|].
  apply (trees_foreign two_fdt "empty"); [cbn; lia|by apply foreign_header|].
  apply (trees_board two_fdt "b"); [cbn; lia|apply two_model_info; right; by left|]. apply trees_end.
Qed.

Lemma dtbs_extracted_witness :
  exists fs1 fs2,
    mkdtbimg_tool two_fdt no_sort two_dirs demo_host ∅ ["--dt_dir"; "dtbs"; "-s"; "2048"; "-o"; "dt.img"] = Exit 0 fs1 /\
    unpackdtbhimg_main demo_host fs1 ["-i"; "dt.img"; "-o"; "out"; "-p"; "2048"] = Exit 0 fs2 /\
    (forall tree id, (tree, id) ∈ two_boards -> fs2 !! dtb_file "out" id = Some (padded 2048 tree)) /\
    (forall fn, fn ∉ map (fun t => dtb_file "out" t.2) two_boards -> fs2 !! fn = fs1 !! fn) /\
    (forall fn, fn <> "dt.img" -> fs1 !! fn = (∅ : disk) !! fn).
Proof.
  apply (dtbs_extracted two_fdt no_sort two_dirs demo_host ∅ 2048 "dtbs" two_dtbs two_boards "dt.img" "out").
  - exact two_directory.
  - reflexivity.
  - apply (bool_decide_unpack _). vm_compute. exact I.
  - split; reflexivity.
Defined.

Definition dt_dir_args : list string :=
  ["--kernel"; "zImage"; "--ramdisk"; "ramdisk"; "--dt_dir"; "dtbs"; "--signature"; "sig"; "-o"; "boot.img"].

Definition dt_dir_parsed : mk_options :=
  match mk_args dt_dir_args mk_defaults with inl o => o | inr _ => mk_defaults end.

Lemma boot_image_carries_dtbs_witness :
  exists img u es,
    mkbootimg (fun fn => demo_disk !! fn) (dtbh_loader two_fdt no_sort two_dirs) demo_sha dt_dir_parsed = MkImage img /\
    unpackbootimg 0 [] img = Unpacked u /\ unpackdtbhimg 2048 (u_dt u) = Some es /\
    map (fun eb => (entry_board eb.1, eb.2)) es ≡ₚ map (fun t => (t.2, padded 2048 t.1)) two_boards.
Proof.
  apply (boot_image_carries_dtbs two_fdt no_sort two_dirs demo_sha demo_disk dt_dir_parsed [1; 2; 3] [31; 139; 8] None
    (replicate 256 85) [] two_dtbs two_boards "dtbs").
  - exact two_directory.
  - reflexivity.
  - reflexivity.
  - intros block Hb.
    assert (load_dt (fun fn => demo_disk !! fn) (dtbh_loader two_fdt no_sort two_dirs) dt_dir_parsed =
      Loaded (Some block)) as Hdt.
    { unfold load_dt, dtbh_loader. change (o_dt_dir dt_dir_parsed) with (Some "dtbs"). cbv iota.
      change (two_dirs "dtbs") with (Some two_dtbs). by rewrite Hb. }
    assert (Z.of_nat (length block) = 6144) as Hlen.
    { vm_compute in Hb. injection Hb as <-. reflexivity. }
    constructor; [reflexivity| | |reflexivity|exact Hdt|reflexivity| |vm_compute; reflexivity
      |vm_compute; lia|vm_compute; lia|vm_compute; lia|repeat constructor
      |vm_compute; reflexivity|vm_compute; lia|exact I].
    + exists "zImage". split; vm_compute; reflexivity.
    + exists "ramdisk". split; [reflexivity|]. split; [discriminate|vm_compute; reflexivity].
    + change (size_of (Some block)) with (Z.of_nat (length block)). rewrite Hlen. lia.
Defined.
