(* ===== verification/Fingerprint.v ===== *)
(** Model of the fingerprint HAL
    (src/hidl/fingerprint/BiometricsFingerprint.{h,cpp}, VendorConstants.h).

    The object forwards binder calls to the vendor library libbauthserver.so, whose
    entry points it looks up with dlsym, and forwards the library's messages to the
    registered client.  The library is not under src: what it answers, and the
    messages it delivers from inside a call, are an oracle in the state.  The codes
    of hardware/fingerprint.h are the parameter [codes].  The state holds the one object
    and what is around it; [sInstance] points to that object from the first statement of
    its constructor on, before the library learns of [notify].  A call through a null or
    indeterminate pointer is [Crash]; locking the held callback mutex from inside
    [notify] is [Deadlock].  The build flags of Android.mk are the record [fp_config]. *)
From S2P Require Import Prelude.
Local Open Scope Z_scope.

(** ** Data *)

Record fp_config := {
  HAS_FINGERPRINT_GESTURES : bool;
  REQUEST_FORCE_CALIBRATE : bool;
  CALL_NOTIFY_ON_CANCEL : bool;
  USES_PERCENTAGE_SAMPLES : bool;
  CALL_CANCEL_ON_ENROLL_COMPLETION : bool
}.

Definition FINGERPRINT_REQUEST_GET_SENSOR_STATUS : Z := 6.
Definition FINGERPRINT_REQUEST_NAVIGATION_MODE_START : Z := 15.
Definition SEM_REQUEST_FORCE_CBGE : Z := 21.
Definition SEM_FINGERPRINT_EVENT_BASE : Z := 10000.
Definition SEM_FINGERPRINT_EVENT_GESTURE_SWIPE_DOWN : Z := 20002.
Definition SEM_FINGERPRINT_EVENT_GESTURE_SWIPE_UP : Z := 20001.
Definition SEM_SENSOR_STATUS_CALIBRATION_ERROR : Z := 100045.
Definition SEM_SENSOR_STATUS_ERROR : Z := 100042.
Definition SEM_SENSOR_STATUS_OK : Z := 100040.
Definition SEM_SENSOR_STATUS_WORKING : Z := 100041.
Definition PATH_MAX : nat := 4096.

(** The results of the HIDL interface. *)
Inductive RequestStatus :=
  | SYS_UNKNOWN | SYS_OK | SYS_ENOENT | SYS_EINTR | SYS_EIO | SYS_EAGAIN | SYS_ENOMEM | SYS_EACCES
  | SYS_EFAULT | SYS_EBUSY | SYS_EINVAL | SYS_ENOSPC | SYS_ETIMEDOUT.

Inductive FingerprintError :=
  | ERROR_HW_UNAVAILABLE | ERROR_UNABLE_TO_PROCESS | ERROR_TIMEOUT | ERROR_NO_SPACE
  | ERROR_CANCELED | ERROR_UNABLE_TO_REMOVE | ERROR_LOCKOUT | ERROR_VENDOR.

Inductive FingerprintAcquiredInfo :=
  | ACQUIRED_GOOD | ACQUIRED_PARTIAL | ACQUIRED_INSUFFICIENT | ACQUIRED_IMAGER_DIRTY
  | ACQUIRED_TOO_SLOW | ACQUIRED_TOO_FAST | ACQUIRED_VENDOR.

(** The codes hardware/fingerprint.h gives to the enumerators of the switches. *)
Record fp_codes := {
  error_code : FingerprintError -> Z;       (* FINGERPRINT_ERROR_*; ERROR_VENDOR is VENDOR_BASE *)
  acquired_code : FingerprintAcquiredInfo -> Z
}.

Inductive fingerprint_msg :=
  | FINGERPRINT_ERROR (error : Z)
  | FINGERPRINT_ACQUIRED (acquired_info : Z)
  | FINGERPRINT_TEMPLATE_ENROLLING (fid gid samples_remaining : Z)
  | FINGERPRINT_TEMPLATE_REMOVED (fid gid remaining_templates : Z)
  | FINGERPRINT_AUTHENTICATED (fid gid : Z) (hat : list Z)
  | FINGERPRINT_TEMPLATE_ENUMERATING (fid gid remaining_templates : Z)
  | FINGERPRINT_OTHER (type : Z).

Inductive client_call :=
  | onError (devId : Z) (error : FingerprintError) (vendorCode : Z)
  | onAcquired (devId : Z) (info : FingerprintAcquiredInfo) (vendorCode : Z)
  | onEnrollResult (devId fid gid remaining : Z)
  | onRemoved (devId fid gid remaining : Z)
  | onAuthenticated (devId fid gid : Z) (token : list Z)
  | onEnumerate (devId fid gid remaining : Z).

(** The function pointers of the object. *)
Inductive ss_fn :=
  | ss_fingerprint_close | ss_fingerprint_open | ss_set_notify_callback | ss_fingerprint_pre_enroll
  | ss_fingerprint_enroll | ss_fingerprint_post_enroll | ss_fingerprint_get_auth_id
  | ss_fingerprint_cancel | ss_fingerprint_enumerate | ss_fingerprint_remove
  | ss_fingerprint_set_active_group | ss_fingerprint_authenticate | ss_fingerprint_request.

#[export] Instance ss_fn_eq_dec : EqDecision ss_fn.
Proof. solve_decision. Defined.

Inductive fn_ptr := Indeterminate | Null | Symbol.

#[export] Instance fn_ptr_eq_dec : EqDecision fn_ptr.
Proof. solve_decision. Defined.

(** What the library does in one call: its result, and the messages it delivers to
    [notify] before it returns. *)
Record vendor_answer := {
  ret : Z;
  messages : list fingerprint_msg
}.

Definition quiet (z : Z) : vendor_answer := {| ret := z; messages := [] |}.

Inductive vendor_arg := Num (z : Z) | Path (s : string) | Token (bytes : list Z).

Inductive key := KEY_UP | KEY_DOWN.
Inductive input_event := EV_KEY (code : key) (value : Z) | EV_SYN_REPORT.

(** The steps that register the uinput device. *)
Inductive uinput_step := UI_SET_BITS | UI_USER_DEV | UI_DEV_CREATE.

(** What the outside sees, oldest first. *)
Inductive fp_event :=
  | Vendor (f : ss_fn) (args : list vendor_arg)
  | Client (client : Z) (c : client_call)
  | Uinput (u : uinput_step)
  | Input (e : input_event).

(** The object, and around it: whether [sInstance] is set, the library's next answers
    and whether the next writes to the uinput node succeed. *)
Record BiometricsFingerprint := {
  ptrs : ss_fn -> fn_ptr;
  mClientCallback : option Z;
  mClientCallbackMutex : bool;
  mIsUdfps : bool;
  uinputFd : Z;
  sInstance : bool;
  answers : list vendor_answer;
  writes : list bool;
  log : list fp_event
}.

Inductive outcome (A : Type) :=
  | Done (a : A) (s : BiometricsFingerprint)
  | Crash
  | Deadlock.

Arguments Done {A}.
Arguments Crash {A}.
Arguments Deadlock {A}.

(** State with the two ways to stop. *)
Definition fpM (A : Type) : Type := BiometricsFingerprint -> outcome A.

#[export] Instance fpM_ret : MRet fpM := fun A a s => Done a s.
#[export] Instance fpM_bind : MBind fpM := fun A B f m s =>
  match m s with
  | Done a s => f a s
  | Crash => Crash
  | Deadlock => Deadlock
  end.

Definition modify (f : BiometricsFingerprint -> BiometricsFingerprint) : fpM unit :=
  fun s => Done tt (f s).

Definition with_ptrs (p : ss_fn -> fn_ptr) (s : BiometricsFingerprint) : BiometricsFingerprint :=
  {| ptrs := p; mClientCallback := mClientCallback s;
     mClientCallbackMutex := mClientCallbackMutex s; mIsUdfps := mIsUdfps s;
     uinputFd := uinputFd s; sInstance := sInstance s; answers := answers s; writes := writes s; log := log s |}.

Definition with_client (c : option Z) (s : BiometricsFingerprint) : BiometricsFingerprint :=
  {| ptrs := ptrs s; mClientCallback := c; mClientCallbackMutex := mClientCallbackMutex s;
     mIsUdfps := mIsUdfps s; uinputFd := uinputFd s; sInstance := sInstance s; answers := answers s; writes := writes s;
     log := log s |}.

Definition with_mutex (b : bool) (s : BiometricsFingerprint) : BiometricsFingerprint :=
  {| ptrs := ptrs s; mClientCallback := mClientCallback s; mClientCallbackMutex := b;
     mIsUdfps := mIsUdfps s; uinputFd := uinputFd s; sInstance := sInstance s; answers := answers s; writes := writes s;
     log := log s |}.

Definition with_device (udfps : bool) (fd : Z) (s : BiometricsFingerprint) : BiometricsFingerprint :=
  {| ptrs := ptrs s; mClientCallback := mClientCallback s;
     mClientCallbackMutex := mClientCallbackMutex s; mIsUdfps := udfps; uinputFd := fd;
     sInstance := sInstance s; answers := answers s; writes := writes s; log := log s |}.

Definition with_answers (l : list vendor_answer) (s : BiometricsFingerprint) :
    BiometricsFingerprint :=
  {| ptrs := ptrs s; mClientCallback := mClientCallback s;
     mClientCallbackMutex := mClientCallbackMutex s; mIsUdfps := mIsUdfps s;
     uinputFd := uinputFd s; sInstance := sInstance s; answers := l; writes := writes s; log := log s |}.

Definition with_writes (l : list bool) (s : BiometricsFingerprint) : BiometricsFingerprint :=
  {| ptrs := ptrs s; mClientCallback := mClientCallback s;
     mClientCallbackMutex := mClientCallbackMutex s; mIsUdfps := mIsUdfps s;
     uinputFd := uinputFd s; sInstance := sInstance s; answers := answers s; writes := l; log := log s |}.

Definition emit (e : fp_event) (s : BiometricsFingerprint) : BiometricsFingerprint :=
  {| ptrs := ptrs s; mClientCallback := mClientCallback s;
     mClientCallbackMutex := mClientCallbackMutex s; mIsUdfps := mIsUdfps s;
     uinputFd := uinputFd s; sInstance := sInstance s; answers := answers s; writes := writes s; log := log s ++ [e] |}.

Definition with_instance (b : bool) (s : BiometricsFingerprint) : BiometricsFingerprint :=
  {| ptrs := ptrs s; mClientCallback := mClientCallback s;
     mClientCallbackMutex := mClientCallbackMutex s; mIsUdfps := mIsUdfps s;
     uinputFd := uinputFd s; sInstance := b; answers := answers s; writes := writes s; log := log s |}.

(** A new object: only [mClientCallback] and the mutex are initialised. *)
Definition fresh_object (junk_udfps : bool) (junk_fd : Z) (s : BiometricsFingerprint) :
    BiometricsFingerprint :=
  {| ptrs := fun _ => Indeterminate; mClientCallback := None; mClientCallbackMutex := false;
     mIsUdfps := junk_udfps; uinputFd := junk_fd; sInstance := sInstance s; answers := answers s;
     writes := writes s; log := log s |}.

(** ** Translating codes *)

Definition ErrorFilter (error : Z) : RequestStatus :=
  if error =? 0 then SYS_OK
  else if error =? -2 then SYS_ENOENT
  else if error =? -4 then SYS_EINTR
  else if error =? -5 then SYS_EIO
  else if error =? -11 then SYS_EAGAIN
  else if error =? -12 then SYS_ENOMEM
  else if error =? -13 then SYS_EACCES
  else if error =? -14 then SYS_EFAULT
  else if error =? -16 then SYS_EBUSY
  else if error =? -22 then SYS_EINVAL
  else if error =? -28 then SYS_ENOSPC
  else if error =? -110 then SYS_ETIMEDOUT
  else SYS_UNKNOWN.

(** The case labels of the two switches. *)
Definition error_cases : list FingerprintError :=
  [ERROR_HW_UNAVAILABLE; ERROR_UNABLE_TO_PROCESS; ERROR_TIMEOUT; ERROR_NO_SPACE; ERROR_CANCELED;
   ERROR_UNABLE_TO_REMOVE; ERROR_LOCKOUT].

Definition acquired_cases : list FingerprintAcquiredInfo :=
  [ACQUIRED_GOOD; ACQUIRED_PARTIAL; ACQUIRED_INSUFFICIENT; ACQUIRED_IMAGER_DIRTY;
   ACQUIRED_TOO_SLOW; ACQUIRED_TOO_FAST].

Section fp.
Context (cfg : fp_config) (codes : fp_codes).

(** The result with [*vendorCode]. *)
Definition VendorErrorFilter (error : Z) : FingerprintError * Z :=
  match List.find (fun e => error_code codes e =? error) error_cases with
  | Some e => (e, 0)
  | None =>
      if error_code codes ERROR_VENDOR <=? error
      then (ERROR_VENDOR, error - error_code codes ERROR_VENDOR)
      else (ERROR_UNABLE_TO_PROCESS, 0)
  end.

Definition VendorAcquiredFilter (info : Z) : FingerprintAcquiredInfo * Z :=
  match List.find (fun e => acquired_code codes e =? info) acquired_cases with
  | Some e => (e, 0)
  | None =>
      if acquired_code codes ACQUIRED_VENDOR <=? info
      then (ACQUIRED_VENDOR, info - acquired_code codes ACQUIRED_VENDOR)
      else (ACQUIRED_INSUFFICIENT, 0)
  end.

(** ** Calls out *)

Definition uwrite (e : input_event) : fpM bool := fun s =>
  match writes s with
  | false :: rest => Done false (with_writes rest s)
  | l =>
      let s := with_writes (tail l) s in
      if uinputFd s <? 0 then Done false s else Done true (emit (Input e) s)
  end.

Definition handleEvent (eventCode : Z) : fpM unit :=
  if negb (HAS_FINGERPRINT_GESTURES cfg) then mret tt
  else if (eventCode =? SEM_FINGERPRINT_EVENT_GESTURE_SWIPE_DOWN) ||
          (eventCode =? SEM_FINGERPRINT_EVENT_GESTURE_SWIPE_UP) then
    let keycode := if eventCode =? SEM_FINGERPRINT_EVENT_GESTURE_SWIPE_UP then KEY_UP else KEY_DOWN in
    ok ← uwrite (EV_KEY keycode 1);
    if negb ok then mret tt
    else
      ok ← uwrite EV_SYN_REPORT;
      if negb ok then mret tt
      else
        ok ← uwrite (EV_KEY keycode 0);
        if negb ok then mret tt
        else _ ← uwrite EV_SYN_REPORT; mret tt
  else mret tt.

(** Runs [f] for each message the library delivers during a call. *)
Fixpoint deliver (on_message : fingerprint_msg -> fpM unit) (l : list fingerprint_msg) : fpM unit :=
  match l with
  | [] => mret tt
  | m :: l => _ ← on_message m; deliver on_message l
  end.

(** A call through a function pointer. *)
Definition vendor_call (on_message : fingerprint_msg -> fpM unit) (f : ss_fn)
    (args : list vendor_arg) : fpM Z := fun s =>
  if negb (bool_decide (ptrs s f = Symbol)) then Crash
  else
    let a := default (quiet 0) (head (answers s)) in
    let s := emit (Vendor f args) (with_answers (tail (answers s)) s) in
    (_ ← deliver on_message (messages a); mret (ret a)) s.

(** [notify] locks first; the thread that holds the mutex never gets past it. *)
Definition while_locked (m : fingerprint_msg) : fpM unit := fun s => Deadlock.

Definition devId : Z := 1.

(** The body of [notify] for the registered client, under the lock. *)
Definition notify_client (client : Z) (msg : fingerprint_msg) : fpM unit :=
  match msg with
  | FINGERPRINT_ERROR error =>
      let '(result, vendorCode) := VendorErrorFilter error in
      modify (emit (Client client (onError devId result vendorCode)))
  | FINGERPRINT_ACQUIRED info =>
      if SEM_FINGERPRINT_EVENT_BASE <? info then handleEvent info
      else
        let '(result, vendorCode) := VendorAcquiredFilter info in
        modify (emit (Client client (onAcquired devId result vendorCode)))
  | FINGERPRINT_TEMPLATE_ENROLLING fid gid samples =>
      let samples := if USES_PERCENTAGE_SAMPLES cfg then u32 (100 - samples) else samples in
      _ ← (if CALL_CANCEL_ON_ENROLL_COMPLETION cfg && (samples =? 0)
           then _ ← vendor_call while_locked ss_fingerprint_cancel []; mret tt
           else mret tt);
      modify (emit (Client client (onEnrollResult devId fid gid samples)))
  | FINGERPRINT_TEMPLATE_REMOVED fid gid remaining =>
      modify (emit (Client client (onRemoved devId fid gid remaining)))
  | FINGERPRINT_AUTHENTICATED fid gid hat =>
      modify (emit (Client client (onAuthenticated devId fid gid (if fid =? 0 then [] else hat))))
  | FINGERPRINT_TEMPLATE_ENUMERATING fid gid remaining =>
      modify (emit (Client client (onEnumerate devId fid gid remaining)))
  | FINGERPRINT_OTHER _ => mret tt
  end.

(** The object it locks is the one [getInstance] returns at once: whoever calls [notify]
    got it from the constructor, which had set [sInstance]. *)
Definition notify (msg : fingerprint_msg) : fpM unit := fun s =>
  if mClientCallbackMutex s then Deadlock
  else
    (_ ← modify (with_mutex true);
     _ ← (match mClientCallback s with
          | None => mret tt
          | Some client => notify_client client msg
          end);
     modify (with_mutex false)) s.

(** A call of the object to the library, which may deliver messages meanwhile. *)
Definition ss (f : ss_fn) (args : list vendor_arg) : fpM Z := vendor_call notify f args.

Definition request (cmd param : Z) : fpM Z := ss ss_fingerprint_request [Num cmd; Num param].

(** ** Construction *)

(** [lib] is what dlopen finds: the symbols of the library, if it is there. *)
Definition openHal (lib : option (ss_fn -> bool)) : fpM bool :=
  match lib with
  | None => mret false
  | Some has =>
      _ ← modify (with_ptrs (fun f => if has f then Symbol else Null));
      err ← ss ss_fingerprint_open [];
      if negb (err =? 0) then mret false
      else
        err ← ss ss_set_notify_callback [];
        if negb (err =? 0) then mret false else mret true
  end.

(** What the kernel answers while the uinput device is registered. *)
Record uinput_answers := {
  open_fd : Z;
  ioctl_bits : Z;
  write_dev : Z;
  ioctl_create : Z
}.

Definition register_uinput (u : uinput_answers) : fpM unit :=
  _ ← (fun s => Done tt (with_device (mIsUdfps s) (open_fd u) s));
  if open_fd u <? 0 then mret tt
  else
    _ ← modify (emit (Uinput UI_SET_BITS));
    if negb (ioctl_bits u =? 0) then mret tt
    else
      _ ← modify (emit (Uinput UI_USER_DEV));
      if write_dev u <? 0 then mret tt else modify (emit (Uinput UI_DEV_CREATE)).

Definition BiometricsFingerprint_new (lib : option (ss_fn -> bool)) (position_node : bool)
    (u : uinput_answers) : fpM unit :=
  _ ← modify (with_instance true);
  _ ← openHal lib;
  _ ← (fun s => Done tt (with_device position_node (uinputFd s) s));
  if HAS_FINGERPRINT_GESTURES cfg then
    _ ← request FINGERPRINT_REQUEST_NAVIGATION_MODE_START 1;
    register_uinput u
  else mret tt.

(** What a new object finds: the kernel's answers, and its uninitialised members. *)
Record construct_env := {
  ce_uinput : uinput_answers;
  ce_junk_udfps : bool;
  ce_junk_fd : Z
}.

Definition getInstance (lib : option (ss_fn -> bool)) (position_node : bool) (env : construct_env) :
    fpM unit := fun s =>
  if sInstance s then Done tt s
  else
    (_ ← BiometricsFingerprint_new lib position_node (ce_uinput env);
     modify (with_instance true)) (fresh_object (ce_junk_udfps env) (ce_junk_fd env) s).

(** The process before main. *)
Definition process_start (oracle : list vendor_answer) (ws : list bool) : BiometricsFingerprint :=
  {| ptrs := fun _ => Indeterminate; mClientCallback := None; mClientCallbackMutex := false;
     mIsUdfps := false; uinputFd := 0; sInstance := false; answers := oracle; writes := ws; log := [] |}.

Definition BiometricsFingerprint_delete : fpM unit := _ ← ss ss_fingerprint_close []; mret tt.

(** ** Binder calls *)

Definition isUdfps : fpM bool := fun s => Done (mIsUdfps s) s.

Definition onFingerDown : fpM unit := mret tt.

Definition onFingerUp : fpM unit := mret tt.

(** The result is the address of the object. *)
Definition setNotify (this : Z) (clientCallback : option Z) : fpM Z := fun s =>
  if mClientCallbackMutex s then Deadlock else Done this (with_client clientCallback s).

Definition preEnroll : fpM Z := r ← ss ss_fingerprint_pre_enroll []; mret (u64 r).

Definition enroll (hat : list Z) (gid timeoutSec : Z) : fpM RequestStatus :=
  _ ← (if REQUEST_FORCE_CALIBRATE cfg then _ ← request SEM_REQUEST_FORCE_CBGE 1; mret tt else mret tt);
  r ← ss ss_fingerprint_enroll [Token hat; Num gid; Num timeoutSec];
  mret (ErrorFilter r).

Definition postEnroll : fpM RequestStatus :=
  r ← ss ss_fingerprint_post_enroll []; mret (ErrorFilter r).

Definition getAuthenticatorId : fpM Z := r ← ss ss_fingerprint_get_auth_id []; mret (u64 r).

Definition cancel : fpM RequestStatus :=
  r ← ss ss_fingerprint_cancel [];
  _ ← (if CALL_NOTIFY_ON_CANCEL cfg && (r =? 0)
       then notify (FINGERPRINT_ERROR (error_code codes ERROR_CANCELED)) else mret tt);
  mret (ErrorFilter r).

Definition enumerate : fpM RequestStatus := fun s =>
  if bool_decide (ptrs s ss_fingerprint_enumerate = Null) then Done SYS_UNKNOWN s
  else (r ← ss ss_fingerprint_enumerate []; mret (ErrorFilter r)) s.

Definition remove (gid fid : Z) : fpM RequestStatus :=
  r ← ss ss_fingerprint_remove [Num gid; Num fid]; mret (ErrorFilter r).

(** [writable] answers access(storePath, W_OK). *)
Definition setActiveGroup (gid : Z) (storePath : string) (writable : bool) : fpM RequestStatus :=
  if (PATH_MAX <=? String.length storePath)%nat || (String.length storePath =? 0)%nat
  then mret SYS_EINVAL
  else if negb writable then mret SYS_EINVAL
  else r ← ss ss_fingerprint_set_active_group [Num gid; Path storePath]; mret (ErrorFilter r).

Definition authenticate (operationId gid : Z) : fpM RequestStatus :=
  r ← ss ss_fingerprint_authenticate [Num operationId; Num gid]; mret (ErrorFilter r).

(** The loop of [waitForSensor], times in milliseconds; [None] when [fuel] runs
    out.  Overflow of the [int64_t] count is undefined. *)
Fixpoint wait_loop (fuel : nat) (pollWait timeOut sensorStatus timeWaited : Z) : fpM (option Z) :=
  match fuel with
  | O => mret None
  | S fuel =>
      if sensorStatus =? SEM_SENSOR_STATUS_OK then mret (Some 0)
      else if (sensorStatus =? SEM_SENSOR_STATUS_CALIBRATION_ERROR) ||
              (sensorStatus =? SEM_SENSOR_STATUS_ERROR) then mret (Some (-1))
      else if timeOut <=? timeWaited then mret (Some (-2))
      else
        sensorStatus ← request FINGERPRINT_REQUEST_GET_SENSOR_STATUS 0;
        match ck64 (timeWaited + pollWait) with
        | None => fun _ => Crash
        | Some timeWaited => wait_loop fuel pollWait timeOut sensorStatus timeWaited
        end
  end.

Definition waitForSensor (fuel : nat) (pollWait timeOut : Z) : fpM (option Z) :=
  wait_loop fuel pollWait timeOut SEM_SENSOR_STATUS_WORKING 0.

(** ** Runs *)

Inductive fp_call :=
  | CSetNotify (this : Z) (client : option Z)
  | CPreEnroll
  | CEnroll (hat : list Z) (gid timeoutSec : Z)
  | CPostEnroll
  | CGetAuthenticatorId
  | CCancel
  | CEnumerate
  | CRemove (gid fid : Z)
  | CSetActiveGroup (gid : Z) (storePath : string) (writable : bool)
  | CAuthenticate (operationId gid : Z)
  | CIsUdfps
  | CFingerDown
  | CFingerUp
  | CMessage (m : fingerprint_msg).        (* from a thread of the library *)

Definition void {A} (m : fpM A) : fpM unit := _ ← m; mret tt.

Definition fp_exec (c : fp_call) : fpM unit :=
  match c with
  | CSetNotify this cl => void (setNotify this cl)
  | CPreEnroll => void preEnroll
  | CEnroll hat gid t => void (enroll hat gid t)
  | CPostEnroll => void postEnroll
  | CGetAuthenticatorId => void getAuthenticatorId
  | CCancel => void cancel
  | CEnumerate => void enumerate
  | CRemove gid fid => void (remove gid fid)
  | CSetActiveGroup gid p w => void (setActiveGroup gid p w)
  | CAuthenticate op gid => void (authenticate op gid)
  | CIsUdfps => void isUdfps
  | CFingerDown => onFingerDown
  | CFingerUp => onFingerUp
  | CMessage m => notify m
  end.

Fixpoint fp_run (cs : list fp_call) : fpM unit :=
  match cs with
  | [] => mret tt
  | c :: cs => _ ← fp_exec c; fp_run cs
  end.

(** main: the object is made; registered with hwservicemanager, it serves calls. *)
Definition serve (lib : option (ss_fn -> bool)) (position_node : bool) (env : construct_env)
    (registered : bool) (cs : list fp_call) : fpM unit :=
  _ ← getInstance lib position_node env;
  if negb registered then mret tt else fp_run cs.

End fp.

(** ** Specification *)

(** The entry points the library must have; enumerate is optional. *)
Definition library_complete (p : ss_fn -> fn_ptr) : Prop :=
  forall f, p f = Symbol \/ (f = ss_fingerprint_enumerate /\ p f = Null).

(** The object between calls ([locked] false) and inside [notify] ([locked] true),
    with the answers [l] still to come.  Where [notify] itself cancels, the library
    must not deliver messages from inside a call. *)
Record fp_inv (cfg : fp_config) (locked : bool) (l : list vendor_answer)
    (s : BiometricsFingerprint) : Prop := {
  inv_ptrs : library_complete (ptrs s);
  inv_mutex : mClientCallbackMutex s = locked;
  inv_answers : answers s = l;
  inv_quiet : CALL_CANCEL_ON_ENROLL_COMPLETION cfg = true -> Forall (fun a => messages a = []) l
}.

(** [m] returns from every state in [P], in a state of [Q]. *)
Definition runs {A} (P : BiometricsFingerprint -> Prop) (m : fpM A)
    (Q : A -> BiometricsFingerprint -> Prop) : Prop :=
  forall s, P s -> exists a s', m s = Done a s' /\ Q a s'.

(** The calls the clients got. *)
Definition client_calls (l : list fp_event) : list (Z * client_call) :=
  omap (fun e => match e with Client c x => Some (c, x) | _ => None end) l.

(** What a client can tell of the message behind a call. *)
Definition decode (cfg : fp_config) (codes : fp_codes) (c : client_call) : fingerprint_msg :=
  match c with
  | onError _ ERROR_VENDOR v => FINGERPRINT_ERROR (error_code codes ERROR_VENDOR + v)
  | onError _ e _ => FINGERPRINT_ERROR (error_code codes e)
  | onAcquired _ ACQUIRED_VENDOR v => FINGERPRINT_ACQUIRED (acquired_code codes ACQUIRED_VENDOR + v)
  | onAcquired _ i _ => FINGERPRINT_ACQUIRED (acquired_code codes i)
  | onEnrollResult _ fid gid n =>
      FINGERPRINT_TEMPLATE_ENROLLING fid gid
        (if USES_PERCENTAGE_SAMPLES cfg then u32 (100 - n) else n)
  | onRemoved _ fid gid n => FINGERPRINT_TEMPLATE_REMOVED fid gid n
  | onAuthenticated _ fid gid hat => FINGERPRINT_AUTHENTICATED fid gid hat
  | onEnumerate _ fid gid n => FINGERPRINT_TEMPLATE_ENUMERATING fid gid n
  end.

(** What of a message the interface passes on: all of it but the token that comes with
    an unrecognised finger. *)
Definition recoverable (m : fingerprint_msg) : fingerprint_msg :=
  match m with
  | FINGERPRINT_AUTHENTICATED fid gid hat =>
      FINGERPRINT_AUTHENTICATED fid gid (if fid =? 0 then [] else hat)
  | m => m
  end.

(** Messages with codes of the header, other than events. *)
Definition known_message (codes : fp_codes) (m : fingerprint_msg) : Prop :=
  match m with
  | FINGERPRINT_ERROR e =>
      e ∈ map (error_code codes) error_cases \/ error_code codes ERROR_VENDOR <= e
  | FINGERPRINT_ACQUIRED i =>
      i <= SEM_FINGERPRINT_EVENT_BASE /\
      (i ∈ map (acquired_code codes) acquired_cases \/ acquired_code codes ACQUIRED_VENDOR <= i)
  | FINGERPRINT_TEMPLATE_ENROLLING _ _ n => 0 <= n < 2 ^ 32
  | FINGERPRINT_OTHER _ => False
  | _ => True
  end.

(** The verdict on a sequence of sensor statuses: the first decisive one. *)
Fixpoint sensor_verdict (statuses : list Z) : Z :=
  match statuses with
  | [] => -2
  | st :: statuses =>
      if st =? SEM_SENSOR_STATUS_OK then 0
      else if (st =? SEM_SENSOR_STATUS_CALIBRATION_ERROR) || (st =? SEM_SENSOR_STATUS_ERROR)
      then -1 else sensor_verdict statuses
  end.

(** The next [n] results of the library, 0 where the oracle has run out. *)
Fixpoint next_results (n : nat) (l : list vendor_answer) : list Z :=
  match n with
  | O => []
  | S n => ret (default (quiet 0) (head l)) :: next_results n (tail l)
  end.

(** ** Lemmas *)

Section runs.
Context {A B : Type}.

Lemma runs_ret (P : BiometricsFingerprint -> Prop) (a : A) : runs P (mret a) (fun _ s => P s).
Proof. intros s Hs. by exists a, s. Qed.

Lemma runs_bind P (Q : A -> BiometricsFingerprint -> Prop) (R : B -> BiometricsFingerprint -> Prop)
    (m : fpM A) (f : A -> fpM B) :
  runs P m Q -> (forall a, runs (Q a) (f a) R) -> runs P (mbind f m) R.
Proof.
  intros Hm Hf s Hs. destruct (Hm s Hs) as (a & s1 & E & H1).
  destruct (Hf a s1 H1) as (b & s2 & E2 & H2). exists b, s2.
  unfold mbind, fpM_bind. by rewrite E.
Qed.

Lemma runs_weaken P P' (Q Q' : A -> BiometricsFingerprint -> Prop) (m : fpM A) :
  runs P m Q -> (forall s, P' s -> P s) -> (forall a s, Q a s -> Q' a s) -> runs P' m Q'.
Proof. intros H HP HQ s Hs. destruct (H s (HP s Hs)) as (a & s' & ? & ?). eauto 10. Qed.

End runs.

Lemma runs_modify P (f : BiometricsFingerprint -> BiometricsFingerprint)
    (Q : unit -> BiometricsFingerprint -> Prop) :
  (forall s, P s -> Q tt (f s)) -> runs P (modify f) Q.
Proof. intros H s Hs. exists tt, (f s). auto. Qed.

Create HintDb fp.
#[export] Hint Resolve runs_ret : fp.

Section inv.
Context (cfg : fp_config) (codes : fp_codes).

Lemma inv_emit b l e s : fp_inv cfg b l s -> fp_inv cfg b l (emit e s).
Proof. intros []. by split. Qed.

Lemma runs_emit b l e : runs (fp_inv cfg b l) (modify (emit e)) (fun _ => fp_inv cfg b l).
Proof. apply runs_modify. intros s. apply inv_emit. Qed.

Lemma runs_uwrite b l e : runs (fp_inv cfg b l) (uwrite e) (fun _ => fp_inv cfg b l).
Proof.
  intros s []. unfold uwrite. repeat case_match; eexists _, _; (split; [done|by split]).
Qed.

Lemma runs_handleEvent b l code :
  runs (fp_inv cfg b l) (handleEvent cfg code) (fun _ => fp_inv cfg b l).
Proof.
  unfold handleEvent. destruct (negb _); [apply runs_ret|]. destruct (_ || _); [|apply runs_ret].
  repeat first [apply runs_ret | eapply runs_bind; [apply runs_uwrite|intros []; cbn [negb]]].
Qed.

Lemma runs_deliver P f msgs :
  (forall m, m ∈ msgs -> runs P (f m) (fun _ => P)) -> runs P (deliver f msgs) (fun _ => P).
Proof.
  induction msgs as [|m msgs IH]; intros Hf; simpl; [apply runs_ret|].
  eapply runs_bind; [apply Hf; left|]. intros ?. apply IH. intros m' Hm'. apply Hf. by right.
Qed.

(** A call consumes one answer. *)
Lemma runs_vendor_call b l f args h :
  f <> ss_fingerprint_enumerate ->
  (forall m, m ∈ messages (default (quiet 0) (head l)) ->
     runs (fp_inv cfg b (tail l)) (h m) (fun _ => fp_inv cfg b (tail l))) ->
  runs (fp_inv cfg b l) (vendor_call h f args)
    (fun r s => r = ret (default (quiet 0) (head l)) /\ fp_inv cfg b (tail l) s).
Proof.
  intros Hf Hh s [Hp Hm Ha Hq]. unfold vendor_call.
  rewrite bool_decide_true by (destruct (Hp f) as [|[]]; done). simpl. rewrite Ha.
  refine (runs_bind (fp_inv cfg b (tail l)) (fun _ => fp_inv cfg b (tail l)) _ _ _ _ _ _ _).
  - apply runs_deliver. exact Hh.
  - intros _ s1 H1. eexists _, _. split; [done|]. by split.
  - split; try done. intros E. specialize (Hq E). simpl. destruct l; [done|]. by inversion Hq.
Qed.

(** Inside [notify] only an enrolling message with the cancel flag calls out. *)
Definition after_notify (l l' : list vendor_answer) : Prop :=
  l' = l \/ (CALL_CANCEL_ON_ENROLL_COMPLETION cfg = true /\ l' = tail l).

Lemma runs_notify_client l client msg :
  runs (fp_inv cfg true l) (notify_client cfg codes client msg)
    (fun _ s => exists l', after_notify l l' /\ fp_inv cfg true l' s).
Proof.
  assert (forall e, runs (fp_inv cfg true l) (modify (emit e))
            (fun _ s => exists l', after_notify l l' /\ fp_inv cfg true l' s)) as Hemit.
  { intros e. eapply runs_weaken; [apply runs_emit|done|]. intros ? s Hs. exists l. by split; [left|]. }
  destruct msg; simpl; try apply Hemit.
  - destruct (VendorErrorFilter _ _). apply Hemit.
  - case_match; [|destruct (VendorAcquiredFilter _ _); apply Hemit].
    eapply runs_weaken; [apply runs_handleEvent|done|]. intros ? s Hs. exists l. by split; [left|].
  - set (n := if USES_PERCENTAGE_SAMPLES cfg then _ else _).
    destruct (CALL_CANCEL_ON_ENROLL_COMPLETION cfg && (n =? 0)) eqn:E; [|by eapply runs_bind; [apply runs_ret|intros ?; apply Hemit]].
    apply andb_prop in E as [E _].
    apply (runs_bind _ (fun _ => fp_inv cfg true (tail l))).
    + intros s Hs. eapply (runs_bind _ _ _ _ _); [apply runs_vendor_call; [done|]| |exact Hs].
      * intros m Hm. destruct Hs as [_ _ _ Hq]. specialize (Hq E). destruct l; [by apply elem_of_nil in Hm|].
        inversion Hq as [|? ? Hn]. simpl in Hm. rewrite Hn in Hm. by apply elem_of_nil in Hm.
      * intros a s' [_ H']. by exists tt, s'.
    + intros _. apply runs_modify. intros s Hs. exists (tail l).
      split; [by right|]. by apply inv_emit.
  - intros s Hs. exists tt, s. split; [done|]. exists l. by split; [left|].
Qed.

Lemma runs_notify l msg :
  runs (fp_inv cfg false l) (notify cfg codes msg)
    (fun _ s => exists l', after_notify l l' /\ fp_inv cfg false l' s).
Proof.
  intros s [Hp Hm Ha Hq]. unfold notify. rewrite Hm.
  assert (fp_inv cfg true l (with_mutex true s)) as Hs by (by split).
  destruct (mClientCallback s) as [client|] eqn:Hc.
  - destruct (runs_notify_client l client msg _ Hs) as ([] & s1 & E & l' & Hl & []).
    exists tt, (with_mutex false s1). unfold mbind, fpM_bind, modify. rewrite E.
    split; [done|]. exists l'. by split.
  - exists tt, (with_mutex false (with_mutex true s)). split; [done|].
    exists l. split; [by left|]. by split.
Qed.

(** A message delivered from inside a call consumes no answers. *)
Lemma runs_notify_nested l m msgs :
  (CALL_CANCEL_ON_ENROLL_COMPLETION cfg = true -> msgs = []) -> m ∈ msgs ->
  runs (fp_inv cfg false l) (notify cfg codes m) (fun _ => fp_inv cfg false l).
Proof.
  intros Hq Hm. eapply runs_weaken; [apply runs_notify|done|].
  intros ? s (l' & [->|[E _]] & Hs); [done|]. rewrite Hq in Hm by done. by apply elem_of_nil in Hm.
Qed.

Lemma head_quiet l :
  Forall (fun a => messages a = []) l -> messages (default (quiet 0) (head l)) = [].
Proof. by destruct 1. Qed.

Lemma runs_ss l f args :
  f <> ss_fingerprint_enumerate ->
  runs (fp_inv cfg false l) (ss cfg codes f args)
    (fun r s => r = ret (default (quiet 0) (head l)) /\ fp_inv cfg false (tail l) s).
Proof.
  intros Hf s Hs. apply runs_vendor_call; [done| |done]. intros m Hm.
  eapply runs_notify_nested; [|exact Hm]. intros E. apply head_quiet, (inv_quiet _ _ _ _ Hs E).
Qed.





End inv.

Section calls.
Context (cfg : fp_config) (codes : fp_codes).





(** *** Construction *)







End calls.

(** *** The instance *)

(** [m] leaves [sInstance] as it is. *)
Definition keeps_instance {A} (m : fpM A) : Prop :=
  forall s a s', m s = Done a s' -> sInstance s' = sInstance s.

Section instance.
Context (cfg : fp_config) (codes : fp_codes).

Lemma keeps_ret {A} (a : A) : keeps_instance (mret a).
Proof. by intros s b s' [= _ <-]. Qed.

Lemma keeps_bind {A B} (m : fpM A) (f : A -> fpM B) :
  keeps_instance m -> (forall a, keeps_instance (f a)) -> keeps_instance (mbind f m).
Proof.
  intros Hm Hf s b s'. unfold mbind, fpM_bind. destruct (m s) as [a s1| |] eqn:E; [|done..].
  intros E2. rewrite (Hf _ _ _ _ E2). by apply (Hm _ _ _ E).
Qed.

Lemma keeps_modify f : (forall s, sInstance (f s) = sInstance s) -> keeps_instance (modify f).
Proof. intros H s a s' [= _ <-]. apply H. Qed.

(** Goes through a monadic definition. *)
Ltac keeps :=
  repeat first
    [ apply keeps_ret | by apply keeps_modify
    | apply keeps_bind; [|intros ?] | case_match ].

Lemma keeps_uwrite e : keeps_instance (uwrite e).
Proof. intros s a s' E. unfold uwrite in E. repeat case_match; by simplify_eq/=. Qed.

Lemma keeps_deliver h l : (forall m, keeps_instance (h m)) -> keeps_instance (deliver h l).
Proof. intros Hh. induction l; simpl; [apply keeps_ret|by apply keeps_bind]. Qed.

Lemma keeps_vendor_call h f args :
  (forall m, keeps_instance (h m)) -> keeps_instance (vendor_call h f args).
Proof.
  intros Hh s a s'. unfold vendor_call. destruct (negb _); [done|]. intros E.
  by apply (keeps_bind _ _ (keeps_deliver h _ Hh) (fun _ => keeps_ret _)) in E.
Qed.

Lemma keeps_notify m : keeps_instance (notify cfg codes m).
Proof.
  intros s a s'. unfold notify. destruct (mClientCallbackMutex s); [done|].
  destruct (mClientCallback s) as [c|]; revert s a s';
    (apply keeps_bind; [by apply keeps_modify|intros ?]);
    (apply keeps_bind; [|intros ?; by apply keeps_modify]); [|apply keeps_ret].
  unfold notify_client, handleEvent. keeps; try apply keeps_uwrite.
  all: by apply keeps_vendor_call.
Qed.

Lemma keeps_ss f args : keeps_instance (ss cfg codes f args).
Proof. apply keeps_vendor_call, keeps_notify. Qed.



(** From its first statement on, the constructor runs with [sInstance] set. *)
Lemma constructed_instance lib pos u s s' :
  BiometricsFingerprint_new cfg codes lib pos u s = Done tt s' -> sInstance s' = true.
Proof.
  unfold BiometricsFingerprint_new. unfold mbind at 1, fpM_bind at 1. simpl. intros E.
  change true with (sInstance (with_instance true s)). revert E.
  match goal with |- ?m (with_instance true s) = _ -> _ => enough (keeps_instance m) as Hk; [apply Hk|] end.
  assert (forall f g, keeps_instance (fun s => Done tt (with_device (f s) (g s) s))) as Hd.
  { by intros f g s1 a s2 [= _ <-]. }
  unfold openHal, request, register_uinput. keeps; first [apply keeps_ss|apply Hd|apply (Hd mIsUdfps (fun _ => _))|apply (Hd (fun _ => _))].
Qed.


End instance.

(** *** Messages *)

Lemma error_roundtrip codes e :
  e ∈ map (error_code codes) error_cases \/ error_code codes ERROR_VENDOR <= e ->
  let '(r, v) := VendorErrorFilter codes e in
  forall cfg d, decode cfg codes (onError d r v) = FINGERPRINT_ERROR e.
Proof.
  intros Hk. unfold VendorErrorFilter.
  destruct (List.find _ _) as [r|] eqn:Hf.
  - apply find_some in Hf as [Hin He]. apply Z.eqb_eq in He. intros cfg d.
    destruct r; simpl; (by f_equal) || (by simpl in Hin; naive_solver).
  - destruct Hk as [Hk|Hk].
    + apply list_elem_of_fmap in Hk as (r & -> & Hin).
      apply list_elem_of_In in Hin. pose proof (find_none _ _ Hf _ Hin) as Hn. simpl in Hn. lia.
    + rewrite (proj2 (Z.leb_le _ _)) by done. intros cfg d. simpl. f_equal. lia.
Qed.

Lemma acquired_roundtrip codes i :
  i ∈ map (acquired_code codes) acquired_cases \/ acquired_code codes ACQUIRED_VENDOR <= i ->
  let '(r, v) := VendorAcquiredFilter codes i in
  forall cfg d, decode cfg codes (onAcquired d r v) = FINGERPRINT_ACQUIRED i.
Proof.
  intros Hk. unfold VendorAcquiredFilter.
  destruct (List.find _ _) as [r|] eqn:Hf.
  - apply find_some in Hf as [Hin He]. apply Z.eqb_eq in He. intros cfg d.
    destruct r; simpl; (by f_equal) || (by simpl in Hin; naive_solver).
  - destruct Hk as [Hk|Hk].
    + apply list_elem_of_fmap in Hk as (r & -> & Hin).
      apply list_elem_of_In in Hin. pose proof (find_none _ _ Hf _ Hin) as Hn. simpl in Hn. lia.
    + rewrite (proj2 (Z.leb_le _ _)) by done. intros cfg d. simpl. f_equal. lia.
Qed.

Lemma client_calls_emit l c x : client_calls (l ++ [Client c x]) = client_calls l ++ [(c, x)].
Proof. unfold client_calls. by rewrite omap_app. Qed.

(** A call during which the library delivers nothing. *)
Lemma vendor_call_quiet h f args s :
  ptrs s f = Symbol -> messages (default (quiet 0) (head (answers s))) = [] ->
  vendor_call h f args s =
    Done (ret (default (quiet 0) (head (answers s))))
      (emit (Vendor f args) (with_answers (tail (answers s)) s)).
Proof.
  intros Hp Hm. unfold vendor_call. rewrite bool_decide_true by done. simpl. by rewrite Hm.
Qed.

Lemma percentage_involutive n : 0 <= n < 2 ^ 32 -> u32 (100 - u32 (100 - n)) = n.
Proof. intros Hn. clia. Qed.

(** Under the lock, a known message reaches the client in a form it can decode. *)
Lemma notify_client_decodes cfg codes l c m s :
  fp_inv cfg true l s -> known_message codes m ->
  exists s' x, notify_client cfg codes c m s = Done tt s' /\
    client_calls (log s') = client_calls (log s) ++ [(c, x)] /\ decode cfg codes x = recoverable m.
Proof.
  intros [Hp Hmu Ha Hq] Hk. destruct m; simpl in Hk |- *.
  - pose proof (error_roundtrip codes error Hk) as Hr.
    destruct (VendorErrorFilter codes error) as [r v].
    eexists _, _. split; [done|]. split; [apply client_calls_emit|apply Hr].
  - destruct Hk as [Hb Hk]. rewrite (proj2 (Z.ltb_ge _ _)) by done.
    pose proof (acquired_roundtrip codes acquired_info Hk) as Hr.
    destruct (VendorAcquiredFilter codes acquired_info) as [r v].
    eexists _, _. split; [done|]. split; [apply client_calls_emit|apply Hr].
  - set (n := if USES_PERCENTAGE_SAMPLES cfg then u32 (100 - samples_remaining) else samples_remaining).
    assert (decode cfg codes (onEnrollResult devId fid gid n) =
            FINGERPRINT_TEMPLATE_ENROLLING fid gid samples_remaining) as Hd.
    { simpl. f_equal. subst n. destruct (USES_PERCENTAGE_SAMPLES cfg); [|done].
      by apply percentage_involutive. }
    destruct (CALL_CANCEL_ON_ENROLL_COMPLETION cfg && (n =? 0)) eqn:E.
    + apply andb_prop in E as [E _]. eexists _, _. unfold mbind at 1, fpM_bind at 1.
      unfold mbind at 1, fpM_bind at 1. rewrite vendor_call_quiet;
        [|by destruct (Hp ss_fingerprint_cancel) as [|[]]|by rewrite Ha; apply head_quiet, Hq].
      split; [done|]. split; [|exact Hd]. simpl. rewrite client_calls_emit. f_equal.
      unfold client_calls. rewrite omap_app. simpl. by rewrite app_nil_r.
    + eexists _, _. split; [done|]. split; [apply client_calls_emit|exact Hd].
  - eexists _, _. split; [done|]. split; [apply client_calls_emit|done].
  - eexists _, _. split; [done|]. split; [apply client_calls_emit|done].
  - eexists _, _. split; [done|]. split; [apply client_calls_emit|done].
  - done.
Qed.

(** *** Waiting for the sensor *)

Lemma wait_loop_spec cfg codes pollWait timeOut : 0 < pollWait -> timeOut + pollWait < 2 ^ 63 ->
  forall k fuel l st waited,
  0 <= waited -> (waited < timeOut \/ k = 0%nat) -> (k < fuel)%nat ->
  timeOut <= waited + Z.of_nat k * pollWait ->
  (k <> 0%nat -> waited + (Z.of_nat k - 1) * pollWait < timeOut) ->
  runs (fp_inv cfg false l) (wait_loop cfg codes fuel pollWait timeOut st waited)
    (fun r s => r = Some (sensor_verdict (st :: next_results k l)) /\
                exists j, (j <= k)%nat /\ fp_inv cfg false (drop j l) s).
Proof.
  intros Hp Hov k. induction k as [|k IH]; intros [|fuel] l st waited H0 Hw Hf Hle Hlt; try lia;
    cbn [wait_loop sensor_verdict next_results].
  all: destruct (st =? _); [intros s Hs; eexists _, s; split; [done|]; split; [done|];
         exists 0%nat; split; [lia|done]|].
  all: destruct (_ || _); [intros s Hs; eexists _, s; split; [done|]; split; [done|];
         exists 0%nat; split; [lia|done]|].
  - rewrite (proj2 (Z.leb_le _ _)) by lia. intros s Hs. eexists _, s. split; [done|]. split; [done|].
    exists 0%nat. split; [lia|done].
  - specialize (Hlt ltac:(lia)). rewrite (proj2 (Z.leb_gt _ _)) by nia.
    eapply runs_bind; [by apply runs_ss|]. intros r s [-> Hs].
    rewrite ck_s_in by (change (64 - 1) with 63; nia).
    destruct (IH fuel (tail l) (ret (default (quiet 0) (head l))) (waited + pollWait)) with s
      as (v & s' & E & -> & j & Hj & Hinv); [lia|nia|lia|nia|nia|exact Hs|].
    eexists _, s'. split; [exact E|]. split; [done|]. exists (S j). split; [lia|].
    destruct l; simpl in Hinv |- *; [by rewrite drop_nil in Hinv|done].
Qed.

(** Before a client is registered messages are dropped. *)
Lemma notify_unregistered cfg codes m s :
  mClientCallback s = None -> mClientCallbackMutex s = false -> notify cfg codes m s = Done tt s.
Proof. intros Hc Hm. unfold notify. rewrite Hm, Hc. destruct s; simpl in *. by subst. Qed.

Lemma deliver_unregistered cfg codes l s :
  mClientCallback s = None -> mClientCallbackMutex s = false ->
  deliver (notify cfg codes) l s = Done tt s.
Proof.
  intros Hc Hm. induction l as [|m l IH]; [done|]. simpl. unfold mbind, fpM_bind.
  by rewrite notify_unregistered.
Qed.

Lemma ss_unregistered cfg codes f args s :
  mClientCallback s = None -> mClientCallbackMutex s = false ->
  ss cfg codes f args s =
    if decide (ptrs s f = Symbol)
    then Done (ret (default (quiet 0) (head (answers s))))
           (emit (Vendor f args) (with_answers (tail (answers s)) s))
    else Crash.
Proof.
  intros Hc Hm. unfold ss, vendor_call. destruct (decide _) as [Hp|Hp].
  - rewrite bool_decide_true by done. cbn [negb]. unfold mbind, fpM_bind.
    by rewrite deliver_unregistered.
  - by rewrite bool_decide_false.
Qed.

(** Closes the cases in which construction crashed. *)
Ltac no_object :=
  split; [intros [? ?]; done
         |intros (? & [= <-] & ? & ? & Hx); try (rewrite Hx in * by lia); congruence].

(** Registering the input device always returns. *)
Lemma register_uinput_done u s : exists s', register_uinput u s = Done tt s'.
Proof.
  unfold register_uinput, mbind, fpM_bind, modify. repeat (case_match; simplify_eq/=; eauto).
Qed.

(** ** Theorems *)


(** C29: A registered client gets exactly one call for every known message of the
    library (events excluded), and can recover the message from it: the error and
    acquired codes, vendor codes included, pass the two filters without loss, and the
    percentage conversion is reversible; the token of an authenticated finger comes
    through whole, that of an unrecognised one (fid 0) is withheld. *)
Theorem message_roundtrip cfg codes l c m s :
  fp_inv cfg false l s -> mClientCallback s = Some c -> known_message codes m ->
  exists s' x, notify cfg codes m s = Done tt s' /\ mClientCallbackMutex s' = false /\
    client_calls (log s') = client_calls (log s) ++ [(c, x)] /\ decode cfg codes x = recoverable m.
Proof.
  intros Hs Hc Hk. assert (fp_inv cfg true l (with_mutex true s)) as Ht by (destruct Hs; by split).
  destruct (notify_client_decodes cfg codes l c m _ Ht Hk) as (s1 & x & E & Hl & Hd).
  exists (with_mutex false s1), x. split_and!; [|done|done|done].
  unfold notify. rewrite (inv_mutex _ _ _ _ Hs), Hc. unfold mbind, fpM_bind, modify. by rewrite E.
Qed.

(** C30: [waitForSensor] returns after at most timeOut / pollWait (rounded up)
    requests: with the verdict of the first status that says ok or broken, or with -2
    when none of them does. *)
Theorem waitForSensor_terminates cfg codes pollWait timeOut l s :
  0 < pollWait -> 0 <= timeOut -> timeOut + pollWait < 2 ^ 63 -> fp_inv cfg false l s ->
  let k := Z.to_nat ((timeOut + pollWait - 1) / pollWait) in
  exists s' j, (j <= k)%nat /\ fp_inv cfg false (drop j l) s' /\
    waitForSensor cfg codes (S k) pollWait timeOut s =
      Done (Some (sensor_verdict (next_results k l))) s'.
Proof.
  intros Hp Ht Hov Hs k.
  pose proof (Z.div_mod (timeOut + pollWait - 1) pollWait ltac:(lia)) as Hdm.
  pose proof (Z.mod_pos_bound (timeOut + pollWait - 1) pollWait ltac:(lia)).
  set (q := (timeOut + pollWait - 1) / pollWait) in *.
  assert (timeOut <= q * pollWait < timeOut + pollWait) as Hq by nia.
  assert (0 <= q) by nia.
  destruct (wait_loop_spec cfg codes pollWait timeOut Hp Hov k (S k) l SEM_SENSOR_STATUS_WORKING 0)
    with s as (r & s' & E & -> & j & Hj & Hinv); [lia|nia|lia|nia|nia|exact Hs|].
  exists s', j. split_and!; [done|done|exact E].
Qed.

(** The constructor goes on after a failed openHal: with gestures built in it
    returns exactly if the library is there with its open and request entry points
    (and, when open succeeded, the callback registration); otherwise it calls through a
    null or indeterminate pointer and the service crashes at start. *)
Lemma construction_needs_library cfg codes lib pos u junk fd l ws :
  HAS_FINGERPRINT_GESTURES cfg = true ->
  (exists s, BiometricsFingerprint_new cfg codes lib pos u (fresh_object junk fd (process_start l ws)) = Done tt s) <->
  exists has, lib = Some has /\ has ss_fingerprint_open = true /\ has ss_fingerprint_request = true /\
    (ret (default (quiet 0) (head l)) = 0 -> has ss_set_notify_callback = true).
Proof.
  intros Hg. unfold BiometricsFingerprint_new. rewrite Hg. unfold mbind, fpM_bind. simpl.
  destruct lib as [has|]; simpl.
  2:{ split; [intros [s ?]; done|]. intros (has & ? & _). done. }
  unfold mbind, fpM_bind, modify, request. rewrite ss_unregistered by done. simpl.
  destruct (has ss_fingerprint_open) eqn:Ho; simpl; [|no_object].
  destruct (ret _ =? 0) eqn:Hr; simpl.
  - rewrite ss_unregistered by done. simpl.
    destruct (has ss_set_notify_callback) eqn:Hn; simpl; [|no_object].
    destruct (negb _); unfold mret, fpM_ret; rewrite ss_unregistered by done; simpl;
      (destruct (has ss_fingerprint_request) eqn:Hrq; simpl; [|no_object]);
      (split; [intros _; by exists has|intros _; apply register_uinput_done]).
  - rewrite ss_unregistered by done. simpl.
    destruct (has ss_fingerprint_request) eqn:Hrq; simpl; [|no_object].
    split; [intros _; exists has; split_and!; [done..|lia]|intros _; apply register_uinput_done].
Qed.

(** Where the build cancels from inside [notify], a library that reports the cancel
    before [ss_fingerprint_cancel] returns blocks the thread for good. *)
Lemma cancel_in_notify_deadlocks cfg codes c fid gid m ms z l s :
  CALL_CANCEL_ON_ENROLL_COMPLETION cfg = true -> USES_PERCENTAGE_SAMPLES cfg = false ->
  mClientCallback s = Some c -> mClientCallbackMutex s = false ->
  ptrs s ss_fingerprint_cancel = Symbol -> answers s = {| ret := z; messages := m :: ms |} :: l ->
  notify cfg codes (FINGERPRINT_TEMPLATE_ENROLLING fid gid 0) s = Deadlock.
Proof.
  intros Hcc Hpc Hc Hm Hp Ha. unfold notify. rewrite Hm, Hc. unfold mbind, fpM_bind, modify, notify_client.
  rewrite Hcc, Hpc. simpl. unfold mbind, fpM_bind, vendor_call. cbn [ptrs with_mutex answers].
  rewrite bool_decide_true, Ha by done. done.
Qed.

(** ** Witnesses *)

(** The flags of this device and the codes of the platform header. *)
Definition device_config : fp_config :=
  {| HAS_FINGERPRINT_GESTURES := true; REQUEST_FORCE_CALIBRATE := false;
     CALL_NOTIFY_ON_CANCEL := false; USES_PERCENTAGE_SAMPLES := false;
     CALL_CANCEL_ON_ENROLL_COMPLETION := false |}.

Definition platform_codes : fp_codes :=
  {| error_code e :=
       match e with
       | ERROR_HW_UNAVAILABLE => 1 | ERROR_UNABLE_TO_PROCESS => 2 | ERROR_TIMEOUT => 3
       | ERROR_NO_SPACE => 4 | ERROR_CANCELED => 5 | ERROR_UNABLE_TO_REMOVE => 6
       | ERROR_LOCKOUT => 7 | ERROR_VENDOR => 1000
       end;
     acquired_code i :=
       match i with
       | ACQUIRED_GOOD => 0 | ACQUIRED_PARTIAL => 1 | ACQUIRED_INSUFFICIENT => 2
       | ACQUIRED_IMAGER_DIRTY => 3 | ACQUIRED_TOO_SLOW => 4 | ACQUIRED_TOO_FAST => 5
       | ACQUIRED_VENDOR => 1000
       end |}.

Definition demo_uinput : uinput_answers :=
  {| open_fd := 7; ioctl_bits := 0; write_dev := 1116; ioctl_create := 0 |}.

Definition demo_env : construct_env :=
  {| ce_uinput := demo_uinput; ce_junk_udfps := false; ce_junk_fd := 0 |}.

(** The library reports a swipe and an error from inside the third call. *)
Definition demo_answers : list vendor_answer :=
  [quiet 0; quiet 0; quiet 0;
   {| ret := 0; messages := [FINGERPRINT_ACQUIRED 20001; FINGERPRINT_ERROR 1004] |}].

Definition demo_calls : list fp_call :=
  [CSetNotify 77 (Some 5); CAuthenticate 1 0; CMessage (FINGERPRINT_AUTHENTICATED 3 0 [1; 2]); CCancel].


(** What that run shows to the outside: the key press of the swipe, then the calls. *)
Example demo_log :
  match serve device_config platform_codes (Some (fun _ => true)) false demo_env true demo_calls
          (process_start demo_answers []) with
  | Done _ s => drop 7 (log s) =
      [Input (EV_KEY KEY_UP 1); Input EV_SYN_REPORT; Input (EV_KEY KEY_UP 0); Input EV_SYN_REPORT;
       Client 5 (onError 1 ERROR_VENDOR 4); Client 5 (onAuthenticated 1 3 0 [1; 2]);
       Vendor ss_fingerprint_cancel []]
  | _ => False
  end.
Proof. vm_compute. reflexivity. Qed.

Definition demo_object : BiometricsFingerprint :=
  with_client (Some 5) (with_ptrs (fun _ => Symbol) (fresh_object false 7 (process_start [] []))).

Lemma demo_object_inv l : fp_inv device_config false l (with_answers l demo_object).
Proof. split; [by left|done|done|discriminate]. Defined.

Lemma message_roundtrip_witness :
  exists s' x, notify device_config platform_codes (FINGERPRINT_AUTHENTICATED 0 0 (repeat 7 69)) demo_object
                 = Done tt s' /\
    mClientCallbackMutex s' = false /\
    client_calls (log s') = [] ++ [(5, x)] /\
    decode device_config platform_codes x = FINGERPRINT_AUTHENTICATED 0 0 [].
Proof.
  apply (message_roundtrip device_config platform_codes [] 5
    (FINGERPRINT_AUTHENTICATED 0 0 (repeat 7 69)) demo_object);
    [exact (demo_object_inv [])|done|exact I].
Defined.

Lemma waitForSensor_terminates_witness :
  exists s' j, (j <= 20)%nat /\
    fp_inv device_config false (drop j [quiet 100041; quiet 100040]) s' /\
    waitForSensor device_config platform_codes 21 50 1000
      (with_answers [quiet 100041; quiet 100040] demo_object) = Done (Some 0) s'.
Proof.
  apply (waitForSensor_terminates device_config platform_codes 50 1000
    [quiet 100041; quiet 100040] (with_answers [quiet 100041; quiet 100040] demo_object));
    [lia|lia|lia|exact (demo_object_inv _)].
Defined.

(** A library that reports something from inside ss_set_notify_callback: the message is
    dropped, as the object under construction has no client. *)
Example early_message_dropped :
  match getInstance device_config platform_codes (Some (fun _ => true)) false demo_env
          (process_start [quiet 0; {| ret := 0; messages := [FINGERPRINT_ACQUIRED 0] |}] []) with
  | Done _ s => log s =
      [Vendor ss_fingerprint_open []; Vendor ss_set_notify_callback [];
       Vendor ss_fingerprint_request [Num 15; Num 1]; Uinput UI_SET_BITS; Uinput UI_USER_DEV;
       Uinput UI_DEV_CREATE]
  | _ => False
  end.
Proof. vm_compute. reflexivity. Qed.

Lemma construction_needs_library_witness :
  ~ exists s, BiometricsFingerprint_new device_config platform_codes None false demo_uinput
                (fresh_object false 0 (process_start [] [])) = Done tt s.
Proof.
  intros H. apply (construction_needs_library device_config platform_codes None false demo_uinput
    false 0 [] [] eq_refl) in H. destruct H as (? & ? & _). discriminate.
Defined.
