(* ===== verification/SensorsHal.v ===== *)
(** Model of the sensors HAL: event and sensor-info conversion
    (src/aidl/sensors/ConvertUtils.cpp), the AIDL front end of the multi-HAL proxy
    (src/aidl/sensors/HalProxyAidl.cpp) and its queue and callback wrappers
    (src/aidl/sensors/include/).

    An AIDL payload is a tagged union, hence an inductive type; reading it through
    the wrong tag aborts the process ([None]).  A HIDL payload is a C union, hence 64
    bytes of memory, which every branch of the conversions reads and writes through
    the layout of its member.  Floats are only copied, so they are their 32-bit
    patterns.  The base class HalProxy, the message queues and the numbers of the
    generated types are not under src and are parameters. *)
From S2P Require Import Prelude Bytes.
Local Open Scope Z_scope.

(** ** Data *)

(** The sensor types the switches name; both interfaces number them alike, so the
    casts between them are the identity. *)
Inductive SensorType :=
  | META_DATA | ACCELEROMETER | MAGNETIC_FIELD | ORIENTATION | GYROSCOPE | LIGHT | PRESSURE
  | PROXIMITY | GRAVITY | LINEAR_ACCELERATION | ROTATION_VECTOR | RELATIVE_HUMIDITY
  | AMBIENT_TEMPERATURE | MAGNETIC_FIELD_UNCALIBRATED | GAME_ROTATION_VECTOR
  | GYROSCOPE_UNCALIBRATED | SIGNIFICANT_MOTION | STEP_DETECTOR | STEP_COUNTER
  | GEOMAGNETIC_ROTATION_VECTOR | HEART_RATE | TILT_DETECTOR | WAKE_GESTURE | GLANCE_GESTURE
  | PICK_UP_GESTURE | WRIST_TILT_GESTURE | DEVICE_ORIENTATION | POSE_6DOF | STATIONARY_DETECT
  | MOTION_DETECT | HEART_BEAT | DYNAMIC_SENSOR_META | ADDITIONAL_INFO
  | LOW_LATENCY_OFFBODY_DETECT | ACCELEROMETER_UNCALIBRATED | HINGE_ANGLE | HEAD_TRACKER
  | OTHER_TYPE (number : Z).

Inductive AdditionalInfoPayload := dataInt32 (values : list Z) | dataFloat (values : list Z).

Inductive EventPayload :=
  | meta (what : Z)
  | vec3 (x y z status : Z)
  | vec4 (x y z w : Z)
  | uncal (x y z xBias yBias zBias : Z)
  | scalar (f : Z)
  | stepCount (n : Z)
  | heartRate (bpm status : Z)
  | pose6DOF (values : list Z)
  | dynamic (connected : bool) (sensorHandle : Z) (uuid : list Z)
  | additional (type serial : Z) (payload : AdditionalInfoPayload)
  | data (values : list Z)
  | headTracker (rx ry rz vx vy vz discontinuityCount : Z).

Record AidlEvent := {
  timestamp : Z;
  sensorHandle : Z;
  sensorType : SensorType;
  payload : EventPayload
}.

(** [u] is the memory of the union. *)
Record V2_1Event := {
  h_timestamp : Z;
  h_sensorHandle : Z;
  h_sensorType : SensorType;
  u : list Z
}.

(** A [SensorInfo]; both interfaces have the same fields. *)
Record SensorInfo := {
  info_handle : Z;
  info_name : string;
  info_vendor : string;
  info_version : Z;
  info_type : SensorType;
  typeAsString : string;
  maxRange : Z;
  resolution : Z;
  power : Z;
  minDelay : Z;
  fifoReservedEventCount : Z;
  fifoMaxEventCount : Z;
  requiredPermission : string;
  maxDelay : Z;
  flags : Z
}.

(** ** The members of the union *)

Definition i8 (z : Z) : Z := wrap_s 8 z.

Definition get8 (off : nat) (m : list Z) : Z := nth 0 (get off 1 m) 0.

Definition put_vec3 (x y z status : Z) (m : list Z) : list Z :=
  put 12 [u8 status] (put 8 (le32 z) (put 4 (le32 y) (put 0 (le32 x) m))).

Definition get_vec3 (m : list Z) : EventPayload :=
  vec3 (get32 0 m) (get32 4 m) (get32 8 m) (i8 (get8 12 m)).

Definition put_vec4 (x y z w : Z) (m : list Z) : list Z :=
  put 12 (le32 w) (put 8 (le32 z) (put 4 (le32 y) (put 0 (le32 x) m))).

Definition get_vec4 (m : list Z) : EventPayload :=
  vec4 (get32 0 m) (get32 4 m) (get32 8 m) (get32 12 m).

Definition put_uncal (x y z xb yb zb : Z) (m : list Z) : list Z :=
  put 20 (le32 zb) (put 16 (le32 yb) (put 12 (le32 xb)
    (put 8 (le32 z) (put 4 (le32 y) (put 0 (le32 x) m))))).

Definition get_uncal (m : list Z) : EventPayload :=
  uncal (get32 0 m) (get32 4 m) (get32 8 m) (get32 12 m) (get32 16 m) (get32 20 m).

(** A [uint64_t] of the union, an [int64_t] of the payload. *)
Definition put_stepCount (n : Z) (m : list Z) : list Z :=
  put 0 (le32 n ++ le32 (n / 2 ^ 32)) m.

Definition get_stepCount (m : list Z) : EventPayload :=
  stepCount (i64 (get32 0 m + 2 ^ 32 * get32 4 m)).

Definition put_heartRate (bpm status : Z) (m : list Z) : list Z :=
  put 4 [u8 status] (put 0 (le32 bpm) m).

Definition get_heartRate (m : list Z) : EventPayload :=
  heartRate (get32 0 m) (i8 (get8 4 m)).

Definition put_dynamic (connected : bool) (handle : Z) (uuid : list Z) (m : list Z) : list Z :=
  put 8 uuid (put 4 (le32 handle) (put 0 [if connected then 1 else 0] m)).

Definition get_dynamic (m : list Z) : EventPayload :=
  dynamic (negb (get8 0 m =? 0)) (i32 (get32 4 m)) (get 8 16 m).

Definition put_additional (type serial : Z) (values : list Z) (m : list Z) : list Z :=
  put 8 (le32s values) (put 4 (le32 serial) (put 0 (le32 type) m)).

Definition get_additional (m : list Z) : EventPayload :=
  additional (get32 0 m) (i32 (get32 4 m)) (dataInt32 (map (wrap_s 32) (of_le32s (get 8 56 m)))).

Definition put_headTracker (rx ry rz vx vy vz count : Z) (m : list Z) : list Z :=
  put 24 (le32 count) (put 20 (le32 vz) (put 16 (le32 vy) (put 12 (le32 vx)
    (put 8 (le32 rz) (put 4 (le32 ry) (put 0 (le32 rx) m)))))).

Definition get_headTracker (m : list Z) : EventPayload :=
  headTracker (get32 0 m) (get32 4 m) (get32 8 m) (get32 12 m) (get32 16 m) (get32 20 m)
    (i32 (get32 24 m)).

(** The first [n] values of the data array, and the rest zero. *)
Definition get_data (n : nat) (m : list Z) : EventPayload :=
  data (of_le32s (get 0 (4 * n) m) ++ replicate (16 - n) 0).

(** ** ConvertUtils *)

Definition convertSensorInfo (i : SensorInfo) : SensorInfo :=
  {| info_handle := info_handle i; info_name := info_name i; info_vendor := info_vendor i;
     info_version := info_version i; info_type := info_type i; typeAsString := typeAsString i;
     maxRange := maxRange i; resolution := resolution i; power := power i; minDelay := minDelay i;
     fifoReservedEventCount := fifoReservedEventCount i; fifoMaxEventCount := fifoMaxEventCount i;
     requiredPermission := requiredPermission i; maxDelay := maxDelay i; flags := flags i |}.

Section convert.
Context (DEVICE_PRIVATE_BASE : Z).

(** The switch of [convertToHidlEvent] on the memory of [hidlEvent->u]. *)
Definition hidl_union (t : SensorType) (p : EventPayload) (m : list Z) : option (list Z) :=
  match t with
  | META_DATA => match p with meta what => Some (put 0 (le32 what) m) | _ => None end
  | ACCELEROMETER | MAGNETIC_FIELD | ORIENTATION | GYROSCOPE | GRAVITY | LINEAR_ACCELERATION =>
      match p with vec3 x y z st => Some (put_vec3 x y z st m) | _ => None end
  | GAME_ROTATION_VECTOR =>
      match p with vec4 x y z w => Some (put_vec4 x y z w m) | _ => None end
  | ROTATION_VECTOR | GEOMAGNETIC_ROTATION_VECTOR =>
      match p with data values => Some (put 0 (le32s (take 5 values)) m) | _ => None end
  | ACCELEROMETER_UNCALIBRATED | MAGNETIC_FIELD_UNCALIBRATED | GYROSCOPE_UNCALIBRATED =>
      match p with uncal x y z xb yb zb => Some (put_uncal x y z xb yb zb m) | _ => None end
  | DEVICE_ORIENTATION | LIGHT | PRESSURE | PROXIMITY | RELATIVE_HUMIDITY | AMBIENT_TEMPERATURE
  | SIGNIFICANT_MOTION | STEP_DETECTOR | TILT_DETECTOR | WAKE_GESTURE | GLANCE_GESTURE
  | PICK_UP_GESTURE | WRIST_TILT_GESTURE | STATIONARY_DETECT | MOTION_DETECT | HEART_BEAT
  | LOW_LATENCY_OFFBODY_DETECT | HINGE_ANGLE =>
      match p with scalar f => Some (put 0 (le32 f) m) | _ => None end
  | STEP_COUNTER => match p with stepCount n => Some (put_stepCount n m) | _ => None end
  | HEART_RATE => match p with heartRate bpm st => Some (put_heartRate bpm st m) | _ => None end
  | POSE_6DOF => match p with pose6DOF values => Some (put 0 (le32s values) m) | _ => None end
  | DYNAMIC_SENSOR_META =>
      match p with dynamic c h uuid => Some (put_dynamic c h uuid m) | _ => None end
  | ADDITIONAL_INFO =>
      match p with
      | additional type serial (dataInt32 values) | additional type serial (dataFloat values) =>
          Some (put_additional type serial values m)
      | _ => None
      end
  | HEAD_TRACKER =>
      match p with
      | headTracker rx ry rz vx vy vz n => Some (put_headTracker rx ry rz vx vy vz n m)
      | _ => None
      end
  | OTHER_TYPE n =>
      if DEVICE_PRIVATE_BASE <=? n
      then match p with data values => Some (put 0 (le32s values) m) | _ => None end
      else None
  end.

(** [old] is what [*hidlEvent] holds before the call. *)
Definition convertToHidlEvent (e : AidlEvent) (old : V2_1Event) : option V2_1Event :=
  m ← hidl_union (sensorType e) (payload e) (u old);
  Some {| h_timestamp := timestamp e; h_sensorHandle := sensorHandle e;
          h_sensorType := sensorType e; u := m |}.

(** The switch of [convertToAidlEvent]. *)
Definition aidl_payload (t : SensorType) (m : list Z) : option EventPayload :=
  match t with
  | META_DATA => Some (meta (get32 0 m))
  | ACCELEROMETER | MAGNETIC_FIELD | ORIENTATION | GYROSCOPE | GRAVITY | LINEAR_ACCELERATION =>
      Some (get_vec3 m)
  | GAME_ROTATION_VECTOR => Some (get_vec4 m)
  | ROTATION_VECTOR | GEOMAGNETIC_ROTATION_VECTOR => Some (get_data 5 m)
  | MAGNETIC_FIELD_UNCALIBRATED | GYROSCOPE_UNCALIBRATED | ACCELEROMETER_UNCALIBRATED =>
      Some (get_uncal m)
  | DEVICE_ORIENTATION | LIGHT | PRESSURE | PROXIMITY | RELATIVE_HUMIDITY | AMBIENT_TEMPERATURE
  | SIGNIFICANT_MOTION | STEP_DETECTOR | TILT_DETECTOR | WAKE_GESTURE | GLANCE_GESTURE
  | PICK_UP_GESTURE | WRIST_TILT_GESTURE | STATIONARY_DETECT | MOTION_DETECT | HEART_BEAT
  | LOW_LATENCY_OFFBODY_DETECT | HINGE_ANGLE => Some (scalar (get32 0 m))
  | STEP_COUNTER => Some (get_stepCount m)
  | HEART_RATE => Some (get_heartRate m)
  | POSE_6DOF => Some (pose6DOF (of_le32s (get 0 60 m)))
  | DYNAMIC_SENSOR_META => Some (get_dynamic m)
  | ADDITIONAL_INFO => Some (get_additional m)
  | HEAD_TRACKER => Some (get_headTracker m)
  | OTHER_TYPE n => if DEVICE_PRIVATE_BASE <=? n then Some (get_data 16 m) else None
  end.

Definition convertToAidlEvent (h : V2_1Event) : option AidlEvent :=
  p ← aidl_payload (h_sensorType h) (u h);
  Some {| timestamp := h_timestamp h; sensorHandle := h_sensorHandle h;
          sensorType := h_sensorType h; payload := p |}.

End convert.

(** ** The message queues *)

(** What an AidlMessageQueue offers: [mq_read] answers [None] when it has too few
    items and then copies nothing. *)
Class MessageQueue (Q E : Type) := {
  mq_read : nat -> Q -> option (list E) * Q;
  mq_write : list E -> Q -> bool * Q;
  mq_writeBlocking : list E -> Q -> bool * Q
}.

(** ... and promises: items come out in the order they went in, all or none. *)
Class MessageQueueLaws (Q E : Type) `{MessageQueue Q E} := {
  mq_items : Q -> list E;
  mq_write_ok l q q' : mq_write l q = (true, q') -> mq_items q' = mq_items q ++ l;
  mq_writeBlocking_ok l q q' : mq_writeBlocking l q = (true, q') -> mq_items q' = mq_items q ++ l;
  mq_read_ok n q : (n <= length (mq_items q))%nat ->
    exists q', mq_read n q = (Some (take n (mq_items q)), q') /\ mq_items q' = drop n (mq_items q)
}.

Record EventMessageQueueWrapperAidl (Q : Type) := {
  mQueue : Q;
  mIntermediateEventBuffer : list AidlEvent
}.

Arguments mQueue {Q}.
Arguments mIntermediateEventBuffer {Q}.

Section wrapper.
Context (DEVICE_PRIVATE_BASE : Z) {Q : Type} `{MessageQueue Q AidlEvent}.

Abbreviation wrapper := (EventMessageQueueWrapperAidl Q).

Definition with_queue (q : Q) (b : list AidlEvent) : wrapper :=
  {| mQueue := q; mIntermediateEventBuffer := b |}.

(** The loop of [read]: event [i] of the buffer into element [i] of the caller's
    array. *)
Fixpoint to_hidl_events (buf : list AidlEvent) (olds : list V2_1Event) {struct olds} :
    option (list V2_1Event) :=
  match olds, buf with
  | [], _ => Some []
  | old :: olds, e :: buf =>
      h ← convertToHidlEvent DEVICE_PRIVATE_BASE e old;
      hs ← to_hidl_events buf olds;
      Some (h :: hs)
  | _ :: _, [] => None
  end.

(** Reads [length events] events; [None]: past the end of the buffer, or an abort in
    a conversion, which runs whether or not the queue was read. *)
Definition wrapper_read (events : list V2_1Event) (w : wrapper) :
    option (bool * list V2_1Event * wrapper) :=
  let numToRead := length events in
  if (length (mIntermediateEventBuffer w) <? numToRead)%nat then None
  else
    let '(items, q) := mq_read numToRead (mQueue w) in
    let buf := match items with
               | Some l => l ++ drop (length l) (mIntermediateEventBuffer w)
               | None => mIntermediateEventBuffer w
               end in
    hs ← to_hidl_events buf events;
    Some (bool_decide (is_Some items), hs, with_queue q buf).

(** The loop all three writes start with: the converted events, and the buffer. *)
Definition fill_buffer (events : list V2_1Event) (w : wrapper) :
    option (list AidlEvent * list AidlEvent) :=
  if (length (mIntermediateEventBuffer w) <? length events)%nat then None
  else
    l ← mapM (convertToAidlEvent DEVICE_PRIVATE_BASE) events;
    Some (l, l ++ drop (length l) (mIntermediateEventBuffer w)).

Definition wrapper_write (events : list V2_1Event) (w : wrapper) : option (bool * wrapper) :=
  '(l, buf) ← fill_buffer events w;
  let '(ok, q) := mq_write l (mQueue w) in
  Some (ok, with_queue q buf).

(** The overload on a vector. *)
Definition wrapper_write_vector (events : list V2_1Event) (w : wrapper) : option (bool * wrapper) :=
  '(l, buf) ← fill_buffer events w;
  let '(ok, q) := mq_write l (mQueue w) in
  Some (ok, with_queue q buf).

Definition wrapper_writeBlocking (events : list V2_1Event) (w : wrapper) :
    option (bool * wrapper) :=
  '(l, buf) ← fill_buffer events w;
  let '(ok, q) := mq_writeBlocking l (mQueue w) in
  Some (ok, with_queue q buf).

End wrapper.

(** [convertToAidlSensorInfos] of the callback wrapper. *)
Definition convertToAidlSensorInfos (l : list SensorInfo) : list SensorInfo := map convertSensorInfo l.

(** ** HalProxyAidl *)

Inductive Result := OK | PERMISSION_DENIED | NO_MEMORY | BAD_VALUE | INVALID_OPERATION | OTHER_RESULT.

Inductive RateLevel := STOP | RATE_NORMAL | FAST | VERY_FAST | OTHER_RATE.
Inductive OperationMode := MODE_NORMAL | DATA_INJECTION | OTHER_MODE.
Inductive SharedMemType := ASHMEM | GRALLOC | OTHER_MEM.
Inductive SharedMemFormat := SENSORS_EVENT | OTHER_FORMAT.

Record SharedMemInfo := {
  mem_type : SharedMemType;
  mem_format : SharedMemFormat;
  mem_size : Z;
  memoryHandle : Z
}.

(** The base class HalProxy (hardware/interfaces): [None] for the two calls with a
    result callback when the callback is not called. *)
Class HalProxy (S : Type) := {
  hp_activate : Z -> bool -> S -> Result * S;
  hp_batch : Z -> Z -> Z -> S -> Result * S;
  hp_configDirectReport : Z -> Z -> RateLevel -> S -> option (Result * Z) * S;
  hp_flush : Z -> S -> Result * S;
  hp_getSensors : S -> list (Z * SensorInfo);
  hp_injectSensorData : V2_1Event -> S -> Result * S;
  hp_registerDirectChannel : SharedMemInfo -> S -> option (Result * Z) * S;
  hp_setOperationMode : OperationMode -> S -> Result * S;
  hp_unregisterDirectChannel : Z -> S -> Result * S
}.

Section proxy.
Context {S : Type} `{HalProxy S}.
Context (DEVICE_PRIVATE_BASE ERROR_NO_MEMORY : Z) (SENSOR_STRING_TYPE_PROXIMITY : string).

Definition resultToAStatus (result : Result) : ScopedAStatus :=
  match result with
  | OK => status_ok
  | PERMISSION_DENIED => fromExceptionCode EX_SECURITY
  | NO_MEMORY => fromServiceSpecificError ERROR_NO_MEMORY
  | BAD_VALUE => fromExceptionCode EX_ILLEGAL_ARGUMENT
  | INVALID_OPERATION => fromExceptionCode EX_UNSUPPORTED_OPERATION
  | OTHER_RESULT => fromExceptionCode EX_TRANSACTION_FAILED
  end.

(** [None]: assert(false). *)
Definition convertRateLevel (r : RateLevel) : option RateLevel :=
  match r with OTHER_RATE => None | r => Some r end.

Definition convertOperationMode (m : OperationMode) : option OperationMode :=
  match m with OTHER_MODE => None | m => Some m end.

Definition convertSharedMemType (t : SharedMemType) : option SharedMemType :=
  match t with OTHER_MEM => None | t => Some t end.

Definition convertSharedMemFormat (f : SharedMemFormat) : option SharedMemFormat :=
  match f with OTHER_FORMAT => None | f => Some f end.

Definition convertSharedMemInfo (i : SharedMemInfo) : option SharedMemInfo :=
  t ← convertSharedMemType (mem_type i);
  f ← convertSharedMemFormat (mem_format i);
  Some {| mem_type := t; mem_format := f; mem_size := mem_size i; memoryHandle := memoryHandle i |}.

(** A call to the base class and its result. *)
Definition forward (r : Result * S) : ScopedAStatus * S := (resultToAStatus (fst r), snd r).

(** A call whose result comes through a callback; [token] is what *_aidl_return held. *)
Definition forward_callback (token : Z) (r : option (Result * Z) * S) : ScopedAStatus * Z * S :=
  match fst r with
  | Some (result, t) => (resultToAStatus result, t, snd r)
  | None => (fromExceptionCode EX_UNSUPPORTED_OPERATION, token, snd r)
  end.

Definition activate (handle : Z) (enabled : bool) (s : S) : ScopedAStatus * S :=
  forward (hp_activate handle enabled s).

Definition batch (handle period latency : Z) (s : S) : ScopedAStatus * S :=
  forward (hp_batch handle period latency s).

Definition configDirectReport (handle channel : Z) (rate : RateLevel) (token : Z) (s : S) :
    option (ScopedAStatus * Z * S) :=
  r ← convertRateLevel rate; Some (forward_callback token (hp_configDirectReport handle channel r s)).

Definition flush (handle : Z) (s : S) : ScopedAStatus * S := forward (hp_flush handle s).

(** [1] as a float. *)
Definition float_one : Z := 0x3f800000.

(** The fix-ups of one sensor. *)
Definition fix_sensor (dst : SensorInfo) : SensorInfo :=
  let perm := if (requiredPermission dst =? "com.samsung.permission.SSENSOR")%string then ""%string
              else requiredPermission dst in
  let prox := (typeAsString dst =? "com.samsung.sensor.physical_proximity")%string ||
              (typeAsString dst =? "com.samsung.sensor.hover_proximity")%string in
  {| info_handle := info_handle dst; info_name := info_name dst; info_vendor := info_vendor dst;
     info_version := info_version dst;
     info_type := if prox then PROXIMITY else info_type dst;
     typeAsString := if prox then SENSOR_STRING_TYPE_PROXIMITY else typeAsString dst;
     maxRange := if prox then float_one else maxRange dst;
     resolution := resolution dst; power := power dst; minDelay := minDelay dst;
     fifoReservedEventCount := fifoReservedEventCount dst;
     fifoMaxEventCount := fifoMaxEventCount dst; requiredPermission := perm;
     maxDelay := maxDelay dst; flags := flags dst |}.

(** Appends to the caller's vector. *)
Definition getSensorsList (out : list SensorInfo) (s : S) : ScopedAStatus * list SensorInfo :=
  (status_ok, out ++ map (fun '(_, i) => convertSensorInfo (fix_sensor i)) (hp_getSensors s)).

(** [junk] is the uninitialised local event. *)
Definition injectSensorData (e : AidlEvent) (junk : V2_1Event) (s : S) : option (ScopedAStatus * S) :=
  h ← convertToHidlEvent DEVICE_PRIVATE_BASE e junk; Some (forward (hp_injectSensorData h s)).

Definition registerDirectChannel (mem : SharedMemInfo) (token : Z) (s : S) :
    option (ScopedAStatus * Z * S) :=
  i ← convertSharedMemInfo mem; Some (forward_callback token (hp_registerDirectChannel i s)).

Definition setOperationMode (m : OperationMode) (s : S) : option (ScopedAStatus * S) :=
  m ← convertOperationMode m; Some (forward (hp_setOperationMode m s)).

Definition unregisterDirectChannel (channel : Z) (s : S) : ScopedAStatus * S :=
  forward (hp_unregisterDirectChannel channel s).

End proxy.

(** ** Specification *)

Definition sbyte (z : Z) : Prop := - 128 <= z < 128.
Definition sword (z : Z) : Prop := - 2 ^ 31 <= z < 2 ^ 31.

(** The fields within their types, the arrays at their lengths. *)
Definition payload_fits (p : EventPayload) : Prop :=
  match p with
  | meta what => word what
  | vec3 x y z st => word x /\ word y /\ word z /\ sbyte st
  | vec4 x y z w => word x /\ word y /\ word z /\ word w
  | uncal x y z xb yb zb => word x /\ word y /\ word z /\ word xb /\ word yb /\ word zb
  | scalar f => word f
  | stepCount n => - 2 ^ 63 <= n < 2 ^ 63
  | heartRate bpm st => word bpm /\ sbyte st
  | pose6DOF vs => length vs = 15%nat /\ Forall word vs
  | dynamic _ h uuid => sword h /\ length uuid = 16%nat
  | additional t n (dataInt32 vs) => word t /\ sword n /\ length vs = 14%nat /\ Forall sword vs
  | additional t n (dataFloat vs) => word t /\ sword n /\ length vs = 14%nat /\ Forall word vs
  | data vs => length vs = 16%nat /\ Forall word vs
  | headTracker rx ry rz vx vy vz n =>
      word rx /\ word ry /\ word rz /\ word vx /\ word vy /\ word vz /\ sword n
  end.

(** The payload a sensor type calls for. *)
Definition payload_matches (base : Z) (t : SensorType) (p : EventPayload) : bool :=
  match t, p with
  | META_DATA, meta _ => true
  | (ACCELEROMETER | MAGNETIC_FIELD | ORIENTATION | GYROSCOPE | GRAVITY | LINEAR_ACCELERATION),
      vec3 _ _ _ _ => true
  | GAME_ROTATION_VECTOR, vec4 _ _ _ _ => true
  | (ROTATION_VECTOR | GEOMAGNETIC_ROTATION_VECTOR), data _ => true
  | (ACCELEROMETER_UNCALIBRATED | MAGNETIC_FIELD_UNCALIBRATED | GYROSCOPE_UNCALIBRATED),
      uncal _ _ _ _ _ _ => true
  | STEP_COUNTER, stepCount _ => true
  | HEART_RATE, heartRate _ _ => true
  | POSE_6DOF, pose6DOF _ => true
  | DYNAMIC_SENSOR_META, dynamic _ _ _ => true
  | ADDITIONAL_INFO, additional _ _ _ => true
  | HEAD_TRACKER, headTracker _ _ _ _ _ _ _ => true
  | OTHER_TYPE n, data _ => base <=? n
  | (DEVICE_ORIENTATION | LIGHT | PRESSURE | PROXIMITY | RELATIVE_HUMIDITY | AMBIENT_TEMPERATURE
    | SIGNIFICANT_MOTION | STEP_DETECTOR | TILT_DETECTOR | WAKE_GESTURE | GLANCE_GESTURE
    | PICK_UP_GESTURE | WRIST_TILT_GESTURE | STATIONARY_DETECT | MOTION_DETECT | HEART_BEAT
    | LOW_LATENCY_OFFBODY_DETECT | HINGE_ANGLE), scalar _ => true
  | _, _ => false
  end.

(** What the detour through the HIDL union loses: the values of a rotation vector
    past the fifth, and that additional info was float. *)
Definition canonical_payload (t : SensorType) (p : EventPayload) : EventPayload :=
  match t, p with
  | (ROTATION_VECTOR | GEOMAGNETIC_ROTATION_VECTOR), data vs => data (take 5 vs ++ replicate 11 0)
  | ADDITIONAL_INFO, additional ty n (dataFloat vs) => additional ty n (dataInt32 (map (wrap_s 32) vs))
  | _, p => p
  end.

Definition canonical (e : AidlEvent) : AidlEvent :=
  {| timestamp := timestamp e; sensorHandle := sensorHandle e; sensorType := sensorType e;
     payload := canonical_payload (sensorType e) (payload e) |}.

(** ** Lemmas *)

Abbreviation sized m := (length m = 64%nat).

Lemma put_sized off d m : sized m -> (off + length d <= 64)%nat -> sized (put off d m).
Proof. intros Hm Hd. rewrite put_length; lia. Qed.

Lemma get_put_eq off d m n : sized m -> (off + length d <= 64)%nat -> n = length d ->
  get off n (put off d m) = d.
Proof. intros Hm Hd ->. apply get_put. lia. Qed.

Lemma get_put_ne off d m o n : sized m -> (off <= 64)%nat ->
  (o + n <= off)%nat \/ (off + length d <= o)%nat -> get o n (put off d m) = get o n m.
Proof. intros Hm Ho [?|?]; [apply get_put_before|apply get_put_after]; lia. Qed.

(** A store inside the union keeps its size; loads see the last store to their field. *)
Ltac union_size := repeat (apply put_sized; [|rewrite ?le32s_length, ?length_app; simpl; lia]); assumption.

Ltac union_load :=
  unfold get32, get8;
  repeat first [rewrite get_put_eq by (union_size || (rewrite ?le32s_length; simpl; lia))
               |rewrite get_put_ne by (union_size || (rewrite ?le32s_length; simpl; lia))];
  rewrite ?of_le32_wrap.

Lemma i8_u8 z : sbyte z -> i8 (u8 z) = z.
Proof. intros Hz. unfold i8, sbyte in *. rewrite wrap_s_wrap_u. apply wrap_s_id; lia. Qed.

Lemma i32_u32 z : sword z -> i32 (u32 z) = z.
Proof. intros Hz. unfold sword in *. rewrite wrap_s_wrap_u. apply wrap_s_id; lia. Qed.

Lemma u32_word z : word z -> u32 z = z.
Proof. apply wrap_u_id. Qed.

Create Rewrite HintDb union.
#[export] Hint Rewrite i8_u8 i32_u32 u32_word using assumption : union.

Lemma vec3_rt x y z st m : sized m -> payload_fits (vec3 x y z st) ->
  get_vec3 (put_vec3 x y z st m) = vec3 x y z st.
Proof.
  intros Hm (? & ? & ? & ?). unfold get_vec3, put_vec3. union_load. simpl. by autorewrite with union.
Qed.

Lemma vec4_rt x y z w m : sized m -> payload_fits (vec4 x y z w) ->
  get_vec4 (put_vec4 x y z w m) = vec4 x y z w.
Proof.
  intros Hm (? & ? & ? & ?). unfold get_vec4, put_vec4. union_load. by autorewrite with union.
Qed.

Lemma uncal_rt x y z xb yb zb m : sized m -> payload_fits (uncal x y z xb yb zb) ->
  get_uncal (put_uncal x y z xb yb zb m) = uncal x y z xb yb zb.
Proof.
  intros Hm (? & ? & ? & ? & ? & ?). unfold get_uncal, put_uncal. union_load. by autorewrite with union.
Qed.

Lemma heartRate_rt bpm st m : sized m -> payload_fits (heartRate bpm st) ->
  get_heartRate (put_heartRate bpm st m) = heartRate bpm st.
Proof.
  intros Hm (? & ?). unfold get_heartRate, put_heartRate. union_load. simpl. by autorewrite with union.
Qed.

Lemma headTracker_rt rx ry rz vx vy vz n m : sized m ->
  payload_fits (headTracker rx ry rz vx vy vz n) ->
  get_headTracker (put_headTracker rx ry rz vx vy vz n m) = headTracker rx ry rz vx vy vz n.
Proof.
  intros Hm (? & ? & ? & ? & ? & ? & ?). unfold get_headTracker, put_headTracker. union_load.
  by autorewrite with union.
Qed.

Lemma stepCount_rt n m : payload_fits (stepCount n) ->
  get_stepCount (put_stepCount n m) = stepCount n.
Proof.
  intros Hn. simpl in Hn. unfold get_stepCount, put_stepCount, get32. f_equal.
  change (get 0 4 _) with (le32 n). change (get 4 4 _) with (le32 (n / 2 ^ 32)).
  rewrite !of_le32_wrap. change (2 ^ 63) with 9223372036854775808 in Hn. clia.
Qed.

Lemma dynamic_rt c h uuid m : sized m -> payload_fits (dynamic c h uuid) ->
  get_dynamic (put_dynamic c h uuid m) = dynamic c h uuid.
Proof.
  intros Hm [Hh Hu]. unfold get_dynamic, put_dynamic, get32, get8.
  assert (sized (put 0 [if c then 1 else 0] m)) by (apply put_sized; [done|simpl; lia]).
  assert (sized (put 4 (le32 h) (put 0 [if c then 1 else 0] m))) by (apply put_sized; [done|simpl; lia]).
  rewrite (get_put_eq 8 uuid) by (done || lia).
  rewrite (get_put_ne 8 uuid _ 4 4), (get_put_eq 4) by (done || simpl; lia).
  rewrite (get_put_ne 8 uuid _ 0 1), (get_put_ne 4 _ _ 0 1), (get_put_eq 0) by (done || simpl; lia).
  rewrite of_le32_wrap, i32_u32 by done. f_equal. by destruct c.
Qed.

(** Storing values as words keeps them up to the conversion to unsigned. *)
Lemma of_le32s_wrap vs : of_le32s (le32s vs) = map (wrap_u 32) vs.
Proof.
  unfold le32s. induction vs as [|v vs IH]; [done|]. cbn [map concat].
  change (of_le32 (le32 v) :: of_le32s (concat (map le32 vs)) = u32 v :: map (wrap_u 32) vs).
  by rewrite IH, of_le32_wrap.
Qed.

Lemma additional_rt t n vs m : sized m -> word t -> sword n -> length vs = 14%nat ->
  get_additional (put_additional t n vs m) = additional t n (dataInt32 (map (wrap_s 32) vs)).
Proof.
  intros Hm Ht Hn Hl. unfold get_additional, put_additional, get32.
  assert (sized (put 0 (le32 t) m)) by (apply put_sized; [done|simpl; lia]).
  assert (sized (put 4 (le32 n) (put 0 (le32 t) m))) by (apply put_sized; [done|simpl; lia]).
  pose proof (le32s_length vs) as Hv. rewrite Hl in Hv.
  rewrite (get_put_eq 8) by (done || lia).
  rewrite (get_put_ne 8 _ _ 0 4), (get_put_ne 4 _ _ 0 4), (get_put_eq 0) by (done || simpl; lia).
  rewrite (get_put_ne 8 _ _ 4 4), (get_put_eq 4) by (done || simpl; lia).
  rewrite !of_le32_wrap, of_le32s_wrap, map_map, u32_word, i32_u32 by done. do 2 f_equal.
  apply map_ext. intros v. apply wrap_s_wrap_u.
Qed.

Lemma sword_map vs : Forall sword vs -> map (wrap_s 32) vs = vs.
Proof.
  induction 1 as [|v vs Hv _ IH]; [done|]. simpl. rewrite IH, wrap_s_id; [done|lia|].
  unfold sword in Hv. lia.
Qed.

Lemma words_rt vs n m : sized m -> Forall word vs -> n = (4 * length vs)%nat -> (n <= 64)%nat ->
  of_le32s (get 0 n (put 0 (le32s vs) m)) = vs.
Proof.
  intros Hm Hv -> Hn. rewrite get_put_eq by (rewrite ?le32s_length; done || lia).
  by apply of_le32s_le32s.
Qed.

Lemma data_rt vs n m : sized m -> Forall word vs -> length vs = 16%nat -> (n <= 16)%nat ->
  get_data n (put 0 (le32s (take n vs)) m) = data (take n vs ++ replicate (16 - n) 0).
Proof.
  intros Hm Hv Hl Hn. unfold get_data. do 2 f_equal.
  apply words_rt; [done|by apply Forall_take| |]; rewrite ?length_take; lia.
Qed.

Lemma word_rt w m : sized m -> word w -> get32 0 (put 0 (le32 w) m) = w.
Proof. intros Hm Hw. union_load. by apply u32_word. Qed.

Lemma words_sized off vs m : sized m -> (off + 4 * length vs <= 64)%nat -> sized (put off (le32s vs) m).
Proof. intros. apply put_sized; [done|]. rewrite le32s_length. lia. Qed.

Lemma additional_sized t n vs m : sized m -> length vs = 14%nat -> sized (put_additional t n vs m).
Proof. intros Hm Hl. unfold put_additional. apply words_sized; [union_size|lia]. Qed.

Lemma dynamic_sized c h uuid m : sized m -> length uuid = 16%nat -> sized (put_dynamic c h uuid m).
Proof. intros Hm Hl. unfold put_dynamic. apply put_sized; [union_size|lia]. Qed.

(** The union a matching payload leaves is read back in canonical form. *)
Lemma payload_rt base t p m : sized m -> payload_matches base t p = true -> payload_fits p ->
  exists m', hidl_union base t p m = Some m' /\ sized m' /\
    aidl_payload base t m' = Some (canonical_payload t p).
Proof.
  intros Hm Hp Hf.
  destruct t, p; try discriminate Hp; cbn [hidl_union aidl_payload canonical_payload];
    try match goal with q : AdditionalInfoPayload |- _ => destruct q as [vs|vs] end;
    try (cbn in Hp; rewrite Hp); eexists; (split; [reflexivity|]); (split; [|f_equal]).
  all: try (unfold put_vec3, put_vec4, put_uncal, put_stepCount, put_heartRate, put_headTracker; union_size).
  all: try (by apply vec3_rt). all: try (by apply vec4_rt). all: try (by apply uncal_rt).
  all: try (by apply heartRate_rt). all: try (by apply headTracker_rt).
  all: try (by apply stepCount_rt). all: try (by apply dynamic_rt).
  all: try (f_equal; by apply word_rt).
  all: simpl in Hf; destruct_and? Hf.
  all: try (by apply dynamic_sized). all: try (by apply additional_sized).
  all: try (apply words_sized; [done|rewrite ?length_take; lia]).
  all: try (by apply data_rt; [..|lia]).
  - f_equal. apply words_rt; done || lia.
  - rewrite additional_rt by done. by rewrite sword_map.
  - by apply additional_rt.
  - replace (le32s values) with (le32s (take 16 values)) by (rewrite take_ge; done || lia).
    rewrite data_rt by (done || lia). simpl. by rewrite app_nil_r, take_ge by lia.
Qed.

Lemma hidl_union_abort base t p m :
  hidl_union base t p m = None <-> payload_matches base t p = false.
Proof.
  destruct t, p; cbn [hidl_union payload_matches]; repeat case_match; split; congruence.
Qed.

(** *** Events of the framework *)

Definition bytes (m : list Z) : Prop := Forall (fun b => 0 <= b < 256) m.

Lemma bytes_get off n m : bytes m -> bytes (get off n m).
Proof. intros Hb. unfold get, bytes. by apply Forall_take, Forall_drop. Qed.

Lemma of_le32_word l : bytes l -> word (of_le32 l).
Proof.
  intros Hb. unfold word, of_le32. change (2 ^ 32) with 4294967296.
  do 5 (destruct l as [|? l]; [lia|]; try (apply Forall_cons in Hb as [? Hb])); try lia.
Qed.

Lemma get32_word off m : bytes m -> word (get32 off m).
Proof. intros Hb. by apply of_le32_word, bytes_get. Qed.

Lemma of_le32s_words n l : bytes l -> length l = (4 * n)%nat ->
  Forall word (of_le32s l) /\ length (of_le32s l) = n.
Proof.
  revert l. induction n as [|n IH]; intros l Hb Hl.
  { by destruct l. }
  do 4 (destruct l as [|? l]; [simpl in Hl; lia|]).
  repeat (let H := fresh in apply Forall_cons in Hb as [H Hb]).
  destruct (IH l Hb) as [Hw Hn]; [simpl in Hl; lia|]. simpl. split; [|lia].
  constructor; [|done]. apply (of_le32_word [_; _; _; _]).
  repeat (apply Forall_cons; split; [done|]). constructor.
Qed.

Lemma i8_sbyte z : sbyte (i8 z).
Proof. unfold i8, sbyte. pose proof (wrap_s_range 8 ltac:(lia) z). lia. Qed.

Lemma i32_sword z : sword (i32 z).
Proof. unfold sword. pose proof (wrap_s_range 32 ltac:(lia) z). lia. Qed.

Lemma get_words n m : bytes m -> sized m -> (n <= 16)%nat ->
  Forall word (of_le32s (get 0 (4 * n) m)) /\ length (of_le32s (get 0 (4 * n) m)) = n.
Proof. intros. apply of_le32s_words; [by apply bytes_get|]. apply get_length. lia. Qed.

Lemma get_data_fits n m : bytes m -> sized m -> (n <= 16)%nat -> payload_fits (get_data n m).
Proof.
  intros Hb Hm Hn. destruct (get_words n m Hb Hm Hn) as [Hw Hl]. split.
  - rewrite length_app, Hl, length_replicate. lia.
  - apply Forall_app. split; [done|]. apply Forall_replicate. unfold word. lia.
Qed.

#[local] Hint Resolve get32_word i8_sbyte i32_sword : core.

(** What [convertToAidlEvent] makes is well formed and canonical. *)
Lemma aidl_payload_ok base t m p :
  bytes m -> sized m -> aidl_payload base t m = Some p ->
  payload_matches base t p = true /\ payload_fits p /\ canonical_payload t p = p.
Proof.
  intros Hb Hm Hp.
  assert (length (of_le32s (get 0 20 m)) = 5%nat) as H5 by (apply (get_words 5); done || lia).
  destruct t; cbn [aidl_payload] in Hp; repeat case_match; simplify_eq; (split; [by simpl|]).
  all: split; [|try reflexivity].
  all: try (simpl; split_and?; by auto).
  all: try (apply get_data_fits; by auto with lia).
  all: try (cbn [get_data canonical_payload]; rewrite take_app_length' by done; done).
  - simpl. pose proof (wrap_s_range 64 ltac:(lia) (get32 0 m + 2 ^ 32 * get32 4 m)).
    change (2 ^ 63) with (2 ^ (64 - 1)). done.
  - apply and_comm, (get_words 15); done || lia.
  - simpl. split; [done|]. apply get_length. lia.
  - unfold get_additional. cbn [payload_fits]. split_and!; [auto..| |].
    + rewrite length_map. apply (of_le32s_words 14); [by apply bytes_get|]. apply get_length. lia.
    + apply Forall_map, Forall_true. intros ?. apply i32_sword.
Qed.

(** A HIDL event in memory. *)
Definition hidl_ok (h : V2_1Event) : Prop := sized (u h) /\ bytes (u h).

(** A framework event survives the way through the AIDL event. *)
Lemma hidl_aidl_hidl base h e old :
  hidl_ok h -> sized (u old) -> convertToAidlEvent base h = Some e ->
  exists h', convertToHidlEvent base e old = Some h' /\ convertToAidlEvent base h' = Some e.
Proof.
  intros [Hs Hb] Ho He. unfold convertToAidlEvent in He.
  apply bind_Some in He as (p & Hp & [= <-]).
  destruct (aidl_payload_ok base _ _ p Hb Hs Hp) as (Hm & Hf & Hc).
  destruct (payload_rt base _ p (u old) Ho Hm Hf) as (m' & Hu & _ & Ha).
  eexists. unfold convertToHidlEvent. cbn [sensorType payload]. rewrite Hu. split; [reflexivity|].
  unfold convertToAidlEvent. cbn [mbind option_bind h_sensorType u]. rewrite Ha, Hc. done.
Qed.

Lemma to_hidl_events_ok base es hs olds rest :
  Forall2 (fun h e => convertToAidlEvent base h = Some e) hs es -> Forall hidl_ok hs ->
  Forall (fun o => sized (u o)) olds -> length olds = length hs ->
  exists hs', to_hidl_events base (es ++ rest) olds = Some hs' /\
    Forall2 (fun h' e => convertToAidlEvent base h' = Some e) hs' es.
Proof.
  intros H2. revert olds. induction H2 as [|h e hs es He _ IH]; intros olds Hk Ho Hl.
  { destruct olds; [|done]. by exists []. }
  destruct olds as [|o olds]; [done|]. apply Forall_cons in Hk as [Hk Hks], Ho as [Ho Hos].
  destruct (hidl_aidl_hidl base h e o Hk Ho He) as (h' & Hh & Ha).
  destruct (IH olds Hks Hos) as (hs' & Hr & Hf); [simpl in Hl; lia|].
  exists (h' :: hs'). simpl. rewrite Hh. simpl. rewrite Hr. simpl. split; [done|]. by constructor.
Qed.

(** ** Theorems *)

(** C31: An event of the AIDL side is converted for the HIDL side exactly if its
    payload is the one its sensor type calls for (otherwise the process aborts), for
    any previous contents of the union; converting it back gives the event again, up
    to the values of a rotation vector past the fifth and the tag of additional info,
    which becomes int32. *)
Theorem event_roundtrip base e old :
  sized (u old) -> payload_fits (payload e) ->
  if payload_matches base (sensorType e) (payload e)
  then exists h, convertToHidlEvent base e old = Some h /\
         convertToAidlEvent base h = Some (canonical e)
  else convertToHidlEvent base e old = None.
Proof.
  intros Ho Hf. destruct (payload_matches base (sensorType e) (payload e)) eqn:Hm.
  - destruct (payload_rt base _ _ (u old) Ho Hm Hf) as (m' & Hu & _ & Ha).
    eexists. unfold convertToHidlEvent. rewrite Hu. split; [reflexivity|].
    unfold convertToAidlEvent. cbn [mbind option_bind h_sensorType u]. by rewrite Ha.
  - unfold convertToHidlEvent. by rewrite (proj2 (hidl_union_abort base _ _ (u old)) Hm).
Qed.

(** C32: Through a first-in-first-out message queue, the events one side writes with
    its wrapper are the events the other side reads with its own, whatever the buffers of
    the two hold: after a write of at most as many events as the writer's buffer takes into
    an empty queue, a read of at most as many succeeds, yields events that denote the first
    of the written sensor events, in the same order, and leaves the others in the queue. *)
Theorem queue_roundtrip {Q} `{MessageQueueLaws Q AidlEvent} base hs es olds
    (w w' r : EventMessageQueueWrapperAidl Q) :
  Forall hidl_ok hs -> mapM (convertToAidlEvent base) hs = Some es ->
  (length hs <= length (mIntermediateEventBuffer w))%nat -> mq_items (mQueue w) = [] ->
  wrapper_write base hs w = Some (true, w') ->
  mQueue r = mQueue w' -> (length olds <= length (mIntermediateEventBuffer r))%nat ->
  Forall (fun o => sized (u o)) olds -> (length olds <= length hs)%nat ->
  exists hs' r', wrapper_read base olds r = Some (true, hs', r') /\
    mapM (convertToAidlEvent base) hs' = Some (take (length olds) es) /\
    mq_items (mQueue r') = drop (length olds) es.
Proof.
  intros Hk He Hb Hq Hw Hqr Hbr Ho Hl. pose proof (length_mapM _ _ _ He) as Hle.
  unfold wrapper_write, fill_buffer in Hw. rewrite (proj2 (Nat.ltb_ge _ _)), He in Hw by done.
  simpl in Hw. destruct (mq_write es (mQueue w)) as [ok q] eqn:E. simplify_eq.
  pose proof (mq_write_ok _ _ _ E) as Hi. rewrite Hq in Hi. simpl in Hi, Hqr.
  destruct (mq_read_ok (length olds) q) as (q' & Hr & Hi'); [rewrite Hi; lia|].
  unfold wrapper_read. rewrite (proj2 (Nat.ltb_ge _ _)) by done. rewrite Hqr, Hr, Hi.
  apply mapM_Some in He as H2.
  destruct (to_hidl_events_ok base (take (length olds) es) (take (length olds) hs) olds
    (drop (length (take (length olds) es)) (mIntermediateEventBuffer r)))
    as (hs' & Hh & Hf); [by apply Forall2_take|by apply Forall_take|done|rewrite length_take; lia|].
  rewrite Hh. eexists hs', _. split; [reflexivity|]. split; [by apply mapM_Some|].
  cbn [mQueue with_queue]. by rewrite Hi', Hi.
Qed.

(** The sensor list has the proxy's sensors in their order, with everything but
    the Samsung fix-ups as it was: no sensor asks for the Samsung permission, and the
    Samsung proximity sensors appear as proximity sensors of range 1. *)
Lemma sensor_list_fixed {S} `{HalProxy S} proximity out s st l :
  getSensorsList proximity out s = (st, l) ->
  st = status_ok /\
  exists l', l = out ++ l' /\
  Forall2 (fun '(_, i) o =>
    let samsung := typeAsString i ∈ ["com.samsung.sensor.physical_proximity";
                                     "com.samsung.sensor.hover_proximity"]%string in
    (info_handle o, info_name o, info_vendor o, minDelay o, maxDelay o, flags o) =
      (info_handle i, info_name i, info_vendor i, minDelay i, maxDelay i, flags i) /\
    requiredPermission o <> "com.samsung.permission.SSENSOR"%string /\
    (samsung -> info_type o = PROXIMITY /\ typeAsString o = proximity /\ maxRange o = float_one) /\
    (~ samsung -> info_type o = info_type i /\ typeAsString o = typeAsString i /\
                  maxRange o = maxRange i)) (hp_getSensors s) l'.
Proof.
  intros [= <- <-]. split; [done|]. eexists. split; [reflexivity|].
  apply Forall2_fmap_r, Forall_Forall2_diag, Forall_true. intros [k i].
  set (a := "com.samsung.sensor.physical_proximity"%string).
  set (b := "com.samsung.sensor.hover_proximity"%string).
  assert ((typeAsString i =? a)%string || (typeAsString i =? b)%string = true <->
          typeAsString i ∈ [a; b]) as Hs.
  { rewrite orb_true_iff, !String.eqb_eq. set_solver. }
  unfold convertSensorInfo, fix_sensor. fold a b. simpl.
  split_and!; [done| |intros Hin|intros Hin].
  - destruct (String.eqb_spec (requiredPermission i) "com.samsung.permission.SSENSOR");
      [discriminate|done].
  - by rewrite (proj2 Hs Hin).
  - destruct (_ || _); [|done]. by destruct (Hin (proj1 Hs eq_refl)).
Qed.

(** ** Witnesses *)

(** A first-in-first-out queue without bound. *)
#[export] Instance list_queue {E} : MessageQueue (list E) E := {
  mq_read n q := if (n <=? length q)%nat then (Some (take n q), drop n q) else (None, q);
  mq_write l q := (true, q ++ l);
  mq_writeBlocking l q := (true, q ++ l)
}.

#[export] Instance list_queue_laws {E} : MessageQueueLaws (list E) E.
Proof.
  refine {| mq_items := fun q : list E => q |}; simpl.
  - by intros l q q' [= <-].
  - by intros l q q' [= <-].
  - intros n q Hn. rewrite (proj2 (Nat.leb_le _ _)) by done. eauto.
Defined.

Definition demo_event : AidlEvent :=
  {| timestamp := 123456; sensorHandle := -7; sensorType := ACCELEROMETER;
     payload := vec3 0x3f800000 0xbf000000 0 (-1) |}.

Definition demo_hidl : V2_1Event :=
  {| h_timestamp := 5; h_sensorHandle := 3; h_sensorType := LIGHT; u := replicate 64 255 |}.

Lemma event_roundtrip_witness :
  exists h, convertToHidlEvent 0x10000 demo_event demo_hidl = Some h /\
    convertToAidlEvent 0x10000 h = Some (canonical demo_event).
Proof.
  apply (event_roundtrip 0x10000 demo_event demo_hidl); [reflexivity|].
  simpl. unfold word, sbyte. lia.
Defined.

Definition demo_wrapper : EventMessageQueueWrapperAidl (list AidlEvent) :=
  {| mQueue := []; mIntermediateEventBuffer := replicate 128 demo_event |}.

Definition demo_written : EventMessageQueueWrapperAidl (list AidlEvent) :=
  match wrapper_write 0x10000 [demo_hidl] demo_wrapper with Some (_, w) => w | None => demo_wrapper end.

(** The reading end, its buffer never used. *)
Definition demo_reader : EventMessageQueueWrapperAidl (list AidlEvent) :=
  {| mQueue := mQueue demo_written;
     mIntermediateEventBuffer := replicate 128 {| timestamp := 0; sensorHandle := 0; sensorType := LIGHT;
                                                  payload := scalar 0 |} |}.

Lemma queue_roundtrip_witness :
  exists hs' r', wrapper_read 0x10000 [demo_hidl] demo_reader = Some (true, hs', r') /\
    mapM (convertToAidlEvent 0x10000) hs' =
      Some [{| timestamp := 5; sensorHandle := 3; sensorType := LIGHT; payload := scalar 0xffffffff |}] /\
    mq_items (mQueue r') = [].
Proof.
  apply (queue_roundtrip 0x10000 [demo_hidl]
    [{| timestamp := 5; sensorHandle := 3; sensorType := LIGHT; payload := scalar 0xffffffff |}]
    [demo_hidl] demo_wrapper demo_written demo_reader).
  - apply Forall_singleton. split; [reflexivity|]. apply Forall_replicate. lia.
  - reflexivity.
  - simpl. lia.
  - reflexivity.
  - reflexivity.
  - reflexivity.
  - simpl. lia.
  - by apply Forall_singleton.
  - simpl. lia.
Defined.

Definition demo_sensor : SensorInfo :=
  {| info_handle := 1; info_name := "prox"; info_vendor := "AMS"; info_version := 1;
     info_type := OTHER_TYPE 65592; typeAsString := "com.samsung.sensor.hover_proximity";
     maxRange := 0x40a00000; resolution := 0x3f800000; power := 0; minDelay := 0;
     fifoReservedEventCount := 0; fifoMaxEventCount := 0;
     requiredPermission := "com.samsung.permission.SSENSOR"; maxDelay := 0; flags := 3 |}.

(** A proxy with the one sensor. *)
#[export] Instance demo_proxy : HalProxy unit := {
  hp_activate _ _ s := (OK, s);
  hp_batch _ _ _ s := (OK, s);
  hp_configDirectReport _ _ _ s := (None, s);
  hp_flush _ s := (OK, s);
  hp_getSensors _ := [(1, demo_sensor)];
  hp_injectSensorData _ s := (INVALID_OPERATION, s);
  hp_registerDirectChannel _ s := (None, s);
  hp_setOperationMode _ s := (OK, s);
  hp_unregisterDirectChannel _ s := (OK, s)
}.

Lemma sensor_list_fixed_witness :
  exists o, getSensorsList "android.sensor.proximity" [] tt = (status_ok, [o]) /\
    info_type o = PROXIMITY /\ requiredPermission o <> "com.samsung.permission.SSENSOR"%string.
Proof.
  destruct (sensor_list_fixed "android.sensor.proximity" [] tt _ _ eq_refl) as (_ & l' & E & Hf).
  eexists. split; [reflexivity|]. simpl in E. subst l'.
  apply Forall2_cons_1 in Hf as [(_ & Hperm & Hs & _) _]. split; [|exact Hperm].
  apply Hs. vm_compute. right. left.
Defined.
