(* ===== verification/SensorsQueues.v ===== *)
(** The wiring of the sensors proxy: HalProxyAidl::initialize and dump
    (src/aidl/sensors/HalProxyAidl.cpp), the wake-lock queue wrapper
    (include/WakeLockMessageQueueWrapperAidl.h) and the callback wrapper
    (include/ISensorsCallbackWrapperAidl.h).

    Building a queue from a descriptor is a parameter; a queue built with its pointers
    reset is empty.  The base class receives the wrappers through initializeCommon.
    The counts a 32-bit queue element carries are reinterpreted between signed and
    unsigned. *)
From S2P Require Import Prelude Bytes SensorsHal.
Local Open Scope Z_scope.

(** ** Wake-lock queue *)

Section wake_locks.
Context {Q : Type} `{MessageQueue Q Z}.

(** [write]: [reinterpret_cast<const int32_t *>] of one [uint32_t]. *)
Definition wake_write (wakeLock : Z) (q : Q) : bool * Q := mq_write [i32 wakeLock] q.

(** [readBlocking] of [n] counts into an array of [uint32_t]. *)
Definition wake_readBlocking (n : nat) (q : Q) : option (list Z) * Q :=
  let '(items, q) := mq_read n q in (map (wrap_u 32) <$> items, q).

(** Counts written one after the other. *)
Fixpoint wake_write_all (ws : list Z) (q : Q) : bool * Q :=
  match ws with
  | [] => (true, q)
  | w :: ws =>
      let '(ok, q) := wake_write w q in
      if ok then wake_write_all ws q else (false, q)
  end.

End wake_locks.

(** ** Callback wrapper *)

(** The calls the framework's callback receives. *)
Inductive callback_call :=
  | DynamicSensorsConnected (infos : list SensorInfo)
  | DynamicSensorsDisconnected (handles : list Z).

Definition onDynamicSensorsConnected (sensorInfos : list SensorInfo) : callback_call :=
  DynamicSensorsConnected (convertToAidlSensorInfos sensorInfos).

Definition onDynamicSensorsDisconnected (sensorHandles : list Z) : callback_call :=
  DynamicSensorsDisconnected sensorHandles.

(** ** initialize and dump *)

(** [MAX_RECEIVE_BUFFER_EVENT_COUNT] of the base class's headers, its initializeCommon
    and debug, and the construction of a queue. *)
Class HalProxyQueues (S QE QW CB D : Type) := {
  max_receive : nat;
  initializeCommon : EventMessageQueueWrapperAidl QE -> QW -> CB -> S -> Result * S;
  hp_debug : Z -> S -> S;
  open_events : D -> bool -> QE;
  open_wakes : D -> bool -> QW
}.

Section wiring.
Context {S QE QW CB D : Type} `{HalProxyQueues S QE QW CB D} (ERROR_NO_MEMORY : Z).

(** [blank]: what the event buffer of the new wrapper holds. *)
Definition initialize (blank : AidlEvent) (in_eventQueueDescriptor in_wakeLockDescriptor : D)
    (in_sensorsCallback : CB) (s : S) : ScopedAStatus * S :=
  let aidlEventQueue := open_events in_eventQueueDescriptor true in
  let eventQueue := {| mQueue := aidlEventQueue; mIntermediateEventBuffer := replicate max_receive blank |} in
  let wakeLockQueue := open_wakes in_wakeLockDescriptor true in
  let '(result, s) := initializeCommon eventQueue wakeLockQueue in_sensorsCallback s in
  (resultToAStatus ERROR_NO_MEMORY result, s).

Definition STATUS_OK : Z := 0.

(** [created]: whether native_handle_create succeeds; [None]: its null result is
    dereferenced. *)
Definition dump (created : bool) (fd : Z) (s : S) : option (Z * S) :=
  if created then Some (STATUS_OK, hp_debug fd s) else None.

(** main; [proxy] is the object the base class's constructor builds. [None]: the
    process aborts. *)
Definition sensors_main (proxy : S) (addService : Z) : option S :=
  if addService =? STATUS_OK then Some proxy else None.

End wiring.

(** ** Lemmas *)

(** Wake-lock counts go through the signed queue unchanged. *)
Lemma wake_locks_roundtrip {Q} `{MessageQueueLaws Q Z} ws : forall (q q' : Q),
  Forall word ws -> wake_write_all ws q = (true, q') ->
  mq_items q' = mq_items q ++ map (wrap_s 32) ws.
Proof.
  induction ws as [|w ws IH]; intros q q' Hw Hr; cbn in Hr.
  { injection Hr as <-. by rewrite app_nil_r. }
  apply Forall_cons in Hw as [Hw Hws]. destruct (wake_write w q) as [ok q1] eqn:E. destruct ok; [|done].
  rewrite (IH _ _ Hws Hr), (mq_write_ok _ _ _ E), <- app_assoc. done.
Qed.

Lemma wake_locks_read {Q} `{MessageQueueLaws Q Z} ws (q q' : Q) :
  Forall word ws -> mq_items q = [] -> wake_write_all ws q = (true, q') ->
  exists q2, wake_readBlocking (length ws) q' = (Some ws, q2) /\ mq_items q2 = [].
Proof.
  intros Hw He Hr. pose proof (wake_locks_roundtrip ws q q' Hw Hr) as Hi. rewrite He in Hi. simpl in Hi.
  destruct (mq_read_ok (length ws) q') as (q2 & Hq & Hd); [by rewrite Hi, length_map|].
  exists q2. unfold wake_readBlocking. rewrite Hq, Hd, Hi, take_ge, drop_ge by (by rewrite length_map).
  split; [|done]. cbn. do 2 f_equal. rewrite map_map. rewrite <- (map_id ws) at 2. apply map_ext_Forall.
  eapply Forall_impl; [exact Hw|]. intros w Hw1. simpl. rewrite wrap_u_wrap_s by lia. by apply wrap_u_id.
Qed.

(** What initialize hands to the base class: an empty event queue behind a wrapper
    with the whole buffer, and an empty wake-lock queue. *)
Lemma initialize_hands_over {S QE QW CB D : Type} `{HalProxyQueues S QE QW CB D}
    `{!MessageQueue QE AidlEvent, !MessageQueueLaws QE AidlEvent, !MessageQueue QW Z, !MessageQueueLaws QW Z}
    err blank de dw (cb : CB) (s : S) :
  (forall d, mq_items (open_events (S := S) (QW := QW) (CB := CB) d true) = []) ->
  (forall d, mq_items (open_wakes (S := S) (QE := QE) (CB := CB) d true) = []) ->
  exists (w : EventMessageQueueWrapperAidl QE) (wq : QW),
    initialize err blank de dw cb s =
      (resultToAStatus err (initializeCommon (D := D) w wq cb s).1, (initializeCommon (D := D) w wq cb s).2) /\
    mq_items (mQueue w) = [] /\ length (mIntermediateEventBuffer w) = max_receive (S := S) (QE := QE) (QW := QW) (CB := CB) (D := D) /\
    mq_items wq = [].
Proof.
  intros He Hw.
  exists {| mQueue := open_events de true; mIntermediateEventBuffer := replicate max_receive blank |}, (open_wakes dw true).
  split_and!; [|apply He|apply length_replicate|apply Hw].
  unfold initialize. by destruct (initializeCommon _ _ _ _).
Qed.
