(* ===== verification/MemtrackHal.v ===== *)
(** Model of the memtrack HAL (src/aidl/memtrack/Memtrack.cpp, GpuSysfsReader.{h,cpp})
    and of the small filesystem library it uses (filesystem.{h,cpp}).

    The file system is the environment [fs_env].  A number read from a stream that
    holds nothing leaves the variable as it was, which is the argument [junk] (the
    variable is uninitialised). *)
From S2P Require Import Prelude Texts Sysfs.
From Stdlib Require Import Ascii.
Local Open Scope string_scope.
Local Open Scope Z_scope.

Record fs_env := {
  fs_stat : string -> bool;                 (* stat succeeds *)
  fs_isdir : string -> bool;
  fs_islnk : string -> bool;
  fs_open : string -> option string;        (* contents, if it can be opened *)
  fs_realpath : string -> option string;
  fs_opendir : string -> option (list string)
}.

(** ** filesystem *)

(** [path] is its string. *)
Fixpoint rfind (c : ascii) (s : string) : option nat :=
  match s with
  | EmptyString => None
  | String a s =>
      match rfind c s with
      | Some n => Some (S n)
      | None => if Ascii.eqb a c then Some O else None
      end
  end.

Definition filename (p : string) : string :=
  match rfind "/"%char p with
  | None => p
  | Some pos => String.substring (S pos) (String.length p - S pos) p
  end.

Definition exists_ (env : fs_env) (p : string) : bool := fs_stat env p.

Definition is_directory (env : fs_env) (p : string) : bool := fs_stat env p && fs_isdir env p.

Definition is_symlink (env : fs_env) (p : string) : bool := fs_islnk env p.

Definition read_symlink (env : fs_env) (p : string) : string := default p (fs_realpath env p).

(** [ss(init); ss << s; ss.str()]: a stream opened on a string writes from its
    start. *)
Definition stream_over (init s : string) : string :=
  s ++ String.substring (String.length s) (String.length init - String.length s) init.

(** [None]: readdir on a null pointer. *)
Definition directory_iterator (env : fs_env) (p : string) : option (list string) :=
  if negb (exists_ env p) || negb (is_directory env p) then Some []
  else
    match fs_opendir env p with
    | None => None
    | Some names =>
        Some (map (fun d => stream_over p ("/" ++ d))
                (filter (fun d => d <> "." /\ d <> "..") names))
    end.

(** ** GpuSysfsReader *)

Definition kSysfsDevicePath : string := "/sys/class/misc/mali0/device".
Definition kProcessDir : string := "kprcs".
Definition kTotalGpuMemNode : string := "total_gpu_mem".
Definition kDmaBufGpuMemNode : string := "dma_buf_gpu_mem".

Definition is_digit (c : ascii) : bool :=
  let n := Ascii.nat_of_ascii c in ((48 <=? n) && (n <=? 57))%nat.

(** The value of an unsigned numeral: 0 when there are no digits, the maximum when
    there are too many. *)
Definition unsigned_value (neg : bool) (digits : string) : Z :=
  match digits with
  | String c _ =>
      if is_digit c then
        let v := strtol_digits digits 0 in
        if 2 ^ 64 <=? v then 2 ^ 64 - 1 else if neg then u64 (- v) else v
      else 0
  | EmptyString => 0
  end.

(** [file >> out]; [None] leaves [out] alone. *)
Definition stream_u64 (contents : string) : option Z :=
  match skip_space contents with
  | EmptyString => None
  | String c rest =>
      let n := Ascii.nat_of_ascii c in
      Some (if (n =? 45)%nat then unsigned_value true rest
            else if (n =? 43)%nat then unsigned_value false rest
            else unsigned_value false (String c rest))
  end.

Definition node_path (node : string) (pid : Z) : string :=
  if negb (pid =? 0)
  then kSysfsDevicePath ++ "/" ++ kProcessDir ++ "/" ++ dec pid ++ "/" ++ node
  else kSysfsDevicePath ++ "/" ++ node.

Section reader.
Context (env : fs_env) (junk : Z).

Definition readNode (node : string) (pid : Z) : Z :=
  let path := node_path node pid in
  if negb (exists_ env path) then 0
  else
    match fs_open env path with
    | None => 0
    | Some contents => default junk (stream_u64 contents)
    end.

Definition getDmaBufGpuMem (pid : Z) : Z := readNode kDmaBufGpuMemNode pid.

Definition getGpuMemTotal (pid : Z) : Z := readNode kTotalGpuMemNode pid.

Definition getPrivateGpuMem (pid : Z) : Z :=
  let dma_buf_size := getDmaBufGpuMem pid in
  let gpu_total_size := getGpuMemTotal pid in
  if gpu_total_size <? dma_buf_size then 0 else gpu_total_size - dma_buf_size.

(** ** Memtrack *)

Inductive MemtrackType := OTHER | GL | GRAPHICS | MULTIMEDIA | CAMERA | UNKNOWN_TYPE (n : Z).

#[export] Instance MemtrackType_eq_dec : EqDecision MemtrackType.
Proof. solve_decision. Defined.

(** A record carries FLAG_SMAPS_UNACCOUNTED and the size. *)
Inductive MemtrackRecord := SMAPS_UNACCOUNTED (sizeInBytes : Z).

(** The status and the new contents of the result vector, which was [out]. *)
Definition getMemory (pid : Z) (type : MemtrackType) (out : list MemtrackRecord) :
    ScopedAStatus * list MemtrackRecord :=
  if pid <? 0 then (fromExceptionCode EX_ILLEGAL_ARGUMENT, out)
  else
    match type with
    | UNKNOWN_TYPE _ => (fromExceptionCode EX_UNSUPPORTED_OPERATION, out)
    | _ =>
        if negb (bool_decide (type = GL)) && negb (bool_decide (type = GRAPHICS)) then (status_ok, [])
        else if (pid =? 0) && negb (bool_decide (type = GL)) then (status_ok, [])
        else
          let size := match type with
                      | GL => getPrivateGpuMem pid
                      | GRAPHICS => getDmaBufGpuMem pid
                      | _ => 0
                      end in
          (status_ok, [SMAPS_UNACCOUNTED (i64 size)])
    end.

(** The one device: id 0 and its name. *)
Definition getGpuDeviceInfo : ScopedAStatus * list (Z * string) :=
  let devName :=
    if exists_ env kSysfsDevicePath && is_symlink env kSysfsDevicePath
    then filename (read_symlink env kSysfsDevicePath) else "default-gpu" in
  (status_ok, [(0, devName)]).

(** main; the service object has no state. [None]: the process aborts. *)
Definition memtrack_main (addService : Z) : option unit := if addService =? 0 then Some tt else None.

End reader.

(** ** Lemmas *)

Fixpoint no_slash (s : string) : bool :=
  match s with
  | EmptyString => true
  | String a s => negb (Ascii.eqb a "/"%char) && no_slash s
  end.

Lemma substring_all s : String.substring 0 (String.length s) s = s.
Proof. induction s as [|a s IH]; simpl; [done|]. by rewrite IH. Qed.

Lemma rfind_none s : rfind "/"%char s = None -> no_slash s = true.
Proof.
  induction s as [|a s IH]; [done|]. cbn [rfind no_slash]. destruct (rfind _ s); [done|].
  destruct (Ascii.eqb a _); [done|]. simpl. auto.
Qed.

Lemma filename_cons a s : rfind "/"%char s <> None -> filename (String a s) = filename s.
Proof.
  unfold filename. cbn [rfind]. destruct (rfind _ s) as [n|]; [|done]. intros _.
  cbn [String.length String.substring]. done.
Qed.

(** A path is its directory part, empty or up to a slash, followed by its filename. *)
Lemma filename_spec s :
  no_slash (filename s) = true /\
  (s = filename s \/ exists dir, s = dir ++ String "/"%char (filename s)).
Proof.
  induction s as [|a s [IH1 IH2]]; [by split; [|left]|].
  destruct (rfind "/"%char s) as [n|] eqn:E.
  - rewrite filename_cons by congruence. split; [done|]. right.
    destruct IH2 as [Hs|[dir Hd]].
    + exfalso. rewrite Hs in E. assert (forall t, no_slash t = true -> rfind "/"%char t = None) as Hn.
      { induction t as [|b t IH]; [done|]. cbn [no_slash rfind]. intros Hb.
        apply andb_prop in Hb as [Hb Ht]. rewrite IH by done. by destruct (Ascii.eqb b _). }
      by rewrite Hn in E.
    + exists (String a dir). rewrite Hd at 1. done.
  - pose proof (rfind_none s E) as Hn. unfold filename. cbn [rfind]. rewrite E.
    destruct (Ascii.eqb_spec a "/"%char) as [->|Ha].
    + cbn [String.length String.substring]. rewrite Nat.sub_succ, Nat.sub_0_r, substring_all.
      split; [done|]. right. by exists "".
    + split; [|by left]. simpl. rewrite Hn, andb_true_r, negb_true_iff. by apply Ascii.eqb_neq.
Qed.

Lemma length_append s t : String.length (s ++ t) = (String.length s + String.length t)%nat.
Proof. induction s as [|a s IH]; simpl; [done|]. by rewrite <- IH. Qed.

Lemma length_substring n m s :
  (n + m <= String.length s)%nat -> String.length (String.substring n m s) = m.
Proof.
  revert n m. induction s as [|a s IH]; intros [|n] [|m] H; simpl in *; try lia; auto.
  - rewrite IH; lia.
  - apply IH. lia.
  - apply IH. lia.
Qed.

Lemma stream_over_length init s :
  String.length (stream_over init s) = Nat.max (String.length init) (String.length s).
Proof.
  unfold stream_over. rewrite length_append.
  destruct (Nat.le_gt_cases (String.length init) (String.length s)).
  - replace (String.length init - String.length s)%nat with 0%nat by lia.
    assert (forall n t, String.length (String.substring n 0 t) = 0%nat) as H0.
    { intros n t. revert n. induction t as [|a t IH]; intros [|n]; simpl; auto. }
    rewrite H0. lia.
  - rewrite length_substring; lia.
Qed.

(** A node that can be read as the number [v]. *)
Definition node_reads (env : fs_env) (node : string) (pid v : Z) : Prop :=
  fs_stat env (node_path node pid) = true /\
  exists c, fs_open env (node_path node pid) = Some c /\ stream_u64 c = Some v.

Lemma readNode_reads env junk node pid v : node_reads env node pid v -> readNode env junk node pid = v.
Proof.
  intros (Hs & c & Ho & Hv). unfold readNode, exists_. rewrite Hs, Ho. simpl. by rewrite Hv.
Qed.

Lemma stream_u64_range s v : stream_u64 s = Some v -> 0 <= v < 2 ^ 64.
Proof.
  assert (forall t acc, 0 <= acc -> 0 <= strtol_digits t acc) as Hpos.
  { induction t as [|a t IH]; intros acc Ha; simpl; [done|]. case_match eqn:E; [|done].
    apply andb_prop in E as [E1 E2]. apply IH. lia. }
  assert (forall b t, 0 <= unsigned_value b t < 2 ^ 64) as Hu.
  { intros b t. unfold unsigned_value. destruct t as [|a t]; [lia|]. destruct (is_digit a); [|lia].
    pose proof (Hpos (String a t) 0 ltac:(lia)).
    destruct (2 ^ 64 <=? strtol_digits (String a t) 0) eqn:E; [lia|]. apply Z.leb_gt in E.
    destruct b; [|lia]. apply (wrap_u_range 64). lia. }
  unfold stream_u64. destruct (skip_space s) as [|a t]; [done|]. intros [= <-].
  destruct (_ =? 45)%nat; [apply Hu|]. 
  destruct (_ =? 43)%nat; [apply Hu|apply (Hu false (String a t))].
Qed.

(** ** Theorems *)

(** For a process with both GPU nodes, the GL record (private memory) and the
    GRAPHICS record (dma-buf memory) add up to the total the driver reports, whenever
    the dma-buf part does not exceed the total; every size is non-negative. *)
Lemma gpu_memory_adds_up env junk pid dma total out :
  0 < pid -> node_reads env kDmaBufGpuMemNode pid dma -> node_reads env kTotalGpuMemNode pid total ->
  dma <= total < 2 ^ 63 ->
  exists gl gfx,
    getMemory env junk pid GL out = (status_ok, [SMAPS_UNACCOUNTED gl]) /\
    getMemory env junk pid GRAPHICS out = (status_ok, [SMAPS_UNACCOUNTED gfx]) /\
    0 <= gl /\ 0 <= gfx /\ gl + gfx = total.
Proof.
  intros Hp Hd Ht Hle.
  assert (0 <= dma) by (destruct Hd as (_ & c & _ & Hv); apply stream_u64_range in Hv; lia).
  unfold getMemory, getPrivateGpuMem, getDmaBufGpuMem, getGpuMemTotal.
  rewrite (readNode_reads env junk _ _ _ Hd), (readNode_reads env junk _ _ _ Ht).
  rewrite (proj2 (Z.ltb_ge pid 0)), (proj2 (Z.eqb_neq pid 0)), (proj2 (Z.ltb_ge total dma)) by lia.
  exists (total - dma), dma. simpl. change (2 ^ 63) with (2 ^ (64 - 1)) in Hle.
  rewrite !wrap_s_id by lia. split_and!; (done || lia).
Qed.

(** directory_iterator never yields the path of an entry: the stream opened on
    the directory writes the slash and the name over it instead of behind it.  It
    yields one string per entry (the two dot entries apart), and for a non-empty
    directory path each differs from that entry's path. *)
Lemma directory_entries_overwritten env p names :
  fs_stat env p = true -> fs_isdir env p = true -> fs_opendir env p = Some names -> p <> "" ->
  exists l, directory_iterator env p = Some l /\
    Forall2 (fun d e => e <> p ++ "/" ++ d) (filter (fun d => d <> "." /\ d <> "..") names) l.
Proof.
  intros Hs Hd Ho Hp. unfold directory_iterator, is_directory, exists_. rewrite Hs, Hd, Ho. simpl.
  eexists. split; [reflexivity|]. apply Forall2_fmap_r, Forall_Forall2_diag, Forall_true.
  intros d E. apply (f_equal String.length) in E. rewrite stream_over_length, !length_append in E.
  destruct p as [|a p]; [done|]. cbn [String.length] in E. lia.
Qed.

(** ** Witnesses *)

Definition demo_env : fs_env :=
  {| fs_stat _ := true; fs_isdir _ := true; fs_islnk _ := true;
     fs_open f := if bool_decide (f = node_path kTotalGpuMemNode 42) then Some "  4096000 " else Some "1000";
     fs_realpath _ := Some "/sys/devices/platform/17500000.mali";
     fs_opendir _ := Some ["."; ".."; "1234"] |}.

Lemma gpu_memory_adds_up_witness :
  exists gl gfx,
    getMemory demo_env 7 42 GL [] = (status_ok, [SMAPS_UNACCOUNTED gl]) /\
    getMemory demo_env 7 42 GRAPHICS [] = (status_ok, [SMAPS_UNACCOUNTED gfx]) /\
    0 <= gl /\ 0 <= gfx /\ gl + gfx = 4096000.
Proof.
  apply (gpu_memory_adds_up demo_env 7 42 1000 4096000 []); [lia| | |lia].
  - split; [reflexivity|]. exists "1000". split; vm_compute; reflexivity.
  - split; [reflexivity|]. exists "  4096000 ". split; vm_compute; reflexivity.
Defined.

Lemma directory_entries_overwritten_witness :
  exists l, directory_iterator demo_env "/sys" = Some l /\
    Forall2 (fun d e => e <> "/sys" ++ "/" ++ d) ["1234"] l.
Proof.
  apply (directory_entries_overwritten demo_env "/sys" ["."; ".."; "1234"]); [reflexivity..|discriminate].
Defined.

Example demo_listing : directory_iterator demo_env "/sys/kprcs" = Some ["/1234kprcs"].
Proof. reflexivity. Qed.

Example demo_device : getGpuDeviceInfo demo_env = (status_ok, [(0, "17500000.mali")]).
Proof. reflexivity. Qed.
