(* ===== verification/Secril.v ===== *)
(** Model of the property loader of the radio
    (src/ril/secril_config_svc/secril_config_svc.cpp).

    Split and EndsWith are libbase's: a class with what their documentation promises.
    What ReadFileToString answers is the argument [files], the calls to SetProperty
    are the result, oldest first. *)
From S2P Require Import Prelude.
From Stdlib Require Import Ascii.
Local Open Scope Z_scope.
Local Open Scope string_scope.

Definition EFS_OLD : string := "/efs/".
Definition EFS_NEW : string := "/mnt/vendor/efs/".
Definition FACTORY_PROP : string := "factory.prop".
Definition TELEPHONY_PROP : string := "telephony.prop".

Definition newline : ascii := Ascii.ascii_of_nat 10.
Definition nul : ascii := Ascii.ascii_of_nat 0.

(** The calls to android::base: [Split] at one delimiter, [EndsWith]. *)
Class Libbase := {
  Split : ascii -> string -> list string;
  EndsWith : string -> string -> bool
}.

Section secril.
Context `{Libbase}.

(** The loop; the literal compared with a line is the empty string, so the first
    empty line ends it. *)
Fixpoint load_lines (lines : list string) : list (string * string) :=
  match lines with
  | [] => []
  | line :: lines =>
      if (line =? "")%string then []
      else
        match Split "="%char line with
        | [k; v] => (k, v) :: load_lines lines
        | _ => load_lines lines
        end
  end.

Definition LoadProperties (data : string) : list (string * string) := load_lines (Split newline data).

(** [content.c_str()]: up to the first NUL. *)
Fixpoint c_str (s : string) : string :=
  match s with
  | EmptyString => ""
  | String a s => if Ascii.eqb a nul then "" else String a (c_str s)
  end.

(** [files]: the contents of the readable files; [args]: argv without the program. *)
Definition secril_main (files : string -> option string) (args : list string) :
    list (string * string) :=
  let prop := match args with
              | a :: _ => if (a =? "NetworkConfig")%string then TELEPHONY_PROP else FACTORY_PROP
              | [] => FACTORY_PROP
              end in
  let prop := if bool_decide (is_Some (files (EFS_NEW ++ prop))) then EFS_NEW ++ prop else EFS_OLD ++ prop in
  match files prop with
  | Some content => LoadProperties (c_str content)
  | None =>
      if EndsWith prop FACTORY_PROP then LoadProperties "ro.vendor.multisim.simslotcount=1" else []
  end.

End secril.

(** ** Specification *)

Fixpoint has_char (c : ascii) (s : string) : bool :=
  match s with
  | EmptyString => false
  | String a s => Ascii.eqb a c || has_char c s
  end.

(** A key or value that can be written in the file. *)
Definition plain (s : string) : bool :=
  negb (has_char "="%char s || has_char newline s || has_char nul s).

Fixpoint print_properties (l : list (string * string)) : string :=
  match l with
  | [] => ""
  | (k, v) :: l => k ++ String "="%char (v ++ String newline (print_properties l))
  end.

(** What the documentation says of the two calls: the tokens between delimiters,
    empty ones included, and the test for a suffix. *)
Class LibbaseLaws `{Libbase} := {
  Split_app c s rest : has_char c s = false -> Split c (s ++ String c rest) = s :: Split c rest;
  Split_none c s : has_char c s = false -> Split c s = [s];
  EndsWith_app s t : EndsWith (s ++ t) t = true
}.

(** ** Lemmas *)

Lemma has_char_app c s t : has_char c (s ++ t) = has_char c s || has_char c t.
Proof. induction s as [|a s IH]; simpl; [done|]. by rewrite IH, orb_assoc. Qed.

Lemma plain_split s : plain s = true ->
  has_char "="%char s = false /\ has_char newline s = false /\ has_char nul s = false.
Proof. unfold plain. rewrite negb_true_iff, !orb_false_iff. naive_solver. Qed.

Lemma c_str_id s : has_char nul s = false -> c_str s = s.
Proof.
  induction s as [|a s IH]; simpl; intros Hs; [done|].
  apply orb_false_iff in Hs as [-> Hs]. by rewrite IH.
Qed.

Lemma append_snoc s a t r : (s ++ String a t) ++ r = s ++ String a (t ++ r).
Proof.
  induction s as [|b s IH]; [done|].
  change (String b ((s ++ String a t) ++ r) = String b (s ++ String a (t ++ r))). by rewrite IH.
Qed.

Lemma load_print `{LibbaseLaws} l :
  Forall (fun '(k, v) => plain k = true /\ plain v = true) l ->
  LoadProperties (print_properties l) = l /\ has_char nul (print_properties l) = false.
Proof.
  induction 1 as [|[k v] l [Hk Hv] _ [IH Hn]].
  { unfold LoadProperties. cbn [print_properties]. by rewrite Split_none. }
  apply plain_split in Hk as (Hk1 & Hk2 & Hk3), Hv as (Hv1 & Hv2 & Hv3).
  unfold LoadProperties. cbn [print_properties]. split.
  - replace (k ++ String "="%char (v ++ String newline (print_properties l)))
      with ((k ++ String "="%char v) ++ String newline (print_properties l)) by (apply append_snoc).
    rewrite Split_app by (rewrite has_char_app; simpl; by rewrite Hk2, Hv2).
    cbn [load_lines]. rewrite Split_app by done. rewrite (Split_none _ v) by done.
    fold (LoadProperties (print_properties l)). rewrite IH.
    destruct (String.eqb_spec (k ++ String "="%char v) "") as [E|_]; [by destruct k|done].
  - rewrite has_char_app. simpl. rewrite has_char_app. simpl. by rewrite Hk3, Hv3, Hn.
Qed.

(** ** Theorems *)

(** C33: A property file of key=value lines, with plain keys and values, is loaded
    exactly: whichever of the two directories holds it, each pair is set once, in the
    order of the file. *)
Theorem properties_loaded `{LibbaseLaws} files args l :
  Forall (fun '(k, v) => plain k = true /\ plain v = true) l ->
  let prop := if bool_decide (head args = Some "NetworkConfig") then TELEPHONY_PROP else FACTORY_PROP in
  files (EFS_NEW ++ prop) = Some (print_properties l) \/
  files (EFS_NEW ++ prop) = None /\ files (EFS_OLD ++ prop) = Some (print_properties l) ->
  secril_main files args = l.
Proof.
  intros Hl prop Hf. destruct (load_print l Hl) as [Hload Hnul].
  assert (match args with
          | a :: _ => if (a =? "NetworkConfig")%string then TELEPHONY_PROP else FACTORY_PROP
          | [] => FACTORY_PROP end = prop) as Hp.
  { subst prop. destruct args as [|a args]; [done|]. simpl.
    destruct (String.eqb_spec a "NetworkConfig") as [->|Hne]; [done|].
    rewrite bool_decide_false; [done|congruence]. }
  unfold secril_main. rewrite Hp. destruct Hf as [Hf|[Hn Hf]].
  - rewrite bool_decide_true by (rewrite Hf; eauto). by rewrite Hf, c_str_id.
  - rewrite bool_decide_false by (rewrite Hn; apply is_Some_None). by rewrite Hf, c_str_id.
Qed.

(** Without a readable factory file one SIM slot is assumed. *)
Lemma default_slot_count `{LibbaseLaws} files :
  (forall f, files f = None) -> secril_main files [] = [("ro.vendor.multisim.simslotcount", "1")].
Proof.
  intros Hf. unfold secril_main. rewrite bool_decide_false by (rewrite Hf; apply is_Some_None).
  rewrite Hf, EndsWith_app. unfold LoadProperties. rewrite Split_none by done. cbn [load_lines].
  rewrite (Split_app "="%char "ro.vendor.multisim.simslotcount" "1"), Split_none by done. done.
Qed.

(** ** Witnesses *)

(** Tokens by a scan from the left. *)
Fixpoint split_at (c : ascii) (s : string) : list string :=
  match s with
  | EmptyString => [""]
  | String a s =>
      if Ascii.eqb a c then "" :: split_at c s
      else match split_at c s with
           | t :: ts => String a t :: ts
           | [] => [String a ""]
           end
  end.

Fixpoint ends_with (s suffix : string) : bool :=
  (s =? suffix)%string || match s with EmptyString => false | String _ s => ends_with s suffix end.

#[export] Instance scan_libbase : Libbase := {| Split := split_at; EndsWith := ends_with |}.

#[export] Instance scan_libbase_laws : LibbaseLaws.
Proof.
  split; simpl.
  - intros c s rest. induction s as [|a s IH]; simpl; intros Hs; [by rewrite Ascii.eqb_refl|].
    apply orb_false_iff in Hs as [-> Hs]. by rewrite IH.
  - intros c s. induction s as [|a s IH]; simpl; intros Hs; [done|].
    apply orb_false_iff in Hs as [-> Hs]. by rewrite IH.
  - intros s t. induction s as [|a s IH].
    + destruct t as [|b t]; [done|]. change ("" ++ String b t) with (String b t). cbn [ends_with].
      by rewrite String.eqb_refl.
    + change (String a s ++ t) with (String a (s ++ t)). cbn [ends_with]. by rewrite IH, orb_true_r.
Defined.

Definition demo_properties : list (string * string) :=
  [("ro.csc.sales_code", "XEF"); ("ro.vendor.multisim.simslotcount", "2")].

Definition demo_files (f : string) : option string :=
  if (f =? "/efs/factory.prop")%string then Some (print_properties demo_properties) else None.

Lemma properties_loaded_witness : secril_main demo_files [] = demo_properties.
Proof.
  apply (properties_loaded demo_files [] demo_properties).
  - repeat constructor.
  - right. split; reflexivity.
Defined.
