(* ===== verification/Arena.v ===== *)
(** Model of the demangler's node allocator, the class BumpPointerAllocator of
    src/shims/libdemangle/cxa_demangle.cpp.

    A block is known by an identifier: 0 is the buffer inside the object, malloc
    hands out fresh ones.  An address is a block and an offset into it; the header
    of a block, its BlockMeta, lies at offset 0.  The model covers both word sizes
    of the devices ([arch]).  malloc answering null ends the process. *)
From S2P Require Import Prelude.
Local Open Scope Z_scope.

(** ** Data *)

Inductive arch := ILP32 | LP64.

(** The width of [size_t], and the size of the two words of a BlockMeta. *)
Definition size_width (a : arch) : Z := match a with ILP32 => 32 | LP64 => 64 end.
Definition sizeof_BlockMeta (a : arch) : Z := match a with ILP32 => 8 | LP64 => 16 end.

#[global] Arguments size_width : simpl never.
#[global] Arguments sizeof_BlockMeta : simpl never.

Definition AllocSize : Z := 4096.
Definition UsableAllocSize (a : arch) : Z := AllocSize - sizeof_BlockMeta a.

(** A block: its identifier, the bytes malloc gave it, and [Current]. *)
Record BlockMeta := {
  block_id : nat;
  block_bytes : Z;
  Current : Z
}.

(** The list from [BlockList] along [Next]; [fresh] is the next identifier malloc
    hands out and [freed] the blocks given back, oldest first. *)
Record BumpPointerAllocator := {
  BlockList : list BlockMeta;
  fresh : nat;
  freed : list nat
}.

Record address := {
  in_block : nat;
  at_offset : Z
}.

Inductive alloc_result :=
  | Terminated                    (* std::terminate *)
  | NoBlocks                      (* a null BlockList is dereferenced *)
  | Allocated (p : address) (s : BumpPointerAllocator).

Definition InitialBuffer : nat := 0.

(** ** Operations *)

Definition BumpPointerAllocator_new : BumpPointerAllocator :=
  {| BlockList := [{| block_id := InitialBuffer; block_bytes := AllocSize; Current := 0 |}];
     fresh := 1; freed := [] |}.

Section allocator.
Context (a : arch).

(** [malloc] of [bytes] for the block put into the list by [f]. *)
Definition with_block (bytes : Z) (f : BlockMeta -> list BlockMeta) (s : BumpPointerAllocator) :
    BumpPointerAllocator :=
  {| BlockList := f {| block_id := fresh s; block_bytes := bytes; Current := 0 |};
     fresh := S (fresh s); freed := freed s |}.

Definition grow (malloc : bool) (s : BumpPointerAllocator) : option BumpPointerAllocator :=
  if malloc then Some (with_block AllocSize (fun b => b :: BlockList s) s) else None.

(** The new block goes behind the head of the list. *)
Definition allocateMassive (malloc : bool) (NBytes : Z) (s : BumpPointerAllocator) : alloc_result :=
  let NBytes := wrap_u (size_width a) (NBytes + sizeof_BlockMeta a) in
  if negb malloc then Terminated
  else
    match BlockList s with
    | [] => NoBlocks
    | b :: bs =>
        Allocated {| in_block := fresh s; at_offset := sizeof_BlockMeta a |}
          (with_block NBytes (fun n => b :: n :: bs) s)
    end.

(** [(N + 15u) & ~15u]: the mask is an [unsigned int], so it has no high bits. *)
Definition round16 (N : Z) : Z :=
  Z.land (wrap_u (size_width a) (N + 15)) (u32 (Z.lnot 15)).

(** Takes [N] bytes from the head of the list. *)
Definition bump (N : Z) (s : BumpPointerAllocator) : alloc_result :=
  match BlockList s with
  | [] => NoBlocks
  | b :: bs =>
      let c := wrap_u (size_width a) (Current b + N) in
      Allocated {| in_block := block_id b;
                   at_offset := wrap_u (size_width a) (sizeof_BlockMeta a + c - N) |}
        {| BlockList := {| block_id := block_id b; block_bytes := block_bytes b; Current := c |} :: bs;
           fresh := fresh s; freed := freed s |}
  end.

(** [malloc]: whether the malloc this call may make succeeds. *)
Definition allocate (malloc : bool) (N : Z) (s : BumpPointerAllocator) : alloc_result :=
  let N := round16 N in
  match BlockList s with
  | [] => NoBlocks
  | b :: _ =>
      if UsableAllocSize a <=? wrap_u (size_width a) (N + Current b) then
        if UsableAllocSize a <? N then allocateMassive malloc N s
        else match grow malloc s with
             | None => Terminated
             | Some s => bump N s
             end
      else bump N s
  end.

Definition reset (s : BumpPointerAllocator) : BumpPointerAllocator :=
  {| BlockList := BlockList BumpPointerAllocator_new; fresh := fresh s;
     freed := freed s ++ filter (fun i => i <> InitialBuffer) (map block_id (BlockList s)) |}.

(** The memory of an array of [sz] node pointers ([allocateNodeArray]). *)
Definition allocateNodeArray (malloc : bool) (sz : Z) (s : BumpPointerAllocator) : alloc_result :=
  allocate malloc (wrap_u (size_width a) (size_width a / 8 * sz)) s.

(** The parser's use: requests, each with the answer of malloc, and resets.  The
    regions handed out since the last reset, newest first, with the sizes asked for;
    [None] when malloc failed. *)
Inductive arena_op := Request (malloc : bool) (N : Z) | Reset.

Definition arena_step (o : arena_op) (rs : list (address * Z) * BumpPointerAllocator) :
    option (list (address * Z) * BumpPointerAllocator) :=
  match o with
  | Request m N =>
      match allocate m N rs.2 with
      | Allocated p s => Some ((p, N) :: rs.1, s)
      | _ => None
      end
  | Reset => Some ([], reset rs.2)
  end.

Fixpoint arena_run (ops : list arena_op) (rs : list (address * Z) * BumpPointerAllocator) :
    option (list (address * Z) * BumpPointerAllocator) :=
  match ops with
  | [] => Some rs
  | o :: ops => rs ← arena_step o rs; arena_run ops rs
  end.

End allocator.

(** ** Specification *)

(** Every block malloc handed out is in the list or was freed, and none twice; the
    buffer of the object is never freed. *)
Definition blocks_owned (s : BumpPointerAllocator) : Prop :=
  map block_id (BlockList s) ++ freed s ≡ₚ seq 0 (fresh s) /\
  InitialBuffer ∈ map block_id (BlockList s).

(** Two regions share no byte. *)
Definition disjoint_regions (r1 r2 : address * Z) : Prop :=
  in_block r1.1 <> in_block r2.1 \/
  at_offset r1.1 + r1.2 <= at_offset r2.1 \/ at_offset r2.1 + r2.2 <= at_offset r1.1.

(** The list is never empty and its head is a block nodes are taken from; blocks
    have different identifiers; a region lies inside a block of the list behind its
    header, aligned to the size of a header, below [Current] if the block is the head;
    no two regions overlap. *)
Record arena_ok (a : arch) (regions : list (address * Z)) (s : BumpPointerAllocator) : Prop := {
  ao_blocks : BlockList s <> [];
  ao_head : forall b, head (BlockList s) = Some b ->
    block_bytes b = AllocSize /\ 0 <= Current b <= UsableAllocSize a /\ (16 | Current b) /\
    forall r, r ∈ regions -> in_block r.1 = block_id b -> at_offset r.1 + r.2 <= sizeof_BlockMeta a + Current b;
  ao_ids : NoDup (map block_id (BlockList s));
  ao_fresh : forall b, b ∈ BlockList s -> (block_id b < fresh s)%nat;
  ao_in : forall r, r ∈ regions -> 0 <= r.2 /\
    exists b, b ∈ BlockList s /\ in_block r.1 = block_id b /\
      sizeof_BlockMeta a <= at_offset r.1 /\ at_offset r.1 + r.2 <= block_bytes b /\
      (sizeof_BlockMeta a | at_offset r.1);
  ao_disjoint : ForallOrdPairs disjoint_regions regions
}.

(** ** Lemmas *)

Section lemmas.
Context (a : arch).

Lemma sizeof_cases : sizeof_BlockMeta a = 8 \/ sizeof_BlockMeta a = 16.
Proof. destruct a; auto. Qed.

Lemma sizeof_divide z : (16 | z) -> (sizeof_BlockMeta a | sizeof_BlockMeta a + z).
Proof.
  intros. apply Z.divide_add_r; [apply Z.divide_refl|]. etransitivity; [|done]. by apply Z.mod_divide; destruct a.
Qed.

Lemma width_le z : z < 2 ^ 32 -> z < 2 ^ size_width a.
Proof. intros. unfold size_width. destruct a; lia. Qed.

(** Sizes that leave room for the rounding and a header in 32 bits. *)
Definition reasonable (N : Z) : Prop := 0 <= N < 2 ^ 32 - 8192.

Lemma round16_spec N : reasonable N ->
  round16 a N = (N + 15) / 16 * 16 /\ N <= round16 a N < N + 16.
Proof.
  unfold reasonable. intros HN. assert (round16 a N = (N + 15) / 16 * 16) as ->.
  { unfold round16. rewrite wrap_u_id by (split; [lia|apply width_le; lia]).
    apply (land_align_down 32 4); lia. }
  split; [done|]. Z.div_mod_to_equations. lia.
Qed.

Lemma arena_ok_new : arena_ok a [] BumpPointerAllocator_new.
Proof.
  pose proof sizeof_cases. split; simpl.
  - done.
  - intros b [= <-]. simpl. unfold UsableAllocSize, AllocSize. split_and!; [done|lia..|apply Z.divide_0_r|set_solver].
  - apply NoDup_singleton.
  - intros b ->%list_elem_of_singleton. simpl. unfold InitialBuffer. lia.
  - set_solver.
  - constructor.
Qed.

(** Regions of other blocks are disjoint from a region of a block that has none. *)
Lemma disjoint_new_block bs regions p N :
  (forall r, r ∈ regions -> exists b, b ∈ bs /\ in_block r.1 = block_id b) ->
  in_block p ∉ map block_id bs -> Forall (disjoint_regions (p, N)) regions.
Proof.
  intros Hr Hp. apply Forall_forall. intros r Hin. destruct (Hr r Hin) as (b & Hb & E). left.
  simpl. rewrite E. intros E2. apply Hp. rewrite E2. by apply list_elem_of_fmap_2.
Qed.

(** Putting a block with a fresh identifier into the list. *)
Lemma fresh_notin regions s : arena_ok a regions s -> fresh s ∉ map block_id (BlockList s).
Proof.
  intros [_ _ _ Hf _ _] (b & E & Hb)%list_elem_of_fmap. specialize (Hf b Hb). lia.
Qed.

Lemma region_block regions s : arena_ok a regions s ->
  forall r, r ∈ regions -> exists b, b ∈ BlockList s /\ in_block r.1 = block_id b.
Proof. intros Hs r Hr. destruct (ao_in _ _ _ Hs r Hr) as (_ & b & ? & ? & _). eauto. Qed.

Lemma grow_ok regions s s' : arena_ok a regions s -> grow true s = Some s' ->
  arena_ok a regions s' /\ exists b bs, BlockList s' = b :: bs /\ Current b = 0.
Proof.
  intros Hs [= <-]. pose proof (fresh_notin _ _ Hs) as Hn. pose proof (region_block _ _ Hs) as Hr.
  destruct Hs as [Hb Hh Hi Hf Hin Hd]. pose proof sizeof_cases. split; [|by eexists _, _].
  split; simpl.
  - done.
  - intros b [= <-]. simpl. unfold UsableAllocSize, AllocSize. split_and!; [done|lia..|apply Z.divide_0_r|].
    intros r Hr1 E. destruct (Hr r Hr1) as (b & Hb1 & E1). exfalso. apply Hn. rewrite <- E, E1.
    by apply list_elem_of_fmap_2.
  - by constructor.
  - intros b [->|Hb1]%elem_of_cons; simpl; [lia|]. specialize (Hf b Hb1). lia.
  - intros r Hr1. destruct (Hin r Hr1) as (H0 & b & Hb1 & ?). split; [done|]. exists b.
    split; [by right|done].
  - done.
Qed.

(** Adding a region that overlaps none. *)
Lemma arena_ok_region regions s r : arena_ok a regions s -> 0 <= r.2 ->
  (exists b, b ∈ BlockList s /\ in_block r.1 = block_id b /\
     sizeof_BlockMeta a <= at_offset r.1 /\ at_offset r.1 + r.2 <= block_bytes b /\
     (sizeof_BlockMeta a | at_offset r.1) /\
     (head (BlockList s) = Some b -> at_offset r.1 + r.2 <= sizeof_BlockMeta a + Current b)) ->
  Forall (disjoint_regions r) regions -> arena_ok a (r :: regions) s.
Proof.
  intros [Hb Hh Hi Hf Hin Hd] H0 (b & Hb1 & E & Ho & Hl & Hal & Hc) Hdr. split; try done.
  - intros b' Hb'. destruct (Hh b' Hb') as (? & ? & ? & Hreg). do 3 (split; [done|]).
    intros r' [->|Hr']%elem_of_cons E'; [|by apply Hreg].
    assert (b' = b) as ->; [|by apply Hc]. apply head_Some_elem_of in Hb'.
    destruct (list_elem_of_lookup_1 _ _ Hb') as [i Hi1], (list_elem_of_lookup_1 _ _ Hb1) as [j Hj].
    assert (i = j) as ->; [|congruence].
    eapply (NoDup_lookup (map block_id (BlockList s))); [done|by rewrite list_lookup_fmap, Hi1|].
    rewrite list_lookup_fmap, Hj. simpl. congruence.
  - intros r' [->|Hr']%elem_of_cons; [|by apply Hin]. split; [done|]. by exists b.
  - by constructor.
Qed.

Lemma bump_ok regions s b bs N n :
  arena_ok a regions s -> BlockList s = b :: bs -> 0 <= N <= n -> (16 | n) -> n + Current b <= UsableAllocSize a ->
  let p := {| in_block := block_id b; at_offset := sizeof_BlockMeta a + Current b |} in
  exists s', bump a n s = Allocated p s' /\ arena_ok a ((p, N) :: regions) s'.
Proof.
  intros Hs Hl HN Hal Hn p. subst p. pose proof sizeof_cases as Hz. pose proof (ao_head _ _ _ Hs b) as Hh.
  rewrite Hl in Hh. destruct (Hh eq_refl) as (Hby & Hc & Hcm & Hreg). unfold UsableAllocSize, AllocSize in *.
  unfold bump. rewrite Hl, (wrap_u_id _ (Current b + n)) by (split; [lia|apply width_le; lia]).
  rewrite wrap_u_id by (split; [lia|apply width_le; lia]).
  replace (sizeof_BlockMeta a + (Current b + n) - n) with (sizeof_BlockMeta a + Current b) by lia.
  eexists. split; [reflexivity|].
  apply arena_ok_region; simpl; [|lia| |].
  - destruct Hs as [_ _ Hi Hf Hin Hd]. rewrite Hl in *. split; simpl; try done.
    + intros b' [= <-]. simpl. unfold UsableAllocSize, AllocSize. split_and!; [done|lia..|by apply Z.divide_add_r|].
      intros r Hr E. specialize (Hreg r Hr E). lia.
    + intros b' [->|Hb']%elem_of_cons; [apply (Hf b); left|apply Hf; by right].
    + intros r Hr. destruct (Hin r Hr) as (H0 & b' & Hb' & Hrest). split; [done|].
      apply elem_of_cons in Hb' as [->|Hb']; [|exists b'; split; [by right|done]].
      eexists. split; [by left|]. done.
  - eexists. split; [by left|]. simpl. split_and!; [done|lia|lia|by apply sizeof_divide|lia].
  - apply Forall_forall. intros r Hr. destruct (decide (in_block r.1 = block_id b)) as [E|E]; [|by left].
    specialize (Hreg r Hr E). right. right. simpl. lia.
Qed.

Lemma massive_ok regions s N n :
  arena_ok a regions s -> 0 <= N <= n -> n + sizeof_BlockMeta a < 2 ^ 32 ->
  exists p s', allocateMassive a true n s = Allocated p s' /\ arena_ok a ((p, N) :: regions) s'.
Proof.
  intros Hs HN Hn. pose proof sizeof_cases as Hz. pose proof (fresh_notin _ _ Hs) as Hfr.
  pose proof (region_block _ _ Hs) as Hrb. unfold allocateMassive. cbn [negb].
  rewrite wrap_u_id by (split; [lia|by apply width_le]).
  destruct (BlockList s) as [|b bs] eqn:Hl; [by destruct (ao_blocks _ _ _ Hs)|].
  eexists _, _. split; [reflexivity|]. apply arena_ok_region; simpl; [|lia| |].
  - destruct Hs as [_ Hh Hi Hf Hin Hd]. rewrite Hl in *. split; simpl; try done.
    + simpl in Hfr, Hi. apply NoDup_cons in Hi as [Hi1 Hi2].
      rewrite not_elem_of_cons in Hfr. destruct Hfr as [Hf1 Hf2].
      apply NoDup_cons. split; [|by apply NoDup_cons].
      rewrite not_elem_of_cons. by split.
    + intros b' Hb'. rewrite !elem_of_cons in Hb'. destruct Hb' as [->|[->|Hb']]; simpl.
      * specialize (Hf b ltac:(by left)). lia.
      * lia.
      * specialize (Hf b' ltac:(by right)). lia.
    + intros r Hr. destruct (Hin r Hr) as (H0 & b' & Hb' & Hrest). split; [done|]. exists b'.
      split; [|done]. rewrite !elem_of_cons. apply elem_of_cons in Hb' as [->|?]; auto.
  - eexists. split; [right; left|]. simpl. split_and!; [done|lia|lia|apply Z.divide_refl|].
    intros [= E]. exfalso. apply Hfr. rewrite E. simpl. left.
  - by eapply disjoint_new_block.
Qed.

(** A request that malloc can serve yields a new region beside the others. *)
Lemma allocate_ok regions s N :
  arena_ok a regions s -> reasonable N ->
  exists p s', allocate a true N s = Allocated p s' /\ arena_ok a ((p, N) :: regions) s'.
Proof.
  intros Hs HN. destruct (round16_spec N HN) as [Hr0 Hr]. unfold reasonable in HN.
  pose proof sizeof_cases as Hz. unfold allocate.
  assert (16 | round16 a N) as Hd by (rewrite Hr0; apply Z.divide_factor_r).
  destruct (BlockList s) as [|b bs] eqn:Hl; [by destruct (ao_blocks _ _ _ Hs)|].
  destruct (ao_head _ _ _ Hs b ltac:(by rewrite Hl)) as (_ & Hc & _ & _).
  unfold UsableAllocSize, AllocSize in Hc |- *.
  rewrite wrap_u_id by (split; [lia|apply width_le; lia]).
  destruct (4096 - sizeof_BlockMeta a <=? round16 a N + Current b) eqn:E1.
  - destruct (4096 - sizeof_BlockMeta a <? round16 a N) eqn:E2.
    + apply massive_ok; [done|lia|lia].
    + destruct (grow true s) as [s1|] eqn:G; [|done].
      destruct (grow_ok _ _ _ Hs G) as (H1 & b1 & bs1 & Hl1 & Hc1).
      destruct (bump_ok _ _ b1 bs1 N (round16 a N) H1 Hl1) as (s' & Hb & Hok);
        [lia|done|unfold UsableAllocSize, AllocSize; lia|]. eauto.
  - destruct (bump_ok _ _ b bs N (round16 a N) Hs Hl) as (s' & Hb & Hok);
      [lia|done|unfold UsableAllocSize, AllocSize; lia|]. eauto.
Qed.

End lemmas.

(** Requests malloc can serve, of sizes that do not overflow. *)
Definition served (o : arena_op) : Prop :=
  match o with Request m N => m = true /\ reasonable N | Reset => True end.

Lemma arena_run_ok a ops rs : arena_ok a rs.1 rs.2 -> Forall served ops ->
  exists rs', arena_run a ops rs = Some rs' /\ arena_ok a rs'.1 rs'.2.
Proof.
  intros Hok Hops. revert rs Hok. induction Hops as [|o ops Ho _ IH]; intros rs Hok; [by exists rs|].
  destruct o as [m N|]; cbn [arena_run arena_step].
  - destruct Ho as [-> HN]. destruct (allocate_ok a _ _ N Hok HN) as (p & s' & -> & Hok'). by apply IH.
  - apply IH. destruct (arena_ok_new a) as [H1 H2 H3 H4 H5 H6]. split; simpl in *; try done.
    intros b ->%list_elem_of_singleton. destruct Hok as [Hb _ _ Hf _ _].
    destruct (BlockList rs.2) as [|b bs]; [done|]. specialize (Hf b ltac:(by left)). unfold InitialBuffer. simpl. lia.
Qed.

(** *** Ownership *)

Lemma with_block_owned bytes f s :
  (forall b, map block_id (f b) ≡ₚ block_id b :: map block_id (BlockList s)) ->
  blocks_owned s -> blocks_owned (with_block bytes f s).
Proof.
  intros Hf [Hp Hi]. split; cbn [with_block BlockList fresh freed].
  - rewrite Hf. cbn [app block_id]. rewrite Hp. by rewrite seq_S, <- Permutation_cons_append.
  - rewrite Hf. by right.
Qed.

Lemma bump_owned a N s p s' : bump a N s = Allocated p s' -> blocks_owned s -> blocks_owned s'.
Proof.
  unfold bump, blocks_owned. destruct (BlockList s) as [|b bs]; [done|]. intros [= <- <-]. done.
Qed.

Lemma allocate_owned a m N s p s' : allocate a m N s = Allocated p s' -> blocks_owned s -> blocks_owned s'.
Proof.
  intros H Hs. unfold allocate in H. destruct (BlockList s) as [|b bs] eqn:Hl; [done|].
  case_match; [|by eapply bump_owned, Hs]. case_match.
  - unfold allocateMassive in H. destruct m; [|done]. cbn [negb] in H. rewrite Hl in H. simplify_eq.
    apply with_block_owned; [|done]. intros n. rewrite Hl. apply perm_swap.
  - destruct m; [|done]. eapply bump_owned; [apply H|]. by apply with_block_owned.
Qed.

Lemma filter_initial l n : l ≡ₚ seq 0 n -> InitialBuffer ∈ l ->
  filter (fun i => i <> InitialBuffer) l ≡ₚ seq 1 (n - 1).
Proof.
  intros Hp Hi. destruct n as [|n]; [rewrite Hp in Hi; by apply elem_of_nil in Hi|].
  rewrite Hp. simpl. rewrite filter_cons_False by (by intros []). rewrite Nat.sub_0_r.
  rewrite list_filter_all; [done|]. intros i Hin. apply elem_of_seq in Hin. unfold InitialBuffer. lia.
Qed.

Lemma reset_frees_all s : blocks_owned s -> freed (reset s) ≡ₚ seq 1 (fresh s - 1).
Proof.
  intros [Hp Hi]. rewrite <- (filter_initial _ _ Hp) by (apply elem_of_app; by left).
  rewrite filter_app. simpl.
  assert (InitialBuffer ∉ freed s) as Hn.
  { pose proof (NoDup_seq 0 (fresh s)) as Hnd. rewrite <- Hp in Hnd. apply NoDup_app in Hnd as (_ & Hd & _).
    by apply Hd. }
  rewrite (list_filter_all _ (freed s)); [apply Permutation_app_comm|]. intros i Hin ->. done.
Qed.

Lemma arena_run_owned a ops rs rs' :
  arena_run a ops rs = Some rs' -> blocks_owned rs.2 -> blocks_owned rs'.2.
Proof.
  revert rs. induction ops as [|o ops IH]; intros rs H Hs; [by simplify_eq/=|].
  cbn [arena_run] in H. destruct (arena_step a o rs) as [rs1|] eqn:E; [|done].
  apply (IH _ H). destruct o as [m N|]; simpl in E.
  - case_match; simplify_eq. simpl. by eapply allocate_owned.
  - simplify_eq. split; simpl; [|set_solver]. destruct (fresh rs.2) as [|n] eqn:Ef.
    + destruct Hs as [Hp Hi]. rewrite Ef in Hp. simpl in Hp. apply Permutation_nil_r, app_eq_nil in Hp as [Hn _].
      rewrite Hn in Hi. set_solver.
    + simpl. apply perm_skip. pose proof (reset_frees_all _ Hs) as Hp. simpl in Hp.
      by rewrite Hp, Ef, Nat.sub_succ, Nat.sub_0_r.
Qed.

(** ** Properties *)

(** C34: Whatever sequence of requests and resets the parser makes, as long as malloc
    serves it and the sizes are below 2^32 - 8192 bytes, every request is answered, and
    the regions handed out since the last reset lie inside live blocks behind their
    headers, aligned, and never overlap. *)
Theorem arena_regions_disjoint a ops :
  Forall served ops ->
  exists regions s, arena_run a ops ([], BumpPointerAllocator_new) = Some (regions, s) /\
    arena_ok a regions s.
Proof.
  intros H. destruct (arena_run_ok a ops ([], BumpPointerAllocator_new)) as ([regions s] & ? & ?);
    [apply arena_ok_new|done|]. by exists regions, s.
Qed.

(** A small node, one too large for any block, one that needs a new block, a reset. *)
Definition example_ops : list arena_op :=
  [Request true 24; Request true 5000; Request true 4050; Request true 40; Reset; Request true 1].

Lemma arena_regions_disjoint_witness :
  Forall served example_ops /\
  exists regions s, arena_run LP64 example_ops ([], BumpPointerAllocator_new) = Some (regions, s) /\
    arena_ok LP64 regions s.
Proof.
  assert (Forall served example_ops) as H by (repeat constructor; lia).
  split; [exact H|]. apply (arena_regions_disjoint LP64 example_ops). exact H.
Defined.

(** C35: Destroying the allocator after any use gives every block malloc handed out
    back exactly once, and never the buffer inside the object. *)
Theorem arena_blocks_freed_once a ops regions s :
  arena_run a ops ([], BumpPointerAllocator_new) = Some (regions, s) ->
  freed (reset s) ≡ₚ seq 1 (fresh s - 1).
Proof.
  intros H. apply reset_frees_all. apply (arena_run_owned _ _ _ _ H).
  split; simpl; [done|set_solver].
Qed.

Lemma arena_blocks_freed_once_witness :
  exists regions s, arena_run ILP32 example_ops ([], BumpPointerAllocator_new) = Some (regions, s) /\
    freed (reset s) ≡ₚ seq 1 3.
Proof.
  eexists _, _. split; [vm_compute; reflexivity|].
  refine (arena_blocks_freed_once ILP32 example_ops _ _ _). vm_compute. reflexivity.
Defined.

Example arena_example :
  option_map (fun rs => (rs.1, fresh rs.2, freed rs.2))
    (arena_run ILP32 example_ops ([], BumpPointerAllocator_new)) =
  Some ([({| in_block := 0; at_offset := 8 |}, 1)], 4%nat, [3; 2; 1]%nat).
Proof. vm_compute. reflexivity. Qed.

(** On a 64-bit device the rounding drops the high half of a size of 4 GiB or more:
    the caller gets a region shorter than what it asked for. *)
Lemma huge_request_truncated : round16 LP64 (2 ^ 32 + 32) = 32.
Proof. vm_compute. reflexivity. Qed.
