(* ===== verification/Demangle.v ===== *)
(** Model of the demangler shim, src/shims/libdemangle/cxa_demangle.cpp: the parser
    of discriminators, the dump of a syntax tree (DumpVisitor) and __cxa_demangle.

    The grammar's parser, the node types and the output stream are in the header
    demangle/ItaniumDemangle.h, which the tree does not hold: the nodes are a finite
    map from addresses to a kind name with the fields its [match] hands out, and the
    parser and the stream are the class [ItaniumDemangle].  The text the visitor
    writes to stderr is part of its state. *)
From stdpp Require Import pretty.
From S2P Require Import Prelude.
From Stdlib Require Import Ascii.
Local Open Scope Z_scope.

(** ** Discriminators *)

Definition isdigit (c : ascii) : bool :=
  (Ascii.nat_of_ascii "0" <=? Ascii.nat_of_ascii c)%nat &&
  (Ascii.nat_of_ascii c <=? Ascii.nat_of_ascii "9")%nat.

(** [for (; t1 != last && std::isdigit( *t1); ++t1)] *)
Fixpoint skip_digits (t1 : list ascii) : list ascii :=
  match t1 with
  | c :: t => if isdigit c then skip_digits t else t1
  | [] => []
  end.

(** A pointer into the text [first, last) is the rest of the text it points to. *)
Definition parse_discriminator (first : list ascii) : list ascii :=
  match first with
  | [] => first
  | c :: t1 =>
      if bool_decide (c = "_"%char) then
        match t1 with
        | [] => first
        | d :: t2 =>
            if isdigit d then t2
            else if bool_decide (d = "_"%char) then
              match skip_digits t2 with
              | e :: t3 => if bool_decide (e = "_"%char) then t3 else first
              | [] => first
              end
            else first
        end
      else if isdigit c then
        match skip_digits t1 with
        | [] => []
        | _ :: _ => first
        end
      else first
  end.

(** ** The dump of a tree *)

Inductive ReferenceKind := LValue | RValue.
Inductive FunctionRefQual := FrefQualNone | FrefQualLValue | FrefQualRValue.
Inductive SpecialSubKind := allocator | basic_string | SSK_string | istream | ostream | iostream.

(** A node's address; null is [None]. *)
Definition Node_ptr := option nat.

Inductive NodeOrString :=
  | NOS_Node (N : Node_ptr)
  | NOS_String (SV : string)
  | NOS_Empty.

(** What the fields of a node may be: the overloads of [print]. *)
Inductive node_field :=
  | FStringView (SV : string)
  | FNode (N : Node_ptr)
  | FNodeOrString (NS : NodeOrString)
  | FNodeArray (A : list Node_ptr)
  | FBool (B : bool)
  | FUnsigned (N : Z)
  | FSigned (N : Z)
  | FReferenceKind (RK : ReferenceKind)
  | FFunctionRefQual (RQ : FunctionRefQual)
  | FQualifiers (Qs : Z)
  | FSpecialSubKind (SSK : SpecialSubKind).

(** A node: the name of its kind and the (one or more) fields [match] hands out; a
    forward reference to a template argument with its index and, once resolved, the
    node it refers to. *)
Inductive node :=
  | NodeT (name : string) (V : node_field) (Vs : list node_field)
  | ForwardTemplateReference (Index : node_field) (Ref : Node_ptr).

(** The bits of [Qualifiers], from the header. *)
Class QualifierBits := {
  QualConst : Z;
  QualVolatile : Z;
  QualRestrict : Z
}.

(** [Printing] holds the nodes whose flag of that name is set; [err] is what stderr
    received. *)
Record DumpVisitor := {
  Depth : Z;
  PendingNewline : bool;
  Printing : gset nat;
  err : string
}.

Definition wantsNewline (V : node_field) : bool :=
  match V with
  | FNode _ => true
  | FNodeArray A => bool_decide (A <> [])
  | _ => false
  end.

Definition anyWantNewline (Vs : list node_field) : bool := existsb wantsNewline Vs.

Definition printStr (S : string) (v : DumpVisitor) : DumpVisitor :=
  {| Depth := Depth v; PendingNewline := PendingNewline v; Printing := Printing v;
     err := (err v +:+ S) |}.
Definition set_depth (d : Z) (v : DumpVisitor) : DumpVisitor :=
  {| Depth := d; PendingNewline := PendingNewline v; Printing := Printing v; err := err v |}.
Definition set_pending (b : bool) (v : DumpVisitor) : DumpVisitor :=
  {| Depth := Depth v; PendingNewline := b; Printing := Printing v; err := err v |}.
Definition set_printing (p : gset nat) (v : DumpVisitor) : DumpVisitor :=
  {| Depth := Depth v; PendingNewline := PendingNewline v; Printing := p; err := err v |}.

Definition ReferenceKind_name (RK : ReferenceKind) : string :=
  match RK with LValue => "ReferenceKind::LValue" | RValue => "ReferenceKind::RValue" end.

Definition FunctionRefQual_name (RQ : FunctionRefQual) : string :=
  match RQ with
  | FrefQualNone => "FunctionRefQual::FrefQualNone"
  | FrefQualLValue => "FunctionRefQual::FrefQualLValue"
  | FrefQualRValue => "FunctionRefQual::FrefQualRValue"
  end.

Definition SpecialSubKind_name (SSK : SpecialSubKind) : string :=
  match SSK with
  | allocator => "SpecialSubKind::allocator"
  | basic_string => "SpecialSubKind::basic_string"
  | SSK_string => "SpecialSubKind::string"
  | istream => "SpecialSubKind::istream"
  | ostream => "SpecialSubKind::ostream"
  | iostream => "SpecialSubKind::iostream"
  end.

Definition newLine (v : DumpVisitor) : DumpVisitor :=
  let v := printStr (String "010" EmptyString) v in
  let v := Nat.iter (Z.to_nat (Depth v)) (printStr " ") v in
  set_pending false v.

Section visitor.
Context `{!QualifierBits}.

(** The loop over the names, with what is left of [Qs]. *)
Fixpoint print_qual_names (Names : list (Z * string)) (Qs : Z) (v : DumpVisitor) : DumpVisitor :=
  match Names with
  | [] => v
  | (Q, Name) :: Names =>
      if Z.land Qs Q =? 0 then print_qual_names Names Qs v
      else
        let v := printStr Name v in
        let Qs := Z.land Qs (Z.lnot Q) in
        let v := if Qs =? 0 then v else printStr " | " v in
        print_qual_names Names Qs v
  end.

Definition print_Qualifiers (Qs : Z) (v : DumpVisitor) : DumpVisitor :=
  if Qs =? 0 then printStr "QualNone" v
  else print_qual_names
    [(QualConst, "QualConst"); (QualVolatile, "QualVolatile"); (QualRestrict, "QualRestrict")] Qs v.

(** [visit]: the call of [N->visit]; [None] when it does not return. *)
Definition print_Node (visit : nat -> DumpVisitor -> option DumpVisitor) (N : Node_ptr)
    (v : DumpVisitor) : option DumpVisitor :=
  match N with
  | Some n => visit n v
  | None => Some (printStr "<null>" v)
  end.

(** The templates below are instances at a value [V], given by whether it wants a
    new line and by its [print]. *)
Definition printWithPendingNewline (wants : bool) (print : DumpVisitor -> option DumpVisitor)
    (v : DumpVisitor) : option DumpVisitor :=
  v ← print v;
  Some (if wants then set_pending true v else v).

Definition printWithComma (wants : bool) (print : DumpVisitor -> option DumpVisitor)
    (v : DumpVisitor) : option DumpVisitor :=
  let v := if PendingNewline v || wants then newLine (printStr "," v) else printStr ", " v in
  printWithPendingNewline wants print v.

Fixpoint print_elements (visit : nat -> DumpVisitor -> option DumpVisitor) (First : bool)
    (A : list Node_ptr) (v : DumpVisitor) : option DumpVisitor :=
  match A with
  | [] => Some v
  | N :: A =>
      v ← (if First then print_Node visit N v
           else printWithComma (wantsNewline (FNode N)) (print_Node visit N) v);
      print_elements visit false A v
  end.

Definition print_NodeArray (visit : nat -> DumpVisitor -> option DumpVisitor)
    (A : list Node_ptr) (v : DumpVisitor) : option DumpVisitor :=
  let v := set_depth (u32 (Depth v + 1)) v in
  let v := printStr "{" v in
  v ← print_elements visit true A v;
  let v := printStr "}" v in
  Some (set_depth (u32 (Depth v - 1)) v).

Definition print_StringView (SV : string) (v : DumpVisitor) : DumpVisitor :=
  printStr (String "034" (SV +:+ String "034" EmptyString)) v.

Definition print (visit : nat -> DumpVisitor -> option DumpVisitor) (V : node_field)
    (v : DumpVisitor) : option DumpVisitor :=
  match V with
  | FStringView SV => Some (print_StringView SV v)
  | FNode N => print_Node visit N v
  | FNodeOrString (NOS_Node N) => print_Node visit N v
  | FNodeOrString (NOS_String SV) => Some (print_StringView SV v)
  | FNodeOrString NOS_Empty => Some (printStr "NodeOrString()" v)
  | FNodeArray A => print_NodeArray visit A v
  | FBool B => Some (printStr (if B then "true" else "false") v)
  | FUnsigned N => Some (printStr (pretty (u64 N)) v)
  | FSigned N => Some (printStr (pretty (i64 N)) v)
  | FReferenceKind RK => Some (printStr (ReferenceKind_name RK) v)
  | FFunctionRefQual RQ => Some (printStr (FunctionRefQual_name RQ) v)
  | FQualifiers Qs => Some (print_Qualifiers Qs v)
  | FSpecialSubKind SSK => Some (printStr (SpecialSubKind_name SSK) v)
  end.

Fixpoint print_rest (visit : nat -> DumpVisitor -> option DumpVisitor) (Vs : list node_field)
    (v : DumpVisitor) : option DumpVisitor :=
  match Vs with
  | [] => Some v
  | V :: Vs =>
      v ← printWithComma (wantsNewline V) (print visit V) v;
      print_rest visit Vs v
  end.

Definition CtorArgPrinter (visit : nat -> DumpVisitor -> option DumpVisitor) (V : node_field)
    (Vs : list node_field) (v : DumpVisitor) : option DumpVisitor :=
  let v := if anyWantNewline (V :: Vs) then newLine v else v in
  v ← printWithPendingNewline (wantsNewline V) (print visit V) v;
  print_rest visit Vs v.

(** The two call operators of the visitor, by the kind of the node: up to the closing
    parenthesis, and the whole. *)
Definition node_body (visit : nat -> DumpVisitor -> option DumpVisitor) (n : nat) (N : node)
    (v : DumpVisitor) : option DumpVisitor :=
  match N with
  | NodeT name V Vs => CtorArgPrinter visit V Vs (printStr (name +:+ "(") v)
  | ForwardTemplateReference Index Ref =>
      let v := printStr "ForwardTemplateReference(" v in
      if bool_decide (Ref <> None /\ n ∉ Printing v) then
        v ← CtorArgPrinter visit (FNode Ref) [] (set_printing ({[n]} ∪ Printing v) v);
        Some (set_printing (Printing v ∖ {[n]}) v)
      else CtorArgPrinter visit Index [] v
  end.

Definition visit_node (visit : nat -> DumpVisitor -> option DumpVisitor) (n : nat) (N : node)
    (v : DumpVisitor) : option DumpVisitor :=
  let v := set_depth (u32 (Depth v + 2)) v in
  v ← node_body visit n N v;
  let v := printStr ")" v in
  Some (set_depth (u32 (Depth v - 2)) v).

(** [None]: the fuel is spent, or an address holds no node. *)
Fixpoint visit (heap : gmap nat node) (fuel : nat) (n : nat) (v : DumpVisitor) : option DumpVisitor :=
  match fuel with
  | O => None
  | S fuel => N ← heap !! n; visit_node (visit heap fuel) n N v
  end.

Definition DumpVisitor_new (flags : gset nat) : DumpVisitor :=
  {| Depth := 0; PendingNewline := false; Printing := flags; err := "" |}.

(** [Node::dump]; [flags]: the nodes whose Printing is set before. *)
Definition dump (heap : gmap nat node) (fuel : nat) (flags : gset nat) (n : nat) : option DumpVisitor :=
  v ← visit heap fuel n (DumpVisitor_new flags);
  Some (newLine v).

End visitor.

(** ** __cxa_demangle *)

(** The parts of the header the entry point uses: the parser, the printer of a tree
    and the output stream over a growing buffer.  A [buffer] is the memory a [char *]
    points to. *)
Class ItaniumDemangle := {
  AST : Type;
  OutputStream : Type;
  buffer : Type;
  parse : string -> option AST;
  ForwardTemplateRefs_empty : string -> bool;   (* after [parse] of that name *)
  initializeOutputStream : option buffer -> option Z -> Z -> option OutputStream;
  AST_print : AST -> OutputStream -> OutputStream;
  append_char : ascii -> OutputStream -> OutputStream;
  getCurrentPosition : OutputStream -> Z;
  getBuffer : OutputStream -> buffer
}.

Definition demangle_invalid_args : Z := -3.
Definition demangle_invalid_mangled_name : Z := -2.
Definition demangle_memory_alloc_failure : Z := -1.
Definition demangle_success : Z := 0.

(** What the caller finds: the result and, where it passed the pointers, [*N] and
    [*Status]. *)
Record demangle_result `{!ItaniumDemangle} := {
  ret : option buffer;
  N_out : option Z;
  Status_out : option Z
}.

(** [N] is [*N] if the pointer is not null; [Status]: whether it is not null.  [NDEBUG]:
    the build has no assertions.  [None]: the assertion fails, the process aborts. *)
Definition __cxa_demangle `{!ItaniumDemangle} (NDEBUG : bool) (MangledName : option string)
    (Buf : option buffer) (N : option Z) (Status : bool) : option demangle_result :=
  let set_status (st : Z) := if Status then Some st else None in
  let invalid := {| ret := None; N_out := N; Status_out := set_status demangle_invalid_args |} in
  match MangledName with
  | None => Some invalid
  | Some name =>
      if bool_decide (Buf <> None /\ N = None) then Some invalid
      else
        '(InternalStatus, Buf, N) ←
          match parse name with
          | None => Some (demangle_invalid_mangled_name, Buf, N)
          | Some ast =>
              match initializeOutputStream Buf N 1024 with
              | None => Some (demangle_memory_alloc_failure, Buf, N)
              | Some os =>
                  if NDEBUG || ForwardTemplateRefs_empty name then
                    let os := append_char "000" (AST_print ast os) in
                    Some (demangle_success, Some (getBuffer os), (fun _ => getCurrentPosition os) <$> N)
                  else None
              end
          end;
        Some {| ret := if InternalStatus =? demangle_success then Buf else None;
                N_out := N; Status_out := set_status InternalStatus |}
  end.

(** ** Specification *)

(** The decimal number [n], written without superfluous zeros. *)
Definition digit_number (c : ascii) : Z := Z.of_nat (Ascii.nat_of_ascii c) - 48.

Fixpoint value_from (n : Z) (ds : list ascii) : Z :=
  match ds with [] => n | c :: ds => value_from (10 * n + digit_number c) ds end.

Definition digits (ds : list ascii) : Prop := Forall (fun c => isdigit c = true) ds.

Definition decimal (ds : list ascii) (n : Z) : Prop :=
  digits ds /\ ds <> [] /\ (ds = ["0"%char] \/ head ds <> Some "0"%char) /\ value_from 0 ds = n.

#[export] Instance decimal_dec ds n : Decision (decimal ds n).
Proof. unfold decimal, digits. apply _. Defined.

(** The grammar in the comment of the source: the discriminators at the front of a text
    that is [p] followed by [rest]. *)
Inductive discriminator : list ascii -> list ascii -> Prop :=
  | disc_small ds n rest : decimal ds n -> n < 10 -> discriminator ("_"%char :: ds) rest
  | disc_large ds n rest : decimal ds n -> 10 <= n ->
      discriminator ("_"%char :: "_"%char :: ds ++ ["_"%char]) rest
  | disc_extension ds : digits ds -> ds <> [] -> discriminator ds [].

(** What the code accepts on top of it: digits in the place of the larger number that are
    not one (none, one, or with a zero in front). *)
Definition lenient (p : list ascii) : Prop :=
  exists ds, p = "_"%char :: "_"%char :: ds ++ ["_"%char] /\ digits ds /\
    forall n, decimal ds n -> n < 10.

Definition node_ptrs (V : node_field) : list Node_ptr :=
  match V with
  | FNode N | FNodeOrString (NOS_Node N) => [N]
  | FNodeArray A => A
  | _ => []
  end.

(** The nodes a field points to. *)
Definition field_children (V : node_field) : list nat := omap id (node_ptrs V).

(** A tree as the parser builds it: no dangling pointers, and without the forward
    references no cycles (the nodes of a field have a smaller [rank]); a forward
    reference may refer to any node, an enclosing one too. *)
Record tree_ok (heap : gmap nat node) (rank : nat -> nat) (R : nat) : Prop := {
  to_rank : forall n, is_Some (heap !! n) -> (rank n <= R)%nat;
  to_fields : forall n name V Vs, heap !! n = Some (NodeT name V Vs) ->
    forall W c, W ∈ V :: Vs -> c ∈ field_children W -> is_Some (heap !! c) /\ (rank c < rank n)%nat;
  to_forward : forall n Index Ref, heap !! n = Some (ForwardTemplateReference Index Ref) ->
    node_ptrs Index = [] /\ forall r, Ref = Some r -> is_Some (heap !! r)
}.

Definition is_forward (N : node) : bool :=
  match N with ForwardTemplateReference _ _ => true | _ => false end.

Definition forwards (heap : gmap nat node) : gset nat :=
  dom (filter (fun '(_, N) => is_forward N = true) heap).

(** Calls that can be pending at once: between two forward references being expanded
    the rank goes down. *)
Definition dump_fuel (heap : gmap nat node) (flags : gset nat) (R : nat) : nat :=
  S (size (forwards heap ∖ flags) * S R + R).

(** What the entry point reports. *)
Inductive demangle_outcome :=
  | InvalidArgs | InvalidName | OutOfMemory | Demangled (text : string)
  | UnresolvedReferences.      (* the assertion of a debug build *)

(** [None]: there is no result. *)
Definition outcome_status (o : demangle_outcome) : option Z :=
  match o with
  | InvalidArgs => Some demangle_invalid_args
  | InvalidName => Some demangle_invalid_mangled_name
  | OutOfMemory => Some demangle_memory_alloc_failure
  | Demangled _ => Some demangle_success
  | UnresolvedReferences => None
  end.

(** The documented behaviour of the stream: it is empty after its initialization,
    printing and appending add at the end, the position counts what was written, and
    the buffer holds it. *)
Class ItaniumDemangleLaws `{!ItaniumDemangle} := {
  written : OutputStream -> string;
  contents : buffer -> string;
  text_of : AST -> string;
  init_written b n sz os : initializeOutputStream b n sz = Some os -> written os = ""%string;
  print_written ast os : written (AST_print ast os) = (written os +:+ text_of ast)%string;
  append_written c os : written (append_char c os) = (written os +:+ String c EmptyString)%string;
  position_written os : getCurrentPosition os = Z.of_nat (String.length (written os));
  buffer_written os : contents (getBuffer os) = written os
}.

Definition outcome `{!ItaniumDemangle, !ItaniumDemangleLaws} (NDEBUG : bool) (MangledName : option string)
    (Buf : option buffer) (N : option Z) : demangle_outcome :=
  match MangledName, Buf, N with
  | None, _, _ => InvalidArgs
  | Some _, Some _, None => InvalidArgs
  | Some name, _, _ =>
      match parse name with
      | None => InvalidName
      | Some ast =>
          match initializeOutputStream Buf N 1024 with
          | Some _ => if NDEBUG || ForwardTemplateRefs_empty name then Demangled (text_of ast) else UnresolvedReferences
          | None => OutOfMemory
          end
      end
  end.

(** ** Lemmas *)

(** *** Discriminators *)

Lemma isdigit_not_underscore : isdigit "_" = false.
Proof. reflexivity. Qed.

Lemma skip_digits_split t : exists ds, t = ds ++ skip_digits t /\ Forall (fun c => isdigit c = true) ds /\
  match skip_digits t with c :: _ => isdigit c = false | [] => True end.
Proof.
  induction t as [|c t IH]; [by exists []|]. simpl. destruct (isdigit c) eqn:E; [|by exists []; rewrite E].
  destruct IH as (ds & Ht & Hds & Hh). exists (c :: ds). split; [simpl; congruence|]. split; [by constructor|done].
Qed.

Lemma skip_digits_app ds t : Forall (fun c => isdigit c = true) ds ->
  skip_digits (ds ++ t) = skip_digits t.
Proof. induction 1 as [|d ds Hd _ IH]; [done|]. simpl. by rewrite Hd. Qed.

Lemma digit_value_range c : isdigit c = true -> 0 <= digit_number c <= 9.
Proof.
  unfold isdigit, digit_number. change (Ascii.nat_of_ascii "0") with 48%nat.
  change (Ascii.nat_of_ascii "9") with 57%nat. intros [?%Nat.leb_le ?%Nat.leb_le]%andb_prop. lia.
Qed.

Lemma digit_value_zero c : isdigit c = true -> digit_number c = 0 -> c = "0"%char.
Proof.
  unfold digit_number. intros _ Hc. rewrite <- (Ascii.ascii_nat_embedding c), <- (Ascii.ascii_nat_embedding "0").
  f_equal. change (Ascii.nat_of_ascii "0") with 48%nat. lia.
Qed.

Lemma value_from_ge n ds : digits ds -> 0 <= n -> n <= value_from n ds.
Proof.
  intros Hds. revert n. induction Hds as [|d ds Hd _ IH]; intros n Hn; simpl; [lia|].
  pose proof (digit_value_range d Hd). specialize (IH (10 * n + digit_number d)). lia.
Qed.

(** The numbers below 10 are the single digits. *)
Lemma decimal_small ds n : decimal ds n -> n < 10 -> exists d, ds = [d] /\ isdigit d = true.
Proof.
  intros (Hds & Hne & Hz & <-) Hn. destruct ds as [|d [|e ds]]; [done|exists d; by inversion Hds|].
  exfalso. inversion_clear Hds as [|? ? Hd Hds']. inversion_clear Hds' as [|? ? He Hds].
  destruct Hz as [?|Hz]; [done|]. cbn [value_from] in Hn.
  pose proof (digit_value_range d Hd). pose proof (digit_value_range e He).
  assert (digit_number d <> 0) by (intros Hd0; apply Hz; simpl; by rewrite (digit_value_zero d Hd Hd0)).
  pose proof (value_from_ge (10 * (10 * 0 + digit_number d) + digit_number e) ds Hds). lia.
Qed.

Lemma decimal_digit d : isdigit d = true -> decimal [d] (digit_number d) /\ digit_number d < 10.
Proof.
  intros Hd. pose proof (digit_value_range d Hd). split; [|lia]. split_and!; [by constructor|done| |cbn; lia].
  destruct (decide (d = "0"%char)) as [->|]; [by left|right; by intros [= ->]].
Qed.

(** A discriminator at the front is what the parser consumes. *)
Lemma underscored_parsed ds rest : digits ds ->
  parse_discriminator (("_"%char :: "_"%char :: ds ++ ["_"%char]) ++ rest) = rest.
Proof.
  intros Hds. cbn [app parse_discriminator]. rewrite bool_decide_true, isdigit_not_underscore by done.
  rewrite <- app_assoc, skip_digits_app by done. by cbn.
Qed.

Lemma discriminator_parsed p rest :
  discriminator p rest \/ lenient p -> parse_discriminator (p ++ rest) = rest.
Proof.
  intros [[ds n rest' Hd Hn|ds n rest' Hd Hn|ds Hd Hne]|(ds & -> & Hd & _)].
  - destruct (decimal_small ds n Hd Hn) as (d & -> & Hdd). cbn. by rewrite Hdd.
  - apply underscored_parsed, Hd.
  - destruct ds as [|d ds]; [done|]. inversion_clear Hd as [|? ? Hdd Hds]. cbn [app parse_discriminator].
    rewrite bool_decide_false by (intros ->; done). rewrite Hdd, skip_digits_app by done. done.
  - by apply underscored_parsed.
Qed.

Lemma parse_discriminator_cases s :
  (exists p, s = p ++ parse_discriminator s /\
     (discriminator p (parse_discriminator s) \/ lenient p)) \/
  parse_discriminator s = s.
Proof.
  destruct s as [|c t1]; [by right|]. simpl. case_bool_decide as Ec.
  - subst c. destruct t1 as [|d t2]; [by right|]. destruct (isdigit d) eqn:Ed.
    + left. exists ["_"%char; d]. split; [done|]. left. by eapply (disc_small [d]); apply decimal_digit.
    + case_bool_decide as E2; [|by right]. subst d.
      destruct (skip_digits_split t2) as (ds & Ht & Hds & _).
      destruct (skip_digits t2) as [|e t3]; [by right|]. case_bool_decide; [|by right]. subst e.
      left. exists ("_"%char :: "_"%char :: ds ++ ["_"%char]).
      split; [rewrite Ht; simpl; by rewrite <- app_assoc|].
      destruct (decide (decimal ds (value_from 0 ds) /\ 10 <= value_from 0 ds)) as [[H1 H2]|Hn];
        [left; by eapply disc_large|]. right. exists ds. split_and!; [done..|].
      intros n Hd. pose proof Hd as (_ & _ & _ & <-). destruct (decide (10 <= value_from 0 ds)); [tauto|lia].
  - destruct (isdigit c) eqn:Ed; [|by right]. destruct (skip_digits_split t1) as (ds & Ht & Hds & _).
    destruct (skip_digits t1); [|by right]. left. exists (c :: ds).
    rewrite !app_nil_r in *. subst t1. split; [done|]. left. by apply disc_extension; [constructor|].
Qed.

Lemma discriminator_nonempty p rest : discriminator p rest \/ lenient p -> p <> [].
Proof. intros [[]|(ds & -> & _)]; done. Qed.

(** *** Dump *)

Section dump.
Context `{!QualifierBits}.

(** Writing text changes neither the depth nor the flags. *)
Definition keeps (f : DumpVisitor -> DumpVisitor) : Prop :=
  forall v, Depth (f v) = Depth v /\ Printing (f v) = Printing v.

(** With the flags [P] set the call returns, with the depth and the flags it found. *)
Definition restores (P : gset nat) (act : DumpVisitor -> option DumpVisitor) : Prop :=
  forall v, Printing v = P -> 0 <= Depth v < 2 ^ 32 ->
    exists v', act v = Some v' /\ Depth v' = Depth v /\ Printing v' = P.

Lemma keeps_printStr t : keeps (printStr t).
Proof. done. Qed.

Lemma keeps_pending b : keeps (set_pending b).
Proof. done. Qed.

Lemma keeps_comp f g : keeps f -> keeps g -> keeps (fun v => g (f v)).
Proof. intros Hf Hg v. destruct (Hf v) as [<- <-]. apply Hg. Qed.

Lemma keeps_iter k f : keeps f -> keeps (Nat.iter k f).
Proof.
  intros Hf. induction k as [|k IH]; [done|]. intros v. exact (keeps_comp _ _ IH Hf v).
Qed.

Lemma keeps_newLine : keeps newLine.
Proof.
  intros v. unfold newLine.
  exact (keeps_comp _ _ (keeps_iter _ _ (keeps_printStr " ")) (keeps_pending false) (printStr _ v)).
Qed.

Lemma keeps_qual_names Names Qs : keeps (print_qual_names Names Qs).
Proof.
  revert Qs. induction Names as [|[Q Name] Names IH]; intros Qs v; [done|]. simpl. case_match; [apply IH|].
  case_match; (edestruct IH as [-> ->]; done).
Qed.

Lemma keeps_Qualifiers Qs : keeps (print_Qualifiers Qs).
Proof. intros v. unfold print_Qualifiers. case_match; [done|apply keeps_qual_names]. Qed.

Lemma restores_Some P f : keeps f -> restores P (fun v => Some (f v)).
Proof. intros Hf v <- _. destruct (Hf v) as [Hd Hp]. eauto. Qed.

Lemma restores_after P f act : keeps f -> restores P act -> restores P (fun v => act (f v)).
Proof.
  intros Hf Ha v HP HD. destruct (Hf v) as [Hd Hp].
  destruct (Ha (f v)) as (v' & E & Hd' & Hp'); [congruence|lia|]. exists v'. split; [done|]. split; [lia|done].
Qed.

Lemma restores_bind P act1 act2 :
  restores P act1 -> restores P act2 -> restores P (fun v => v ← act1 v; act2 v).
Proof.
  intros H1 H2 v HP HD. destruct (H1 v HP HD) as (v1 & E1 & Hd1 & Hp1).
  destruct (H2 v1 Hp1) as (v2 & E2 & Hd2 & Hp2); [lia|].
  exists v2. cbn. rewrite E1. split; [done|]. split; [lia|done].
Qed.

(** Going [k] deeper and back, the depth being a 32-bit number. *)
Lemma restores_deeper P k act : restores P act ->
  restores P (fun v => v ← act (set_depth (u32 (Depth v + k)) v); Some (set_depth (u32 (Depth v - k)) v)).
Proof.
  intros Ha v HP HD.
  destruct (Ha (set_depth (u32 (Depth v + k)) v) HP (wrap_u_range 32 ltac:(lia) _))
    as (v' & E & Hd & Hp).
  rewrite E. eexists. split; [reflexivity|]. cbn in *. split; [|done]. rewrite Hd.
  unfold wrap_u. rewrite Zminus_mod_idemp_l, Z.add_simpl_r. by apply Z.mod_small.
Qed.

Section fields.
Context (P : gset nat) (visit : nat -> DumpVisitor -> option DumpVisitor).

Lemma restores_Node N : (forall n, N = Some n -> restores P (visit n)) -> restores P (print_Node visit N).
Proof. intros HN. destruct N as [n|]; [by apply HN|]. apply restores_Some, keeps_printStr. Qed.

Lemma restores_pending wants pr : restores P pr -> restores P (printWithPendingNewline wants pr).
Proof.
  intros Hp. apply restores_bind; [done|]. apply restores_Some. by destruct wants.
Qed.

Lemma restores_comma wants pr : restores P pr -> restores P (printWithComma wants pr).
Proof.
  intros Hp. apply (restores_after P (fun v => if PendingNewline v || wants then _ else _));
    [|by apply restores_pending].
  intros v. case_match; [|done]. exact (keeps_comp _ _ (keeps_printStr ",") keeps_newLine v).
Qed.

Lemma restores_elements First A :
  (forall n, Some n ∈ A -> restores P (visit n)) -> restores P (print_elements visit First A).
Proof.
  revert First. induction A as [|N A IH]; intros First HA; [by apply (restores_Some P id)|].
  assert (restores P (print_Node visit N)) as HN by (apply restores_Node; intros n ->; apply HA; left).
  apply restores_bind; [destruct First; [done|by apply restores_comma]|].
  apply IH. intros n Hn. apply HA. by right.
Qed.

Lemma restores_NodeArray A :
  (forall n, Some n ∈ A -> restores P (visit n)) -> restores P (print_NodeArray visit A).
Proof.
  intros HA. apply (restores_elements true) in HA. 
  assert (restores P (fun v => v ← print_elements visit true A (printStr "{" v); Some (printStr "}" v))) as H1.
  { apply (restores_bind P (fun v => print_elements visit true A (printStr "{" v))).
    - by apply restores_after.
    - by apply restores_Some. }
  intros v HP HD. destruct (restores_deeper P 1 _ H1 v HP HD) as (v' & E & ?). exists v'. split; [|done].
  unfold print_NodeArray. cbn in *. by destruct (print_elements _ _ _ _).
Qed.

Lemma restores_print V :
  (forall n, n ∈ field_children V -> restores P (visit n)) -> restores P (print visit V).
Proof.
  intros HV. assert (forall n, Some n ∈ node_ptrs V -> restores P (visit n)) as HV'.
  { intros n Hn. apply HV. apply list_elem_of_omap. by exists (Some n). }
  destruct V as [| |[]| | | | | | | |]; try (apply restores_Some, keeps_printStr).
  - apply restores_Node. intros n ->. apply HV'. left.
  - apply restores_Node. intros n ->. apply HV'. left.
  - by apply restores_NodeArray.
  - apply restores_Some, keeps_Qualifiers.
Qed.

Lemma restores_args V Vs :
  (forall W n, W ∈ V :: Vs -> n ∈ field_children W -> restores P (visit n)) ->
  restores P (CtorArgPrinter visit V Vs).
Proof.
  intros HV. apply (restores_after P (fun v => if anyWantNewline (V :: Vs) then newLine v else v)
    (fun v => v ← printWithPendingNewline (wantsNewline V) (print visit V) v; print_rest visit Vs v)).
  { intros v. case_match; [apply keeps_newLine|done]. }
  apply restores_bind.
  { apply restores_pending, restores_print. intros n Hn. apply (HV V); [left|done]. }
  assert (forall W n, W ∈ Vs -> n ∈ field_children W -> restores P (visit n)) as HVs.
  { intros W n HW. apply HV. by right. }
  clear HV. induction Vs as [|W Vs IH]; [by apply (restores_Some P id)|]. apply restores_bind.
  - apply restores_comma, restores_print. intros n Hn. apply (HVs W); [left|done].
  - apply IH. intros W' n HW'. apply HVs. by right.
Qed.

End fields.

Lemma restores_visit_node P visit n N :
  restores P (node_body visit n N) -> restores P (visit_node visit n N).
Proof.
  intros Hb. assert (restores P (fun v => v ← node_body visit n N v; Some (printStr ")" v))) as H1.
  { apply restores_bind; [done|]. apply restores_Some, keeps_printStr. }
  intros v HP HD. destruct (restores_deeper P 2 _ H1 v HP HD) as (v' & E & ?). exists v'. split; [|done].
  rewrite <- E. unfold visit_node. cbn. by destruct (node_body _ _ _ _).
Qed.

Lemma restores_forward P visit n Index Ref :
  node_ptrs Index = [] ->
  (forall r, Ref = Some r -> n ∉ P -> restores ({[n]} ∪ P) (visit r)) ->
  restores P (node_body visit n (ForwardTemplateReference Index Ref)).
Proof.
  intros HI HR v HP HD. unfold node_body. cbv zeta.
  change (Printing (printStr _ v)) with (Printing v). rewrite HP. case_bool_decide as E.
  - destruct E as [Hn HnP]. destruct Ref as [r|]; [|done].
    destruct (restores_args ({[n]} ∪ P) visit (FNode (Some r)) []) with
      (v := set_printing ({[n]} ∪ P) (printStr "ForwardTemplateReference(" v)) as (v' & E & Hd & Hp); [|done|done|].
    { intros W m ->%list_elem_of_singleton ->%list_elem_of_singleton. by apply HR. }
    rewrite E. eexists. split; [reflexivity|]. cbn. rewrite Hp. split; [done|].
    set_solver.
  - refine (restores_args P visit Index [] _ (printStr _ v) HP HD).
    intros W m ->%list_elem_of_singleton Hm. unfold field_children in Hm. rewrite HI in Hm.
    by apply elem_of_nil in Hm.
Qed.

(** *** More fuel does not change the result *)

Definition extends (act1 act2 : DumpVisitor -> option DumpVisitor) : Prop :=
  forall v v', act1 v = Some v' -> act2 v = Some v'.

Lemma extends_refl act : extends act act.
Proof. by intros v. Qed.

Section mono.
Context (visit1 visit2 : nat -> DumpVisitor -> option DumpVisitor).
Context (Hvisit : forall n, extends (visit1 n) (visit2 n)).

Lemma extends_Node N : extends (print_Node visit1 N) (print_Node visit2 N).
Proof. destruct N as [n|]; [apply Hvisit|apply extends_refl]. Qed.

Lemma extends_pending wants pr1 pr2 : extends pr1 pr2 ->
  extends (printWithPendingNewline wants pr1) (printWithPendingNewline wants pr2).
Proof.
  intros Hp v v' H1. unfold printWithPendingNewline in *. destruct (pr1 v) eqn:E; [|done].
  by rewrite (Hp _ _ E).
Qed.

Lemma extends_elements First A : extends (print_elements visit1 First A) (print_elements visit2 First A).
Proof.
  revert First. induction A as [|N A IH]; intros First v v' H1; [done|]. cbn in *.
  destruct First.
  - destruct (print_Node visit1 N v) eqn:E; [|done]. rewrite (extends_Node _ _ _ E). by apply IH.
  - unfold printWithComma in *. destruct (printWithPendingNewline _ _ _) eqn:E in H1; [|done].
    rewrite (extends_pending _ _ _ (extends_Node N) _ _ E). by apply IH.
Qed.

Lemma extends_print V : extends (print visit1 V) (print visit2 V).
Proof.
  destruct V as [| |[]| | | | | | | |]; try apply extends_refl; try apply extends_Node.
  intros v v' H1. unfold print, print_NodeArray in *. destruct (print_elements _ _ _ _) eqn:E in H1; [|done].
  by rewrite (extends_elements _ _ _ _ E).
Qed.

Lemma extends_args V Vs : extends (CtorArgPrinter visit1 V Vs) (CtorArgPrinter visit2 V Vs).
Proof.
  intros v v' H1. unfold CtorArgPrinter in *. destruct (printWithPendingNewline _ _ _) eqn:E in H1; [|done].
  rewrite (extends_pending _ _ _ (extends_print V) _ _ E). clear E. simpl in *. revert d H1.
  induction Vs as [|W Vs IH]; intros d H1; [done|]. cbn in *. unfold printWithComma in *.
  destruct (printWithPendingNewline _ _ _) eqn:E in H1; [|done].
  rewrite (extends_pending _ _ _ (extends_print W) _ _ E). by apply IH.
Qed.

Lemma extends_visit_node n N : extends (visit_node visit1 n N) (visit_node visit2 n N).
Proof.
  intros v v' H1. unfold visit_node, node_body in *. destruct N as [name V Vs|Index Ref]; simpl in *.
  - destruct (CtorArgPrinter _ _ _ _) eqn:E in H1; [|done]. by rewrite (extends_args _ _ _ _ E).
  - case_bool_decide; (destruct (CtorArgPrinter _ _ _ _) eqn:E in H1; [|done]);
      by rewrite (extends_args _ _ _ _ E).
Qed.

End mono.

Lemma visit_mono heap fuel1 fuel2 n : (fuel1 <= fuel2)%nat ->
  extends (visit heap fuel1 n) (visit heap fuel2 n).
Proof.
  revert fuel2 n. induction fuel1 as [|fuel1 IH]; intros fuel2 n Hf v v' H1; [done|].
  destruct fuel2 as [|fuel2]; [lia|]. cbn in *. destruct (heap !! n) as [N|]; [|done]. cbn in *.
  eapply extends_visit_node, H1. intros m. apply IH. lia.
Qed.

(** Expanding a forward reference leaves one less to expand. *)
Lemma forwards_decrease heap P n Index Ref :
  heap !! n = Some (ForwardTemplateReference Index Ref) -> n ∉ P ->
  (S (size (forwards heap ∖ ({[n]} ∪ P))) <= size (forwards heap ∖ P))%nat.
Proof.
  intros Hn HP. assert (n ∈ forwards heap).
  { apply elem_of_dom. exists (ForwardTemplateReference Index Ref). by apply map_lookup_filter_Some. }
  change (S ?k) with (1 + k)%nat. rewrite <- (size_singleton (C := gset nat) n).
  rewrite <- size_union by set_solver. apply subseteq_size. set_solver.
Qed.

Lemma visit_restores heap rank R : tree_ok heap rank R -> forall fuel P n,
  is_Some (heap !! n) -> (size (forwards heap ∖ P) * S R + rank n < fuel)%nat ->
  restores P (visit heap fuel n).
Proof.
  intros [Hr Hc Hf]. induction fuel as [|fuel IH]; intros P n [N HN] Hfuel; [lia|].
  assert (restores P (visit_node (visit heap fuel) n N)) as Hv; [|intros v; cbn; rewrite HN; apply Hv].
  apply restores_visit_node. destruct N as [name V Vs|Index Ref].
  - apply (restores_after P (printStr _)); [apply keeps_printStr|]. apply restores_args.
    intros W c HW Hin. destruct (Hc _ _ _ _ HN W c HW Hin) as [Hs Hlt]. apply IH; [done|lia].
  - destruct (Hf _ _ _ HN) as [HI HR]. apply restores_forward; [done|]. intros r Er HnP.
    pose proof (forwards_decrease _ _ _ _ _ HN HnP). apply IH; [by apply HR|].
    specialize (Hr r (HR r Er)). nia.
Qed.

End dump.

(** *** Entry point *)

Lemma length_snoc_char t c : String.length (t +:+ String c EmptyString) = S (String.length t).
Proof. induction t as [|d t IH]; [done|]. simpl in *. by rewrite IH. Qed.

Lemma append_empty t : ("" +:+ t)%string = t.
Proof. done. Qed.

(** ** Properties *)

(** C37: with the grammar of the source's comment (an underscore and a number below 10,
    a number of 10 or more between two underscores and one, or digits up to the end of the
    text), parse_discriminator consumes the discriminator a text starts with; beyond the
    grammar it consumes, between two underscores and one, digits that are not a number
    of 10 or more (none, a single one, or with a zero in front); otherwise it consumes
    nothing.  No text starts with two of these. *)
Theorem discriminator_equivalent s rest :
  parse_discriminator s = rest <->
  (exists p, s = p ++ rest /\ discriminator p rest) \/
  (exists p, s = p ++ rest /\ lenient p) \/
  (rest = s /\ forall p r, s = p ++ r -> ~ discriminator p r /\ ~ lenient p).
Proof.
  split.
  - intros <-. destruct (parse_discriminator_cases s) as [(p & Hs & [H|H])|E]; [left|right; left|right; right];
      [by exists p..|]. split; [done|].
    assert (forall p r, s = p ++ r -> ~ (discriminator p r \/ lenient p)) as Hn by
      (intros p r -> Hd; pose proof (discriminator_nonempty p r Hd); rewrite (discriminator_parsed p r Hd) in E;
       apply (f_equal length) in E; rewrite length_app in E; destruct p; [done|simpl in E; lia]).
    intros p r Hs. specialize (Hn p r Hs). tauto.
  - intros [(p & -> & Hd)|[(p & -> & Hd)|[-> Hn]]]; [by apply discriminator_parsed; auto..|].
    destruct (parse_discriminator_cases s) as [(p & Hs & Hd)|E]; [|done].
    destruct (Hn _ _ Hs). tauto.
Qed.

(** The last two are outside the grammar. *)
Example discriminator_examples :
  parse_discriminator (String.list_ascii_of_string "_5x") = ["x"%char] /\
  parse_discriminator (String.list_ascii_of_string "__12_x") = ["x"%char] /\
  parse_discriminator (String.list_ascii_of_string "__12") = String.list_ascii_of_string "__12" /\
  parse_discriminator (String.list_ascii_of_string "12") = [] /\
  parse_discriminator (String.list_ascii_of_string "___x") = ["x"%char] /\
  parse_discriminator (String.list_ascii_of_string "__5_x") = ["x"%char].
Proof. repeat split. Qed.

(** C36: Dumping a tree ends, although forward references may form cycles: beyond a
    bound on the nested calls (the forward references not being printed, times the
    height without them) the result does not depend on the fuel; the depth is back at
    0 and the Printing flags are as they were, so that a second dump prints the same. *)
Theorem dump_terminates `{!QualifierBits} heap rank R flags n :
  tree_ok heap rank R -> is_Some (heap !! n) ->
  exists v, Depth v = 0 /\ Printing v = flags /\
    forall fuel, (dump_fuel heap flags R <= fuel)%nat -> dump heap fuel flags n = Some v.
Proof.
  intros Hok Hn. pose proof (to_rank _ _ _ Hok n Hn) as Hr.
  destruct (visit_restores heap rank R Hok (dump_fuel heap flags R) flags n Hn ltac:(unfold dump_fuel; lia)
    (DumpVisitor_new flags)) as (v & E & Hd & Hp); [done|cbn; lia|].
  exists (newLine v). destruct (keeps_newLine v) as [-> ->]. split; [done|]. split; [done|].
  intros fuel Hf. unfold dump. by rewrite (visit_mono _ _ _ _ Hf _ _ E).
Qed.

(** A function whose template argument refers back to the function. *)
Definition example_nodes : list (nat * node) :=
  [(0%nat, NodeT "NameType" (FStringView "foo") []);
   (1%nat, ForwardTemplateReference (FUnsigned 3) (Some 2%nat));
   (2%nat, NodeT "FunctionEncoding" (FNode (Some 1%nat))
             [FNode None; FNodeArray [Some 0%nat; Some 1%nat]; FBool true])].

Definition example_heap : gmap nat node := list_to_map example_nodes.

Definition example_bits : QualifierBits :=
  {| QualConst := 1; QualVolatile := 2; QualRestrict := 4 |}.

Lemma example_heap_ok : tree_ok example_heap id 2.
Proof.
  assert (forall n N, example_heap !! n = Some N -> (n, N) ∈ example_nodes) as Hl.
  { intros n N. apply elem_of_list_to_map_2. }
  unfold id. split.
  - intros n [N HN%Hl]. unfold example_nodes in HN. rewrite !elem_of_cons, elem_of_nil in HN.
    naive_solver lia.
  - intros n name V Vs HN%Hl W c HW Hc. unfold example_nodes in HN. rewrite !elem_of_cons, elem_of_nil in HN.
    destruct HN as [?|[?|[?|[]]]]; simplify_eq; rewrite !elem_of_cons, elem_of_nil in HW.
    + destruct HW as [->|[]]. by apply elem_of_nil in Hc.
    + destruct HW as [->|[->|[->|[->|[]]]]]; cbn in Hc; rewrite ?elem_of_cons, ?elem_of_nil in Hc;
        destruct_or? Hc; try done; subst c; (split; [by eexists|lia]).
  - intros n Index Ref HN%Hl. unfold example_nodes in HN. rewrite !elem_of_cons, elem_of_nil in HN.
    destruct HN as [?|[?|[?|[]]]]; simplify_eq. split; [done|]. intros r [= <-]. by eexists.
Qed.

Lemma dump_terminates_witness :
  exists v, Depth v = 0 /\ Printing v = ∅ /\
    forall fuel, (dump_fuel example_heap ∅ 2 <= fuel)%nat -> dump (H := example_bits) example_heap fuel ∅ 2 = Some v.
Proof.
  apply (dump_terminates (H := example_bits) example_heap id 2 ∅ 2%nat).
  - exact example_heap_ok.
  - by eexists.
Defined.

(** C38: __cxa_demangle follows its documented protocol: the status written (when the
    caller asks for it) is that of the outcome; on success the caller gets the
    demangled text with its terminating zero and, through N, its length with the zero;
    on every failure it gets null and N is untouched.  There is no result exactly
    where a debug build finds references the parser has not resolved. *)
Theorem demangle_protocol `{!ItaniumDemangle, !ItaniumDemangleLaws} NDEBUG MangledName Buf N Status :
  let o := outcome NDEBUG MangledName Buf N in
  match __cxa_demangle NDEBUG MangledName Buf N Status with
  | None => outcome_status o = None /\ NDEBUG = false
  | Some r =>
      is_Some (outcome_status o) /\ Status_out r = (if Status then outcome_status o else None) /\
      match o with
      | Demangled text => exists b, ret r = Some b /\ contents b = (text +:+ String "000" EmptyString)%string /\
          N_out r = (fun _ => Z.of_nat (String.length text) + 1) <$> N
      | _ => ret r = None /\ N_out r = N
      end
  end.
Proof.
  unfold __cxa_demangle, outcome. destruct MangledName as [name|]; [|done].
  case_bool_decide as Hb; [destruct Hb as [Hb ->], Buf; done|].
  destruct Buf as [b|], N as [n|]; [|by destruct Hb|..];
    (destruct (parse name) as [ast|]; [|done]);
    (destruct (initializeOutputStream _ _ _) as [os|] eqn:E; [|done]);
    (destruct (NDEBUG || ForwardTemplateRefs_empty name) eqn:Ea;
      [|cbn; split; [done|by apply orb_false_iff in Ea as [? _]]]);
    (split; [by eexists|]); (split; [done|]); (eexists; split; [reflexivity|]);
    cbn [N_out]; rewrite buffer_written, ?position_written, append_written, print_written,
      (init_written _ _ _ _ E), append_empty, ?length_snoc_char; (split; [done|]); cbn; f_equal; lia.
Qed.

(** A parser that knows one name, and a stream over a string. *)
Definition example_demangler : ItaniumDemangle := {|
  AST := string;
  OutputStream := string;
  buffer := string;
  parse := fun name => if decide (name = "_Z3foov"%string) then Some "foo()"%string else None;
  ForwardTemplateRefs_empty := fun _ => true;
  initializeOutputStream := fun _ _ _ => Some ""%string;
  AST_print := fun ast os => (os +:+ ast)%string;
  append_char := fun c os => (os +:+ String c EmptyString)%string;
  getCurrentPosition := fun os => Z.of_nat (String.length os);
  getBuffer := fun os => os
|}.

Definition example_laws : ItaniumDemangleLaws (H := example_demangler).
Proof.
  refine (Build_ItaniumDemangleLaws example_demangler (fun os : string => os) (fun b : string => b)
    (fun ast : string => ast) _ _ _ _ _); try done.
  by intros b n sz os [= <-].
Defined.

Lemma demangle_protocol_witness :
  exists r, __cxa_demangle (H := example_demangler) false (Some "_Z3foov"%string) (Some "???"%string) (Some 3) true = Some r /\
    Status_out r = Some demangle_success /\
    exists b, ret r = Some b /\ contents (ItaniumDemangleLaws := example_laws) b = ("foo()" +:+ String "000" EmptyString)%string /\
      N_out r = Some 6.
Proof.
  pose proof (demangle_protocol (H := example_demangler) (H0 := example_laws) false
    (Some "_Z3foov"%string) (Some "???"%string) (Some 3) true) as H. cbv zeta in H.
  destruct (__cxa_demangle false _ _ _ true) as [r|] eqn:E.
  - exists r. split; [reflexivity|]. exact (proj2 H).
  - destruct H as [H _]. discriminate H.
Defined.
