(* ===== verification/Shims.v ===== *)
(** Model of the small shim libraries: the audio parameter shim
    (src/shims/libaudioparams/audioparams.cpp), the looper entry points for the camera
    (src/shims/sensorsndkbridge/ASensorManager.cpp) and the epic operator stub
    (src/shims/libepicoperator/epicoperator.c).

    libcutils' str_parms_get_str and the ALooper class are parameters.  A [char]
    buffer is the text up to its terminator. *)
From S2P Require Import Prelude.
From Stdlib Require Import Ascii.
Local Open Scope Z_scope.

(** ** libaudioparams *)

Definition ENOENT : Z := 2.

(** [strlcpy(val, src, len)]: the length of [src], and the buffer, cut to [len - 1]
    characters and left alone when it has no room; the [int] is passed as a [size_t]. *)
Definition strlcpy (val src : string) (len : Z) : Z * string :=
  let size := u64 len in
  (Z.of_nat (String.length src),
   if size =? 0 then val
   else if Z.of_nat (String.length src) <? size then src
   else String.substring 0 (Z.to_nat size - 1) src).

(** The parameters and [str_parms_get_str(parms, key, val, len)]: the result and the
    buffer after the call. *)
Class StrParms (P : Type) := {
  str_parms_get_str : P -> string -> string -> Z -> Z * string
}.

Definition str_parms_get_mod `{StrParms P} (parms : P) (key val : string) (len : Z) : Z * string :=
  if (key =? "g_sco_samplerate")%string then
    let '(r, wb) := str_parms_get_str parms "bt_wbs" "off" 4 in
    if r =? - ENOENT then (- ENOENT, val)
    else strlcpy val (if (wb =? "on")%string then "16000" else "8000") len
  else str_parms_get_str parms key val len.

(** What the documentation of libcutils promises: a missing key gives -ENOENT, a value
    is copied as far as the buffer has room and its length returned. *)
Class StrParmsLaws (P : Type) `{StrParms P} := {
  parms_lookup : P -> string -> option string;
  get_str_spec parms key val len : 0 < len ->
    str_parms_get_str parms key val len =
      match parms_lookup parms key with
      | None => (- ENOENT, val)
      | Some v => (Z.of_nat (String.length v), String.substring 0 (Z.to_nat len - 1) v)
      end
}.

(** ** The loopers of the camera *)

(** The ALooper objects alive. *)
Record looper_heap := {
  alive : gset nat;
  next_looper : nat
}.

Definition ALooper_forCamera (h : looper_heap) : nat * looper_heap :=
  (next_looper h, {| alive := {[next_looper h]} ∪ alive h; next_looper := S (next_looper h) |}).

(** [None]: a looper is deleted that is not alive. *)
Definition ALooper_release_forCamera (sLooper : option nat) (h : looper_heap) : option (Z * looper_heap) :=
  match sLooper with
  | None => Some (0, h)
  | Some l =>
      if decide (l ∈ alive h) then Some (0, {| alive := alive h ∖ {[l]}; next_looper := next_looper h |})
      else None
  end.

(** [poll]: what ALooper::pollOnce returns and stores through its pointers. *)
Definition ALooper_pollOnce_camera {A} (poll : nat -> Z -> A) (sLooper : option nat) (timeoutMillis : Z)
    (h : looper_heap) : option A :=
  l ← sLooper; if decide (l ∈ alive h) then Some (poll l timeoutMillis) else None.

(** ** libepicoperator *)

Definition createOperator (param_1 : Z) : Z := 0.

(** ** Lemmas *)

(** Three characters decide whether a text is [on]. *)
Lemma substring3_on v : String.substring 0 3 v = "on" <-> v = "on".
Proof.
  split; [|by intros ->]. destruct v as [|c1 [|c2 [|c3 v]]]; cbn; try done.
Qed.

(** The sample rate of a headset: wide band exactly when bt_wbs is on, narrow band
    when it has any other value, unknown when it was never set. *)
Lemma sco_samplerate `{StrParmsLaws P} parms val len : 6 <= len < 2 ^ 31 ->
  str_parms_get_mod parms "g_sco_samplerate" val len =
    match parms_lookup parms "bt_wbs" with
    | None => (- ENOENT, val)
    | Some v => if decide (v = "on") then (5, "16000") else (4, "8000")
    end.
Proof.
  intros Hl. unfold str_parms_get_mod. cbn [String.eqb Ascii.eqb Bool.eqb andb].
  rewrite get_str_spec by lia. destruct (parms_lookup parms "bt_wbs") as [v|]; [|done].
  rewrite (proj2 (Z.eqb_neq _ _)) by (unfold ENOENT; lia). change (Z.to_nat 4 - 1)%nat with 3%nat.
  assert ((String.substring 0 3 v =? "on")%string = bool_decide (v = "on")) as ->.
  { apply Bool.eq_true_iff_eq. by rewrite String.eqb_eq, bool_decide_eq_true, substring3_on. }
  unfold strlcpy. rewrite (wrap_u_id 64) by lia. rewrite (proj2 (Z.eqb_neq len 0)) by lia.
  case_decide; [rewrite bool_decide_true by done|rewrite bool_decide_false by done]; cbn [String.length];
    by rewrite (proj2 (Z.ltb_lt _ _)) by lia.
Qed.

(** Every looper released once: none is left, none is freed twice. *)
Lemma looper_released_once h l h1 : (forall i, i ∈ alive h -> (i < next_looper h)%nat) ->
  ALooper_forCamera h = (l, h1) ->
  (l ∉ alive h) /\ exists h2, ALooper_release_forCamera (Some l) h1 = Some (0, h2) /\ alive h2 = alive h /\
    ALooper_release_forCamera (Some l) h2 = None.
Proof.
  intros Hi [= <- <-]. assert (next_looper h ∉ alive h) as Hn by (intros Hx%Hi; lia). split; [done|].
  unfold ALooper_release_forCamera. rewrite decide_True by (cbn; set_solver).
  eexists. split; [reflexivity|]. cbn. split; [set_solver|]. rewrite decide_False by set_solver. done.
Qed.
